(** * Doc Keeper: the section editor of [tools/doc_mcp.py]

    A shallow embedding of the markdown knowledge-store tools: heading
    outline, section addressing, the dual-lock check, snapshots, the diff
    view, frontmatter and path validation, together with the properties
    the specification states about them.

    Conventions of the embedding.
    - A Python [str] is a [list ascii]; a character is its code point, so
      the development covers the texts whose code points are below 256
      (on that range [str.lower], [str.isspace] and the line boundaries of
      [str.splitlines] are character-wise and are given in full).
    - The clock, the working directory and the file store are explicit
      arguments; a tool maps a store to a store and an outcome.
    - A tool's returned message is an [outcome]: one constructor per
      f-string of the source, carrying the interpolated values.
    - The libraries the module calls are embedded as far as the module
      uses them: [os.path], [shutil.copy2], [os.walk] and [difflib] in
      full, the YAML library as two parameters. *)

From Stdlib Require Import Ascii String DecimalString.
From Stdlib Require DecimalNat.
From stdpp Require Import base option list gmap strings sorting.


(** ** Python strings *)

Abbreviation str := (list ascii).

Definition lit (s : string) : str := list_ascii_of_string s.

Module Py.

Definition code (c : ascii) : N := N_of_ascii c.

Definition LF : ascii := ascii_of_N 10.
Definition CR : ascii := ascii_of_N 13.

(** [str.isspace] on one character, which is also the class [\s] of
    [re] on [str] patterns: U+0009..U+000D, U+001C..U+0020, U+0085,
    U+00A0. *)
Definition isspace (c : ascii) : bool :=
  let n := code c in
  ((9 <=? n) && (n <=? 13) || (28 <=? n) && (n <=? 32)
   || (n =? 133) || (n =? 160))%N.

(** The line boundaries of [str.splitlines]: LF, VT, FF, CR, FS, GS, RS
    and NEL (CR LF counts once, see [splitlines]). *)
Definition islinebreak (c : ascii) : bool :=
  let n := code c in
  ((10 <=? n) && (n <=? 13) || (28 <=? n) && (n <=? 30) || (n =? 133))%N.

(** [str.lower] on one character: A..Z and the Latin-1 capitals
    U+00C0..U+00DE (the multiplication sign U+00D7 apart) move by 32. *)
Definition lower_char (c : ascii) : ascii :=
  let n := code c in
  if ((65 <=? n) && (n <=? 90)
      || (192 <=? n) && (n <=? 222) && negb (n =? 215))%N
  then ascii_of_N (n + 32) else c.

Definition lower (s : str) : str := map lower_char s.

Fixpoint lstrip_by (p : ascii -> bool) (s : str) : str :=
  match s with
  | c :: s' => if p c then lstrip_by p s' else s
  | [] => []
  end.

Definition rstrip_by (p : ascii -> bool) (s : str) : str :=
  rev (lstrip_by p (rev s)).

(** [s.strip()] *)
Definition strip (s : str) : str := rstrip_by isspace (lstrip_by isspace s).

(** [s.lstrip(chars)] *)
Definition lstrip_chars (chars s : str) : str :=
  lstrip_by (fun c => bool_decide (c ∈ chars)) s.

(** [s.startswith(p)] *)
Fixpoint startswith (s p : str) {struct p} : bool :=
  match p, s with
  | [], _ => true
  | a :: p', b :: s' => bool_decide (a = b) && startswith s' p'
  | _ :: _, [] => false
  end.

(** [s.endswith(p)] *)
Definition endswith (s p : str) : bool := startswith (rev s) (rev p).

(** [needle in hay] *)
Fixpoint contains (hay needle : str) : bool :=
  startswith hay needle ||
  match hay with
  | [] => false
  | _ :: hay' => contains hay' needle
  end.

(** [sep.join(parts)] *)
Fixpoint join (sep : str) (parts : list str) : str :=
  match parts with
  | [] => []
  | [p] => p
  | p :: ps => p ++ sep ++ join sep ps
  end.

(** [s.splitlines()]: [cur] holds the characters of the line being read,
    last first.  A line boundary closes the line, also an empty one; the
    end of the text closes only a line that has a character. *)
Fixpoint splitlines_from (cur : str) (s : str) : list str :=
  match s with
  | [] => match cur with [] => [] | _ => [rev cur] end
  | c :: s' =>
      if islinebreak c then
        rev cur ::
          match s' with
          | d :: s'' =>
              if bool_decide (c = CR) && bool_decide (d = LF)
              then splitlines_from [] s''
              else splitlines_from [] s'
          | [] => splitlines_from [] s'
          end
      else splitlines_from (c :: cur) s'
  end.

Definition splitlines (s : str) : list str := splitlines_from [] s.

(** [str(n)] for a natural number *)
Definition str_of_nat (n : nat) : str :=
  lit (NilEmpty.string_of_uint (Nat.to_uint n)).

(** [lines[a:b]] for [0 <= a], [0 <= b] *)
Definition slice {A} (a b : nat) (l : list A) : list A :=
  take (b - a) (drop a l).

(** [s.split(sep, maxsplit)] for a separator that is not empty: [n] cuts
    are left, [skip] characters of the separator found are still to be
    passed, [cur] is the piece read so far, reversed. *)
Fixpoint split_max (sep : str) (n skip : nat) (cur s : str) : list str :=
  match s with
  | [] => [rev cur]
  | c :: s' =>
      match skip with
      | S k => split_max sep n k cur s'
      | 0 =>
          match n with
          | 0 => [rev cur ++ s]
          | S n' =>
              if startswith s sep
              then rev cur :: split_max sep n' (length sep - 1) [] s'
              else split_max sep n 0 (c :: cur) s'
          end
      end
  end.

Definition split (sep : str) (maxsplit : nat) (s : str) : list str :=
  split_max sep maxsplit 0 [] s.

End Py.

(** ** The heading pattern

    [re.match(r'^(#{1,6})\s+(.+)$', s)].  Each greedy quantifier tries its
    longest run first and gives characters back one at a time, as the
    backtracking matcher does; [.] is any character but LF, and [$] holds
    at the end of the text or before a final LF.  The result is
    [(group(1), group(2))]. *)

(** Length of the longest prefix of [s] whose characters satisfy [p]. *)
Fixpoint span (p : ascii -> bool) (s : str) : nat :=
  match s with
  | c :: s' => if p c then S (span p s') else 0
  | [] => 0
  end.

(** The first success of [f n], [f (n-1)], ..., [f 1]. *)
Fixpoint longest_first {A} (n : nat) (f : nat -> option A) : option A :=
  match n with
  | 0 => None
  | S n' => match f n with
            | Some x => Some x
            | None => longest_first n' f
            end
  end.

Definition is_hash (c : ascii) : bool := bool_decide (c = "#"%char).
Definition is_dot (c : ascii) : bool := negb (bool_decide (c = Py.LF)).

Definition at_dollar (s : str) : bool :=
  match s with
  | [] => true
  | [c] => bool_decide (c = Py.LF)
  | _ => false
  end.

Definition re_match_heading (s : str) : option (str * str) :=
  longest_first (span is_hash s `min` 6) (fun k =>
    let s1 := drop k s in
    longest_first (span Py.isspace s1) (fun m =>
      let s2 := drop m s1 in
      longest_first (span is_dot s2) (fun n =>
        if at_dollar (drop n s2) then Some (take k s, take n s2) else None))).

(** ** Outline *)

(** One entry of the list [_get_outline_tree] returns (a dict with the keys
    [id], [title], [level] and [line_start]). *)
Record node := Node {
  node_id : str;
  node_title : str;
  node_level : nat;
  node_line_start : nat
}.

(** [counters[j]] *)
Definition getc (counters : list nat) (j : nat) : nat := default 0 (counters !! j).

(** [for j in range(level + 1, 7): counters[j] = 0] *)
Definition reset_deeper (level : nat) (counters : list nat) : list nat :=
  foldl (fun cs j => <[j := 0]> cs) counters (seq (level + 1) (7 - (level + 1))).

(** [counters[level] += 1] followed by the reset of the deeper levels *)
Definition bump (level : nat) (counters : list nat) : list nat :=
  reset_deeper level (<[level := getc counters level + 1]> counters).

(** [".".join([str(c) for c in counters[1:level+1]])] *)
Definition make_id (level : nat) (counters : list nat) : str :=
  Py.join (lit ".") (map Py.str_of_nat (Py.slice 1 (level + 1) counters)).

(** The body of [for i, line in enumerate(lines)] in [_get_outline_tree];
    [i] is the index of the first line of [lines]. *)
Fixpoint outline_loop (i : nat) (lines : list str) (counters : list nat)
  : list node :=
  match lines with
  | [] => []
  | line :: rest =>
      match re_match_heading (Py.strip line) with
      | Some (g1, g2) =>
          let level := length g1 in
          let title := Py.strip g2 in
          let counters := bump level counters in
          Node (make_id level counters) title level (i + 1)
            :: outline_loop (S i) rest counters
      | None => outline_loop (S i) rest counters
      end
  end.

Definition _get_outline_tree (content : str) : list node :=
  outline_loop 0 (Py.splitlines content) (replicate 7 0).

(** ** Locating a section

    The scan of [update_knowledge_section] (step 4 of the source). *)

Record scan_state := ScanState {
  st_counters : list nat;
  st_target_found : bool;
  st_current_level : nat;
  st_update_start : Z;
  st_update_end : Z
}.

Definition scan_init : scan_state := ScanState (replicate 7 0) false 0 (-1) (-1).

(** How the [for] loop is left: by the [return] of the dual-lock check
    (with the title found), or at its end or [break] with the state. *)
Inductive scan_exit :=
| LockFailed (title : str)
| ScanDone (st : scan_state).

(** [expected_title.lower().strip() not in title.lower().strip()] *)
Definition lock_fails (expected_title title : str) : bool :=
  negb (Py.contains (Py.strip (Py.lower title)) (Py.strip (Py.lower expected_title))).

Fixpoint scan_loop (node_id expected_title : str) (i : nat) (lines : list str)
  (st : scan_state) : scan_exit :=
  match lines with
  | [] => ScanDone st
  | line :: rest =>
      match re_match_heading (Py.strip line) with
      | Some (g1, g2) =>
          let level := length g1 in
          let title := Py.strip g2 in
          if st_target_found st && bool_decide (level <= st_current_level st) then
            (* update_end = i; break *)
            ScanDone (ScanState (st_counters st) true (st_current_level st)
                        (st_update_start st) (Z.of_nat i))
          else
            let counters := bump level (st_counters st) in
            let current_id := make_id level counters in
            if bool_decide (current_id = node_id) then
              if lock_fails expected_title title then LockFailed title
              else
                scan_loop node_id expected_title (S i) rest
                  (ScanState counters true level (Z.of_nat i) (st_update_end st))
            else
              scan_loop node_id expected_title (S i) rest
                (ScanState counters (st_target_found st) (st_current_level st)
                   (st_update_start st) (st_update_end st))
      | None => scan_loop node_id expected_title (S i) rest st
      end
  end.

(** Steps 4 and 5 on the text read from the file: the text to write, or the
    failure. *)
Inductive edit_result :=
| EditLockMismatch (title : str)
| EditSectionNotFound
| EditOk (final_content : str) (update_start update_end : Z) (n_new : nat).

Definition edit_section (content node_id expected_title new_content : str)
  : edit_result :=
  let lines := Py.splitlines content in
  match scan_loop node_id expected_title 0 lines scan_init with
  | LockFailed title => EditLockMismatch title
  | ScanDone st =>
      if negb (st_target_found st) then EditSectionNotFound
      else
        let update_start := st_update_start st in
        let update_end :=
          if bool_decide (st_update_end st = (-1)%Z)
          then Z.of_nat (length lines) else st_update_end st in
        let new_lines := Py.splitlines new_content in
        let final_lines :=
          take (Z.to_nat update_start) lines ++ new_lines
            ++ drop (Z.to_nat update_end) lines in
        let final_content := Py.join [Py.LF] final_lines in
        let final_content :=
          if Py.endswith content [Py.LF] && negb (Py.endswith final_content [Py.LF])
          then final_content ++ [Py.LF] else final_content in
        EditOk final_content update_start update_end (length new_lines)
  end.

(** A text given line by line, each line closed by LF. *)
Definition text (lines : list string) : str :=
  concat (map (fun l => lit l ++ [Py.LF]) lines).

(** ** os.path

    [posixpath], on [str]. *)

Module OsPath.

Definition sep : ascii := "/"%char.

(** [s.split(c)] for a separator of one character *)
Fixpoint split_from (c : ascii) (cur : str) (s : str) : list str :=
  match s with
  | [] => [rev cur]
  | d :: s' =>
      if bool_decide (d = c) then rev cur :: split_from c [] s'
      else split_from c (d :: cur) s'
  end.

Definition split_on (c : ascii) (s : str) : list str := split_from c [] s.

Definition isabs (p : str) : bool := Py.startswith p [sep].

(** [os.path.join(a, b)] *)
Definition join (a b : str) : str :=
  if Py.startswith b [sep] then b
  else if bool_decide (a = []) || Py.endswith a [sep] then a ++ b
  else a ++ [sep] ++ b.

(** One turn of the loop over [comps] in [normpath]. *)
Definition norm_step (initial_slashes : nat) (new_comps : list str) (comp : str)
  : list str :=
  if bool_decide (comp = []) || bool_decide (comp = lit ".") then new_comps
  else if negb (bool_decide (comp = lit ".."))
          || (bool_decide (initial_slashes = 0) && bool_decide (new_comps = []))
          || (negb (bool_decide (new_comps = []))
              && bool_decide (last new_comps = Some (lit "..")))
  then new_comps ++ [comp]
  else if negb (bool_decide (new_comps = [])) then removelast new_comps
  else new_comps.

Definition normpath (path : str) : str :=
  if bool_decide (path = []) then lit "." else
  let initial_slashes :=
    if Py.startswith path [sep] then
      if Py.startswith path [sep; sep] && negb (Py.startswith path [sep; sep; sep])
      then 2 else 1
    else 0 in
  let comps := foldl (norm_step initial_slashes) [] (split_on sep path) in
  let path := Py.join [sep] comps in
  let path := replicate initial_slashes sep ++ path in
  if bool_decide (path = []) then lit "." else path.

(** [os.path.abspath(path)] in the working directory [cwd] *)
Definition abspath (cwd path : str) : str :=
  normpath (if isabs path then path else join cwd path).

(** Index after the last separator: [p.rfind(sep) + 1]. *)
Fixpoint after_last_sep (p : str) : nat :=
  match p with
  | [] => 0
  | c :: p' =>
      if bool_decide (sep ∈ p') then S (after_last_sep p')
      else if bool_decide (c = sep) then 1 else 0
  end.

Definition basename (p : str) : str := drop (after_last_sep p) p.

(** [os.path.dirname(p)] *)
Definition dirname (p : str) : str :=
  let head := take (after_last_sep p) p in
  if negb (bool_decide (head = []))
     && negb (bool_decide (head = replicate (length head) sep))
  then Py.rstrip_by (fun c => bool_decide (c = sep)) head
  else head.

Fixpoint common_prefix (a b : list str) : nat :=
  match a, b with
  | x :: a', y :: b' => if bool_decide (x = y) then S (common_prefix a' b') else 0
  | _, _ => 0
  end.

Definition nonempty (c : str) : bool := negb (bool_decide (c = [])).

(** [os.path.relpath(path, start)] *)
Definition relpath (cwd path start : str) : str :=
  let start_list := filter nonempty (split_on sep (abspath cwd start)) in
  let path_list := filter nonempty (split_on sep (abspath cwd path)) in
  let i := common_prefix start_list path_list in
  let rel_list := replicate (length start_list - i) (lit "..") ++ drop i path_list in
  match rel_list with
  | [] => lit "."
  | c :: cs => foldl join c cs
  end.

End OsPath.

(** ** The file store

    A file is named by the components of its absolute path; the store
    holds the regular files with their text, the directories, and the
    working directory of the process (the knowledge root).  [fs_log]
    records, in order, every file whose content a call opened.

    The store has no symbolic links: a path names its own file.
    ([os.path.abspath] does not resolve links, while [open] and
    [shutil.copy2] follow them; what is proved about the files under the
    root is proved of a tree without links.)  A file holds a text, which
    [open(..., encoding='utf-8')] reads and writes without error, and the
    only errors of the file system are those that the entries of the store
    decide: no full disk, no permission, no limit on the length of a
    name. *)

Abbreviation key := (list str).

Inductive access := Read (k : key) | Write (k : key).

Record fs := FS {
  fs_cwd : str;
  fs_files : gmap key str;
  fs_dirs : gset key;
  fs_log : list access
}.

Inductive os_error :=
| FileNotFoundError | IsADirectoryError | NotADirectoryError
| FileExistsError | SameFileError.

(** The three [ValueError]s of the module, with what their messages
    interpolate.  ([UnicodeDecodeError] and [UnicodeEncodeError] are
    [ValueError]s too; they are not raised on the texts of the store.) *)
Inductive value_error :=
| PathTraversal (clean_path : str)
| OutOfBounds (clean_path : str)
| AmbiguousPath (path_query : str) (candidates : list str).

Inductive exn := ValueError (e : value_error) | OSError (e : os_error).

Inductive res (A : Type) := Ok (a : A) | Raise (e : exn).
Arguments Ok {A} a.
Arguments Raise {A} e.

(** Computations on the store that may raise; what was done to the store
    before an exception stays done. *)
Definition M (A : Type) : Type := fs -> fs * res A.

#[global] Instance M_ret : MRet M := fun A a s => (s, Ok a).
#[global] Instance M_bind : MBind M := fun A B k m s =>
  match m s with
  | (s', Ok a) => k a s'
  | (s', Raise e) => (s', Raise e)
  end.

Definition raise {A} (e : exn) : M A := fun s => (s, Raise e).
Definition get_fs : M fs := fun s => (s, Ok s).
Definition put_fs (s' : fs) : M unit := fun _ => (s', Ok tt).

(** [try: m except ValueError: h] *)
Definition try_value {A} (m : M A) (h : value_error -> M A) : M A := fun s =>
  match m s with
  | (s', Raise (ValueError e)) => h e s'
  | r => r
  end.

(** The store key of a path: the components of its absolute form. *)
Definition key_of (cwd path : str) : key :=
  filter OsPath.nonempty (OsPath.split_on OsPath.sep (OsPath.abspath cwd path)).

Definition is_file (s : fs) (k : key) : bool := bool_decide (is_Some (fs_files s !! k)).
Definition is_dir (s : fs) (k : key) : bool := bool_decide (k ∈ fs_dirs s).

Definition logged (a : access) (s : fs) : fs :=
  FS (fs_cwd s) (fs_files s) (fs_dirs s) (fs_log s ++ [a]).

Definition with_file (k : key) (data : str) (s : fs) : fs :=
  FS (fs_cwd s) (<[k := data]> (fs_files s)) (fs_dirs s) (fs_log s).

(** Text mode with [newline=None]: on reading, CR LF and CR become LF. *)
Fixpoint universal_newlines (data : str) : str :=
  match data with
  | [] => []
  | c :: rest =>
      if bool_decide (c = Py.CR) then
        Py.LF :: match rest with
                 | d :: rest' =>
                     if bool_decide (d = Py.LF) then universal_newlines rest'
                     else universal_newlines rest
                 | [] => []
                 end
      else c :: universal_newlines rest
  end.

(** [os.path.exists(path)] *)
Definition path_exists (path : str) : M bool := fun s =>
  let k := key_of (fs_cwd s) path in (s, Ok (is_file s k || is_dir s k)).

(** [open(path, 'r', encoding='utf-8').read()] *)
Definition read_text (path : str) : M str := fun s =>
  let k := key_of (fs_cwd s) path in
  match fs_files s !! k with
  | Some data => (logged (Read k) s, Ok (universal_newlines data))
  | None =>
      (s, Raise (OSError (if is_dir s k then IsADirectoryError else FileNotFoundError)))
  end.

(** Opening [k] for writing: the error that the entries of the store
    decide, if any. *)
Definition open_for_write (s : fs) (k : key) : option os_error :=
  if is_file s k then None
  else if is_dir s k then Some IsADirectoryError
  else if is_file s (removelast k) then Some NotADirectoryError
  else if is_dir s (removelast k) then None
  else Some FileNotFoundError.

(** [open(path, 'w', encoding='utf-8').write(data)]; the line separator of
    the platform is LF, so the text is stored as it is.  [open] empties
    the file and [write] fills it; on this store nothing fails between the
    two, so they are one step, and the errors are those of [open]. *)
Definition write_text (path data : str) : M unit := fun s =>
  let k := key_of (fs_cwd s) path in
  match open_for_write s k with
  | Some e => (s, Raise (OSError e))
  | None => (logged (Write k) (with_file k data s), Ok tt)
  end.

(** [open(path, 'a', encoding='utf-8').write(data)] *)
Definition append_text (path data : str) : M unit := fun s =>
  let k := key_of (fs_cwd s) path in
  match open_for_write s k with
  | Some e => (s, Raise (OSError e))
  | None =>
      (logged (Write k) (with_file k (default [] (fs_files s !! k) ++ data) s), Ok tt)
  end.

(** [k[:0]], [k[:1]], ..., [k] *)
Definition prefixes (k : key) : list key :=
  map (fun n => take n k) (seq 0 (S (length k))).

(** [os.makedirs(path, exist_ok=True)] *)
Definition makedirs (path : str) : M unit := fun s =>
  let k := key_of (fs_cwd s) path in
  if is_file s k then (s, Raise (OSError FileExistsError))
  else if existsb (is_file s) (prefixes k) then (s, Raise (OSError NotADirectoryError))
  else
    (FS (fs_cwd s) (fs_files s) (fs_dirs s ∪ list_to_set (prefixes k)) (fs_log s),
     Ok tt).

(** Where [shutil.copy2(src, dst)] writes: into [dst] under the name of
    [src] when [dst] is a directory, else to [dst]. *)
Definition copy_target (s : fs) (src dst : str) : key :=
  if is_dir s (key_of (fs_cwd s) dst)
  then key_of (fs_cwd s) (OsPath.join dst (OsPath.basename src))
  else key_of (fs_cwd s) dst.

(** [shutil.copy2(src, dst)]: the bytes are copied as they are. *)
Definition copy2 (src dst : str) : M unit := fun s =>
  let ks := key_of (fs_cwd s) src in
  let kd := copy_target s src dst in
  if bool_decide (ks = kd) && (is_file s ks || is_dir s ks)
  then (s, Raise (OSError SameFileError))
  else
    match fs_files s !! ks with
    | None =>
        (s, Raise (OSError (if is_dir s ks then IsADirectoryError else FileNotFoundError)))
    | Some data =>
        match open_for_write s kd with
        | Some e => (logged (Read ks) s, Raise (OSError e))
        | None => (logged (Write kd) (with_file kd data (logged (Read ks) s)), Ok tt)
        end
    end.

(** The names of the entries of directory [k], files and directories. *)
Definition entries (s : fs) (k : key) : list key :=
  filter (fun k' => removelast k' = k /\ k' <> [])
    (elements (dom (fs_files s) ∪ fs_dirs s)).

Definition name_of (k : key) : str := default [] (last k).

(** [os.listdir(path)]; the order of the names is the store's. *)
Definition listdir (path : str) : M (list str) := fun s =>
  let k := key_of (fs_cwd s) path in
  if is_file s k then (s, Raise (OSError NotADirectoryError))
  else if negb (is_dir s k) then (s, Raise (OSError FileNotFoundError))
  else (s, Ok (map name_of (entries s k))).

(** [os.walk(top)], top down: for every directory reached from [top], the
    path [os.walk] names it by and the names of its files.  The order of
    the directories is the store's. *)
Definition walk (top : str) : M (list (str * list str)) := fun s =>
  let kt := key_of (fs_cwd s) top in
  let reached (d : key) : bool :=
    bool_decide (take (length kt) d = kt)
    && forallb (fun n => is_dir s (take n d)) (seq (length kt) (S (length d - length kt))) in
  (s, Ok (map (fun d =>
                 (foldl OsPath.join top (drop (length kt) d),
                  map name_of (filter (fun k' => is_file s k' = true) (entries s d))))
            (filter (fun d => reached d = true) (elements (fs_dirs s))))).

(** ** The clock *)

Record datetime := DateTime {
  dt_year : nat; dt_month : nat; dt_day : nat;
  dt_hour : nat; dt_minute : nat; dt_second : nat
}.

Definition pad2 (n : nat) : str :=
  if bool_decide (n < 10) then lit "0" ++ Py.str_of_nat n else Py.str_of_nat n.

(** [strftime("%Y%m%d_%H%M%S")] *)
Definition strftime_snapshot (t : datetime) : str :=
  Py.str_of_nat (dt_year t) ++ pad2 (dt_month t) ++ pad2 (dt_day t) ++ lit "_"
    ++ pad2 (dt_hour t) ++ pad2 (dt_minute t) ++ pad2 (dt_second t).

(** ** Internal helpers of the module *)

Definition KNOWLEDGE_ROOT : str := lit ".".
Definition HISTORY_DIR : str := OsPath.join KNOWLEDGE_ROOT (lit ".history").

Definition getcwd : M str := fun s => (s, Ok (fs_cwd s)).

(** [s.replace(a, b)] for single characters *)
Definition replace_char (a b : ascii) (s : str) : str :=
  map (fun c => if bool_decide (c = a) then b else c) s.

Definition _validate_path (path : str) : M str :=
  let clean_path := Py.lstrip_chars (lit "/\") (Py.strip path) in
  if Py.contains clean_path (lit "..") then
    raise (ValueError (PathTraversal clean_path))
  else
    cwd ← getcwd;
    let abs_root := OsPath.abspath cwd KNOWLEDGE_ROOT in
    let abs_target := OsPath.abspath cwd (OsPath.join KNOWLEDGE_ROOT clean_path) in
    if negb (Py.startswith abs_target abs_root) then
      raise (ValueError (OutOfBounds clean_path))
    else mret abs_target.

(** [file_path.replace("/", "_").replace("\\", "_")] *)
Definition safe_name (file_path : str) : str :=
  replace_char "\"%char "_"%char (replace_char "/"%char "_"%char file_path).

Definition _ensure_history_dir (file_path : str) : M str :=
  let target_dir := OsPath.join HISTORY_DIR (safe_name file_path) in
  makedirs target_dir;;
  mret target_dir.

(** [os.path.join(history_dir, f"{timestamp}.snap")] for the history
    directory of [file_path] *)
Definition snapshot_path (now : datetime) (file_path : str) : str :=
  OsPath.join (OsPath.join HISTORY_DIR (safe_name file_path))
    (strftime_snapshot now ++ lit ".snap").

Definition _create_snapshot (now : datetime) (file_path abs_path : str)
  : M (option str) :=
  found ← path_exists abs_path;
  if found : bool then
    history_dir ← _ensure_history_dir file_path;
    let timestamp := strftime_snapshot now in
    let snap_path := OsPath.join history_dir (timestamp ++ lit ".snap") in
    copy2 abs_path snap_path;;
    mret (Some snap_path)
  else mret None.

(** One turn of the loop over [os.walk(KNOWLEDGE_ROOT)] in
    [_smart_resolve_path]. *)
Definition resolve_step (cwd target_name : str) (candidates : list str)
  (entry : str * list str) : list str :=
  let '(root, files) := entry in
  if Py.contains root (lit ".history") then candidates
  else if bool_decide (target_name ∈ files) then
    let rel_dir := OsPath.relpath cwd root KNOWLEDGE_ROOT in
    if bool_decide (rel_dir = lit ".") then candidates ++ [target_name]
    else candidates
           ++ [replace_char "\"%char "/"%char (OsPath.join rel_dir target_name)]
  else candidates.

(** Step 1 of [_smart_resolve_path], the exact match: whether the path is
    valid and exists; a [ValueError] of the validation is passed over. *)
Definition exact_match (path_query : str) : M bool :=
  try_value (abs_path ← _validate_path path_query; path_exists abs_path)
    (fun _ => mret false).

Definition _smart_resolve_path (path_query : str) : M str :=
  found ← exact_match path_query;
  if found : bool then mret path_query
  else
    let target_name := OsPath.basename path_query in
    cwd ← getcwd;
    tree ← walk KNOWLEDGE_ROOT;
    let candidates := foldl (resolve_step cwd target_name) [] tree in
    match candidates with
    | [c] => mret c
    | _ :: _ :: _ => raise (ValueError (AmbiguousPath path_query candidates))
    | [] => mret path_query
    end.

(** ** Frontmatter

    [_parse_frontmatter] and [_build_frontmatter] go through the YAML
    library, which is not part of the sources: [yaml.dump] and
    [yaml.safe_load] are parameters of this section. *)

(** The values the YAML library reads and writes. *)
#[warnings="-register-all"]
Inductive pyval :=
| PNone
| PBool (b : bool)
| PInt (z : Z)
| PStr (s : str)
| PList (l : list pyval)
| PDict (d : list (pyval * pyval)).

(** The truth value of [v], as [v or {}] tests it. *)
Definition truthy (v : pyval) : bool :=
  match v with
  | PNone => false
  | PBool b => b
  | PInt z => negb (Z.eqb z 0)
  | PStr s => negb (bool_decide (s = []))
  | PList l => match l with [] => false | _ => true end
  | PDict d => match d with [] => false | _ => true end
  end.

(** [strftime("%Y-%m-%d")] *)
Definition strftime_date (t : datetime) : str :=
  Py.str_of_nat (dt_year t) ++ lit "-" ++ pad2 (dt_month t) ++ lit "-"
    ++ pad2 (dt_day t).

(** Whether the dict has an entry for the text [k]. *)
Definition has_key (k : str) (meta : list (pyval * pyval)) : bool :=
  existsb (fun e => match fst e with
                    | PStr k' => bool_decide (k' = k)
                    | _ => false
                    end) meta.

Section frontmatter.

Variable yaml_dump : pyval -> str.
Variable yaml_safe_load : str -> option pyval.

(** An exception of [yaml.safe_load] is [None]; it sends the function to
    its last line. *)
Definition _parse_frontmatter (content : str) : pyval * str :=
  if Py.startswith content (lit "---") then
    match Py.split (lit "---") 2 content with
    | _ :: yaml_content :: body :: _ =>
        match yaml_safe_load yaml_content with
        | Some loaded => (if truthy loaded then loaded else PDict [], body)
        | None => (PDict [], content)
        end
    | _ => (PDict [], content)
    end
  else (PDict [], content).

(** The dict is changed in place; the result is the dict after the call
    and the text returned. *)
Definition _build_frontmatter (now : datetime) (meta : list (pyval * pyval))
  : list (pyval * pyval) * str :=
  let meta :=
    if negb (has_key (lit "last_updated") meta)
    then meta ++ [(PStr (lit "last_updated"), PStr (strftime_date now))]
    else meta in
  let yaml_str := Py.strip (yaml_dump (PDict meta)) in
  (meta, lit "---" ++ [Py.LF] ++ yaml_str ++ [Py.LF] ++ lit "---" ++ [Py.LF]).

End frontmatter.

(** ** difflib

    [difflib.unified_diff(a, b, fromfile, tofile, lineterm="")] on lists
    of lines, with [SequenceMatcher(None, a, b)] behind it: no junk
    predicate, [autojunk] on. *)

Module Difflib.

(** [enumerate(l)] *)
Definition enumerate {A} (l : list A) : list (nat * A) := zip (seq 0 (length l)) l.

(** [__chain_b]: for every line of [b] the indices where it stands, in
    order; in a [b] of 200 lines or more, a line that stands at more than
    [n // 100 + 1] places is popular and is dropped. *)
Definition chain_b (b : list str) : gmap str (list nat) :=
  let b2j :=
    foldl (fun (m : gmap str (list nat)) (p : nat * str) =>
             <[p.2 := default [] (m !! p.2) ++ [p.1]]> m)
      ∅ (enumerate b) in
  let n := length b in
  if bool_decide (200 <= n) then
    let ntest := n `div` 100 + 1 in
    filter (fun p : str * list nat => length p.2 <= ntest) b2j
  else b2j.

(** [Match(a, b, size)] *)
Record block := Block { blk_a : nat; blk_b : nat; blk_size : nat }.

Section matcher.
Variables (a b : list str) (b2j : gmap str (list nat)).

(** [a[x] == b[y]] *)
Definition same_line (x y : nat) : bool := bool_decide (a !! x = b !! y).

(** The loop over [j] in [find_longest_match]; [j - 1] is read in
    [j2len], a missing key counts 0, and [i - k + 1] is written
    [i + 1 - k]. *)
Fixpoint scan_js (i blo bhi : nat) (j2len : gmap nat nat) (js : list nat)
  (newj2len : gmap nat nat) (best : block) : gmap nat nat * block :=
  match js with
  | [] => (newj2len, best)
  | j :: js' =>
      if bool_decide (j < blo) then scan_js i blo bhi j2len js' newj2len best
      else if bool_decide (bhi <= j) then (newj2len, best)
      else
        let k := match j with
                 | 0 => 0
                 | S j' => default 0 (j2len !! j')
                 end + 1 in
        let newj2len := <[j := k]> newj2len in
        let best :=
          if bool_decide (blk_size best < k) then Block (i + 1 - k) (j + 1 - k) k
          else best in
        scan_js i blo bhi j2len js' newj2len best
  end.

(** The loop over [i] in [find_longest_match]. *)
Definition scan_is (alo ahi blo bhi : nat) : gmap nat nat * block :=
  foldl (fun (st : gmap nat nat * block) (i : nat) =>
           let js := default [] (b2j !! default [] (a !! i)) in
           scan_js i blo bhi st.1 js ∅ st.2)
    (∅, Block alo blo 0) (seq alo (ahi - alo)).

(** The first [while]: the match grows to the left; it runs at most
    [besti] times. *)
Fixpoint extend_left (fuel alo blo : nat) (best : block) : block :=
  match fuel with
  | 0 => best
  | S fuel' =>
      if bool_decide (alo < blk_a best) && bool_decide (blo < blk_b best)
         && same_line (blk_a best - 1) (blk_b best - 1)
      then extend_left fuel' alo blo
             (Block (blk_a best - 1) (blk_b best - 1) (blk_size best + 1))
      else best
  end.

(** The second [while]: the match grows to the right; it runs at most
    [ahi - (besti + bestsize)] times. *)
Fixpoint extend_right (fuel ahi bhi : nat) (best : block) : block :=
  match fuel with
  | 0 => best
  | S fuel' =>
      if bool_decide (blk_a best + blk_size best < ahi)
         && bool_decide (blk_b best + blk_size best < bhi)
         && same_line (blk_a best + blk_size best) (blk_b best + blk_size best)
      then extend_right fuel' ahi bhi
             (Block (blk_a best) (blk_b best) (blk_size best + 1))
      else best
  end.

(** [find_longest_match(alo, ahi, blo, bhi)]; without junk the last two
    [while] loops do nothing. *)
Definition find_longest_match (alo ahi blo bhi : nat) : block :=
  let best := (scan_is alo ahi blo bhi).2 in
  let best := extend_left (blk_a best) alo blo best in
  extend_right (ahi - (blk_a best + blk_size best)) ahi bhi best.

(** The [while queue] loop of [get_matching_blocks]; the head of [queue]
    is the end of the Python list. *)
Fixpoint blocks_loop (fuel : nat) (queue : list (nat * nat * nat * nat))
  (matching_blocks : list block) : list block :=
  match fuel, queue with
  | S fuel', (alo, ahi, blo, bhi) :: queue =>
      let x := find_longest_match alo ahi blo bhi in
      let '(Block i j k) := x in
      if bool_decide (k = 0) then blocks_loop fuel' queue matching_blocks
      else
        let queue :=
          if bool_decide (alo < i) && bool_decide (blo < j)
          then (alo, i, blo, j) :: queue else queue in
        let queue :=
          if bool_decide (i + k < ahi) && bool_decide (j + k < bhi)
          then (i + k, ahi, j + k, bhi) :: queue else queue in
        blocks_loop fuel' queue (matching_blocks ++ [x])
  | _, _ => matching_blocks
  end.

End matcher.

(** The order of tuples. *)
Definition block_leb (x y : block) : bool :=
  bool_decide (blk_a x < blk_a y)
  || bool_decide (blk_a x = blk_a y)
     && (bool_decide (blk_b x < blk_b y)
         || bool_decide (blk_b x = blk_b y) && bool_decide (blk_size x <= blk_size y)).

Fixpoint insert_block (x : block) (l : list block) : list block :=
  match l with
  | [] => [x]
  | y :: l' => if block_leb x y then x :: l else y :: insert_block x l'
  end.

(** [matching_blocks.sort()] *)
Definition sort_blocks (l : list block) : list block := foldr insert_block [] l.

(** The loop that joins adjacent blocks: the state is [(i1, j1, k1)] and
    [non_adjacent]. *)
Definition join_adjacent (st : block * list block) (x : block) : block * list block :=
  let '(Block i1 j1 k1, non_adjacent) := st in
  let '(Block i2 j2 k2) := x in
  if bool_decide (i1 + k1 = i2) && bool_decide (j1 + k1 = j2)
  then (Block i1 j1 (k1 + k2), non_adjacent)
  else
    (x, if bool_decide (k1 = 0) then non_adjacent
        else non_adjacent ++ [Block i1 j1 k1]).

(** [get_matching_blocks()]; the queue loop runs at most
    [2 * len(a) + 1] times. *)
Definition get_matching_blocks (a b : list str) : list block :=
  let la := length a in
  let lb := length b in
  let matching_blocks :=
    blocks_loop a b (chain_b b) (2 * la + 1) [(0, la, 0, lb)] [] in
  let '(Block i1 j1 k1, non_adjacent) :=
    foldl join_adjacent (Block 0 0 0, []) (sort_blocks matching_blocks) in
  let non_adjacent :=
    if bool_decide (k1 = 0) then non_adjacent else non_adjacent ++ [Block i1 j1 k1] in
  non_adjacent ++ [Block la lb 0].

Inductive tag := Replace | Delete | Insert | Equal.

(** [(tag, i1, i2, j1, j2)] *)
Record opcode := Opcode {
  op_tag : tag; op_i1 : nat; op_i2 : nat; op_j1 : nat; op_j2 : nat
}.

Definition is_equal (c : opcode) : bool :=
  match op_tag c with Equal => true | _ => false end.

(** One turn of the loop of [get_opcodes]: the state is [(i, j)] and
    [answer]. *)
Definition opcode_step (st : nat * nat * list opcode) (x : block)
  : nat * nat * list opcode :=
  let '(i, j, answer) := st in
  let '(Block ai bj size) := x in
  let answer :=
    if bool_decide (i < ai) && bool_decide (j < bj)
    then answer ++ [Opcode Replace i ai j bj]
    else if bool_decide (i < ai) then answer ++ [Opcode Delete i ai j bj]
    else if bool_decide (j < bj) then answer ++ [Opcode Insert i ai j bj]
    else answer in
  let answer :=
    if bool_decide (size = 0) then answer
    else answer ++ [Opcode Equal ai (ai + size) bj (bj + size)] in
  (ai + size, bj + size, answer).

Definition get_opcodes (a b : list str) : list opcode :=
  (foldl opcode_step (0, 0, []) (get_matching_blocks a b)).2.

(** [codes[0] = ...] and [codes[-1] = ...] *)
Definition fix_first (n : nat) (codes : list opcode) : list opcode :=
  match codes with
  | Opcode Equal i1 i2 j1 j2 :: rest =>
      Opcode Equal (i1 `max` (i2 - n)) i2 (j1 `max` (j2 - n)) j2 :: rest
  | _ => codes
  end.

Definition fix_last (n : nat) (codes : list opcode) : list opcode :=
  match last codes with
  | Some (Opcode Equal i1 i2 j1 j2) =>
      removelast codes ++ [Opcode Equal i1 (i2 `min` (i1 + n)) j1 (j2 `min` (j1 + n))]
  | _ => codes
  end.

(** One turn of the loop of [get_grouped_opcodes]: the state is [group]
    and the groups yielded so far. *)
Definition group_step (n : nat) (st : list opcode * list (list opcode)) (c : opcode)
  : list opcode * list (list opcode) :=
  let '(group, yielded) := st in
  let '(Opcode t i1 i2 j1 j2) := c in
  if is_equal c && bool_decide (n + n < i2 - i1) then
    let group := group ++ [Opcode t i1 (i2 `min` (i1 + n)) j1 (j2 `min` (j1 + n))] in
    ([Opcode t (i1 `max` (i2 - n)) i2 (j1 `max` (j2 - n)) j2], yielded ++ [group])
  else (group ++ [c], yielded).

Definition get_grouped_opcodes (a b : list str) (n : nat) : list (list opcode) :=
  let codes := get_opcodes a b in
  let codes := match codes with [] => [Opcode Equal 0 1 0 1] | _ => codes end in
  let codes := fix_last n (fix_first n codes) in
  let '(group, yielded) := foldl (group_step n) ([], []) codes in
  match group with
  | [] => yielded
  | [c] => if is_equal c then yielded else yielded ++ [group]
  | _ => yielded ++ [group]
  end.

(** [_format_range_unified(start, stop)] *)
Definition format_range_unified (start stop : nat) : str :=
  let beginning := start + 1 in
  let length := stop - start in
  if bool_decide (length = 1) then Py.str_of_nat beginning
  else
    let beginning := if bool_decide (length = 0) then beginning - 1 else beginning in
    Py.str_of_nat beginning ++ lit "," ++ Py.str_of_nat length.

(** What [unified_diff] yields, one constructor per format string:
    - [DiffFrom fromfile]: "--- {fromfile}"
    - [DiffTo]: "+++ {tofile}", the label of the current version
    - [DiffHunk r1 r2]: "@@ -{r1} +{r2} @@"
    - [DiffLine mark line]: the mark, a space, [-] or [+], and the line. *)
Inductive item :=
| DiffFrom (fromfile : str)
| DiffTo
| DiffHunk (range1 range2 : str)
| DiffLine (mark : ascii) (line : str).

Definition opcode_lines (a b : list str) (c : opcode) : list item :=
  let '(Opcode t i1 i2 j1 j2) := c in
  match t with
  | Equal => map (DiffLine " ") (Py.slice i1 i2 a)
  | Replace =>
      map (DiffLine "-") (Py.slice i1 i2 a) ++ map (DiffLine "+") (Py.slice j1 j2 b)
  | Delete => map (DiffLine "-") (Py.slice i1 i2 a)
  | Insert => map (DiffLine "+") (Py.slice j1 j2 b)
  end.

Definition group_lines (a b : list str) (group : list opcode) : list item :=
  match group, last group with
  | first :: _, Some final =>
      DiffHunk (format_range_unified (op_i1 first) (op_i2 final))
        (format_range_unified (op_j1 first) (op_j2 final))
        :: concat (map (opcode_lines a b) group)
  | _, _ => []
  end.

Definition unified_diff (a b : list str) (fromfile : str) : list item :=
  match get_grouped_opcodes a b 3 with
  | [] => []
  | groups => DiffFrom fromfile :: DiffTo :: concat (map (group_lines a b) groups)
  end.

End Difflib.

(** ** The tools *)

(** What a tool returns: one constructor per message of the source.
    - [MsgNotFound p]: "错误: 文件 '{p}' 不存在。"
    - [MsgAppended]: "成功追加内容到文档末尾。"
    - [MsgLockMismatch node_id title expected_title]: "双重锁验证失败: ID
      {node_id} 处的标题是 '{title}'，与期望的 '{expected_title}' 不符。..."
    - [MsgSectionNotFound node_id]: "未找到 ID 为 {node_id} 的章节。"
    - [MsgUpdated node_id expected_title a b]: "成功更新章节 {node_id}
      ({expected_title})。\n影响行数: {a} -> {b}"
    - [MsgPathError e]: "路径错误: {e}"
    - [MsgFailed e]: "更新失败: {e}..." and "查看变更失败: {e}"
    - [MsgNoHistory]: "未找到历史快照 (初始版本)。"
    - [MsgDiff d]: what [unified_diff] yields, joined; see [Difflib.item]. *)
Inductive outcome :=
| MsgNotFound (resolved_path : str)
| MsgAppended
| MsgLockMismatch (node_id title expected_title : str)
| MsgSectionNotFound (node_id : str)
| MsgUpdated (node_id expected_title : str) (old_count : Z) (new_count : nat)
| MsgPathError (e : value_error)
| MsgFailed (e : exn)
| MsgNoHistory
| MsgDiff (d : list Difflib.item).

(** Steps 1 and 2 of the [try] block of [update_knowledge_section]: the
    path is resolved and validated, and, when the file exists, the snapshot
    is taken and the file is read.  The result is [resolved_path] and, for
    an existing file, [(abs_path, content)]. *)
Definition open_document (now : datetime) (path : str)
  : M (str * option (str * str)) :=
  resolved_path ← _smart_resolve_path path;
  abs_path ← _validate_path resolved_path;
  found ← path_exists abs_path;
  if negb found then mret (resolved_path, None)
  else
    _create_snapshot now resolved_path abs_path;;
    content ← read_text abs_path;
    mret (resolved_path, Some (abs_path, content)).

(** The [try] block of [update_knowledge_section]. *)
Definition update_body (now : datetime)
  (path node_id expected_title new_content : str) : M outcome :=
  opened ← open_document now path;
  match opened with
  | (resolved_path, None) => mret (MsgNotFound resolved_path)
  | (_, Some (abs_path, content)) =>
      if bool_decide (node_id = lit "APPEND") then
        append_text abs_path ([Py.LF; Py.LF] ++ new_content);;
        mret MsgAppended
      else
        match edit_section content node_id expected_title new_content with
        | EditLockMismatch title =>
            mret (MsgLockMismatch node_id title expected_title)
        | EditSectionNotFound => mret (MsgSectionNotFound node_id)
        | EditOk final_content update_start update_end n_new =>
            write_text abs_path final_content;;
            mret (MsgUpdated node_id expected_title (update_end - update_start) n_new)
        end
  end.

(** A tool runs its [try] block and turns an exception into a message. *)
Definition run_tool (body : M outcome) (on_value_error : value_error -> outcome)
  (s : fs) : fs * outcome :=
  match body s with
  | (s', Ok out) => (s', out)
  | (s', Raise (ValueError e)) => (s', on_value_error e)
  | (s', Raise e) => (s', MsgFailed e)
  end.

Definition update_knowledge_section (now : datetime)
  (path node_id expected_title new_content : str) (s : fs) : fs * outcome :=
  run_tool (update_body now path node_id expected_title new_content) MsgPathError s.

(** [f.readlines()] on the text read: the lines with their ends, LF the
    only line end. *)
Fixpoint keepends_from (cur : str) (s : str) : list str :=
  match s with
  | [] => match cur with [] => [] | _ => [rev cur] end
  | c :: s' =>
      if bool_decide (c = Py.LF) then rev (c :: cur) :: keepends_from [] s'
      else keepends_from (c :: cur) s'
  end.

Definition readlines (path : str) : M (list str) :=
  content ← read_text path;
  mret (keepends_from [] content).

(** The order of [str]: by code points, a prefix first. *)
Fixpoint str_leb (x y : str) : bool :=
  match x, y with
  | [], _ => true
  | _ :: _, [] => false
  | c :: x', d :: y' =>
      bool_decide (Py.code c < Py.code d)%N
      || bool_decide (c = d) && str_leb x' y'
  end.

Fixpoint insert_sorted (x : str) (l : list str) : list str :=
  match l with
  | [] => [x]
  | y :: l' => if str_leb x y then x :: l else y :: insert_sorted x l'
  end.

(** [sorted(l)] *)
Definition sorted (l : list str) : list str := foldr insert_sorted [] l.

(** The [try] block of [view_doc_changes]. *)
Definition view_body (path : str) : M outcome :=
  resolved_path ← _smart_resolve_path path;
  abs_path ← _validate_path resolved_path;
  history_dir ← _ensure_history_dir resolved_path;
  names ← listdir history_dir;
  let snaps := sorted (filter (fun f => Py.endswith f (lit ".snap") = true) names) in
  match last snaps with
  | None => mret MsgNoHistory
  | Some latest =>
      let latest_snap := OsPath.join history_dir latest in
      old_lines ← readlines latest_snap;
      new_lines ← readlines abs_path;
      mret (MsgDiff (Difflib.unified_diff old_lines new_lines latest))
  end.

Definition view_doc_changes (path : str) (s : fs) : fs * outcome :=
  run_tool (view_body path) (fun e => MsgFailed (ValueError e)) s.

(** ** The tools that create and read

    [create_knowledge], [get_file_outline] and [list_knowledge_catalog].
    The last two return [json.dumps] of a value; their outcomes carry
    that value.  The metadata are values of [pyval], all of which
    [json.dumps] writes. *)

(** [[t.strip() for t in tags.split(",") if t.strip()]] *)
Definition tag_list (tags : str) : list str :=
  map Py.strip
    (filter (fun t => Py.strip t <> []) (OsPath.split_on ","%char tags)).

(** The file name of [create_knowledge]: [name], cleaned, when it is given
    and not empty, else a slug of the title. *)
Definition clean_name (title : str) (name : option str) : str :=
  match name with
  | Some (c :: n) =>
      let clean_name :=
        replace_char "\"%char "_"%char
          (replace_char "/"%char "_"%char (Py.strip (c :: n))) in
      if Py.endswith clean_name (lit ".md")
      then take (length clean_name - 3) clean_name else clean_name
  | _ =>
      replace_char "/"%char "_"%char
        (replace_char " "%char "_"%char (Py.lower title))
  end.

(** [f"{category}/{clean_name}.md"] *)
Definition target_path (title category : str) (name : option str) : str :=
  category ++ lit "/" ++ clean_name title name ++ lit ".md".

(** The metadata of a new document. *)
Definition new_meta (now : datetime) (title category tags description : str)
  : list (pyval * pyval) :=
  [(PStr (lit "title"), PStr title);
   (PStr (lit "category"), PStr category);
   (PStr (lit "tags"), PList (map PStr (tag_list tags)));
   (PStr (lit "description"), PStr description);
   (PStr (lit "last_updated"), PStr (strftime_date now))].

Inductive create_outcome :=
| MsgExists (target_path : str)
| MsgCreated (target_path : str)
| MsgCreateFailed (e : exn).

Inductive outline_outcome :=
| MsgOutlineNotFound (resolved_path : str)
| MsgOutline (resolved_path : str) (metadata : pyval) (structure : list node)
| MsgOutlinePathError (e : value_error)
| MsgOutlineFailed (e : exn).

(** What leaves [list_knowledge_catalog], which has no [try] block of its
    own around the loop. *)
Inductive catalog_error := AttributeError | OtherError (e : exn).

Inductive catalog_outcome :=
| MsgCatalog (catalog : list pyval)
| CatalogRaised (e : catalog_error).

(** One turn of the inner loop: the call raises, the file is passed over,
    or an item is added. *)
Inductive item_result := ItemRaise | ItemSkip | ItemAdd (item : pyval).

(** [os.walk(top)] with [dirs[:] = [d for d in dirs if keep(d)]] in the
    loop: what lies below a directory that is dropped is not reached. *)
Definition walk_pruned (keep : str -> bool) (top : str)
  : M (list (str * list str)) := fun s =>
  let kt := key_of (fs_cwd s) top in
  let reached (d : key) : bool :=
    bool_decide (take (length kt) d = kt)
    && forallb (fun n => is_dir s (take n d)) (seq (length kt) (S (length d - length kt)))
    && forallb keep (drop (length kt) d) in
  (s, Ok (map (fun d =>
                 (foldl OsPath.join top (drop (length kt) d),
                  map name_of (filter (fun k' => is_file s k' = true) (entries s d))))
            (filter (fun d => reached d = true) (elements (fs_dirs s))))).

(** [meta.get(k, default)] for a text [k] *)
Fixpoint dict_get (k : str) (default : pyval) (meta : list (pyval * pyval)) : pyval :=
  match meta with
  | [] => default
  | (PStr k', v) :: rest =>
      if bool_decide (k' = k) then v else dict_get k default rest
  | _ :: rest => dict_get k default rest
  end.

(** The filter and the item of a file with metadata [meta]; [.get] and
    [.lower] on a value that has none raise [AttributeError]. *)
Definition catalog_item (category : option str) (detail : bool)
  (file display_path : str) (meta : pyval) : item_result :=
  match meta with
  | PDict meta =>
      let file_cat := dict_get (lit "category") (PStr (lit "unknown")) meta in
      let item :=
        [(PStr (lit "path"), PStr display_path);
         (PStr (lit "title"), dict_get (lit "title") (PStr file) meta);
         (PStr (lit "category"), file_cat)]
        ++ (if detail then
              [(PStr (lit "description"),
                dict_get (lit "description") (PStr (lit "No description.")) meta);
               (PStr (lit "tags"), dict_get (lit "tags") (PList []) meta)]
            else []) in
      match category with
      | Some (c :: cat) =>
          match file_cat with
          | PStr file_cat =>
              if negb (Py.contains (Py.lower file_cat) (Py.lower (c :: cat)))
              then ItemSkip else ItemAdd (PDict item)
          | _ => ItemRaise
          end
      | _ => ItemAdd (PDict item)
      end
  | _ => ItemRaise
  end.

Section tools_with_yaml.

Variable yaml_dump : pyval -> str.
Variable yaml_safe_load : str -> option pyval.

(** The [try] block of [create_knowledge]. *)
Definition create_body (now : datetime)
  (title category tags description : str) (name : option str)
  : M create_outcome :=
  let target_path := target_path title category name in
  abs_path ← _validate_path target_path;
  found ← path_exists abs_path;
  if found : bool then mret (MsgExists target_path)
  else
    let meta := new_meta now title category tags description in
    let content := snd (_build_frontmatter yaml_dump now meta) in
    let content := content ++ [Py.LF] ++ lit "# " ++ title ++ [Py.LF; Py.LF] in
    makedirs (OsPath.dirname abs_path);;
    write_text abs_path content;;
    mret (MsgCreated target_path).

Definition create_knowledge (now : datetime)
  (title category tags description : str) (name : option str) (s : fs)
  : fs * create_outcome :=
  match create_body now title category tags description name s with
  | (s', Ok out) => (s', out)
  | (s', Raise e) => (s', MsgCreateFailed e)
  end.

(** The [try] block of [get_file_outline]. *)
Definition outline_body (path : str) : M outline_outcome :=
  resolved_path ← _smart_resolve_path path;
  abs_path ← _validate_path resolved_path;
  found ← path_exists abs_path;
  if negb found then mret (MsgOutlineNotFound resolved_path)
  else
    content ← read_text abs_path;
    let meta := fst (_parse_frontmatter yaml_safe_load content) in
    let structure := _get_outline_tree content in
    mret (MsgOutline resolved_path meta structure).

Definition get_file_outline (path : str) (s : fs) : fs * outline_outcome :=
  match outline_body path s with
  | (s', Ok out) => (s', out)
  | (s', Raise (ValueError e)) => (s', MsgOutlinePathError e)
  | (s', Raise e) => (s', MsgOutlineFailed e)
  end.

(** The metadata of a file of the catalog: the frontmatter of its first
    50 lines; any exception leaves [{}]. *)
Definition catalog_meta (rel_path : str) : M pyval := fun s =>
  match readlines rel_path s with
  | (s', Ok lines) =>
      (s', Ok (fst (_parse_frontmatter yaml_safe_load (concat (take 50 lines)))))
  | (s', Raise _) => (s', Ok (PDict []))
  end.

(** The two loops of [list_knowledge_catalog] over the files the walk
    names, each with the [root] of its directory. *)
Fixpoint catalog_loop (category : option str) (detail : bool)
  (todo : list (str * str)) (catalog : list pyval)
  : M (catalog_error + list pyval) :=
  match todo with
  | [] => mret (inr catalog)
  | (root, file) :: rest =>
      if negb (Py.endswith file (lit ".md"))
      then catalog_loop category detail rest catalog
      else
        let rel_path := OsPath.join root file in
        cwd ← getcwd;
        let display_path :=
          replace_char "\"%char "/"%char
            (OsPath.relpath cwd rel_path KNOWLEDGE_ROOT) in
        meta ← catalog_meta rel_path;
        match catalog_item category detail file display_path meta with
        | ItemRaise => mret (inl AttributeError)
        | ItemSkip => catalog_loop category detail rest catalog
        | ItemAdd item => catalog_loop category detail rest (catalog ++ [item])
        end
  end.

Definition list_knowledge_catalog (category : option str) (detail : bool)
  (s : fs) : fs * catalog_outcome :=
  let body :=
    tree ← walk_pruned (fun d => negb (Py.startswith d (lit "."))) KNOWLEDGE_ROOT;
    catalog_loop category detail
      (tree ≫= fun entry => map (pair entry.1) entry.2) [] in
  match body s with
  | (s', Ok (inr catalog)) => (s', MsgCatalog catalog)
  | (s', Ok (inl e)) => (s', CatalogRaised e)
  | (s', Raise e) => (s', CatalogRaised (OtherError e))
  end.

End tools_with_yaml.

(** ** Notions of the specification

    These follow the words of the specification; the properties compare
    them with the code above. *)

(** What both loops read off a line: the level and the title. *)
Definition parse_heading (line : str) : option (nat * str) :=
  match re_match_heading (Py.strip line) with
  | Some (g1, g2) => Some (length g1, Py.strip g2)
  | None => None
  end.

(** The line shape of the specification: 1 to 6 [#], then whitespace, then
    a text that is not empty. *)
Definition begins_with_heading (s : str) : Prop :=
  exists k ws txt,
    s = replicate k "#"%char ++ ws ++ txt
    /\ 1 <= k <= 6 /\ ws <> [] /\ forallb Py.isspace ws = true /\ txt <> [].

(** Per-level counters: a heading of level [L] increments the counter of
    [L] and resets the deeper ones. *)
Definition spec_step (L : nat) (c : nat -> nat) : nat -> nat :=
  fun l => if decide (l = L) then c l + 1 else if decide (L < l) then 0 else c l.

(** The id: the counters of the levels 1 to [L], joined by dots. *)
Definition spec_id (L : nat) (c : nat -> nat) : str :=
  Py.join (lit ".") (map (fun l => Py.str_of_nat (c l)) (seq 1 L)).

Fixpoint spec_ids (levels : list nat) (c : nat -> nat) : list str :=
  match levels with
  | [] => []
  | L :: rest => let c' := spec_step L c in spec_id L c' :: spec_ids rest c'
  end.

(** The first heading whose id is [nid], with its position in the outline. *)
Definition find_target (nid : str) (outline : list node) : option (nat * node) :=
  list_find (fun n => node_id n = nid) outline.

(** The end of the target range: the line of the first of the [following]
    headings whose level is at most [level], or the number of lines. *)
Definition range_end (n_lines : nat) (level : nat) (following : list node) : nat :=
  match list_find (fun u => node_level u <= level) following with
  | Some (_, u) => node_line_start u - 1
  | None => n_lines
  end.

(** The text written for the lines joined by LF: an LF is added when the
    text read ended in one and the joined lines do not. *)
Definition finish (content joined : str) : str :=
  if Py.endswith content [Py.LF] && negb (Py.endswith joined [Py.LF])
  then joined ++ [Py.LF] else joined.

(** ** Notions used in the proofs *)

(** A text without line boundary, as a line of [splitlines] is. *)
Definition no_break (s : str) : Prop := forall c, c ∈ s -> Py.islinebreak c = false.

(** The list of counters of the code and the counters of the
    specification hold the same numbers at the levels 1 to 6. *)
Definition agree (cs : list nat) (c : nat -> nat) : Prop :=
  length cs = 7 /\ forall l, 1 <= l <= 6 -> getc cs l = c l.

(** The number of dots of a text. *)
Definition dots (s : str) : nat := length (filter (fun c => c = "."%char) s).

(** What the code after the loop reads of the way the loop ended. *)
Definition exit_summary (e : scan_exit) : str + (bool * nat * Z * Z) :=
  match e with
  | LockFailed t => inl t
  | ScanDone st =>
      inr (st_target_found st, st_current_level st,
           st_update_start st, st_update_end st)
  end.

(** The value of [update_end] after the loop, for the headings [hs] that
    follow the target of level [L]. *)
Definition end_mark (L : nat) (hs : list node) : Z :=
  match list_find (fun u => node_level u <= L) hs with
  | Some (_, u) => Z.of_nat (node_line_start u - 1)
  | None => (-1)%Z
  end.

(** Step 5 and the checks before it, from the summary of the loop. *)
Definition edit_of_summary (content new_content : str)
  (sm : str + (bool * nat * Z * Z)) : edit_result :=
  match sm with
  | inl title => EditLockMismatch title
  | inr (found, _, update_start, update_end) =>
      if negb found then EditSectionNotFound
      else
        let lines := Py.splitlines content in
        let update_end :=
          if bool_decide (update_end = (-1)%Z) then Z.of_nat (length lines)
          else update_end in
        let new_lines := Py.splitlines new_content in
        EditOk
          (finish content
             (Py.join [Py.LF]
                (take (Z.to_nat update_start) lines ++ new_lines
                   ++ drop (Z.to_nat update_end) lines)))
          update_start update_end (length new_lines)
  end.

(** The store after [os.makedirs] of the history directory of
    [resolved]. *)
Definition with_history_dir (resolved : str) (s : fs) : fs :=
  FS (fs_cwd s) (fs_files s)
    (fs_dirs s ∪ list_to_set
       (prefixes (key_of (fs_cwd s) (OsPath.join HISTORY_DIR (safe_name resolved)))))
    (fs_log s).

(** Where the snapshot of a call goes. *)
Definition snapshot_key (now : datetime) (resolved abs_path : str) (s : fs) : key :=
  copy_target (with_history_dir resolved s) abs_path (snapshot_path now resolved).

(** A call that ends in one of the section messages has opened the
    document. *)
Definition section_outcome (out : outcome) : Prop :=
  match out with
  | MsgLockMismatch _ _ _ | MsgSectionNotFound _ | MsgUpdated _ _ _ _ => True
  | _ => False
  end.

(** The bytes of lines that are each closed by LF. *)
Definition line_bytes (lines : list str) : str :=
  concat (map (fun l => l ++ [Py.LF]) lines).

(** The byte offset of line [k] in [line_bytes lines]. *)
Definition offset (lines : list str) (k : nat) : nat :=
  length (line_bytes (take k lines)).

(** LF is the only line boundary of the text. *)
Definition lf_only (data : str) : Prop :=
  forall c, c ∈ data -> Py.islinebreak c = true -> c = Py.LF.

(** A text closed by LF, when it is not empty. *)
Definition closed (s : str) : str :=
  if bool_decide (s = []) || Py.endswith s [Py.LF] then s else s ++ [Py.LF].

(** A name that a directory entry can carry once [normpath] has run. *)
Definition valid_name (x : str) : Prop :=
  x <> [] /\ (OsPath.sep ∉ x) /\ x <> lit "." /\ x <> lit "..".

(** The components [normpath] keeps of an absolute path. *)
Definition norm_key (p : str) : key :=
  foldl (OsPath.norm_step 1) [] (OsPath.split_on OsPath.sep p).

(** The components [normpath] neither drops nor resolves. *)
Definition kept (c : str) : bool :=
  negb (bool_decide (c = [])) && negb (bool_decide (c = lit ".")).

(** A relative path without a [..] component. *)
Definition plain (p : str) : Prop :=
  OsPath.isabs p = false
  /\ Forall (fun x => x <> lit "..") (OsPath.split_on OsPath.sep p).

(** The kept components of a path. *)
Definition kept_parts (p : str) : key :=
  filter (fun x => kept x = true) (OsPath.split_on OsPath.sep p).

(** The key of the knowledge root. *)
Definition root_of (s : fs) : key := norm_key (fs_cwd s).

(** A decimal digit. *)
Definition is_digit (c : ascii) : Prop := c ∈ lit "0123456789".

(** The file an access opens. *)
Definition access_key (a : access) : key :=
  match a with Read k | Write k => k end.

(** Every entry of the store has names that a directory entry can carry. *)
Definition store_ok (s : fs) : Prop :=
  forall k, k ∈ dom (fs_files s) ∪ fs_dirs s -> Forall valid_name k.

(** [k] lies under the root, the working directory [c]. *)
Definition under (c : str) (k : key) : Prop := norm_key c `prefix_of` k.

(** What every step keeps: the working directory and the order of the
    store. *)
Definition inv (c : str) (s : fs) : Prop := fs_cwd s = c /\ store_ok s.

(** From [s] to [s'] only files under the root were opened, and the
    files elsewhere hold what they held. *)
Definition confined (c : str) (s s' : fs) : Prop :=
  exists opened,
    fs_log s' = fs_log s ++ opened
    /\ Forall (fun a => under c (access_key a)) opened
    /\ forall k, ~ under c k -> fs_files s' !! k = fs_files s !! k.

(** [m] keeps the store in order and confined, and its result has [P]. *)
Definition triple {A} (c : str) (m : M A) (P : A -> Prop) : Prop :=
  forall s s' r,
    inv c s -> m s = (s', r) ->
    inv c s' /\ confined c s s' /\ forall a, r = Ok a -> P a.

(** The name of the snapshot a call at [now] writes. *)
Definition snapshot_name (now : datetime) : str :=
  strftime_snapshot now ++ lit ".snap".

(** The key of the history directory of [resolved]. *)
Definition history_key (s : fs) (resolved : str) : key :=
  key_of (fs_cwd s) (OsPath.join HISTORY_DIR (safe_name resolved)).

(** The path a call works on once the white space around it and the
    slashes before it are taken off. *)
Definition clean_path (path : str) : str :=
  Py.lstrip_chars (lit "/\") (Py.strip path).

(** *** Matching blocks *)

(** A rectangle of indices: [alo, ahi) in [a] and [blo, bhi) in [b]. *)
Definition rect : Type := nat * nat * nat * nat.

Definition rect_of (x : Difflib.block) : rect :=
  (Difflib.blk_a x, Difflib.blk_a x + Difflib.blk_size x,
   Difflib.blk_b x, Difflib.blk_b x + Difflib.blk_size x).

(** [r] lies in [r']. *)
Definition within (r r' : rect) : Prop :=
  let '(alo, ahi, blo, bhi) := r in
  let '(alo', ahi', blo', bhi') := r' in
  alo' <= alo /\ ahi <= ahi' /\ blo' <= blo /\ bhi <= bhi'.

(** The index maps the lines of [b] to places where they stand. *)
Definition b2j_ok (b : list str) (b2j : gmap str (list nat)) : Prop :=
  forall line js j, b2j !! line = Some js -> j ∈ js -> b !! j = Some line.

(** The block is a run of equal lines of [a] and [b]. *)
Definition matches (a b : list str) (x : Difflib.block) : Prop :=
  Difflib.blk_a x + Difflib.blk_size x <= length a
  /\ Difflib.blk_b x + Difflib.blk_size x <= length b
  /\ forall t, t < Difflib.blk_size x ->
       a !! (Difflib.blk_a x + t) = b !! (Difflib.blk_b x + t).

(** What [j2len] holds when the row [i] is read: runs of equal lines that
    end in the row before. *)
Definition row_ok (a b : list str) (alo blo i : nat) (m : gmap nat nat) : Prop :=
  forall j k, m !! j = Some k ->
    k <= i - alo /\ k <= j + 1 - blo
    /\ forall t, t < k -> a !! (i - 1 - t) = b !! (j - t).

(** The best block so far lies in the rectangle searched and is a run of
    equal lines. *)
Definition good (a b : list str) (r : rect) (x : Difflib.block) : Prop :=
  within (rect_of x) r
  /\ forall t, t < Difflib.blk_size x ->
       a !! (Difflib.blk_a x + t) = b !! (Difflib.blk_b x + t).

(** [r1] ends, in [a] and in [b], where [r2] begins or before. *)
Definition before (r1 r2 : rect) : Prop :=
  let '(_, ahi1, _, bhi1) := r1 in
  let '(alo2, _, blo2, _) := r2 in
  ahi1 <= alo2 /\ bhi1 <= blo2.

Definition comparable (r1 r2 : rect) : Prop := before r1 r2 \/ before r2 r1.

(** Rectangles of which every two are one before the other. *)
Fixpoint chain (l : list rect) : Prop :=
  match l with
  | [] => True
  | r :: l' => Forall (comparable r) l' /\ chain l'
  end.

(** A rectangle of the queue lies in the two lists. *)
Definition region_ok (a b : list str) (r : rect) : Prop :=
  let '(alo, ahi, blo, bhi) := r in
  alo <= ahi /\ ahi <= length a /\ blo <= bhi /\ bhi <= length b.

(** The turns of the queue loop a queue can still take. *)
Definition weight (q : list rect) : nat :=
  sum_list (map (fun r : rect => let '(alo, ahi, _, _) := r in 2 * (ahi - alo) + 1) q).

(** A block found by the queue loop. *)
Definition found (a b : list str) (x : Difflib.block) : Prop :=
  0 < Difflib.blk_size x /\ matches a b x.

(** Blocks in the order of both lists, each before the ones that
    follow. *)
Fixpoint ascending (l : list Difflib.block) : Prop :=
  match l with
  | [] => True
  | x :: l' => Forall (fun y => before (rect_of x) (rect_of y)) l' /\ ascending l'
  end.

(** From the places [i] in [a] and [j] in [b] on, every block begins where
    the block before it ends or later. *)
Fixpoint path (i j : nat) (l : list Difflib.block) : Prop :=
  match l with
  | [] => True
  | x :: l' =>
      i <= Difflib.blk_a x /\ j <= Difflib.blk_b x
      /\ path (Difflib.blk_a x + Difflib.blk_size x)
               (Difflib.blk_b x + Difflib.blk_size x) l'
  end.

(** Where the last block ends. *)
Definition path_end (i j : nat) (l : list Difflib.block) : nat * nat :=
  match last l with
  | Some x => (Difflib.blk_a x + Difflib.blk_size x,
               Difflib.blk_b x + Difflib.blk_size x)
  | None => (i, j)
  end.

(** Some opcode is not [equal]. *)
Definition has_change (codes : list Difflib.opcode) : bool :=
  existsb (fun c => negb (Difflib.is_equal c)) codes.

(** The line at [i] is in the index: it is not popular. *)
Definition indexed (a : list str) (b2j : gmap str (list nat)) (i : nat) : bool :=
  match a !! i with
  | Some line => bool_decide (is_Some (b2j !! line))
  | None => false
  end.

(** The number of indexed lines in a row that end just before [i]. *)
Fixpoint run (a : list str) (b2j : gmap str (list nat)) (i : nat) : nat :=
  match i with
  | 0 => 0
  | S i' => if indexed a b2j i' then run a b2j i' + 1 else 0
  end.

(** The index holds, for a line, all the places where it stands, in
    order, up to [s]. *)
Definition b2j_full (b : list str) (s : nat) (b2j : gmap str (list nat)) : Prop :=
  (forall line js, b2j !! line = Some js ->
     StronglySorted lt js /\ forall j, j ∈ js <-> j < s /\ b !! j = Some line)
  /\ forall j line, j < s -> b !! j = Some line -> is_Some (b2j !! line).

(** The counters [c] and [c'] agree at the levels 1 to [L]. *)
Definition same_upto (L : nat) (c c' : nat -> nat) : Prop :=
  forall m, 1 <= m <= L -> c m = c' m.

(** At the levels 1 to [L] the counters [c] come before [c'], the lower
    level first. *)
Definition lex_lt (L : nat) (c c' : nat -> nat) : Prop :=
  exists l, 1 <= l <= L /\ (forall m, 1 <= m < l -> c m = c' m) /\ c l < c' l.

(** What an id is made of. *)
Definition id_char (ch : ascii) : Prop := is_digit ch \/ ch = "."%char.

(** From [s] to [s'] no file was written or removed: the files hold what
    they held, directories may have been made, and the files opened were
    opened for reading. *)
Definition reads_only (s s' : fs) : Prop :=
  fs_cwd s' = fs_cwd s /\ fs_files s' = fs_files s /\ fs_dirs s ⊆ fs_dirs s'
  /\ exists reads, fs_log s' = fs_log s ++ map Read reads.

(** The same, and no directory was made. *)
Definition looks_only (s s' : fs) : Prop :=
  fs_cwd s' = fs_cwd s /\ fs_files s' = fs_files s /\ fs_dirs s' = fs_dirs s
  /\ exists reads, fs_log s' = fs_log s ++ map Read reads.

(** Every run of [m] is within [R]. *)
Definition keeps (R : fs -> fs -> Prop) {A} (m : M A) : Prop :=
  forall s s' r, m s = (s', r) -> R s s'.


(** Two stores with the same working directory, files and directories;
    the logs may differ. *)
Definition same_store (s s' : fs) : Prop :=
  fs_cwd s' = fs_cwd s /\ fs_files s' = fs_files s /\ fs_dirs s' = fs_dirs s.

(** The text [create_knowledge] writes. *)
Definition new_document (yaml_dump : pyval -> str) (now : datetime)
  (title category tags description : str) : str :=
  snd (_build_frontmatter yaml_dump now
         (new_meta now title category tags description))
    ++ [Py.LF] ++ lit "# " ++ title ++ [Py.LF; Py.LF].

(** A document the catalog shows: a file whose name ends in [.md], in
    the root or in a directory reached from the root through directories
    whose names do not begin with a dot. *)
Definition visible_doc (s : fs) (k : key) : Prop :=
  exists comps name,
    k = root_of s ++ comps ++ [name]
    /\ is_file s k = true
    /\ Py.endswith name (lit ".md") = true
    /\ Forall (fun c => Py.startswith c (lit ".") = false) comps
    /\ forall n, n <= length comps -> root_of s ++ take n comps ∈ fs_dirs s.

(** The metadata the catalog reads of the bytes of a file: the
    frontmatter of the first 50 lines. *)
Definition catalog_meta_of (yaml_safe_load : str -> option pyval) (data : str)
  : pyval :=
  fst (_parse_frontmatter yaml_safe_load
         (concat (take 50 (keepends_from [] (universal_newlines data))))).



(** Whether the search of [_smart_resolve_path] takes the name from an
    entry of the walk. *)
Definition names_target (target_name : str) (entry : str * list str) : bool :=
  negb (Py.contains entry.1 (lit ".history")) && bool_decide (target_name ∈ entry.2).

(** ** A small knowledge base

    The store of the examples: [/kb] holds [libs/a.md]. *)

Definition path_key (components : list string) : key := map lit components.

Definition demo_doc : str := text ["# A"; "x"; "## B"; "y"; "# C"; "z"].

Definition demo_store : fs :=
  FS (lit "/kb")
    {[ path_key ["kb"; "libs"; "a.md"] := demo_doc ]}
    (list_to_set [path_key []; path_key ["kb"]; path_key ["kb"; "libs"]])
    [].

Definition demo_time : datetime := DateTime 2026 1 2 3 4 5.

(** The same base with a document that ends in three LF. *)
Definition blank_tail_doc : str := text ["# A"; "x"; "# B"; "y"; ""; ""].

Definition blank_tail_store : fs :=
  FS (lit "/kb")
    {[ path_key ["kb"; "libs"; "a.md"] := blank_tail_doc ]}
    (list_to_set [path_key []; path_key ["kb"]; path_key ["kb"; "libs"]])
    [].

(** A base whose only document is [docs/secret.md]. *)
Definition secret_doc : str := text ["# S"; "x"].


(** A fragment of the YAML library for the examples: flat mappings from
    plain keys to texts, a text that begins with a digit in single
    quotes. *)
Definition mini_scalar (v : pyval) : str :=
  match v with
  | PStr (c :: s) =>
      if bool_decide (c ∈ lit "0123456789")
      then lit "'" ++ c :: s ++ lit "'" else c :: s
  | _ => lit "null"
  end.

Definition mini_dump (v : pyval) : str :=
  match v with
  | PDict d =>
      d ≫= fun e => mini_scalar (fst e) ++ lit ": " ++ mini_scalar (snd e) ++ [Py.LF]
  | _ => mini_scalar v ++ [Py.LF]
  end.

Definition mini_unquote (s : str) : str :=
  if Py.startswith s (lit "'") && Py.endswith s (lit "'") && bool_decide (2 <= length s)
  then take (length s - 2) (drop 1 s) else s.

Definition mini_load_line (line : str) : option (pyval * pyval) :=
  match Py.split (lit ": ") 1 line with
  | [k; v] => Some (PStr (mini_unquote k), PStr (mini_unquote v))
  | _ => None
  end.

Definition mini_load (s : str) : option pyval :=
  let lines := filter (fun l => l <> []) (Py.splitlines s) in
  match lines with
  | [] => Some PNone
  | _ => PDict <$> mapM mini_load_line lines
  end.

(** A document whose title holds the delimiter. *)
Definition dashed_meta : list (pyval * pyval) :=
  [(PStr (lit "title"), PStr (lit "a---b"))].

Definition plain_meta : list (pyval * pyval) :=
  [(PStr (lit "title"), PStr (lit "T")); (PStr (lit "category"), PStr (lit "libs"))].

(** The fragment with lists of texts, which are written in block style,
    the empty list as [[]]; a single line without a colon is read as a
    text. *)
Definition block_entry (e : pyval * pyval) : str :=
  match snd e with
  | PList [] => mini_scalar (fst e) ++ lit ": []" ++ [Py.LF]
  | PList l =>
      mini_scalar (fst e) ++ lit ":" ++ [Py.LF]
        ++ (l ≫= fun x => lit "- " ++ mini_scalar x ++ [Py.LF])
  | v => mini_scalar (fst e) ++ lit ": " ++ mini_scalar v ++ [Py.LF]
  end.

Definition block_dump (v : pyval) : str :=
  match v with
  | PDict d => d ≫= block_entry
  | _ => mini_scalar v ++ [Py.LF]
  end.

(** One line of the block style: an item of the list of the last entry,
    the start of a list, or an entry. *)
Definition block_load_line (acc : option (list (pyval * pyval))) (line : str)
  : option (list (pyval * pyval)) :=
  acc ≫= fun d =>
    if Py.startswith line (lit "- ") then
      match last d with
      | Some (k, PList l) =>
          Some (removelast d ++ [(k, PList (l ++ [PStr (mini_unquote (drop 2 line))]))])
      | _ => None
      end
    else if Py.endswith line (lit ":") then
      Some (d ++ [(PStr (take (length line - 1) line), PList [])])
    else
      match Py.split (lit ": ") 1 line with
      | [k; v] =>
          Some (d ++ [(PStr (mini_unquote k),
                       if bool_decide (v = lit "[]") then PList []
                       else PStr (mini_unquote v))])
      | _ => None
      end.

Definition block_load (s : str) : option pyval :=
  let lines := filter (fun l => l <> []) (Py.splitlines s) in
  match lines with
  | [] => Some PNone
  | [line] =>
      if Py.contains line (lit ":") || Py.startswith line (lit "- ")
      then PDict <$> block_load_line (Some []) line
      else Some (PStr (mini_unquote line))
  | _ => PDict <$> foldl block_load_line (Some []) lines
  end.



(** A document whose frontmatter is longer than 50 lines. *)
Definition long_doc : str :=
  text (["---"; "title: T"] ++ replicate 50 "# filler"%string ++ ["---"; "# T"]).

Definition long_store : fs :=
  FS (lit "/kb")
    {[ path_key ["kb"; "libs"; "long.md"] := long_doc ]}
    (list_to_set [path_key []; path_key ["kb"]; path_key ["kb"; "libs"]])
    [].

(** A base with the document [a.md] in two directories. *)
Definition twin_store : fs :=
  FS (lit "/kb")
    {[ path_key ["kb"; "libs"; "a.md"] := demo_doc;
       path_key ["kb"; "docs"; "a.md"] := secret_doc ]}
    (list_to_set [path_key []; path_key ["kb"]; path_key ["kb"; "libs"];
                  path_key ["kb"; "docs"]])
    [].

(** * Properties *)

(** ** Strings *)

Section strings.
Implicit Types (s t : str) (c : ascii) (p : ascii -> bool).

Lemma startswith_spec s t : Py.startswith s t = true <-> exists r, s = t ++ r.
Proof.
  revert s; induction t as [|a t IH]; intros s; simpl.
  - split; [eauto|done].
  - destruct s as [|b s]; simpl.
    + split; [done|]. intros [r Hr]; discriminate.
    + rewrite andb_true_iff, bool_decide_eq_true, IH. split.
      * intros [-> [r ->]]. eauto.
      * intros [r Hr]. injection Hr as -> ->. eauto.
Qed.

Lemma startswith_nil s : Py.startswith s [] = true.
Proof. by destruct s. Qed.

Lemma contains_spec s t :
  Py.contains s t = true <-> exists l r, s = l ++ t ++ r.
Proof.
  induction s as [|b s IH]; simpl.
  - rewrite orb_false_r, startswith_spec. split.
    + intros [r Hr]. exists [], r. done.
    + intros (l & r & H). destruct l; [|done]. eauto.
  - rewrite orb_true_iff, IH, startswith_spec. split.
    + intros [[r Hr]|(l & r & ->)].
      * exists [], r. done.
      * exists (b :: l), r. done.
    + intros (l & r & H). destruct l as [|x l]; simpl in H.
      * left. eauto.
      * right. injection H as -> ->. eauto.
Qed.

Lemma contains_nil s : Py.contains s [] = true.
Proof. apply contains_spec. exists [], s. done. Qed.

Lemma lstrip_by_spec p s :
  exists l, s = l ++ Py.lstrip_by p s /\ forallb p l = true
            /\ (match Py.lstrip_by p s with c :: _ => p c = false | [] => True end).
Proof.
  induction s as [|c s (l & Hl & Hp & Hh)]; simpl.
  - exists []. done.
  - destruct (p c) eqn:Hc.
    + exists (c :: l). simpl. rewrite Hc, Hp. split; [by f_equal|done].
    + exists []. done.
Qed.

Lemma lstrip_by_all p s : forallb p s = true -> Py.lstrip_by p s = [].
Proof.
  induction s as [|c s IH]; simpl; [done|].
  intros [Hc Hs]%andb_true_iff. rewrite Hc. auto.
Qed.

Lemma lstrip_by_app_all p l s :
  forallb p l = true -> Py.lstrip_by p (l ++ s) = Py.lstrip_by p s.
Proof.
  induction l as [|c l IH]; simpl; [done|].
  intros [Hc Hs]%andb_true_iff. rewrite Hc. auto.
Qed.

Lemma lstrip_by_head p c s : p c = false -> Py.lstrip_by p (c :: s) = c :: s.
Proof. simpl. by intros ->. Qed.

(** [strip] cuts a run of whitespace at each end and leaves a text that
    neither starts nor ends with whitespace. *)
Lemma strip_spec s :
  exists l r, s = l ++ Py.strip s ++ r
    /\ forallb Py.isspace l = true /\ forallb Py.isspace r = true
    /\ (match Py.strip s with c :: _ => Py.isspace c = false | [] => True end)
    /\ (match last (Py.strip s) with Some c => Py.isspace c = false | None => True end).
Proof.
  unfold Py.strip, Py.rstrip_by.
  destruct (lstrip_by_spec Py.isspace s) as (l & Hl & Hlp & Hlh).
  set (u := Py.lstrip_by Py.isspace s) in *.
  destruct (lstrip_by_spec Py.isspace (rev u)) as (r & Hr & Hrp & Hrh).
  set (v := Py.lstrip_by Py.isspace (rev u)) in *.
  assert (Hu : u = rev v ++ rev r).
  { rewrite <- (rev_involutive u), Hr, rev_app_distr. done. }
  exists l, (rev r). split; [by rewrite Hl at 1; rewrite Hu at 1|].
  split; [done|]. split.
  { rewrite forallb_forall in *. intros x Hx. apply Hrp. by apply in_rev. }
  split.
  - destruct (rev v) as [|c w] eqn:Hv; [done|].
    rewrite Hu in Hlh. simpl in Hlh. done.
  - rewrite <- (rev_involutive v) in Hrh.
    destruct (rev v) as [|c w] eqn:Hv using rev_ind; [done|].
    rewrite last_snoc. rewrite rev_unit in Hrh. done.
Qed.

Lemma strip_elem s c : c ∈ Py.strip s -> c ∈ s.
Proof.
  destruct (strip_spec s) as (l & r & Hs & _). intros H.
  rewrite Hs. set_solver.
Qed.

Lemma strip_all_space s : forallb Py.isspace s = true -> Py.strip s = [].
Proof.
  intros H. unfold Py.strip. rewrite (lstrip_by_all _ _ H). done.
Qed.

Lemma strip_nil_inv s : Py.strip s = [] -> forallb Py.isspace s = true.
Proof.
  destruct (strip_spec s) as (l & r & Hs & Hl & Hr & _). intros E.
  rewrite E in Hs. simpl in Hs. rewrite Hs, forallb_app, Hl, Hr. done.
Qed.

End strings.

Lemma elem_of_rev {A} (x : A) l : x ∈ rev l <-> x ∈ l.
Proof. rewrite !list_elem_of_In. symmetry. apply in_rev. Qed.

Lemma splitlines_from_no_break s : forall cur,
  no_break cur -> Forall no_break (Py.splitlines_from cur s).
Proof.
  induction s as [s IH] using (induction_ltof1 _ (@length ascii)).
  unfold ltof in IH. intros cur Hcur. destruct s as [|c s]; simpl.
  - destruct cur; [constructor|]. repeat constructor.
    intros x Hx. apply Hcur. by apply elem_of_rev.
  - destruct (Py.islinebreak c) eqn:Hc.
    + constructor.
      { intros x Hx. apply Hcur. by apply elem_of_rev. }
      destruct s as [|d s]; [by constructor|].
      destruct (_ && _); apply IH; simpl; try lia; by intros ? ?%elem_of_nil.
    + apply IH; [simpl; lia|]. intros x [->|Hx]%elem_of_cons; auto.
Qed.

Lemma splitlines_no_break content : Forall no_break (Py.splitlines content).
Proof. apply splitlines_from_no_break. by intros ? ?%elem_of_nil. Qed.

Lemma no_break_strip s : no_break s -> no_break (Py.strip s).
Proof. intros H c Hc. apply H. by apply strip_elem. Qed.

Lemma no_break_not_LF s : no_break s -> Py.LF ∉ s.
Proof. intros H Hin. by apply H in Hin. Qed.

(** ** The pattern *)

Lemma longest_first_Some {A} n (f : nat -> option A) x :
  longest_first n f = Some x -> exists k, 1 <= k <= n /\ f k = Some x.
Proof.
  induction n as [|n IH]; simpl; [done|].
  destruct (f (S n)) eqn:E.
  - intros [= ->]. exists (S n). split; [lia|done].
  - intros (k & Hk & Hf)%IH. exists k. split; [lia|done].
Qed.

Lemma longest_first_top {A} n (f : nat -> option A) x :
  1 <= n -> f n = Some x -> longest_first n f = Some x.
Proof. destruct n; [lia|]. simpl. by intros _ ->. Qed.

Lemma longest_first_None {A} n (f : nat -> option A) :
  (forall k, 1 <= k <= n -> f k = None) -> longest_first n f = None.
Proof.
  induction n as [|n IH]; simpl; [done|]. intros H.
  rewrite (H (S n)) by lia. apply IH. intros k Hk. apply H. lia.
Qed.

Lemma span_le p s : span p s <= length s.
Proof. induction s as [|c s IH]; simpl; [done|]. destruct (p c); simpl; lia. Qed.

Lemma span_take p s k : k <= span p s -> forallb p (take k s) = true.
Proof.
  revert k; induction s as [|c s IH]; intros [|k]; simpl; try done.
  destruct (p c) eqn:E; [|lia]. intros H. rewrite IH by lia. done.
Qed.

Lemma span_app_stop p l c s :
  forallb p l = true -> p c = false -> span p (l ++ c :: s) = length l.
Proof.
  induction l as [|x l IH]; simpl.
  - by intros _ ->.
  - intros [-> Hl]%andb_true_iff Hc. by rewrite IH.
Qed.

Lemma span_all p s : forallb p s = true -> span p s = length s.
Proof.
  induction s as [|c s IH]; simpl; [done|].
  intros [-> Hs]%andb_true_iff. by rewrite IH.
Qed.

Lemma span_drop_head p s :
  match drop (span p s) s with c :: _ => p c = false | [] => True end.
Proof. induction s as [|c s IH]; simpl; [done|]. destruct (p c) eqn:E; done. Qed.

Lemma forallb_replicate_hash k : forallb is_hash (replicate k "#"%char) = true.
Proof. induction k; simpl; [done|]. done. Qed.

Lemma forallb_is_hash s : forallb is_hash s = true -> s = replicate (length s) "#"%char.
Proof.
  induction s as [|c s IH]; simpl; [done|].
  intros [Hc Hs]%andb_true_iff. apply bool_decide_eq_true in Hc as ->.
  by rewrite <- IH.
Qed.

Lemma isspace_not_hash c : Py.isspace c = true -> is_hash c = false.
Proof.
  intros H. unfold is_hash. apply bool_decide_eq_false. intros ->. done.
Qed.

Lemma re_match_heading_sound s g1 g2 :
  re_match_heading s = Some (g1, g2) ->
  begins_with_heading s /\ 1 <= length g1 <= 6
  /\ g1 = replicate (length g1) "#"%char.
Proof.
  unfold re_match_heading.
  intros (k & Hk & (m & Hm & (n & Hn & H)%longest_first_Some)%longest_first_Some)
    %longest_first_Some.
  destruct (at_dollar _) eqn:Hd; [|done]. injection H as <- <-.
  pose proof (span_le is_hash s) as Hle.
  pose proof (span_le Py.isspace (drop k s)) as Hle1.
  pose proof (span_le is_dot (drop m (drop k s))) as Hle2.
  assert (Hh : take k s = replicate k "#"%char).
  { rewrite (forallb_is_hash (take k s)) by (apply span_take; lia).
    rewrite length_take. f_equal. rewrite length_drop in Hle1. lia. }
  split; [|split].
  - exists k, (take m (drop k s)), (drop m (drop k s)).
    rewrite take_drop, <- Hh, take_drop. split; [done|]. split; [lia|].
    split. { intros E. apply (f_equal length) in E. rewrite length_take, length_drop in E. rewrite length_drop in Hle1. simpl in E. lia. }
    split. { apply span_take. lia. }
    intros E. apply (f_equal length) in E. rewrite !length_drop in *. simpl in E. lia.
  - rewrite length_take. lia.
  - rewrite length_take. replace (k `min` length s) with k by lia. done.
Qed.

Lemma re_match_heading_complete s :
  Py.LF ∉ s ->
  match last s with Some c => Py.isspace c = false | None => True end ->
  begins_with_heading s ->
  exists k w, 1 <= k <= 6 /\ 1 <= w
    /\ re_match_heading s = Some (take k s, drop (k + w) s)
    /\ drop (k + w) s <> [].
Proof.
  intros HLF Hlast (k & ws & txt & -> & Hk & Hws & Hsp & Htxt).
  destruct ws as [|c ws]; [done|]. simpl in Hsp.
  apply andb_true_iff in Hsp as [Hc Hsp].
  set (s1 := (c :: ws) ++ txt).
  set (w := span Py.isspace s1).
  assert (Hspan : span is_hash (replicate k "#"%char ++ s1) = k).
  { unfold s1. simpl. rewrite span_app_stop.
    - by rewrite length_replicate.
    - apply forallb_replicate_hash.
    - by apply isspace_not_hash. }
  assert (Hdropk : drop k (replicate k "#"%char ++ s1) = s1).
  { rewrite drop_app_length'; [done|]. by rewrite length_replicate. }
  assert (Hw : 1 <= w).
  { unfold w, s1. simpl. rewrite Hc. lia. }
  assert (Hs2 : drop w s1 <> []).
  { intros E. pose proof (span_le Py.isspace s1) as Hle.
    apply drop_nil_inv in E.
    assert (Hall : forallb Py.isspace s1 = true).
    { rewrite <- (take_ge s1 w) by done. apply span_take. done. }
    rewrite last_app in Hlast. fold s1 in Hlast.
    destruct (last s1) as [x|] eqn:Hl.
    - assert (x ∈ s1) as Hx.
      { destruct (proj1 (last_Some _ _) Hl) as [l' El]. rewrite El.
        apply elem_of_app. right. by apply list_elem_of_singleton. }
      rewrite forallb_forall in Hall. rewrite list_elem_of_In in Hx.
      apply Hall in Hx. congruence.
    - apply last_None in Hl. done. }
  assert (Hdot : span is_dot (drop w s1) = length (drop w s1)).
  { apply span_all. apply forallb_forall. intros x Hx.
    unfold is_dot. apply negb_true_iff, bool_decide_eq_false. intros ->.
    apply HLF. rewrite <- list_elem_of_In in Hx.
    apply elem_of_app. right. fold s1.
    by apply (subseteq_drop w s1). }
  exists k, w. split; [done|]. split; [done|]. split; [|by rewrite <- drop_drop, Hdropk].
  unfold re_match_heading. fold s1. rewrite Hspan.
  replace (k `min` 6) with k by lia.
  apply longest_first_top; [lia|]. rewrite Hdropk. fold w.
  apply longest_first_top; [done|].
  apply longest_first_top.
  { rewrite Hdot. destruct (drop w s1) eqn:E; [by destruct Hs2|simpl; lia]. }
  rewrite Hdot, drop_all. simpl. rewrite firstn_all.
  rewrite <- drop_drop, Hdropk. done.
Qed.

Lemma parse_heading_level line L t :
  parse_heading line = Some (L, t) -> 1 <= L <= 6.
Proof.
  unfold parse_heading. destruct (re_match_heading _) as [[g1 g2]|] eqn:E; [|done].
  intros [= <- <-]. by apply re_match_heading_sound in E as (_ & H & _).
Qed.

Lemma parse_heading_iff line :
  no_break line ->
  is_Some (parse_heading line) <-> begins_with_heading (Py.strip line).
Proof.
  intros Hnb. unfold parse_heading. split.
  - destruct (re_match_heading _) as [[g1 g2]|] eqn:E; [|by intros [? ?]].
    intros _. by apply re_match_heading_sound in E as (H & _).
  - intros H.
    destruct (re_match_heading_complete (Py.strip line)) as (k & w & _ & _ & -> & _);
      [| |done|done].
    + by apply no_break_not_LF, no_break_strip.
    + by destruct (strip_spec line) as (_ & _ & _ & _ & _ & _ & Hl).
Qed.

(** ** Counters and ids *)

Lemma outline_loop_cons i line rest cs :
  outline_loop i (line :: rest) cs =
  match parse_heading line with
  | Some (L, t) =>
      Node (make_id L (bump L cs)) t L (i + 1) :: outline_loop (S i) rest (bump L cs)
  | None => outline_loop (S i) rest cs
  end.
Proof.
  simpl. unfold parse_heading.
  by destruct (re_match_heading _) as [[g1 g2]|].
Qed.

Lemma reset_deeper_length L cs : length (reset_deeper L cs) = length cs.
Proof.
  unfold reset_deeper. generalize (seq (L + 1) (7 - (L + 1))) as l. intros l.
  revert cs. induction l as [|j l IH]; intros cs; simpl; [done|].
  by rewrite IH, length_insert.
Qed.

Lemma bump_length L cs : length (bump L cs) = length cs.
Proof. unfold bump. by rewrite reset_deeper_length, length_insert. Qed.

Lemma getc_bump L cs l :
  length cs = 7 -> 1 <= L <= 6 -> l <= 6 ->
  getc (bump L cs) l = spec_step L (getc cs) l.
Proof.
  intros Hlen HL Hl.
  do 8 (destruct cs as [|? cs]; try discriminate Hlen).
  assert (L = 1 \/ L = 2 \/ L = 3 \/ L = 4 \/ L = 5 \/ L = 6) as HLs by lia.
  assert (l = 0 \/ l = 1 \/ l = 2 \/ l = 3 \/ l = 4 \/ l = 5 \/ l = 6) as Hls by lia.
  destruct HLs as [->|[->|[->|[->|[->| ->]]]]];
    destruct Hls as [->|[->|[->|[->|[->|[->| ->]]]]]]; reflexivity.
Qed.

Lemma agree_bump L cs c :
  1 <= L <= 6 -> agree cs c -> agree (bump L cs) (spec_step L c).
Proof.
  intros HL [Hlen H]. split; [by rewrite bump_length|].
  intros l Hl. rewrite getc_bump by lia. unfold spec_step.
  repeat case_decide; rewrite ?H by lia; done.
Qed.

Lemma make_id_spec L cs c :
  1 <= L <= 6 -> agree cs c -> make_id L cs = spec_id L c.
Proof.
  intros HL [Hlen H]. unfold make_id, spec_id, Py.slice. f_equal.
  replace (L + 1 - 1) with L by lia.
  do 8 (destruct cs as [|? cs]; try discriminate Hlen).
  assert (L = 1 \/ L = 2 \/ L = 3 \/ L = 4 \/ L = 5 \/ L = 6) as HLs by lia.
  destruct HLs as [->|[->|[->|[->|[->| ->]]]]]; simpl;
    rewrite <- ?H by lia; reflexivity.
Qed.

Lemma outline_loop_ids i lines cs c :
  agree cs c ->
  map node_id (outline_loop i lines cs)
  = spec_ids (map node_level (outline_loop i lines cs)) c.
Proof.
  revert i cs c. induction lines as [|line rest IH]; intros i cs c Hag; [done|].
  rewrite outline_loop_cons.
  destruct (parse_heading line) as [[L t]|] eqn:E; [|by apply IH].
  pose proof (parse_heading_level _ _ _ E) as HL.
  simpl. f_equal.
  - apply make_id_spec; [done|]. by apply agree_bump.
  - apply IH. by apply agree_bump.
Qed.

Lemma agree_init : agree (replicate 7 0) (fun _ => 0).
Proof.
  split; [done|]. intros l Hl.
  assert (l = 1 \/ l = 2 \/ l = 3 \/ l = 4 \/ l = 5 \/ l = 6) as Hls by lia.
  destruct Hls as [->|[->|[->|[->|[->| ->]]]]]; reflexivity.
Qed.

Lemma outline_loop_levels i lines cs :
  map node_level (outline_loop i lines cs)
  = omap (fun line => fst <$> parse_heading line) lines.
Proof.
  revert i cs. induction lines as [|line rest IH]; intros i cs; [done|].
  rewrite outline_loop_cons. simpl.
  destruct (parse_heading line) as [[L t]|] eqn:E; simpl; [f_equal|]; apply IH.
Qed.

(** ** Lines and nodes *)

Lemma outline_loop_line_start_gt i lines cs n :
  n ∈ outline_loop i lines cs -> i < node_line_start n.
Proof.
  revert i cs. induction lines as [|line rest IH]; intros i cs.
  - by intros ?%elem_of_nil.
  - rewrite outline_loop_cons. destruct (parse_heading line) as [[L t]|].
    + intros [->|H]%elem_of_cons; [simpl; lia|]. apply IH in H. lia.
    + intros H. apply IH in H. lia.
Qed.

Lemma outline_loop_line_start i lines cs k :
  (exists n, n ∈ outline_loop i lines cs /\ node_line_start n = i + k + 1)
  <-> exists line, lines !! k = Some line /\ is_Some (parse_heading line).
Proof.
  revert i cs k. induction lines as [|line rest IH]; intros i cs k.
  - simpl. split.
    + by intros (n & ?%elem_of_nil & _).
    + by intros (line & ? & _).
  - rewrite outline_loop_cons. destruct k as [|k].
    + simpl. destruct (parse_heading line) as [[L t]|] eqn:E.
      * split; [intros _; eauto|]. intros _. eexists. split; [left|]. simpl. lia.
      * split.
        -- intros (n & Hn%outline_loop_line_start_gt & Hs). lia.
        -- intros (l & [= <-] & [? ?]). congruence.
    + simpl. replace (i + S k + 1) with (S i + k + 1) by lia.
      destruct (parse_heading line) as [[L t]|] eqn:E.
      * rewrite <- (IH (S i) (bump L cs) k). split.
        -- intros (n & [->|Hn]%elem_of_cons & Hs); [simpl in Hs; lia|]. eauto.
        -- intros (n & Hn & Hs). exists n. split; [by right|done].
      * apply IH.
Qed.

(** ** Dots in an id *)

Lemma dots_app s t : dots (s ++ t) = dots s + dots t.
Proof. unfold dots. by rewrite filter_app, length_app. Qed.

Lemma dots_uint u : dots (lit (NilEmpty.string_of_uint u)) = 0.
Proof. induction u; simpl; try done. Qed.

Lemma dots_str_of_nat n : dots (Py.str_of_nat n) = 0.
Proof. apply dots_uint. Qed.

Lemma join_cons2 sep p q ps :
  Py.join sep (p :: q :: ps) = p ++ sep ++ Py.join sep (q :: ps).
Proof. reflexivity. Qed.

Lemma dots_join parts :
  Forall (fun p => dots p = 0) parts ->
  dots (Py.join (lit ".") parts) = length parts - 1.
Proof.
  induction 1 as [|p ps Hp Hps IH]; [done|].
  destruct ps as [|q ps]; [by simpl; rewrite Hp|].
  rewrite join_cons2, !dots_app, IH, Hp. simpl. lia.
Qed.

Lemma dots_make_id L cs :
  length cs = 7 -> 1 <= L <= 6 -> dots (make_id L cs) = L - 1.
Proof.
  intros Hlen HL. unfold make_id, Py.slice. rewrite dots_join.
  - rewrite length_map, length_take, length_drop. lia.
  - apply Forall_forall. intros p (n & -> & _)%list_elem_of_fmap.
    apply dots_str_of_nat.
Qed.

(** ** The scan *)

Lemma scan_loop_cons nid exp i line rest st :
  scan_loop nid exp i (line :: rest) st =
  match parse_heading line with
  | Some (L, t) =>
      if st_target_found st && bool_decide (L <= st_current_level st) then
        ScanDone (ScanState (st_counters st) true (st_current_level st)
                    (st_update_start st) (Z.of_nat i))
      else if bool_decide (make_id L (bump L (st_counters st)) = nid) then
        if lock_fails exp t then LockFailed t
        else scan_loop nid exp (S i) rest
               (ScanState (bump L (st_counters st)) true L (Z.of_nat i)
                  (st_update_end st))
      else scan_loop nid exp (S i) rest
             (ScanState (bump L (st_counters st)) (st_target_found st)
                (st_current_level st) (st_update_start st) (st_update_end st))
  | None => scan_loop nid exp (S i) rest st
  end.
Proof.
  simpl. unfold parse_heading.
  by destruct (re_match_heading _) as [[g1 g2]|].
Qed.

Lemma end_mark_cons_le L n hs :
  node_level n <= L -> end_mark L (n :: hs) = Z.of_nat (node_line_start n - 1).
Proof. intros H. unfold end_mark. simpl. by rewrite decide_True. Qed.

Lemma end_mark_cons_gt L n hs :
  L < node_level n -> end_mark L (n :: hs) = end_mark L hs.
Proof.
  intros H. unfold end_mark. simpl. rewrite decide_False by lia.
  by destruct (list_find _ hs) as [[j u]|].
Qed.

(** Once the target is found at level [L], the scan runs to the first
    heading of level at most [L]; no deeper heading carries the target's
    id, which has [L - 1] dots. *)
Lemma scan_found nid exp i lines cs L us :
  length cs = 7 -> 1 <= L -> dots nid = L - 1 ->
  exit_summary (scan_loop nid exp i lines (ScanState cs true L us (-1)))
  = inr (true, L, us, end_mark L (outline_loop i lines cs)).
Proof.
  intros Hlen HL Hd. revert i cs Hlen.
  induction lines as [|line rest IH]; intros i cs Hlen; [done|].
  rewrite scan_loop_cons, outline_loop_cons.
  destruct (parse_heading line) as [[L' t]|] eqn:E; [|by apply IH].
  pose proof (parse_heading_level _ _ _ E) as HL'. simpl.
  destruct (bool_decide (L' <= L)) eqn:Hle.
  - apply bool_decide_eq_true in Hle. rewrite end_mark_cons_le by done.
    simpl. do 2 f_equal. lia.
  - apply bool_decide_eq_false in Hle. rewrite end_mark_cons_gt by (simpl; lia).
    rewrite bool_decide_eq_false_2.
    + apply IH. by rewrite bump_length.
    + intros Heq. apply (f_equal dots) in Heq.
      rewrite dots_make_id in Heq; [lia| by rewrite bump_length | done].
Qed.

(** Before the target is found. *)
Lemma scan_search nid exp i lines cs :
  length cs = 7 ->
  exit_summary (scan_loop nid exp i lines (ScanState cs false 0 (-1) (-1)))
  = match find_target nid (outline_loop i lines cs) with
    | None => inr (false, 0, (-1)%Z, (-1)%Z)
    | Some (j, t) =>
        if lock_fails exp (node_title t) then inl (node_title t)
        else inr (true, node_level t, Z.of_nat (node_line_start t - 1),
                  end_mark (node_level t) (drop (S j) (outline_loop i lines cs)))
    end.
Proof.
  revert i cs. induction lines as [|line rest IH]; intros i cs Hlen; [done|].
  rewrite scan_loop_cons, outline_loop_cons.
  destruct (parse_heading line) as [[L t]|] eqn:E; [|by apply IH].
  pose proof (parse_heading_level _ _ _ E) as HL. simpl.
  unfold find_target. simpl.
  destruct (decide (make_id L (bump L cs) = nid)) as [Hid|Hid].
  - rewrite bool_decide_eq_true_2 by done. simpl.
    destruct (lock_fails exp t); [done|].
    rewrite scan_found; [| by rewrite bump_length | lia |].
    + do 3 f_equal. lia.
    + rewrite <- Hid. apply dots_make_id; [by rewrite bump_length | done].
  - rewrite bool_decide_eq_false_2 by done.
    rewrite IH by (by rewrite bump_length). unfold find_target.
    by destruct (list_find _ (outline_loop (S i) rest (bump L cs))) as [[j u]|].
Qed.

Lemma edit_section_summary content nid exp new :
  edit_section content nid exp new
  = edit_of_summary content new
      (exit_summary (scan_loop nid exp 0 (Py.splitlines content) scan_init)).
Proof.
  unfold edit_section. by destruct (scan_loop _ _ _ _ _) as [t|[cs f cl us ue]].
Qed.

(** The edit in terms of the outline: the target is the first node with
    the id, its range runs to [range_end]. *)
Theorem edit_section_spec content nid exp new :
  let lines := Py.splitlines content in
  let outline := _get_outline_tree content in
  edit_section content nid exp new =
  match find_target nid outline with
  | None => EditSectionNotFound
  | Some (j, t) =>
      if lock_fails exp (node_title t) then EditLockMismatch (node_title t)
      else
        let s := node_line_start t - 1 in
        let e := range_end (length lines) (node_level t) (drop (S j) outline) in
        EditOk
          (finish content
             (Py.join [Py.LF] (take s lines ++ Py.splitlines new ++ drop e lines)))
          (Z.of_nat s) (Z.of_nat e) (length (Py.splitlines new))
  end.
Proof.
  intros lines outline. rewrite edit_section_summary.
  unfold scan_init. rewrite scan_search by done.
  fold lines. change (outline_loop 0 lines (replicate 7 0)) with outline.
  destruct (find_target nid outline) as [[j t]|]; [|done].
  destruct (lock_fails exp (node_title t)); [done|].
  unfold edit_of_summary, end_mark, range_end. simpl. fold lines.
  destruct (list_find _ (drop (S j) outline)) as [[j' u]|].
  - rewrite bool_decide_eq_false_2 by lia. by rewrite !Nat2Z.id.
  - rewrite bool_decide_eq_true_2 by done. by rewrite !Nat2Z.id.
Qed.

(** ** Running the store computations *)

Lemma pair_snd {A B} (p : A * B) (b : B) : snd p = b -> p = (fst p, b).
Proof. intros <-. apply surjective_pairing. Qed.

Lemma bind_run {A B} (m : M A) (k : A -> M B) s :
  (m ≫= k) s = match m s with
               | (s', Ok a) => k a s'
               | (s', Raise e) => (s', Raise e)
               end.
Proof. reflexivity. Qed.

Lemma ret_run {A} (a : A) s : (mret a : M A) s = (s, Ok a).
Proof. reflexivity. Qed.

Ltac run_step := rewrite ?bind_run, ?ret_run in *.

Lemma validate_path_state p s s' r : _validate_path p s = (s', r) -> s' = s.
Proof.
  unfold _validate_path. destruct (Py.contains _ _).
  - by intros [= <- _].
  - rewrite bind_run. unfold getcwd. destruct (negb _); by intros [= <- _].
Qed.

Lemma path_exists_run p s :
  path_exists p s
  = (s, Ok (is_file s (key_of (fs_cwd s) p) || is_dir s (key_of (fs_cwd s) p))).
Proof. reflexivity. Qed.

Lemma try_value_run {A} (m : M A) h s :
  try_value m h s = match m s with
                    | (s', Raise (ValueError e)) => h e s'
                    | r => r
                    end.
Proof. reflexivity. Qed.

Lemma exact_match_state p s s' r : exact_match p s = (s', r) -> s' = s.
Proof.
  unfold exact_match. rewrite try_value_run, bind_run.
  destruct (_validate_path p s) as [s1 [a|e]] eqn:Hv;
    apply validate_path_state in Hv as ->.
  - rewrite path_exists_run. by intros [= <- _].
  - destruct e; by intros [= <- _].
Qed.

Lemma smart_resolve_path_state p s s' r :
  _smart_resolve_path p s = (s', r) -> s' = s.
Proof.
  unfold _smart_resolve_path. rewrite bind_run.
  destruct (exact_match p s) as [s1 [a|e]] eqn:Hv;
    apply exact_match_state in Hv as ->.
  - destruct a.
    + by intros [= <- _].
    + rewrite bind_run. unfold getcwd. rewrite bind_run. unfold walk.
      destruct (foldl _ _ _) as [|c [|c' cs]]; by intros [= <- _].
  - by intros [= <- _].
Qed.

(** ** Opening the document *)

Lemma bind_inv {A B} (m : M A) (k : A -> M B) s s' b :
  (m ≫= k) s = (s', Ok b) ->
  exists s1 a, m s = (s1, Ok a) /\ k a s1 = (s', Ok b).
Proof. rewrite bind_run. destruct (m s) as [s1 [a|e]]; [eauto|done]. Qed.

Lemma makedirs_inv p s s' u :
  makedirs p s = (s', Ok u) ->
  s' = FS (fs_cwd s) (fs_files s)
         (fs_dirs s ∪ list_to_set (prefixes (key_of (fs_cwd s) p))) (fs_log s).
Proof.
  unfold makedirs. destruct (is_file s _); [done|].
  destruct (existsb _ _); [done|]. by intros [= <- _].
Qed.

Lemma copy2_inv src dst s s' u :
  copy2 src dst s = (s', Ok u) ->
  exists data,
    fs_files s !! key_of (fs_cwd s) src = Some data
    /\ copy_target s src dst <> key_of (fs_cwd s) src
    /\ s' = FS (fs_cwd s) (<[copy_target s src dst := data]> (fs_files s))
              (fs_dirs s)
              (fs_log s ++ [Read (key_of (fs_cwd s) src);
                            Write (copy_target s src dst)]).
Proof.
  unfold copy2.
  set (ks := key_of (fs_cwd s) src). set (kd := copy_target s src dst).
  destruct (bool_decide (ks = kd) && _) eqn:Hsame; [done|].
  destruct (fs_files s !! ks) as [data|] eqn:Hdata; [|done].
  destruct (open_for_write _ kd); [done|].
  intros [= <- _]. exists data. split; [done|]. split.
  - intros Heq. rewrite bool_decide_eq_true_2 in Hsame by done.
    unfold is_file in Hsame. rewrite Hdata in Hsame.
    rewrite bool_decide_eq_true_2 in Hsame by eauto. done.
  - unfold logged, with_file. simpl. by rewrite <- app_assoc.
Qed.

Lemma read_text_inv p s s' content :
  read_text p s = (s', Ok content) ->
  exists data,
    fs_files s !! key_of (fs_cwd s) p = Some data
    /\ content = universal_newlines data
    /\ s' = logged (Read (key_of (fs_cwd s) p)) s.
Proof.
  unfold read_text. destruct (fs_files s !! _) as [data|]; [|done].
  intros [= <- <-]. eauto.
Qed.

Lemma open_document_inv now path s s1 resolved abs content :
  open_document now path s = (s1, Ok (resolved, Some (abs, content))) ->
  exists data,
    let k := key_of (fs_cwd s) abs in
    let kd := snapshot_key now resolved abs s in
    _smart_resolve_path path s = (s, Ok resolved)
    /\ _validate_path resolved s = (s, Ok abs)
    /\ fs_files s !! k = Some data
    /\ content = universal_newlines data
    /\ kd <> k
    /\ s1 = FS (fs_cwd s) (<[kd := data]> (fs_files s))
              (fs_dirs (with_history_dir resolved s))
              (fs_log s ++ [Read k; Write kd; Read k]).
Proof.
  unfold open_document.
  intros (s0 & r & Hr & H)%bind_inv.
  pose proof (smart_resolve_path_state _ _ _ _ Hr) as ->.
  apply bind_inv in H as (s0 & a & Hv & H).
  pose proof (validate_path_state _ _ _ _ Hv) as ->.
  apply bind_inv in H as (s0 & found & Hf & H).
  rewrite path_exists_run in Hf. injection Hf as <- <-.
  destruct (is_file s _ || is_dir s _) eqn:Hex; simpl in H.
  2:{ rewrite ret_run in H. done. }
  apply bind_inv in H as (s2 & o & Hsnap & H).
  apply bind_inv in H as (s3 & c & Hread & H).
  rewrite ret_run in H. injection H as <- <- <- <-.
  unfold _create_snapshot in Hsnap.
  apply bind_inv in Hsnap as (s0 & found & Hf & Hsnap).
  rewrite path_exists_run in Hf. injection Hf as <- <-.
  rewrite Hex in Hsnap.
  apply bind_inv in Hsnap as (s4 & hd & Hhd & Hsnap).
  unfold _ensure_history_dir in Hhd.
  apply bind_inv in Hhd as (s5 & u & Hmk & Hhd).
  rewrite ret_run in Hhd. injection Hhd as <- <-.
  apply makedirs_inv in Hmk. fold (with_history_dir r s) in Hmk. subst s5.
  apply bind_inv in Hsnap as (s6 & u' & Hcp & Hsnap).
  rewrite ret_run in Hsnap. injection Hsnap as <- <-.
  fold (snapshot_path now r) in Hcp.
  apply copy2_inv in Hcp as (data & Hdata & Hne & ->).
  fold (snapshot_key now r a s) in *. simpl in *.
  apply read_text_inv in Hread as (data' & Hdata' & -> & ->). simpl in *.
  rewrite lookup_insert_ne in Hdata' by done.
  assert (data' = data) as -> by congruence.
  exists data. split_and!; try done.
  unfold logged. simpl. f_equal. by rewrite <- app_assoc.
Qed.

Lemma update_opened now path nid exp new s s1 resolved abs content :
  open_document now path s = (s1, Ok (resolved, Some (abs, content))) ->
  nid <> lit "APPEND" ->
  update_knowledge_section now path nid exp new s =
  match edit_section content nid exp new with
  | EditLockMismatch t => (s1, MsgLockMismatch nid t exp)
  | EditSectionNotFound => (s1, MsgSectionNotFound nid)
  | EditOk f a b n =>
      (logged (Write (key_of (fs_cwd s) abs))
         (with_file (key_of (fs_cwd s) abs) f s1),
       MsgUpdated nid exp (b - a) n)
  end.
Proof.
  intros Hopen Hnid.
  destruct (open_document_inv _ _ _ _ _ _ _ Hopen)
    as (data & _ & _ & Hdata & _ & Hne & Hs1).
  unfold update_knowledge_section, run_tool, update_body.
  rewrite bind_run, Hopen. rewrite bool_decide_eq_false_2 by done.
  destruct (edit_section content nid exp new) as [t| |f a b n]; try done.
  rewrite bind_run. unfold write_text, open_for_write.
  assert (Hf : is_file s1 (key_of (fs_cwd s1) abs) = true).
  { subst s1. simpl. unfold is_file. simpl. apply bool_decide_eq_true_2.
    rewrite lookup_insert_ne by done. eauto. }
  rewrite Hf. rewrite ret_run. subst s1. done.
Qed.

Lemma update_inv now path nid exp new s s' out :
  update_knowledge_section now path nid exp new s = (s', out) ->
  section_outcome out ->
  nid <> lit "APPEND"
  /\ exists s1 resolved abs content,
       open_document now path s = (s1, Ok (resolved, Some (abs, content))).
Proof.
  unfold update_knowledge_section, run_tool, update_body. rewrite bind_run.
  destruct (open_document now path s) as [s1 [[r [[a c]|]]|e]] eqn:Hopen.
  - destruct (bool_decide (nid = lit "APPEND")) eqn:Hn.
    + rewrite bind_run. destruct (append_text _ _ _) as [s2 [[]|e]].
      * rewrite ret_run. by intros [= _ <-].
      * destruct e; by intros [= _ <-].
    + apply bool_decide_eq_false in Hn. intros _ _. split; [done|]. eauto.
  - rewrite ret_run. by intros [= _ <-].
  - destruct e; by intros [= _ <-].
Qed.

Lemma update_opened_spec now path nid exp new s s1 resolved abs content :
  open_document now path s = (s1, Ok (resolved, Some (abs, content))) ->
  nid <> lit "APPEND" ->
  let lines := Py.splitlines content in
  let outline := _get_outline_tree content in
  update_knowledge_section now path nid exp new s =
  match find_target nid outline with
  | None => (s1, MsgSectionNotFound nid)
  | Some (j, t) =>
      if lock_fails exp (node_title t)
      then (s1, MsgLockMismatch nid (node_title t) exp)
      else
        let a := node_line_start t - 1 in
        let b := range_end (length lines) (node_level t) (drop (S j) outline) in
        (logged (Write (key_of (fs_cwd s) abs))
           (with_file (key_of (fs_cwd s) abs)
              (finish content
                 (Py.join [Py.LF] (take a lines ++ Py.splitlines new ++ drop b lines)))
              s1),
         MsgUpdated nid exp (Z.of_nat b - Z.of_nat a) (length (Py.splitlines new)))
  end.
Proof.
  intros Hopen Hnid lines outline.
  rewrite (update_opened _ _ _ _ _ _ _ _ _ _ Hopen Hnid).
  rewrite edit_section_spec. fold lines outline.
  destruct (find_target nid outline) as [[j t]|]; [|done].
  by destruct (lock_fails exp (node_title t)).
Qed.

(** ** Nodes and their lines *)

Lemma outline_loop_lookup i lines cs j n :
  outline_loop i lines cs !! j = Some n ->
  i < node_line_start n
  /\ exists line,
       lines !! (node_line_start n - 1 - i) = Some line
       /\ parse_heading line = Some (node_level n, node_title n).
Proof.
  revert i cs j. induction lines as [|line rest IH]; intros i cs j; [done|].
  rewrite outline_loop_cons.
  assert (Hrest : forall ds j, outline_loop (S i) rest ds !! j = Some n ->
    i < node_line_start n
    /\ exists l, (line :: rest) !! (node_line_start n - 1 - i) = Some l
                 /\ parse_heading l = Some (node_level n, node_title n)).
  { intros ds j' H. apply IH in H as (Hlt & l & Hl & Hp). split; [lia|].
    exists l. split; [|done].
    replace (node_line_start n - 1 - i) with (S (node_line_start n - 1 - S i)) by lia.
    done. }
  destruct (parse_heading line) as [[L t]|] eqn:E; [|by apply Hrest].
  destruct j as [|j]; [|by apply Hrest].
  intros [= <-]. simpl. split; [lia|]. exists line.
  replace (i + 1 - 1 - i) with 0 by lia. done.
Qed.

(** Line numbers grow along the outline. *)
Lemma outline_loop_increasing i lines cs j j' n n' :
  outline_loop i lines cs !! j = Some n ->
  outline_loop i lines cs !! j' = Some n' ->
  j < j' -> node_line_start n < node_line_start n'.
Proof.
  revert i cs j j'. induction lines as [|line rest IH]; intros i cs j j'; [done|].
  rewrite outline_loop_cons.
  destruct (parse_heading line) as [[L t]|] eqn:E; [|by apply IH].
  destruct j as [|j]; destruct j' as [|j']; try lia; simpl.
  - intros [= <-] H _. simpl.
    apply list_elem_of_lookup_2, outline_loop_line_start_gt in H. lia.
  - intros H H' Hlt. eapply IH; [done..|lia].
Qed.

Lemma outline_loop_line_le i lines cs n :
  n ∈ outline_loop i lines cs -> node_line_start n <= i + length lines.
Proof.
  intros (j & Hj)%list_elem_of_lookup_1.
  apply outline_loop_lookup in Hj as (Hlt & l & Hl & _).
  apply lookup_lt_Some in Hl. lia.
Qed.

(** The target range is a range of lines: it starts at a heading line and
    ends after it, within the text. *)
Lemma target_range_bounds content nid j t :
  let lines := Py.splitlines content in
  let outline := _get_outline_tree content in
  find_target nid outline = Some (j, t) ->
  let a := node_line_start t - 1 in
  let b := range_end (length lines) (node_level t) (drop (S j) outline) in
  a < b <= length lines.
Proof.
  intros lines outline Hfind a b.
  apply list_find_Some in Hfind as (Hj & _ & _).
  pose proof (outline_loop_lookup _ _ _ _ _ Hj) as (Hlt & l & Hl & _).
  apply lookup_lt_Some in Hl. fold lines in Hl.
  unfold b, range_end.
  destruct (list_find _ (drop (S j) outline)) as [[j' u]|] eqn:Hu.
  - apply list_find_Some in Hu as (Hu & _ & _).
    rewrite lookup_drop in Hu.
    pose proof (outline_loop_increasing _ _ _ _ _ _ _ Hj Hu ltac:(lia)).
    apply list_elem_of_lookup_2, outline_loop_line_le in Hu.
    fold lines in Hu. unfold a. lia.
  - unfold a. lia.
Qed.

(** ** The lock *)

Lemma lower_char_space c : Py.isspace c = true -> Py.isspace (Py.lower_char c) = true.
Proof.
  destruct c as [[] [] [] [] [] [] [] []]; vm_compute; done.
Qed.

Lemma lower_all_space s :
  forallb Py.isspace s = true -> forallb Py.isspace (Py.lower s) = true.
Proof.
  induction s as [|c s IH]; simpl; [done|].
  intros [Hc Hs]%andb_true_iff. rewrite lower_char_space by done. auto.
Qed.

Lemma lock_passes_blank exp title : Py.strip exp = [] -> lock_fails exp title = false.
Proof.
  intros H. unfold lock_fails.
  rewrite (strip_all_space (Py.lower exp)).
  - by rewrite contains_nil.
  - by apply lower_all_space, strip_nil_inv.
Qed.

(** ** Bytes *)

Lemma endswith_spec s t : Py.endswith s t = true <-> exists r, s = r ++ t.
Proof.
  unfold Py.endswith. rewrite startswith_spec. split.
  - intros [r Hr]. exists (rev r).
    rewrite <- (rev_involutive s), Hr, rev_app_distr, rev_involutive. done.
  - intros [r ->]. exists (rev r). by rewrite rev_app_distr.
Qed.

Lemma endswith_LF_last s : Py.endswith s [Py.LF] = true <-> last s = Some Py.LF.
Proof. rewrite endswith_spec, last_Some. done. Qed.

Lemma endswith_LF_bool s :
  Py.endswith s [Py.LF] = bool_decide (last s = Some Py.LF).
Proof.
  destruct (Py.endswith s [Py.LF]) eqn:E; symmetry.
  - apply bool_decide_eq_true_2. by apply endswith_LF_last.
  - apply bool_decide_eq_false_2. rewrite <- endswith_LF_last. congruence.
Qed.

Lemma line_bytes_app A B : line_bytes (A ++ B) = line_bytes A ++ line_bytes B.
Proof. unfold line_bytes. by rewrite map_app, concat_app. Qed.

Lemma line_bytes_cons l A : line_bytes (l :: A) = l ++ [Py.LF] ++ line_bytes A.
Proof. unfold line_bytes. simpl. by rewrite <- app_assoc. Qed.

Lemma join_LF_snoc L : L <> [] -> Py.join [Py.LF] L ++ [Py.LF] = line_bytes L.
Proof.
  induction L as [|l L IH]; [done|]. intros _.
  destruct L as [|l' L]; [by rewrite line_bytes_cons|].
  rewrite join_cons2, line_bytes_cons, <- !app_assoc. by rewrite IH.
Qed.

Lemma join_LF_app A B :
  B <> [] -> Py.join [Py.LF] (A ++ B) = line_bytes A ++ Py.join [Py.LF] B.
Proof.
  intros HB. induction A as [|l A IH]; [done|].
  rewrite line_bytes_cons, <- !app_assoc, <- IH.
  change ((l :: A) ++ B) with (l :: (A ++ B)).
  destruct (A ++ B) as [|x X] eqn:E; [|done].
  by apply app_eq_nil in E as [_ ->].
Qed.

Lemma closed_snoc_LF s : closed (s ++ [Py.LF]) = s ++ [Py.LF].
Proof.
  unfold closed. rewrite endswith_LF_bool, last_snoc.
  rewrite (bool_decide_eq_true_2 (Some Py.LF = Some Py.LF)) by done.
  by rewrite orb_true_r.
Qed.

Lemma closed_app_cons s c t : closed (s ++ c :: t) = s ++ closed (c :: t).
Proof.
  unfold closed.
  rewrite !bool_decide_eq_false_2 by (try done; by destruct s).
  simpl. rewrite !endswith_LF_bool, last_app.
  destruct (last (c :: t)) as [d|] eqn:E.
  - destruct (bool_decide (Some d = Some Py.LF)); [done|].
    by rewrite <- app_assoc.
  - by apply last_None in E.
Qed.

Lemma lf_only_cons c s : lf_only (c :: s) -> lf_only s.
Proof. intros H x Hx. apply H. by right. Qed.

Lemma splitlines_from_closed s : forall cur,
  lf_only s -> Py.LF ∉ cur ->
  line_bytes (Py.splitlines_from cur s) = closed (rev cur ++ s).
Proof.
  induction s as [|c s IH]; intros cur Hs Hcur; simpl.
  - rewrite app_nil_r. destruct cur as [|x cur]; [done|].
    rewrite line_bytes_cons. unfold line_bytes. simpl.
    unfold closed. rewrite endswith_LF_bool, last_snoc.
    rewrite bool_decide_eq_false_2 by (by destruct (rev cur)).
    rewrite bool_decide_eq_false_2; [done|].
    intros [= ->]. apply Hcur. by left.
  - destruct (Py.islinebreak c) eqn:Hc.
    + assert (c = Py.LF) as -> by (apply Hs; [by left|done]).
      rewrite line_bytes_cons.
      assert (Hrest : line_bytes
        match s with
        | [] => Py.splitlines_from [] s
        | d :: s'' =>
            if bool_decide (Py.LF = Py.CR) && bool_decide (d = Py.LF)
            then Py.splitlines_from [] s'' else Py.splitlines_from [] s
        end = closed s).
      { assert (Hs' : lf_only s) by (by apply lf_only_cons in Hs).
        assert (Hnil : Py.LF ∉ @nil ascii) by (by intros ?%elem_of_nil).
        destruct s as [|d s'']; [exact (IH [] Hs' Hnil)|].
        replace (bool_decide (Py.LF = Py.CR)) with false by done.
        exact (IH [] Hs' Hnil). }
      rewrite Hrest. destruct s as [|d s''].
      * by rewrite closed_snoc_LF.
      * replace (rev cur ++ Py.LF :: d :: s'')
          with ((rev cur ++ [Py.LF]) ++ d :: s'') by (by rewrite <- app_assoc).
        rewrite closed_app_cons. by rewrite <- app_assoc.
    + rewrite IH.
      * simpl. by rewrite <- app_assoc.
      * by apply lf_only_cons in Hs.
      * intros [E|H]%elem_of_cons; [by rewrite <- E in Hc|done].
Qed.

Lemma splitlines_closed data :
  lf_only data -> line_bytes (Py.splitlines data) = closed data.
Proof. intros H. apply (splitlines_from_closed data []); [done|]. by intros ?%elem_of_nil. Qed.

Lemma universal_newlines_lf_only data :
  lf_only data -> universal_newlines data = data.
Proof.
  induction data as [|c data IH]; intros H; simpl; [done|].
  rewrite bool_decide_eq_false_2.
  - f_equal. apply IH. by apply lf_only_cons in H.
  - intros ->. by specialize (H Py.CR ltac:(by left) eq_refl).
Qed.

Lemma last_join_LF Q q :
  last Q = Some q -> q <> [] -> last (Py.join [Py.LF] Q) = last q.
Proof.
  intros HQ Hq. apply last_Some in HQ as [Q' ->].
  rewrite join_LF_app by done. simpl. rewrite last_app.
  destruct (last q) eqn:E; [done|]. by apply last_None in E.
Qed.

Lemma closed_cases data :
  data <> [] ->
  (Py.endswith data [Py.LF] = true /\ closed data = data)
  \/ (Py.endswith data [Py.LF] = false /\ closed data = data ++ [Py.LF]).
Proof.
  intros H. unfold closed. rewrite bool_decide_eq_false_2 by done. simpl.
  destruct (Py.endswith data [Py.LF]); auto.
Qed.

Lemma closed_nil_inv data : closed data = [] -> data = [].
Proof.
  unfold closed. destruct (_ || _); [done|]. by destruct data.
Qed.

Lemma last_line_nonempty data :
  lf_only data -> Py.endswith data [Py.LF; Py.LF] = false ->
  2 <= length (Py.splitlines data) -> last (Py.splitlines data) <> Some [].
Proof.
  intros Hlf H2 Hlen Hlast. pose proof (splitlines_closed data Hlf) as Hc.
  apply last_Some in Hlast as [L HL]. rewrite HL in Hc, Hlen.
  rewrite length_app in Hlen. simpl in Hlen.
  assert (HLne : L <> []) by (destruct L; simpl in Hlen; [lia|done]).
  rewrite line_bytes_app, <- (join_LF_snoc L HLne) in Hc.
  change (line_bytes [[]]) with [Py.LF] in Hc.
  assert (Hd : data <> []).
  { intros ->. by destruct (Py.join [Py.LF] L). }
  assert (Hends : Py.endswith data [Py.LF; Py.LF] = true); [|congruence].
  apply endswith_spec.
  destruct (closed_cases data Hd) as [[_ E]|[E1 E]]; rewrite E in Hc.
  - exists (Py.join [Py.LF] L). rewrite <- Hc. by rewrite <- app_assoc.
  - apply app_inj_tail in Hc as [Hc _].
    assert (Py.endswith data [Py.LF] = true); [|congruence].
    apply endswith_spec. eauto.
Qed.

Lemma finish_cases content joined :
  finish content joined = joined
  \/ (Py.endswith content [Py.LF] = true /\ Py.endswith joined [Py.LF] = false
      /\ finish content joined = joined ++ [Py.LF]).
Proof.
  unfold finish. destruct (Py.endswith content _); [|by left].
  destruct (Py.endswith joined _); [by left|]. by right.
Qed.

Lemma join_not_endswith_LF X Q q :
  last Q = Some q -> q <> [] -> Py.LF ∉ q ->
  Py.endswith (X ++ Py.join [Py.LF] Q) [Py.LF] = false.
Proof.
  intros HQ Hq HLF. rewrite endswith_LF_bool. apply bool_decide_eq_false_2.
  rewrite last_app, (last_join_LF Q q) by done.
  destruct (last q) as [c|] eqn:E; [|by apply last_None in E].
  intros [= ->]. apply HLF. apply last_Some in E as [r ->].
  apply elem_of_app. right. by left.
Qed.

(** With LF as the only line boundary and no two LF at the end, the text
    written keeps the bytes before the first line of the range and the
    bytes from its end on. *)
Lemma bytes_outside_range data new a b :
  lf_only data -> Py.endswith data [Py.LF; Py.LF] = false ->
  let lines := Py.splitlines data in
  a < b <= length lines -> Py.splitlines new <> [] ->
  exists mid,
    finish data (Py.join [Py.LF] (take a lines ++ Py.splitlines new ++ drop b lines))
    = take (offset lines a) data ++ mid ++ drop (offset lines b) data.
Proof.
  intros Hlf H2 lines Hab HN.
  set (N := Py.splitlines new) in *.
  set (P := take a lines). set (Q := drop b lines).
  set (Mid := take (b - a) (drop a lines)).
  assert (Hlines : lines = P ++ Mid ++ Q).
  { unfold P, Mid, Q. rewrite <- (take_drop a lines) at 1. f_equal.
    rewrite <- (take_drop (b - a) (drop a lines)) at 1. f_equal.
    rewrite drop_drop. f_equal. lia. }
  assert (HMid : Mid <> []).
  { intros E. apply (f_equal length) in E. unfold Mid in E.
    rewrite length_take, length_drop in E. simpl in E. lia. }
  pose proof (splitlines_closed data Hlf) as Hc. fold lines in Hc.
  assert (Hd : data <> []).
  { intros ->. unfold lines in Hab. simpl in Hab. lia. }
  assert (HtP : take b lines = P ++ Mid).
  { unfold P, Mid. rewrite <- (take_drop a (take b lines)).
    rewrite take_take, take_drop_commute. do 2 f_equal; [lia|].
    replace (a + (b - a)) with b by lia. done. }
  unfold offset. rewrite HtP. fold P.
  rewrite Hlines, !line_bytes_app in Hc.
  rewrite line_bytes_app, length_app.
  set (pre := line_bytes P) in *. set (m := line_bytes Mid) in *.
  assert (HQlast : Q <> [] -> exists q, last Q = Some q /\ q <> [] /\ Py.LF ∉ q).
  { intros HQ. destruct (last Q) as [q|] eqn:E; [|by apply last_None in E].
    exists q. split; [done|].
    assert (Hlq : last lines = Some q).
    { rewrite Hlines, !last_app, E. done. }
    split.
    - intros ->. apply (last_line_nonempty data Hlf H2); [|done].
      fold lines. apply (f_equal length) in Hlines.
      rewrite !length_app in Hlines.
      destruct Mid; [done|]. destruct Q; [done|]. simpl in Hlines. lia.
    - apply no_break_not_LF.
      pose proof (splitlines_no_break data) as Hnb. fold lines in Hnb.
      rewrite Forall_forall in Hnb. apply Hnb.
      apply last_Some in Hlq as [r ->]. apply elem_of_app. right. by left. }
  destruct (decide (Q = [])) as [HQ|HQ].
  - (* the range runs to the end of the text *)
    rewrite HQ, app_nil_r in *. change (line_bytes []) with (@nil ascii) in Hc.
    rewrite join_LF_app by done. fold pre.
    assert (Hpre : take (length pre) data = pre
                   /\ drop (length pre + length m) data = []).
    { destruct (closed_cases data Hd) as [[_ E]|[_ E]]; rewrite E in Hc.
      - rewrite <- Hc. rewrite take_app_length, drop_ge; [done|].
        rewrite length_app. lia.
      - unfold m in Hc. rewrite <- (join_LF_snoc Mid HMid) in Hc.
        rewrite app_assoc in Hc. apply app_inj_tail in Hc as [Hc _].
        rewrite <- Hc. rewrite take_app_length, drop_ge; [done|].
        unfold m. rewrite <- (join_LF_snoc Mid HMid), !length_app. simpl. lia. }
    destruct Hpre as [-> ->].
    destruct (finish_cases data (pre ++ Py.join [Py.LF] N)) as [->|(_ & _ & ->)].
    + exists (Py.join [Py.LF] N). by rewrite app_nil_r.
    + exists (Py.join [Py.LF] N ++ [Py.LF]). by rewrite app_nil_r, <- app_assoc.
  - destruct (HQlast HQ) as (q & Hq & Hqne & HqLF).
    rewrite app_assoc, join_LF_app by done.
    rewrite line_bytes_app. fold pre.
    exists (line_bytes N).
    destruct (closed_cases data Hd) as [[E1 E]|[E1 E]]; rewrite E in Hc.
    + unfold finish. rewrite E1.
      rewrite (join_not_endswith_LF _ Q q) by done. simpl.
      rewrite <- Hc.
      rewrite take_app_length.
      rewrite (app_assoc pre m), <- length_app, drop_app_length.
      rewrite <- (join_LF_snoc Q HQ). by rewrite <- !app_assoc.
    + unfold finish. rewrite E1. simpl.
      rewrite <- (join_LF_snoc Q HQ) in Hc.
      rewrite !app_assoc in Hc. apply app_inj_tail in Hc as [Hc _].
      rewrite <- Hc, <- !app_assoc.
      rewrite take_app_length.
      rewrite (app_assoc pre m), <- length_app, drop_app_length. done.
Qed.

(** A text that ends in two LF has an empty last line. *)
Lemma last_line_empty data :
  lf_only data -> Py.endswith data [Py.LF; Py.LF] = true ->
  last (Py.splitlines data) = Some [].
Proof.
  intros Hlf [r Hr]%endswith_spec.
  pose proof (splitlines_closed data Hlf) as Hc.
  assert (Hcl : closed data = data).
  { unfold closed. rewrite Hr. rewrite (endswith_LF_bool (r ++ _)).
    replace (r ++ [Py.LF; Py.LF]) with ((r ++ [Py.LF]) ++ [Py.LF])
      by (by rewrite <- app_assoc).
    rewrite last_snoc, (bool_decide_eq_true_2 (Some Py.LF = Some Py.LF)) by done.
    by rewrite orb_true_r. }
  rewrite Hcl in Hc.
  destruct (last (Py.splitlines data)) as [l|] eqn:E.
  - apply last_Some in E as [L HL]. rewrite HL in Hc.
    rewrite line_bytes_app, line_bytes_cons in Hc.
    change (line_bytes []) with (@nil ascii) in Hc.
    rewrite app_nil_r, Hr in Hc.
    replace (r ++ [Py.LF; Py.LF]) with ((r ++ [Py.LF]) ++ [Py.LF]) in Hc
      by (by rewrite <- app_assoc).
    rewrite app_assoc in Hc. apply app_inj_tail in Hc as [Hc _].
    destruct (decide (l = [])) as [->|Hl]; [done|]. exfalso.
    assert (HLF : Py.LF ∈ l).
    { destruct (last l) as [c|] eqn:El; [|by apply last_None in El].
      apply last_Some in El as [l' ->].
      rewrite app_assoc in Hc. apply app_inj_tail in Hc as [_ ->].
      apply elem_of_app. right. by left. }
    revert HLF. apply no_break_not_LF.
    pose proof (splitlines_no_break data) as Hnb.
    rewrite Forall_forall in Hnb. apply Hnb. rewrite HL.
    apply elem_of_app. right. by left.
  - apply last_None in E. rewrite E in Hc. rewrite Hr in Hc.
    by destruct r.
Qed.

(** With LF as the only line boundary and two LF at the end, a range that
    stops at a line that is not empty keeps the bytes before its first
    line and the bytes from its end on, less the last LF of the text. *)
Lemma bytes_outside_range_blank_end data new a b :
  lf_only data -> Py.endswith data [Py.LF; Py.LF] = true ->
  let lines := Py.splitlines data in
  a < b ->
  (exists line, lines !! b = Some line /\ line <> []) ->
  exists mid,
    finish data (Py.join [Py.LF] (take a lines ++ Py.splitlines new ++ drop b lines))
    = take (offset lines a) data ++ mid ++ drop (offset lines b) (removelast data).
Proof.
  intros Hlf H2 lines Hab (line & Hline & Hne).
  set (N := Py.splitlines new) in *.
  set (P := take a lines). set (Q := drop b lines).
  set (Mid := take (b - a) (drop a lines)).
  pose proof (lookup_lt_Some _ _ _ Hline) as Hb.
  assert (Hlines : lines = P ++ Mid ++ Q).
  { unfold P, Mid, Q. rewrite <- (take_drop a lines) at 1. f_equal.
    rewrite <- (take_drop (b - a) (drop a lines)) at 1. f_equal.
    rewrite drop_drop. f_equal. lia. }
  assert (HtP : take b lines = P ++ Mid).
  { unfold P, Mid. rewrite <- (take_drop a (take b lines)).
    rewrite take_take, take_drop_commute. do 2 f_equal; [lia|].
    replace (a + (b - a)) with b by lia. done. }
  pose proof (last_line_empty data Hlf H2) as Hlast. fold lines in Hlast.
  assert (HQ : exists Q0, Q = Q0 ++ [[]] /\ Q0 <> []).
  { assert (HlQ : last Q = Some []).
    { rewrite Hlines, !last_app in Hlast.
      destruct (last Q) eqn:E; [done|]. apply last_None in E.
      unfold Q in E. apply (f_equal length) in E. rewrite length_drop in E.
      simpl in E. lia. }
    apply last_Some in HlQ as [Q0 HQ0]. exists Q0. split; [done|].
    intros ->. unfold Q in HQ0.
    assert (Hh : drop b lines !! 0 = Some line) by (by rewrite lookup_drop, Nat.add_0_r).
    rewrite HQ0 in Hh. simpl in Hh. by injection Hh as <-. }
  destruct HQ as (Q0 & HQ & HQ0).
  pose proof (splitlines_closed data Hlf) as Hc. fold lines in Hc.
  assert (Hcl : closed data = data).
  { apply endswith_spec in H2 as [r Hr].
    unfold closed. rewrite Hr. rewrite (endswith_LF_bool (r ++ _)).
    replace (r ++ [Py.LF; Py.LF]) with ((r ++ [Py.LF]) ++ [Py.LF])
      by (by rewrite <- app_assoc).
    rewrite last_snoc, (bool_decide_eq_true_2 (Some Py.LF = Some Py.LF)) by done.
    by rewrite orb_true_r. }
  rewrite Hcl, Hlines, HQ, !line_bytes_app in Hc.
  change (line_bytes [[]]) with [Py.LF] in Hc.
  unfold offset. rewrite HtP. fold P.
  rewrite line_bytes_app, length_app.
  set (pre := line_bytes P) in *. set (m := line_bytes Mid) in *.
  exists (line_bytes N).
  assert (Hjoined : Py.join [Py.LF] (P ++ N ++ Q) = pre ++ line_bytes N ++ line_bytes Q0).
  { rewrite app_assoc, HQ, app_assoc.
    rewrite join_LF_app by done. rewrite !line_bytes_app.
    change (Py.join [Py.LF] [[]]) with (@nil ascii).
    by rewrite app_nil_r, <- app_assoc. }
  rewrite Hjoined.
  assert (Hend : Py.endswith (pre ++ line_bytes N ++ line_bytes Q0) [Py.LF] = true).
  { apply endswith_spec. rewrite <- (join_LF_snoc Q0 HQ0).
    exists (pre ++ line_bytes N ++ Py.join [Py.LF] Q0). by rewrite <- !app_assoc. }
  unfold finish. rewrite Hend, andb_false_r.
  rewrite <- Hc.
  replace (pre ++ m ++ line_bytes Q0 ++ [Py.LF])
    with ((pre ++ m ++ line_bytes Q0) ++ [Py.LF]) by (by rewrite <- !app_assoc).
  rewrite removelast_last.
  rewrite take_app_le by (rewrite length_app; lia).
  rewrite take_app_length.
  rewrite (app_assoc pre m), <- length_app, drop_app_length. done.
Qed.

(** The line on which a range ends before the end of the text is a
    heading, so it is not empty. *)
Lemma range_end_line content level j :
  let lines := Py.splitlines content in
  let outline := _get_outline_tree content in
  let b := range_end (length lines) level (drop (S j) outline) in
  b < length lines ->
  exists line, lines !! b = Some line /\ line <> [].
Proof.
  intros lines outline b Hb. unfold b, range_end in *.
  destruct (list_find _ (drop (S j) outline)) as [[j' u]|] eqn:Hu; [|lia].
  apply list_find_Some in Hu as (Hu & _ & _). rewrite lookup_drop in Hu.
  pose proof (outline_loop_lookup _ _ _ _ _ Hu) as (Hlt & l & Hl & Hp).
  rewrite Nat.sub_0_r in Hl. exists l. split; [done|]. by intros ->.
Qed.

(** ** difflib: the blocks are runs of equal lines *)

Section difflib_facts.
Import Difflib.

Lemma enumerate_lookup {A} (l : list A) j x :
  (j, x) ∈ enumerate l -> l !! j = Some x.
Proof.
  unfold enumerate. intros (i & Hi)%list_elem_of_lookup_1.
  apply lookup_zip_with_Some in Hi as (j' & x' & [= <- <-] & Hs & Hl).
  apply lookup_seq in Hs as [-> _]. done.
Qed.

Lemma chain_b_fold_ok (b : list str) (ps : list (nat * str)) m :
  (forall j x, (j, x) ∈ ps -> b !! j = Some x) -> b2j_ok b m ->
  b2j_ok b (foldl (fun (m : gmap str (list nat)) (p : nat * str) =>
                     <[p.2 := default [] (m !! p.2) ++ [p.1]]> m) m ps).
Proof.
  revert m. induction ps as [|[j x] ps IH]; intros m Hps Hm; [done|].
  simpl. apply IH.
  - intros j' x' H. apply Hps. by right.
  - intros line js j' Hl Hj. destruct (decide (x = line)) as [->|Hne].
    + rewrite lookup_insert_eq in Hl. injection Hl as <-.
      apply elem_of_app in Hj as [Hj|Hj%list_elem_of_singleton].
      * destruct (m !! line) as [js|] eqn:Hm'; [|by apply elem_of_nil in Hj].
        by apply (Hm line js).
      * subst j'. apply Hps. by left.
    + rewrite lookup_insert_ne in Hl by done. by apply (Hm line js).
Qed.

Lemma chain_b_ok b : b2j_ok b (chain_b b).
Proof.
  assert (H : b2j_ok b (foldl (fun (m : gmap str (list nat)) (p : nat * str) =>
                     <[p.2 := default [] (m !! p.2) ++ [p.1]]> m) ∅ (enumerate b))).
  { apply chain_b_fold_ok; [apply enumerate_lookup|]. intros line js j Hl.
    by rewrite lookup_empty in Hl. }
  unfold chain_b. destruct (bool_decide _); [|done].
  intros line js j [Hl _]%map_lookup_filter_Some. by apply H.
Qed.

Section matcher_facts.
Variables (a b : list str) (b2j : gmap str (list nat)).
Hypothesis b2j_valid : b2j_ok b b2j.

Lemma scan_js_good i alo ahi blo bhi j2len js new best :
  alo <= i < ahi ->
  (forall j, j ∈ js -> a !! i = b !! j) ->
  row_ok a b alo blo i j2len ->
  row_ok a b alo blo (S i) new ->
  good a b (alo, ahi, blo, bhi) best ->
  row_ok a b alo blo (S i) (scan_js i blo bhi j2len js new best).1
  /\ good a b (alo, ahi, blo, bhi) (scan_js i blo bhi j2len js new best).2.
Proof.
  intros Hi. revert new best.
  induction js as [|j js IH]; intros new best Hjs Hprev Hnew Hbest; [done|].
  simpl. case_bool_decide as Hlo.
  { apply IH; [intros j' Hj'; apply Hjs; by right|assumption..]. }
  case_bool_decide as Hhi; [done|].
  set (k := match j with 0 => 0 | S j' => default 0 (j2len !! j') end + 1).
  assert (Hk : k <= S i - alo /\ k <= j + 1 - blo
               /\ forall t, t < k -> a !! (S i - 1 - t) = b !! (j - t)).
  { assert (Hij : a !! i = b !! j) by (apply Hjs; by left).
    destruct j as [|j'].
    { subst k. simpl. split; [lia|]. split; [lia|].
      intros t Ht. replace t with 0 by lia.
      transitivity (a !! i); [f_equal; lia|]. rewrite Hij. f_equal. }
    destruct (j2len !! j') as [k0|] eqn:Hk0.
    - destruct (Hprev _ _ Hk0) as (H1 & H2 & H3). subst k. simpl.
      split; [lia|]. split; [lia|].
      intros [|t] Ht.
      + transitivity (a !! i); [f_equal; lia|]. rewrite Hij. f_equal.
      + transitivity (a !! (i - 1 - t)); [f_equal; lia|].
        rewrite (H3 t) by lia. f_equal.
    - subst k. simpl. split; [lia|]. split; [lia|].
      intros t Ht. replace t with 0 by lia.
      transitivity (a !! i); [f_equal; lia|]. rewrite Hij. f_equal. }
  destruct Hk as (Hk1 & Hk2 & Hk3).
  apply IH.
  - intros j' Hj'. apply Hjs. by right.
  - done.
  - intros j' k' Hl. destruct (decide (j = j')) as [<-|Hne].
    + rewrite lookup_insert_eq in Hl. injection Hl as <-. done.
    + rewrite lookup_insert_ne in Hl by done. by apply Hnew.
  - case_bool_decide as Hbetter; [|done].
    split.
    + unfold rect_of, within. simpl. lia.
    + simpl. intros t Ht.
      replace (i + 1 - k + t) with (S i - 1 - (k - 1 - t)) by lia.
      replace (j + 1 - k + t) with (j - (k - 1 - t)) by lia.
      apply Hk3. lia.
Qed.

Lemma scan_is_fold_good alo ahi blo bhi n i st :
  alo <= i -> i + n = ahi -> ahi <= length a ->
  row_ok a b alo blo i st.1 -> good a b (alo, ahi, blo, bhi) st.2 ->
  good a b (alo, ahi, blo, bhi)
    (foldl (fun (st : gmap nat nat * block) (i : nat) =>
              let js := default [] (b2j !! default [] (a !! i)) in
              scan_js i blo bhi st.1 js ∅ st.2) st (seq i n)).2.
Proof.
  revert i st. induction n as [|n IH]; intros i st Hlo Hn Hla Hrow Hbest; [done|].
  simpl.
  destruct (scan_js_good i alo ahi blo bhi st.1
              (default [] (b2j !! default [] (a !! i))) ∅ st.2) as [H1 H2].
  - lia.
  - intros j Hj. destruct (a !! i) as [line|] eqn:Hline.
    + simpl in Hj. destruct (b2j !! line) as [js|] eqn:Hjs;
        [|by apply elem_of_nil in Hj].
      symmetry. by apply (b2j_valid line js).
    + apply lookup_ge_None in Hline. lia.
  - done.
  - intros j k Hl. by rewrite lookup_empty in Hl.
  - done.
  - apply IH; [lia|lia|done|done|done].
Qed.

Lemma scan_is_good alo ahi blo bhi :
  alo <= ahi -> ahi <= length a -> blo <= bhi ->
  good a b (alo, ahi, blo, bhi) (scan_is a b2j alo ahi blo bhi).2.
Proof.
  intros Ha Hla Hb. unfold scan_is.
  apply (scan_is_fold_good alo ahi blo bhi); [lia|lia|done| |].
  - intros j k Hl. cbn in Hl. by rewrite lookup_empty in Hl.
  - cbn. split; [unfold rect_of, within; simpl; lia|]. simpl. lia.
Qed.

Lemma extend_left_good fuel alo ahi blo bhi best :
  good a b (alo, ahi, blo, bhi) best ->
  good a b (alo, ahi, blo, bhi) (extend_left a b fuel alo blo best).
Proof.
  revert best. induction fuel as [|fuel IH]; intros best Hbest; [done|].
  simpl. destruct (_ && _) eqn:Hc; [|done].
  apply andb_true_iff in Hc as [[Ha Hb]%andb_true_iff Hs].
  apply bool_decide_eq_true in Ha, Hb, Hs.
  destruct Hbest as [Hin Hm]. apply IH. split.
  - revert Hin. unfold rect_of, within. simpl. lia.
  - simpl. intros [|t] Ht.
    + rewrite !Nat.add_0_r. exact Hs.
    + replace (blk_a best - 1 + S t) with (blk_a best + t) by lia.
      replace (blk_b best - 1 + S t) with (blk_b best + t) by lia.
      apply Hm. lia.
Qed.

Lemma extend_right_good fuel alo ahi blo bhi best :
  good a b (alo, ahi, blo, bhi) best ->
  good a b (alo, ahi, blo, bhi) (extend_right a b fuel ahi bhi best).
Proof.
  revert best. induction fuel as [|fuel IH]; intros best Hbest; [done|].
  simpl. destruct (_ && _) eqn:Hc; [|done].
  apply andb_true_iff in Hc as [[Ha Hb]%andb_true_iff Hs].
  apply bool_decide_eq_true in Ha, Hb, Hs.
  destruct Hbest as [Hin Hm]. apply IH. split.
  - revert Hin. unfold rect_of, within. simpl. lia.
  - simpl. intros t Ht.
    destruct (decide (t = blk_size best)) as [->|Hne]; [exact Hs|].
    apply Hm. lia.
Qed.

Lemma find_longest_match_good alo ahi blo bhi :
  alo <= ahi -> ahi <= length a -> blo <= bhi ->
  good a b (alo, ahi, blo, bhi) (find_longest_match a b b2j alo ahi blo bhi).
Proof.
  intros Ha Hla Hb. unfold find_longest_match.
  apply extend_right_good, extend_left_good. by apply scan_is_good.
Qed.

Lemma comparable_sym r1 r2 : comparable r1 r2 -> comparable r2 r1.
Proof. unfold comparable. tauto. Qed.

Lemma within_comparable r r' s :
  within r' r -> comparable r s -> comparable r' s.
Proof.
  destruct r as [[[alo ahi] blo] bhi], r' as [[[alo' ahi'] blo'] bhi'],
    s as [[[alo2 ahi2] blo2] bhi2].
  unfold within, comparable, before. lia.
Qed.

Lemma chain_submseteq l1 l2 : l1 ⊆+ l2 -> chain l2 -> chain l1.
Proof.
  induction 1 as [|x l1 l2 Hsub IH|x y l|x l1 l2 Hsub IH|l1 l2 l3 _ IH1 _ IH2].
  - done.
  - intros [Hx Hl]. split; [|by apply IH].
    rewrite Forall_forall in *. intros y Hy. apply Hx.
    by apply (elem_of_submseteq l1).
  - simpl. intros [Hx [Hy Hl]].
    apply Forall_cons in Hx as [Hxy Hx].
    split; [apply Forall_cons; split; [by apply comparable_sym|done]|done].
  - intros [_ Hl]. by apply IH.
  - intros H3. by apply IH1, IH2.
Qed.

Lemma chain_app_l l1 l2 : chain (l1 ++ l2) -> chain l1.
Proof. apply chain_submseteq. by apply submseteq_inserts_r. Qed.

Lemma chain_app_r l1 l2 : chain (l1 ++ l2) -> chain l2.
Proof. apply chain_submseteq. by apply submseteq_inserts_l. Qed.

(** One turn of the queue loop keeps the rectangles in a chain. *)
Lemma blocks_loop_inv fuel q acc :
  Forall (region_ok a b) q ->
  chain (q ++ map rect_of acc) ->
  Forall (found a b) acc ->
  chain (map rect_of (blocks_loop a b b2j fuel q acc))
  /\ Forall (found a b) (blocks_loop a b b2j fuel q acc).
Proof.
  revert q acc. induction fuel as [|fuel IH]; intros q acc Hq Hch Hacc.
  { simpl. split; [by apply chain_app_r in Hch|done]. }
  destruct q as [|[[[alo ahi] blo] bhi] q].
  { simpl. split; [done|done]. }
  simpl.
  apply Forall_cons in Hq as [(Ha & Hla & Hb & Hlb) Hq].
  pose proof (find_longest_match_good alo ahi blo bhi Ha Hla Hb) as [Hin Hm].
  destruct (find_longest_match a b b2j alo ahi blo bhi) as [i j k] eqn:Hx.
  unfold rect_of, within in Hin. simpl in Hin, Hm.
  destruct Hch as [Hr Hch].
  case_bool_decide as Hk.
  { by apply IH. }
  set (L := (alo, i, blo, j) : rect).
  set (Rr := (i + k, ahi, j + k, bhi) : rect).
  set (X := rect_of (Block i j k)).
  assert (Hbig : chain (X :: Rr :: L :: q ++ map rect_of acc)).
  { assert (Hsub : forall r', within r' (alo, ahi, blo, bhi) ->
                     Forall (comparable r') (q ++ map rect_of acc)).
    { intros r' Hw. eapply Forall_impl; [exact Hr|].
      intros s Hs. by apply (within_comparable (alo, ahi, blo, bhi)). }
    simpl. split; [|split; [|split; [|done]]].
    - apply Forall_cons. split; [left; unfold X, Rr, rect_of, before; simpl; lia|].
      apply Forall_cons. split; [right; unfold X, L, rect_of, before; simpl; lia|].
      apply Hsub. unfold X, rect_of, within. simpl. lia.
    - apply Forall_cons. split; [right; unfold Rr, L, before; lia|].
      apply Hsub. unfold Rr, within. lia.
    - apply Hsub. unfold L, within. lia. }
  assert (Hfound : Forall (found a b) (acc ++ [Block i j k])).
  { apply Forall_app. split; [done|]. apply Forall_singleton.
    split; [simpl; lia|]. split; [simpl; lia|]. split; [simpl; lia|]. done. }
  assert (Hperm : forall q', q' ⊆+ Rr :: L :: q ->
            chain (q' ++ map rect_of (acc ++ [Block i j k]))).
  { intros q' Hsub.
    apply (chain_submseteq _ (X :: Rr :: L :: q ++ map rect_of acc)); [|exact Hbig].
    rewrite map_app. simpl. fold X.
    rewrite app_assoc, <- Permutation_cons_append.
    apply submseteq_skip.
    change (Rr :: L :: q ++ map rect_of acc)
      with ((Rr :: L :: q) ++ map rect_of acc).
    by apply submseteq_app. }
  destruct (bool_decide (alo < i) && bool_decide (blo < j)) eqn:Hl;
    destruct (bool_decide (i + k < ahi) && bool_decide (j + k < bhi)) eqn:Hrr.
  - apply andb_true_iff in Hl as [Hl1%bool_decide_eq_true Hl2%bool_decide_eq_true].
    apply andb_true_iff in Hrr as [Hr1%bool_decide_eq_true Hr2%bool_decide_eq_true].
    apply IH; [|by apply Hperm|done].
    apply Forall_cons. split; [unfold region_ok; simpl; lia|].
    apply Forall_cons. split; [unfold region_ok; simpl; lia|done].
  - apply andb_true_iff in Hl as [Hl1%bool_decide_eq_true Hl2%bool_decide_eq_true].
    apply IH; [|apply Hperm; by apply submseteq_cons|done].
    apply Forall_cons. split; [unfold region_ok; simpl; lia|done].
  - apply andb_true_iff in Hrr as [Hr1%bool_decide_eq_true Hr2%bool_decide_eq_true].
    apply IH; [|apply Hperm; by apply submseteq_skip, submseteq_cons|done].
    apply Forall_cons. split; [unfold region_ok; simpl; lia|done].
  - apply IH; [done|apply Hperm; by apply submseteq_cons, submseteq_cons|done].
Qed.

Lemma weight_cons alo ahi blo bhi q :
  weight ((alo, ahi, blo, bhi) :: q) = 2 * (ahi - alo) + 1 + weight q.
Proof. reflexivity. Qed.

(** The fuel of the queue loop: with the weight of the queue or more, the
    loop ends by an empty queue, and more fuel changes nothing. *)
Lemma blocks_loop_fuel f f' q acc :
  Forall (region_ok a b) q -> weight q <= f -> weight q <= f' ->
  blocks_loop a b b2j f q acc = blocks_loop a b b2j f' q acc.
Proof.
  revert f' q acc. induction f as [|f IH]; intros f' q acc Hq Hf Hf'.
  { destruct q as [|[[[alo ahi] blo] bhi] q]; [by destruct f'|].
    rewrite weight_cons in Hf. lia. }
  destruct q as [|[[[alo ahi] blo] bhi] q]; [by destruct f'|].
  rewrite weight_cons in Hf, Hf'.
  destruct f' as [|f']; [lia|].
  apply Forall_cons in Hq as [(Ha & Hla & Hb & Hlb) Hq].
  pose proof (find_longest_match_good alo ahi blo bhi Ha Hla Hb) as [Hin _].
  simpl.
  destruct (find_longest_match a b b2j alo ahi blo bhi) as [i j k] eqn:Hx.
  unfold rect_of, within in Hin. simpl in Hin.
  case_bool_decide as Hk.
  { apply IH; [done|lia|lia]. }
  destruct (bool_decide (alo < i) && bool_decide (blo < j)) eqn:Hl;
    destruct (bool_decide (i + k < ahi) && bool_decide (j + k < bhi)) eqn:Hrr;
    try (apply andb_true_iff in Hl
           as [Hl1%bool_decide_eq_true Hl2%bool_decide_eq_true]);
    try (apply andb_true_iff in Hrr
           as [Hr1%bool_decide_eq_true Hr2%bool_decide_eq_true]);
    (apply IH;
     [repeat (apply Forall_cons; split; [unfold region_ok; simpl; lia|]); done
     |rewrite ?weight_cons; lia..]).
Qed.

End matcher_facts.

(** ** difflib: an empty diff *)

Lemma insert_block_elem x l y : y ∈ insert_block x l <-> y = x \/ y ∈ l.
Proof.
  induction l as [|z l IH]; simpl.
  - rewrite list_elem_of_singleton, elem_of_nil. tauto.
  - destruct (block_leb x z).
    + by rewrite elem_of_cons.
    + rewrite !elem_of_cons, IH. tauto.
Qed.

Lemma sort_blocks_elem l y : y ∈ sort_blocks l <-> y ∈ l.
Proof.
  induction l as [|x l IH]; [done|]. unfold sort_blocks in *. simpl.
  rewrite insert_block_elem, elem_of_cons, IH. done.
Qed.

Lemma before_leb x y :
  0 < blk_size x -> 0 < blk_size y ->
  comparable (rect_of x) (rect_of y) ->
  if block_leb x y then before (rect_of x) (rect_of y)
  else before (rect_of y) (rect_of x).
Proof.
  destruct x as [i1 j1 k1], y as [i2 j2 k2].
  unfold comparable, before, rect_of, block_leb. simpl. intros Hx Hy Hc.
  destruct (bool_decide (i1 < i2)) eqn:H1; simpl.
  { apply bool_decide_eq_true in H1. lia. }
  apply bool_decide_eq_false in H1.
  destruct (bool_decide (i1 = i2)) eqn:H2; simpl.
  { apply bool_decide_eq_true in H2. lia. }
  apply bool_decide_eq_false in H2. lia.
Qed.

Lemma insert_ascending x l :
  0 < blk_size x -> Forall (fun y => 0 < blk_size y) l ->
  Forall (fun y => comparable (rect_of x) (rect_of y)) l ->
  ascending l -> ascending (insert_block x l).
Proof.
  intros Hx. induction l as [|y l IH]; intros Hpos Hcmp Hasc; [done|].
  apply Forall_cons in Hpos as [Hy Hpos]. apply Forall_cons in Hcmp as [Hxy Hcmp].
  destruct Hasc as [Hyl Hasc]. simpl.
  pose proof (before_leb x y Hx Hy Hxy) as Hb.
  destruct (block_leb x y).
  - split; [|done]. apply Forall_cons. split; [done|].
    eapply Forall_impl; [exact Hyl|]. intros z Hz.
    revert Hb Hz. destruct x, y, z. unfold before, rect_of. simpl. lia.
  - split; [|by apply IH].
    apply Forall_forall. intros z [->|Hz]%insert_block_elem; [done|].
    rewrite Forall_forall in Hyl. by apply Hyl.
Qed.

Lemma sort_blocks_ascending l :
  chain (map rect_of l) -> Forall (fun y => 0 < blk_size y) l ->
  ascending (sort_blocks l).
Proof.
  induction l as [|x l IH]; [done|]. intros [Hx Hch] Hpos.
  apply Forall_cons in Hpos as [Hkx Hpos].
  change (sort_blocks (x :: l)) with (insert_block x (sort_blocks l)).
  apply insert_ascending; [done| | |by apply IH].
  - apply Forall_forall. intros y Hy. apply (proj1 (sort_blocks_elem _ _)) in Hy.
    rewrite Forall_forall in Hpos. by apply Hpos.
  - apply Forall_forall. intros y Hy. apply (proj1 (sort_blocks_elem _ _)) in Hy.
    rewrite Forall_forall in Hx. apply Hx. apply list_elem_of_fmap. eauto.
Qed.

Lemma path_end_snoc i j l x :
  path_end i j (l ++ [x]) = (blk_a x + blk_size x, blk_b x + blk_size x).
Proof. unfold path_end. by rewrite last_snoc. Qed.

Lemma path_end_cons i j x l :
  path_end i j (x :: l)
  = path_end (blk_a x + blk_size x) (blk_b x + blk_size x) l.
Proof.
  unfold path_end. destruct l as [|y l]; [reflexivity|].
  change (last (x :: y :: l)) with (last (y :: l)).
  destruct (last (y :: l)) eqn:E; [reflexivity|]. by apply last_None in E.
Qed.

Lemma path_app i j l1 l2 :
  path i j (l1 ++ l2)
  <-> path i j l1 /\ path (path_end i j l1).1 (path_end i j l1).2 l2.
Proof.
  revert i j. induction l1 as [|x l1 IH]; intros i j.
  - simpl. tauto.
  - simpl. rewrite IH, path_end_cons. tauto.
Qed.

Section blocks_facts.
Variables (a b : list str).

Lemma join_adjacent_fold rest cur na :
  path 0 0 (na ++ [cur]) -> Forall (matches a b) (na ++ [cur]) ->
  Forall (fun y => before (rect_of cur) (rect_of y)) rest ->
  ascending rest -> Forall (matches a b) rest ->
  path 0 0 ((foldl join_adjacent (cur, na) rest).2
              ++ [(foldl join_adjacent (cur, na) rest).1])
  /\ Forall (matches a b) ((foldl join_adjacent (cur, na) rest).2
                             ++ [(foldl join_adjacent (cur, na) rest).1]).
Proof.
  revert cur na. induction rest as [|x rest IH]; intros cur na Hp Hm Hb Hasc Hr.
  { done. }
  apply Forall_cons in Hb as [Hcx Hb]. destruct Hasc as [Hxr Hasc].
  apply Forall_cons in Hr as [Hmx Hr].
  apply path_app in Hp as [Hpna Hpcur].
  apply Forall_app in Hm as [Hmna Hmcur%Forall_inv].
  destruct cur as [i1 j1 k1], x as [i2 j2 k2].
  unfold before, rect_of in Hcx. simpl in Hcx, Hpcur.
  change (foldl join_adjacent (Block i1 j1 k1, na) (Block i2 j2 k2 :: rest))
    with (foldl join_adjacent
            (join_adjacent (Block i1 j1 k1, na) (Block i2 j2 k2)) rest).
  unfold join_adjacent at 2 4 6 8.
  destruct (bool_decide (i1 + k1 = i2) && bool_decide (j1 + k1 = j2)) eqn:Hadj.
  - apply andb_true_iff in Hadj as [<-%bool_decide_eq_true <-%bool_decide_eq_true].
    apply IH; [| | |done|done].
    + apply path_app. split; [done|]. simpl. tauto.
    + apply Forall_app. split; [done|]. apply Forall_singleton.
      unfold matches in Hmcur, Hmx |- *.
      destruct Hmcur as (Ha & Hb' & Hm1), Hmx as (Ha2 & Hb2 & Hm2).
      simpl in *. split; [lia|]. split; [lia|].
      intros t Ht. destruct (decide (t < k1)) as [Hlt|Hge]; [by apply Hm1|].
      replace (i1 + t) with (i1 + k1 + (t - k1)) by lia.
      replace (j1 + t) with (j1 + k1 + (t - k1)) by lia.
      apply Hm2. lia.
    + eapply Forall_impl; [exact Hxr|]. intros [i3 j3 k3].
      unfold before, rect_of. simpl. lia.
  - destruct (bool_decide (k1 = 0)) eqn:Hk.
    + apply bool_decide_eq_true in Hk. subst k1.
      apply IH; [| |done|done|done].
      * apply path_app. split; [done|]. simpl. simpl in Hpcur. lia.
      * apply Forall_app. split; [done|]. by apply Forall_singleton.
    + apply IH; [| |done|done|done].
      * apply path_app. split.
        { apply path_app. split; [done|]. simpl. tauto. }
        rewrite path_end_snoc. simpl. lia.
      * apply Forall_app. split; [|by apply Forall_singleton].
        apply Forall_app. split; [done|]. by apply Forall_singleton.
Qed.

(** The matching blocks: a path through both lists of runs of equal
    lines, closed by the block of size 0 at their ends. *)
Lemma get_matching_blocks_path :
  exists blocks,
    get_matching_blocks a b = blocks ++ [Block (length a) (length b) 0]
    /\ path 0 0 (get_matching_blocks a b)
    /\ Forall (matches a b) (get_matching_blocks a b).
Proof.
  unfold get_matching_blocks.
  set (found_blocks := blocks_loop a b (chain_b b) (2 * length a + 1)
                         [(0, length a, 0, length b)] []).
  destruct (blocks_loop_inv a b (chain_b b) (chain_b_ok b) (2 * length a + 1)
              [(0, length a, 0, length b)] []) as [Hch Hf].
  { apply Forall_singleton. unfold region_ok. lia. }
  { simpl. split; [done|done]. }
  { done. }
  fold found_blocks in Hch, Hf.
  assert (Hasc : ascending (sort_blocks found_blocks)).
  { apply sort_blocks_ascending; [done|].
    eapply Forall_impl; [exact Hf|]. by intros x [? _]. }
  assert (Hm : Forall (matches a b) (sort_blocks found_blocks)).
  { apply Forall_forall. intros x Hx. apply (proj1 (sort_blocks_elem _ _)) in Hx.
    rewrite Forall_forall in Hf. by apply Hf. }
  destruct (join_adjacent_fold (sort_blocks found_blocks) (Block 0 0 0) [])
    as [Hp Hmm]; [| | |done|done|].
  { simpl. lia. }
  { apply Forall_singleton. split; [simpl; lia|]. split; [simpl; lia|].
    simpl. lia. }
  { apply Forall_forall. intros [i j k] _. unfold before, rect_of. simpl. lia. }
  destruct (foldl join_adjacent (Block 0 0 0, []) (sort_blocks found_blocks))
    as [[i1 j1 k1] na].
  simpl in Hp, Hmm.
  apply path_app in Hp as [Hpna Hpcur]. simpl in Hpcur.
  apply Forall_app in Hmm as [Hmna Hmcur%Forall_inv].
  assert (Hsent : matches a b (Block (length a) (length b) 0)).
  { split; [simpl; lia|]. split; [simpl; lia|]. simpl. lia. }
  destruct (bool_decide (k1 = 0)) eqn:Hk.
  - apply bool_decide_eq_true in Hk. subst k1.
    eexists. split; [done|]. split.
    + apply path_app. split; [done|]. simpl.
      unfold matches in Hmcur. destruct Hmcur as (H1 & H2 & _). simpl in H1, H2. lia.
    + apply Forall_app. split; [done|]. by apply Forall_singleton.
  - eexists. split; [done|]. split.
    + apply path_app. split.
      { apply path_app. split; [done|]. simpl. tauto. }
      rewrite path_end_snoc. simpl.
      unfold matches in Hmcur. destruct Hmcur as (H1 & H2 & _). simpl in H1, H2. lia.
    + apply Forall_app. split; [|by apply Forall_singleton].
      apply Forall_app. split; [done|]. by apply Forall_singleton.
Qed.

Lemma opcode_fold_answer l st :
  exists more, (foldl opcode_step st l).2 = st.2 ++ more.
Proof.
  revert st. induction l as [|x l IH]; intros st.
  { exists []. by rewrite app_nil_r. }
  simpl. destruct (IH (opcode_step st x)) as [more ->].
  destruct st as [[i j] ans], x as [ai bj size]. simpl.
  repeat match goal with
         | |- context [if ?c then _ else _] => destruct c
         end; rewrite <- ?app_assoc; eauto.
Qed.

Lemma has_change_app l1 l2 : has_change (l1 ++ l2) = has_change l1 || has_change l2.
Proof. apply existsb_app. Qed.

(** Opcodes that are all [equal]: the blocks follow each other without a
    gap, from the diagonal on. *)
Lemma opcodes_no_change l i ans :
  path i i l -> Forall (matches a b) l ->
  (forall n, n < i -> a !! n = b !! n) ->
  has_change (foldl opcode_step (i, i, ans) l).2 = false ->
  (path_end i i l).1 = (path_end i i l).2
  /\ forall n, n < (path_end i i l).1 -> a !! n = b !! n.
Proof.
  revert i ans. induction l as [|x l IH]; intros i ans Hp Hm Hi Hc.
  { done. }
  destruct x as [ai bj size]. destruct Hp as (Hai & Hbj & Hp).
  apply Forall_cons in Hm as [Hx Hm].
  unfold matches in Hx. destruct Hx as (Hla & Hlb & Hx). simpl in Hai, Hbj, Hp, Hla, Hlb, Hx.
  change (foldl opcode_step (i, i, ans) (Block ai bj size :: l))
    with (foldl opcode_step (opcode_step (i, i, ans) (Block ai bj size)) l) in Hc.
  destruct (opcode_step (i, i, ans) (Block ai bj size)) as [[i' j'] ans1] eqn:Hstep.
  destruct (opcode_fold_answer l (i', j', ans1)) as [more Hmore].
  pose proof Hc as Hc1. rewrite Hmore in Hc1.
  rewrite has_change_app in Hc1. apply orb_false_iff in Hc1 as [Hc1 _].
  simpl in Hc1.
  assert (ai = i /\ bj = i) as [-> ->].
  { unfold opcode_step in Hstep. injection Hstep as _ _ <-.
    destruct (bool_decide (i < ai)) eqn:H1, (bool_decide (i < bj)) eqn:H2;
      simpl in Hc1;
      try (destruct (bool_decide (size = 0));
           rewrite ?has_change_app in Hc1; simpl in Hc1;
           rewrite ?orb_true_r in Hc1; simpl in Hc1; discriminate).
    apply bool_decide_eq_false in H1, H2. lia. }
  unfold opcode_step in Hstep. injection Hstep as <- <- _.
  rewrite path_end_cons. simpl.
  apply (IH (i + size) ans1).
  - done.
  - done.
  - intros n Hn. destruct (decide (n < i)) as [Hlt|Hge]; [by apply Hi|].
    replace n with (i + (n - i)) by lia. apply Hx. lia.
  - done.
Qed.

(** The fuel [get_matching_blocks] gives the queue loop is enough. *)
Lemma blocks_loop_enough extra :
  blocks_loop a b (chain_b b) (2 * length a + 1 + extra)
    [(0, length a, 0, length b)] []
  = blocks_loop a b (chain_b b) (2 * length a + 1) [(0, length a, 0, length b)] [].
Proof.
  apply blocks_loop_fuel.
  - apply chain_b_ok.
  - apply Forall_singleton. unfold region_ok. lia.
  - rewrite weight_cons. unfold weight. simpl. lia.
  - rewrite weight_cons. unfold weight. simpl. lia.
Qed.

End blocks_facts.

Lemma fix_first_change n codes : has_change (fix_first n codes) = has_change codes.
Proof. destruct codes as [|[[] i1 i2 j1 j2] rest]; done. Qed.

Lemma fix_last_change n codes : has_change (fix_last n codes) = has_change codes.
Proof.
  unfold fix_last. destruct (last codes) as [[t i1 i2 j1 j2]|] eqn:E; [|done].
  destruct t; try done.
  apply last_Some in E as [l' ->].
  rewrite removelast_last, !has_change_app. done.
Qed.

Lemma group_step_fold n codes st :
  st.2 <> [] \/ has_change st.1 = true \/ has_change codes = true ->
  (foldl (group_step n) st codes).2 <> []
  \/ has_change (foldl (group_step n) st codes).1 = true.
Proof.
  revert st. induction codes as [|c codes IH]; intros [g y] H.
  { simpl in *. destruct H as [H|[H|H]]; [by left|by right|done]. }
  simpl foldl. apply IH.
  destruct c as [t i1 i2 j1 j2]. unfold group_step.
  destruct (is_equal (Opcode t i1 i2 j1 j2) && bool_decide (n + n < i2 - i1)) eqn:Hbig.
  { left. simpl. by destruct y. }
  simpl. rewrite has_change_app. simpl in H.
  destruct H as [H|[H|H]]; [by left|right; left; by rewrite H|].
  apply orb_true_iff in H as [H|H]; [|by right; right].
  right. left. simpl. rewrite H. by rewrite orb_true_r.
Qed.

Lemma get_grouped_opcodes_nil a b n :
  get_grouped_opcodes a b n = [] -> has_change (get_opcodes a b) = false.
Proof.
  unfold get_grouped_opcodes. intros H.
  apply not_true_iff_false. intros Hc.
  set (codes := get_opcodes a b) in *.
  assert (Hcodes : match codes with [] => [Opcode Equal 0 1 0 1] | _ => codes end
                   = codes) by (by destruct codes).
  rewrite Hcodes in H.
  destruct (group_step_fold n (fix_last n (fix_first n codes)) ([], [])) as [Hy|Hg].
  { right. right. by rewrite fix_last_change, fix_first_change. }
  - destruct (foldl (group_step n) ([], []) (fix_last n (fix_first n codes)))
      as [g y]. simpl in Hy.
    destruct g as [|c [|c' g]]; [done| |by destruct y].
    destruct (is_equal c); [done|by destruct y].
  - destruct (foldl (group_step n) ([], []) (fix_last n (fix_first n codes)))
      as [g y]. simpl in Hg.
    destruct g as [|c [|c' g]]; [done| |by destruct y].
    simpl in Hg. destruct (is_equal c); [done|by destruct y].
Qed.

(** An empty diff: the two lists of lines are the same. *)
Lemma unified_diff_nil a b fromfile :
  unified_diff a b fromfile = [] -> a = b.
Proof.
  unfold unified_diff. intros H.
  assert (Hg : get_grouped_opcodes a b 3 = [])
    by (by destruct (get_grouped_opcodes a b 3)).
  apply get_grouped_opcodes_nil in Hg. unfold get_opcodes in Hg.
  destruct (get_matching_blocks_path a b) as (blocks & Hb & Hp & Hm).
  destruct (opcodes_no_change a b (get_matching_blocks a b) 0 [] Hp Hm)
    as [Hlen Hsame]; [lia|done|].
  rewrite Hb, path_end_snoc in Hlen, Hsame. simpl in Hlen, Hsame.
  rewrite !Nat.add_0_r in *.
  apply list_eq. intros n. destruct (decide (n < length a)) as [Hlt|Hge].
  - by apply Hsame.
  - rewrite (lookup_ge_None_2 a), (lookup_ge_None_2 b); [done|lia|lia].
Qed.

Lemma keepends_from_concat cur s : concat (keepends_from cur s) = rev cur ++ s.
Proof.
  revert cur. induction s as [|c s IH]; intros cur.
  - simpl. destruct cur; [done|]. simpl. by rewrite !app_nil_r.
  - simpl. case_bool_decide.
    + simpl. rewrite IH. simpl. by rewrite <- app_assoc.
    + rewrite IH. simpl. by rewrite <- app_assoc.
Qed.

Lemma keepends_from_inj s s' :
  keepends_from [] s = keepends_from [] s' -> s = s'.
Proof.
  intros H. apply (f_equal (@concat ascii)) in H.
  by rewrite !keepends_from_concat in H.
Qed.

Lemma universal_newlines_cons c rest :
  c <> Py.CR -> universal_newlines (c :: rest) = c :: universal_newlines rest.
Proof. intros Hc. simpl. by rewrite (bool_decide_eq_false_2 _ Hc). Qed.

Lemma universal_newlines_CR_LF rest :
  universal_newlines (Py.CR :: Py.LF :: rest) = Py.LF :: universal_newlines rest.
Proof. reflexivity. Qed.

Lemma universal_newlines_CR e rest :
  e <> Py.LF ->
  universal_newlines (Py.CR :: e :: rest) = Py.LF :: universal_newlines (e :: rest).
Proof.
  intros He.
  change (universal_newlines (Py.CR :: e :: rest))
    with (Py.LF :: (if bool_decide (e = Py.LF) then universal_newlines rest
                    else universal_newlines (e :: rest))).
  by rewrite (bool_decide_eq_false_2 _ He).
Qed.

(** The text read of a file to which an LF and more is appended. *)
Lemma universal_newlines_app_LF data rest :
  exists pre,
    universal_newlines (data ++ Py.LF :: rest)
    = universal_newlines data ++ pre ++ universal_newlines rest.
Proof.
  remember (length data) as n eqn:Hn.
  revert data Hn. induction n as [n IH] using lt_wf_ind. intros data Hn.
  destruct data as [|c d].
  { exists [Py.LF]. reflexivity. }
  destruct (decide (c = Py.CR)) as [->|Hc].
  - destruct d as [|e d'].
    + exists []. reflexivity.
    + destruct (decide (e = Py.LF)) as [->|He].
      * destruct (IH (length d') ltac:(simpl in Hn; lia) d' eq_refl) as [pre Hpre].
        exists pre.
        change ((Py.CR :: Py.LF :: d') ++ Py.LF :: rest)
          with (Py.CR :: Py.LF :: (d' ++ Py.LF :: rest)).
        by rewrite !universal_newlines_CR_LF, Hpre.
      * destruct (IH (length (e :: d')) ltac:(simpl in Hn; simpl; lia) (e :: d') eq_refl)
          as [pre Hpre].
        exists pre.
        change ((Py.CR :: e :: d') ++ Py.LF :: rest)
          with (Py.CR :: e :: (d' ++ Py.LF :: rest)).
        rewrite !(universal_newlines_CR e) by done.
        change (e :: d' ++ Py.LF :: rest) with ((e :: d') ++ Py.LF :: rest).
        by rewrite Hpre.
  - destruct (IH (length d) ltac:(simpl in Hn; lia) d eq_refl) as [pre Hpre].
    exists pre.
    change ((c :: d) ++ Py.LF :: rest) with (c :: (d ++ Py.LF :: rest)).
    by rewrite !(universal_newlines_cons c) , Hpre.
Qed.

Lemma universal_newlines_appended data new :
  universal_newlines (data ++ [Py.LF; Py.LF] ++ new) <> universal_newlines data.
Proof.
  destruct (universal_newlines_app_LF data (Py.LF :: new)) as [pre Hpre].
  change (data ++ [Py.LF; Py.LF] ++ new) with (data ++ Py.LF :: Py.LF :: new).
  rewrite Hpre. intros H. apply (f_equal (@length ascii)) in H. revert H.
  rewrite !length_app.
  change (universal_newlines (Py.LF :: new)) with (Py.LF :: universal_newlines new).
  simpl. lia.
Qed.

End difflib_facts.

(** ** difflib: the diff of a list with itself *)

Section difflib_same.
Import Difflib.

Lemma chain_b_fold_full (b : list str) (l : list str) (s : nat) m :
  (forall t x, l !! t = Some x -> b !! (s + t) = Some x) ->
  b2j_full b s m ->
  b2j_full b (s + length l)
    (foldl (fun (m : gmap str (list nat)) (p : nat * str) =>
              <[p.2 := default [] (m !! p.2) ++ [p.1]]> m) m
       (zip (seq s (length l)) l)).
Proof.
  revert s m. induction l as [|x l IH]; intros s m Hl Hm.
  { simpl. by rewrite Nat.add_0_r. }
  simpl. replace (s + S (length l)) with (S s + length l) by lia.
  apply IH.
  { intros t y Ht. replace (S s + t) with (s + S t) by lia. by apply Hl. }
  assert (Hs : b !! s = Some x).
  { pose proof (Hl 0 x eq_refl) as H0. by rewrite Nat.add_0_r in H0. }
  destruct Hm as [Hm1 Hm2]. split.
  - intros line js Hjs. destruct (decide (x = line)) as [->|Hne].
    + rewrite lookup_insert_eq in Hjs. injection Hjs as <-.
      destruct (m !! line) as [js0|] eqn:Hjs0; simpl.
      * destruct (Hm1 _ _ Hjs0) as [Hsorted Hmem]. split.
        { apply StronglySorted_app_2; [|done|repeat constructor].
          intros j j' Hj ->%list_elem_of_singleton. by apply Hmem in Hj as [? _]. }
        intros j. rewrite elem_of_app, list_elem_of_singleton, Hmem. split.
        { intros [[? ?]| ->]; [split; [lia|done]|split; [lia|done]]. }
        intros [Hj Hbj]. destruct (decide (j = s)) as [->|?]; [by right|].
        left. split; [lia|done].
      * split; [repeat constructor|].
        intros j. rewrite list_elem_of_singleton. split.
        { intros ->. split; [lia|done]. }
        intros [Hj Hbj]. destruct (decide (j = s)) as [->|?]; [done|].
        destruct (Hm2 j line) as [js Hjs]; [lia|done|]. congruence.
    + rewrite lookup_insert_ne in Hjs by done.
      destruct (Hm1 _ _ Hjs) as [Hsorted Hmem]. split; [done|].
      intros j. rewrite Hmem. split.
      * intros [? ?]. split; [lia|done].
      * intros [Hj Hbj]. split; [|done].
        destruct (decide (j = s)) as [->|?]; [congruence|lia].
  - intros j line Hj Hbj. destruct (decide (x = line)) as [->|Hne].
    + rewrite lookup_insert_eq. eauto.
    + rewrite lookup_insert_ne by done.
      apply (Hm2 j); [|done].
      destruct (decide (j = s)) as [->|?]; [congruence|lia].
Qed.

Lemma chain_b_positions b line js :
  chain_b b !! line = Some js ->
  StronglySorted lt js /\ forall j, j ∈ js <-> b !! j = Some line.
Proof.
  pose proof (chain_b_fold_full b b 0 ∅) as H. simpl in H.
  destruct H as [H1 _].
  { done. }
  { split; [intros ? ? Hl; by rewrite lookup_empty in Hl|lia]. }
  intros Hjs.
  assert (Hjs' : foldl (fun (m : gmap str (list nat)) (p : nat * str) =>
                          <[p.2 := default [] (m !! p.2) ++ [p.1]]> m) ∅
                   (enumerate b) !! line = Some js).
  { revert Hjs. unfold chain_b. destruct (bool_decide _); [|done].
    by intros [? _]%map_lookup_filter_Some. }
  destruct (H1 _ _ Hjs') as [Hs Hmem]. split; [done|].
  intros j. rewrite Hmem. split; [tauto|].
  intros Hj. split; [|done]. by apply lookup_lt_Some in Hj.
Qed.

Section same.
Variables (a : list str) (b2j : gmap str (list nat)).
Hypothesis b2j_places :
  forall line js, b2j !! line = Some js ->
    StronglySorted lt js /\ forall j, j ∈ js <-> a !! j = Some line.

Lemma run_S i : indexed a b2j i = true -> run a b2j (S i) = run a b2j i + 1.
Proof. intros H. simpl. by rewrite H. Qed.

Lemma indexed_same i j : a !! j = a !! i -> indexed a b2j j = indexed a b2j i.
Proof. unfold indexed. by intros ->. Qed.

Lemma scan_js_cons i blo bhi j2len j js new best :
  scan_js i blo bhi j2len (j :: js) new best
  = if bool_decide (j < blo) then scan_js i blo bhi j2len js new best
    else if bool_decide (bhi <= j) then (new, best)
    else
      let k := match j with 0 => 0 | S j' => default 0 (j2len !! j') end + 1 in
      scan_js i blo bhi j2len js (<[j := k]> new)
        (if bool_decide (blk_size best < k) then Block (i + 1 - k) (j + 1 - k) k
         else best).
Proof. reflexivity. Qed.

(** The loop over [j] at the row [i] of the two equal lists: the best
    block stays on the diagonal. *)
Lemma scan_js_diag i j2len js new best :
  i < length a -> indexed a b2j i = true ->
  (forall i', i = S i' -> indexed a b2j i' = true ->
     j2len !! i' = Some (run a b2j i)) ->
  (forall j k, j2len !! j = Some k -> k <= run a b2j i /\ k <= run a b2j (S j)) ->
  StronglySorted lt js -> (forall j, j ∈ js -> a !! j = a !! i) ->
  (forall j k, new !! j = Some k -> k <= run a b2j (S i) /\ k <= run a b2j (S j)) ->
  blk_a best = blk_b best ->
  (forall r, r <= i -> run a b2j r <= blk_size best) ->
  (i ∈ js
   \/ (new !! i = Some (run a b2j (S i)) /\ run a b2j (S i) <= blk_size best
       /\ forall j, j ∈ js -> i < j)) ->
  (forall j k, (scan_js i 0 (length a) j2len js new best).1 !! j = Some k ->
     k <= run a b2j (S i) /\ k <= run a b2j (S j))
  /\ blk_a (scan_js i 0 (length a) j2len js new best).2
     = blk_b (scan_js i 0 (length a) j2len js new best).2
  /\ (forall r, r <= S i ->
        run a b2j r <= blk_size (scan_js i 0 (length a) j2len js new best).2)
  /\ (scan_js i 0 (length a) j2len js new best).1 !! i = Some (run a b2j (S i)).
Proof.
  intros Hi Hidx HJ1 HJ2. revert new best.
  induction js as [|j js IH]; intros new best Hsorted Hjs Hnew Hdiag Hbest Hstate.
  { destruct Hstate as [Hin|(Hni & Hle & _)]; [by apply elem_of_nil in Hin|].
    simpl. split; [done|]. split; [done|]. split; [|done].
    intros r Hr. destruct (decide (r = S i)) as [->|?]; [done|]. apply Hbest. lia. }
  apply StronglySorted_inv in Hsorted as [Hsorted Hhead].
  assert (Haj : a !! j = a !! i) by (apply Hjs; by left).
  assert (Hjn : j < length a).
  { apply lookup_lt_is_Some. rewrite Haj. by apply lookup_lt_is_Some. }
  assert (Hjidx : indexed a b2j j = true) by (by rewrite (indexed_same i j)).
  rewrite scan_js_cons. rewrite (bool_decide_eq_false_2 (j < 0)) by lia.
  rewrite (bool_decide_eq_false_2 (length a <= j)) by lia. cbv zeta.
  set (k := match j with 0 => 0 | S j' => default 0 (j2len !! j') end + 1).
  assert (Hk : k <= run a b2j (S i) /\ k <= run a b2j (S j)).
  { rewrite (run_S i Hidx), (run_S j Hjidx). subst k.
    destruct j as [|j']; [lia|]. cbv beta iota.
    destruct (j2len !! j') as [k0|] eqn:Hk0; cbn [default from_option id]; [|lia].
    destruct (HJ2 _ _ Hk0). lia. }
  assert (Hki : j = i -> k = run a b2j (S i)).
  { intros ->. rewrite (run_S i Hidx). subst k.
    destruct i as [|i']; [done|]. cbv beta iota.
    destruct (indexed a b2j i') eqn:Hi'.
    - by rewrite (HJ1 i' eq_refl Hi').
    - assert (run a b2j (S i') = 0) as -> by (simpl; by rewrite Hi').
      destruct (j2len !! i') as [k0|] eqn:Hk0; cbn [default from_option id]; [|done].
      destruct (HJ2 _ _ Hk0) as [_ H2]. simpl in H2. rewrite Hi' in H2. lia. }
  assert (Hnew' : forall j0 k0, <[j := k]> new !! j0 = Some k0 ->
            k0 <= run a b2j (S i) /\ k0 <= run a b2j (S j0)).
  { intros j0 k0 Hl. destruct (decide (j = j0)) as [<-|Hne].
    - rewrite lookup_insert_eq in Hl. by injection Hl as <-.
    - rewrite lookup_insert_ne in Hl by done. by apply Hnew. }
  assert (Hjs' : forall j0, j0 ∈ js -> a !! j0 = a !! i).
  { intros j0 Hj0. apply Hjs. by right. }
  rewrite Forall_forall in Hhead.
  destruct (decide (j = i)) as [->|Hji].
  - (* the diagonal *)
    specialize (Hki eq_refl).
    case_bool_decide as Hbetter.
    + apply IH; [done|done|done|done| |].
      * cbn [blk_size]. intros r Hr. pose proof (Hbest r Hr). lia.
      * right. rewrite lookup_insert_eq. split; [by rewrite Hki|].
        split; [cbn [blk_size]; lia|]. intros j0 Hj0. by apply Hhead.
    + apply IH; [done|done|done|done|done|].
      right. rewrite lookup_insert_eq. split; [by rewrite Hki|].
      split; [lia|]. intros j0 Hj0. by apply Hhead.
  - assert (Hsmall : k <= blk_size best).
    { destruct Hstate as [Hin|(_ & Hle & Hlt)].
      - apply elem_of_cons in Hin as [->|Hin]; [done|].
        pose proof (Hhead i Hin). pose proof (Hbest (S j) ltac:(lia)). lia.
      - lia. }
    rewrite (bool_decide_eq_false_2 (blk_size best < k)) by lia.
    apply IH; [done|done|done|done|done|].
    destruct Hstate as [Hin|(Hni & Hle & Hlt)].
    + left. by apply elem_of_cons in Hin as [->|Hin].
    + right. rewrite lookup_insert_ne by done. split; [done|]. split; [done|].
      intros j0 Hj0. apply Hlt. by right.
Qed.

Lemma b2j_places_ok : b2j_ok a b2j.
Proof.
  intros line js j Hjs Hj. destruct (b2j_places _ _ Hjs) as [_ Hmem].
  by apply Hmem.
Qed.

Lemma scan_is_fold_diag n' i st :
  i + n' = length a ->
  (forall i', i = S i' -> indexed a b2j i' = true ->
     st.1 !! i' = Some (run a b2j i)) ->
  (forall j k, st.1 !! j = Some k -> k <= run a b2j i /\ k <= run a b2j (S j)) ->
  blk_a st.2 = blk_b st.2 ->
  (forall r, r <= i -> run a b2j r <= blk_size st.2) ->
  blk_a (foldl (fun (st : gmap nat nat * block) (i : nat) =>
                  let js := default [] (b2j !! default [] (a !! i)) in
                  scan_js i 0 (length a) st.1 js ∅ st.2) st (seq i n')).2
  = blk_b (foldl (fun (st : gmap nat nat * block) (i : nat) =>
                    let js := default [] (b2j !! default [] (a !! i)) in
                    scan_js i 0 (length a) st.1 js ∅ st.2) st (seq i n')).2.
Proof.
  revert i st. induction n' as [|n' IH]; intros i st Hn HJ1 HJ2 Hdiag Hbest; [done|].
  cbn [seq foldl]. cbv zeta.
  assert (Hi : i < length a) by lia.
  destruct (a !! i) as [line|] eqn:Hline; [|apply lookup_ge_None in Hline; lia].
  cbn [default from_option id].
  destruct (b2j !! line) as [js|] eqn:Hjs; cbn [default from_option id].
  - assert (Hidx : indexed a b2j i = true).
    { unfold indexed. rewrite Hline, Hjs. by apply bool_decide_eq_true_2. }
    destruct (b2j_places _ _ Hjs) as [Hsorted Hmem].
    destruct (scan_js_diag i st.1 js ∅ st.2 Hi Hidx HJ1 HJ2 Hsorted)
      as (H1 & H2 & H3 & H4).
    + intros j Hj. rewrite Hline. by apply Hmem.
    + intros j k Hl. by rewrite lookup_empty in Hl.
    + done.
    + done.
    + left. by apply Hmem.
    + apply IH; [lia| |done|done|done].
      intros i' [= <-] _. done.
  - assert (Hidx : indexed a b2j i = false).
    { unfold indexed. rewrite Hline, Hjs. apply bool_decide_eq_false_2.
      by intros [? ?]. }
    assert (Hrun : run a b2j (S i) = 0) by (simpl; by rewrite Hidx).
    apply IH; [lia| | |done|].
    + intros i' [= <-] Hi'. congruence.
    + intros j k Hl. cbn in Hl. by rewrite lookup_empty in Hl.
    + cbn. intros r Hr. destruct (decide (r = S i)) as [->|?]; [lia|].
      apply Hbest. lia.
Qed.

Lemma extend_left_diag fuel i k :
  i <= fuel -> extend_left a a fuel 0 0 (Block i i k) = Block 0 0 (k + i).
Proof.
  revert i k. induction fuel as [|fuel IH]; intros i k Hi.
  { replace i with 0 by lia. by rewrite Nat.add_0_r. }
  cbn [extend_left blk_a blk_b blk_size].
  destruct i as [|i].
  { rewrite (bool_decide_eq_false_2 (0 < 0)) by lia. by rewrite Nat.add_0_r. }
  rewrite (bool_decide_eq_true_2 (0 < S i)) by lia.
  unfold same_line. rewrite (bool_decide_eq_true_2 (a !! _ = a !! _)) by done.
  cbn [andb]. replace (S i - 1) with i by lia.
  rewrite IH by lia. f_equal. lia.
Qed.

Lemma extend_right_diag fuel k :
  k <= length a -> length a - k <= fuel ->
  extend_right a a fuel (length a) (length a) (Block 0 0 k) = Block 0 0 (length a).
Proof.
  revert k. induction fuel as [|fuel IH]; intros k Hk Hf.
  { simpl. f_equal. lia. }
  cbn [extend_right blk_a blk_b blk_size]. cbn [Nat.add].
  destruct (decide (k < length a)) as [Hlt|Hge].
  - rewrite (bool_decide_eq_true_2 (k < length a)) by done.
    unfold same_line. rewrite (bool_decide_eq_true_2 (a !! _ = a !! _)) by done.
    cbn [andb]. apply IH; lia.
  - rewrite (bool_decide_eq_false_2 (k < length a)) by done.
    cbn [andb]. f_equal. lia.
Qed.

(** The longest match of a list with itself is the whole list. *)
Lemma find_longest_match_same :
  find_longest_match a a b2j 0 (length a) 0 (length a) = Block 0 0 (length a).
Proof.
  pose proof (scan_is_good a a b2j b2j_places_ok 0 (length a) 0 (length a))
    as [Hin _]; [lia|lia|lia|].
  assert (Hdiag : blk_a (scan_is a b2j 0 (length a) 0 (length a)).2
                  = blk_b (scan_is a b2j 0 (length a) 0 (length a)).2).
  { unfold scan_is. rewrite Nat.sub_0_r.
    apply scan_is_fold_diag; cbn.
    - done.
    - done.
    - intros j k Hl. by rewrite lookup_empty in Hl.
    - done.
    - intros r Hr. replace r with 0 by lia. simpl. lia. }
  unfold find_longest_match.
  destruct (scan_is a b2j 0 (length a) 0 (length a)).2 as [i j k].
  simpl in Hdiag. subst j. unfold rect_of, within in Hin. simpl in Hin.
  cbn [blk_a]. rewrite extend_left_diag by lia.
  cbn [blk_a blk_size]. apply extend_right_diag; lia.
Qed.

End same.

Lemma blocks_loop_nil a b b2j fuel acc : blocks_loop a b b2j fuel [] acc = acc.
Proof. by destruct fuel. Qed.

Lemma get_matching_blocks_same a :
  get_matching_blocks a a
  = if bool_decide (length a = 0) then [Block 0 0 0]
    else [Block 0 0 (length a); Block (length a) (length a) 0].
Proof.
  unfold get_matching_blocks. cbv zeta.
  replace (2 * length a + 1) with (S (2 * length a)) by lia.
  cbn [blocks_loop].
  rewrite (find_longest_match_same a (chain_b a) (chain_b_positions a)).
  case_bool_decide as Hn.
  - rewrite blocks_loop_nil. rewrite Hn. reflexivity.
  - rewrite (bool_decide_eq_false_2 (0 < 0)) by lia.
    rewrite (bool_decide_eq_false_2 (0 + length a < length a)) by lia.
    cbn [andb]. rewrite blocks_loop_nil.
    cbn [app sort_blocks foldr insert_block foldl join_adjacent].
    rewrite (bool_decide_eq_true_2 (0 + 0 = 0)) by lia. cbn [andb].
    rewrite (bool_decide_eq_false_2 (0 + length a = 0)) by lia.
    reflexivity.
Qed.

(** The diff of a list of lines with itself is empty. *)
Lemma unified_diff_same a fromfile : unified_diff a a fromfile = [].
Proof.
  assert (Hg : get_grouped_opcodes a a 3 = []); [|unfold unified_diff; by rewrite Hg].
  unfold get_grouped_opcodes, get_opcodes. rewrite get_matching_blocks_same.
  case_bool_decide as Hn; [reflexivity|].
  cbn [foldl opcode_step].
  rewrite (bool_decide_eq_false_2 (0 < 0)) by lia. cbn [andb].
  rewrite (bool_decide_eq_false_2 (length a = 0)) by lia.
  rewrite (bool_decide_eq_false_2 (0 + length a < length a)) by lia. cbn [andb].
  rewrite (bool_decide_eq_true_2 (0 = 0)) by lia.
  cbn [app snd fix_first]. cbv zeta.
  unfold fix_last. cbn [last removelast app foldl group_step is_equal op_tag].
  rewrite bool_decide_eq_false_2 by lia.
  reflexivity.
Qed.

End difflib_same.

(** ** Paths and keys *)

Section split.
Variable c : ascii.

Lemma split_from_cur cur s :
  OsPath.split_from c cur s =
  match OsPath.split_on c s with
  | f :: r => (rev cur ++ f) :: r
  | [] => []
  end.
Proof.
  unfold OsPath.split_on. revert cur.
  induction s as [|d s IH]; intros cur; simpl.
  - by rewrite app_nil_r.
  - destruct (bool_decide (d = c)).
    + by rewrite app_nil_r.
    + rewrite (IH [d]), (IH (d :: cur)).
      destruct (OsPath.split_from c [] s) as [|f r]; [done|].
      simpl. by rewrite <- app_assoc.
Qed.

Lemma split_on_nil : OsPath.split_on c [] = [[]].
Proof. reflexivity. Qed.

Lemma split_on_sep s : OsPath.split_on c (c :: s) = [] :: OsPath.split_on c s.
Proof. unfold OsPath.split_on. simpl. by rewrite bool_decide_eq_true_2. Qed.

Lemma split_on_ne_nil s : OsPath.split_on c s <> [].
Proof.
  unfold OsPath.split_on. generalize (@nil ascii) as cur.
  induction s as [|d s IH]; intros cur; simpl; [done|].
  destruct (bool_decide (d = c)); [done|]. apply IH.
Qed.

Lemma split_on_other d s :
  d <> c ->
  exists f r, OsPath.split_on c s = f :: r
              /\ OsPath.split_on c (d :: s) = (d :: f) :: r.
Proof.
  intros Hd. destruct (OsPath.split_on c s) as [|f r] eqn:E.
  - by apply split_on_ne_nil in E.
  - exists f, r. split; [done|]. unfold OsPath.split_on. simpl.
    rewrite bool_decide_eq_false_2 by done.
    rewrite split_from_cur, E. done.
Qed.

Lemma split_on_app a b :
  OsPath.split_on c (a ++ c :: b) = OsPath.split_on c a ++ OsPath.split_on c b.
Proof.
  induction a as [|d a IH]; simpl.
  - by rewrite split_on_sep.
  - destruct (decide (d = c)) as [->|Hd].
    + by rewrite !split_on_sep, IH.
    + destruct (split_on_other d (a ++ c :: b) Hd) as (f & r & E1 & ->).
      destruct (split_on_other d a Hd) as (f' & r' & E2 & ->).
      rewrite IH, E2 in E1. simpl in E1. injection E1 as <- <-. done.
Qed.

Lemma split_on_free s : c ∉ s -> OsPath.split_on c s = [s].
Proof.
  induction s as [|d s IH]; [done|]. intros H.
  apply not_elem_of_cons in H as [Hd Hs].
  destruct (split_on_other d s (not_eq_sym Hd)) as (f & r & E1 & ->).
  rewrite IH in E1 by done. by injection E1 as <- <-.
Qed.

Lemma split_on_elem_free s x : x ∈ OsPath.split_on c s -> c ∉ x.
Proof.
  revert x. induction s as [|d s IH]; intros x.
  - rewrite split_on_nil. intros ->%list_elem_of_singleton. by intros ?%elem_of_nil.
  - destruct (decide (d = c)) as [->|Hd].
    + rewrite split_on_sep. intros [->|H]%elem_of_cons; [by intros ?%elem_of_nil|auto].
    + destruct (split_on_other d s Hd) as (f & r & E1 & ->).
      rewrite E1 in IH.
      intros [->|H]%elem_of_cons.
      * intros [?|?]%elem_of_cons; [done|]. by apply (IH f); [left|].
      * apply IH. by right.
Qed.

Lemma split_on_infix s x :
  x ∈ OsPath.split_on c s -> exists l r, s = l ++ x ++ r.
Proof.
  revert x. induction s as [|d s IH]; intros x.
  - rewrite split_on_nil. intros ->%list_elem_of_singleton. by exists [], [].
  - destruct (decide (d = c)) as [->|Hd].
    + rewrite split_on_sep. intros [->|H]%elem_of_cons.
      * by exists [], (c :: s).
      * destruct (IH x H) as (l & r & ->). by exists (c :: l), r.
    + destruct (split_on_other d s Hd) as (f & r & E1 & ->).
      rewrite E1 in IH.
      intros [->|H]%elem_of_cons.
      * destruct (IH f ltac:(by left)) as (l & r' & Hs).
        assert (c ∉ f) as Hf.
        { apply (split_on_elem_free s). rewrite E1. by left. }
        (* [f] is the first component: nothing stands before it *)
        assert (exists r'', s = f ++ r'') as [r'' ->].
        { clear -E1 Hf. revert f r E1 Hf.
          induction s as [|e s IHs]; intros f r E1 Hf.
          - rewrite split_on_nil in E1. injection E1 as <- <-. by exists [].
          - destruct (decide (e = c)) as [->|He].
            + rewrite split_on_sep in E1. injection E1 as <- <-. by exists (c :: s).
            + destruct (split_on_other e s He) as (f' & r' & E2 & E3).
              rewrite E3 in E1. injection E1 as <- <-.
              destruct (IHs f' r' E2) as [r'' ->].
              * intros H. apply Hf. by right.
              * by exists r''. }
        by exists [], r''.
      * destruct (IH x ltac:(by right)) as (l & r' & ->). by exists (d :: l), r'.
Qed.

Lemma split_on_join comps :
  comps <> [] -> Forall (fun x => c ∉ x) comps ->
  OsPath.split_on c (Py.join [c] comps) = comps.
Proof.
  induction comps as [|x comps IH]; [done|]. intros _ Hall.
  apply Forall_cons in Hall as [Hx Hall].
  destruct comps as [|y comps]; [by apply split_on_free|].
  rewrite join_cons2.
  change (x ++ [c] ++ Py.join [c] (y :: comps))
    with (x ++ c :: Py.join [c] (y :: comps)).
  rewrite split_on_app, split_on_free by done. by rewrite IH.
Qed.

End split.

Lemma norm_step_slashes K comp : OsPath.norm_step 2 K comp = OsPath.norm_step 1 K comp.
Proof. reflexivity. Qed.

Lemma norm_fold_slashes comps K :
  foldl (OsPath.norm_step 2) K comps = foldl (OsPath.norm_step 1) K comps.
Proof. revert K. induction comps as [|x comps IH]; intros K; simpl; [done|]. by rewrite IH. Qed.

Lemma norm_step_valid K comp :
  Forall valid_name K -> OsPath.sep ∉ comp ->
  Forall valid_name (OsPath.norm_step 1 K comp)
  /\ (comp <> lit ".." ->
      OsPath.norm_step 1 K comp = K ++ (if kept comp then [comp] else []))
  /\ (comp = lit ".." -> OsPath.norm_step 1 K comp = removelast K).
Proof.
  intros HK Hsep. unfold OsPath.norm_step, kept.
  destruct (bool_decide (comp = [])) eqn:E1.
  { apply bool_decide_eq_true in E1 as ->. cbn [negb orb andb].
    split; [done|]. split; [by rewrite app_nil_r|]. done. }
  destruct (bool_decide (comp = lit ".")) eqn:E2.
  { apply bool_decide_eq_true in E2 as ->. cbn [negb orb andb].
    split; [done|]. split; [by rewrite app_nil_r|]. done. }
  apply bool_decide_eq_false in E1, E2. cbn [negb orb andb].
  destruct (bool_decide (comp = lit "..")) eqn:E3.
  - apply bool_decide_eq_true in E3 as ->. cbn [negb orb andb].
    assert (Hlast : bool_decide (last K = Some (lit "..")) = false).
    { apply bool_decide_eq_false_2. intros Hl.
      apply last_Some in Hl as [K' ->].
      apply Forall_app in HK as [_ HK]. apply Forall_inv in HK.
      unfold valid_name in HK. by destruct HK as (_ & _ & _ & H). }
    rewrite Hlast, andb_false_r.
    rewrite (bool_decide_eq_false_2 (1 = 0)) by done. cbn [negb orb andb].
    assert (Hrm : Forall valid_name (removelast K)).
    { destruct K as [|x K _] using rev_ind; [done|].
      rewrite removelast_last. by apply Forall_app in HK as [HK _]. }
    destruct (bool_decide (K = [])) eqn:E4; cbn [negb].
    + apply bool_decide_eq_true in E4 as ->. done.
    + done.
  - apply bool_decide_eq_false in E3. cbn [negb orb andb]. split; [|split].
    + apply Forall_app. split; [done|]. by repeat constructor.
    + done.
    + done.
Qed.

Lemma norm_fold_valid comps K :
  Forall valid_name K -> Forall (fun x => OsPath.sep ∉ x) comps ->
  Forall valid_name (foldl (OsPath.norm_step 1) K comps).
Proof.
  revert K. induction comps as [|x comps IH]; intros K HK Hc; simpl; [done|].
  apply Forall_cons in Hc as [Hx Hc]. apply IH; [|done].
  by apply norm_step_valid.
Qed.

Lemma split_sep_free p : Forall (fun x => OsPath.sep ∉ x) (OsPath.split_on OsPath.sep p).
Proof. apply Forall_forall. intros x. apply split_on_elem_free. Qed.

Lemma norm_key_valid p : Forall valid_name (norm_key p).
Proof. apply norm_fold_valid; [done|]. apply split_sep_free. Qed.

(** Without [..], the components are kept as they come. *)
Lemma norm_fold_plain comps K :
  Forall valid_name K ->
  Forall (fun x => OsPath.sep ∉ x) comps ->
  Forall (fun x => x <> lit "..") comps ->
  foldl (OsPath.norm_step 1) K comps = K ++ filter (fun x => kept x = true) comps.
Proof.
  revert K. induction comps as [|x comps IH]; intros K HK Hs Hd; simpl.
  - by rewrite app_nil_r.
  - apply Forall_cons in Hs as [Hx Hs]. apply Forall_cons in Hd as [Hxd Hd].
    destruct (norm_step_valid K x HK Hx) as (Hv & Hstep & _).
    rewrite IH by done. rewrite (Hstep Hxd), filter_cons.
    destruct (decide (kept x = true)) as [E|E].
    + rewrite E. by rewrite <- app_assoc.
    + apply not_true_is_false in E. rewrite E. by rewrite app_nil_r.
Qed.

Lemma valid_kept x : valid_name x -> kept x = true.
Proof.
  unfold valid_name. intros (H1 & _ & H2 & _). unfold kept.
  by rewrite !bool_decide_eq_false_2.
Qed.

Lemma filter_kept_valid K :
  Forall valid_name K -> filter (fun x => kept x = true) K = K.
Proof.
  induction 1 as [|x K Hx HK IH]; [done|].
  rewrite filter_cons, decide_True by (by apply valid_kept). by rewrite IH.
Qed.

Lemma norm_fold_valid_id K :
  Forall valid_name K -> foldl (OsPath.norm_step 1) [] K = K.
Proof.
  intros HK. rewrite norm_fold_plain; try done.
  - by rewrite filter_kept_valid.
  - eapply Forall_impl; [done|]. unfold valid_name. by intros x (_ & H & _).
  - eapply Forall_impl; [done|]. unfold valid_name. by intros x (_ & _ & _ & H).
Qed.

Lemma startswith_sep_cons p :
  Py.startswith p [OsPath.sep] = true -> exists r, p = OsPath.sep :: r.
Proof. intros [r ->]%startswith_spec. by exists r. Qed.

Lemma normpath_abs p :
  Py.startswith p [OsPath.sep] = true ->
  exists i, 1 <= i
    /\ OsPath.normpath p = replicate i OsPath.sep ++ Py.join [OsPath.sep] (norm_key p).
Proof.
  intros Hp. unfold OsPath.normpath.
  destruct (startswith_sep_cons p Hp) as [r ->].
  rewrite bool_decide_eq_false_2 by done. rewrite Hp.
  destruct (_ && _).
  - exists 2. split; [lia|]. rewrite norm_fold_slashes.
    rewrite bool_decide_eq_false_2 by done. done.
  - exists 1. split; [lia|]. rewrite bool_decide_eq_false_2 by done. done.
Qed.

Lemma split_slashes i X :
  OsPath.split_on OsPath.sep (replicate i OsPath.sep ++ X)
  = replicate i [] ++ OsPath.split_on OsPath.sep X.
Proof. induction i as [|i IH]; simpl; [done|]. by rewrite split_on_sep, IH. Qed.

Lemma norm_fold_empties i K comps :
  foldl (OsPath.norm_step 1) K (replicate i [] ++ comps)
  = foldl (OsPath.norm_step 1) K comps.
Proof. induction i as [|i IH]; simpl; [done|]. exact IH. Qed.

Lemma filter_nonempty_empties i (comps : list str) :
  filter OsPath.nonempty (replicate i [] ++ comps) = filter OsPath.nonempty comps.
Proof. induction i as [|i IH]; simpl; [done|]. exact IH. Qed.

Lemma filter_nonempty_valid K :
  Forall valid_name K -> filter OsPath.nonempty K = K.
Proof.
  induction 1 as [|x K Hx HK IH]; [done|].
  rewrite filter_cons. unfold valid_name in Hx. destruct Hx as (Hx & _).
  rewrite decide_True.
  - by rewrite IH.
  - unfold OsPath.nonempty. by rewrite bool_decide_eq_false_2.
Qed.

Lemma valid_sep_free K : Forall valid_name K -> Forall (fun x => OsPath.sep ∉ x) K.
Proof. intros H. eapply Forall_impl; [done|]. unfold valid_name. by intros x (_ & H' & _). Qed.

Lemma key_of_normal i K :
  Forall valid_name K ->
  filter OsPath.nonempty
    (OsPath.split_on OsPath.sep (replicate i OsPath.sep ++ Py.join [OsPath.sep] K))
  = K.
Proof.
  intros HK. rewrite split_slashes, filter_nonempty_empties.
  destruct K as [|x K]; [done|].
  rewrite split_on_join; [|done|by apply valid_sep_free].
  by apply filter_nonempty_valid.
Qed.

Lemma norm_key_normal i K :
  Forall valid_name K ->
  norm_key (replicate i OsPath.sep ++ Py.join [OsPath.sep] K) = K.
Proof.
  intros HK. unfold norm_key. rewrite split_slashes, norm_fold_empties.
  destruct K as [|x K]; [done|].
  rewrite split_on_join; [|done|by apply valid_sep_free].
  by apply norm_fold_valid_id.
Qed.

Lemma key_of_abs cwd p : OsPath.isabs p = true -> key_of cwd p = norm_key p.
Proof.
  intros Hp. unfold key_of, OsPath.abspath. rewrite Hp.
  destruct (normpath_abs p Hp) as (i & _ & ->).
  apply key_of_normal, norm_key_valid.
Qed.

Lemma join_rel_split cwd p :
  OsPath.isabs cwd = true -> OsPath.isabs p = false ->
  OsPath.isabs (OsPath.join cwd p) = true
  /\ norm_key (OsPath.join cwd p)
     = foldl (OsPath.norm_step 1) (norm_key cwd) (OsPath.split_on OsPath.sep p).
Proof.
  unfold OsPath.isabs. intros Hc Hp. unfold OsPath.join. rewrite Hp.
  destruct (startswith_sep_cons cwd Hc) as [r ->].
  rewrite bool_decide_eq_false_2 by done. simpl (false || _).
  destruct (Py.endswith (OsPath.sep :: r) [OsPath.sep]) eqn:He.
  - apply endswith_spec in He as [c' Hc']. rewrite Hc'. split.
    + rewrite <- Hc'. apply startswith_spec. by exists (r ++ p).
    + unfold norm_key. rewrite <- app_assoc. simpl ([OsPath.sep] ++ p).
      rewrite split_on_app, foldl_app.
      replace (c' ++ [OsPath.sep]) with (c' ++ OsPath.sep :: []) by done.
      rewrite split_on_app, foldl_app. done.
  - split.
    + apply startswith_spec. by exists (r ++ [OsPath.sep] ++ p).
    + unfold norm_key. simpl ([OsPath.sep] ++ p).
      by rewrite split_on_app, foldl_app.
Qed.

Lemma key_of_rel cwd p :
  OsPath.isabs cwd = true -> OsPath.isabs p = false ->
  key_of cwd p
  = foldl (OsPath.norm_step 1) (norm_key cwd) (OsPath.split_on OsPath.sep p).
Proof.
  intros Hc Hp. destruct (join_rel_split cwd p Hc Hp) as [Habs <-].
  unfold key_of, OsPath.abspath. rewrite Hp.
  destruct (normpath_abs _ Habs) as (i & _ & ->).
  apply key_of_normal, norm_key_valid.
Qed.


Lemma root_key cwd :
  OsPath.isabs cwd = true -> key_of cwd KNOWLEDGE_ROOT = norm_key cwd.
Proof. intros Hc. by rewrite key_of_rel. Qed.

Lemma abspath_isabs cwd p :
  OsPath.isabs cwd = true -> OsPath.isabs (OsPath.abspath cwd p) = true.
Proof.
  intros Hc. unfold OsPath.abspath.
  assert (Hfull : OsPath.isabs (if OsPath.isabs p then p else OsPath.join cwd p) = true).
  { destruct (OsPath.isabs p) eqn:Hp; [done|]. by apply join_rel_split. }
  destruct (normpath_abs _ Hfull) as (i & Hi & ->).
  destruct i; [lia|]. done.
Qed.

(** The key of an absolute form is the key of the path. *)
Lemma key_of_abspath cwd p :
  OsPath.isabs cwd = true -> key_of cwd (OsPath.abspath cwd p) = key_of cwd p.
Proof.
  intros Hc. rewrite (key_of_abs cwd (OsPath.abspath cwd p)) by (by apply abspath_isabs).
  unfold key_of at 1. unfold OsPath.abspath.
  assert (Hfull : OsPath.isabs (if OsPath.isabs p then p else OsPath.join cwd p) = true).
  { destruct (OsPath.isabs p) eqn:Hp; [done|]. by apply join_rel_split. }
  destruct (normpath_abs _ Hfull) as (i & Hi & ->).
  rewrite norm_key_normal, key_of_normal by apply norm_key_valid. done.
Qed.

(** ** Validated paths and snapshot names *)

Lemma key_of_plain cwd p :
  OsPath.isabs cwd = true -> plain p ->
  key_of cwd p = norm_key cwd ++ kept_parts p.
Proof.
  intros Hc [Hp Hd]. rewrite key_of_rel by done.
  apply norm_fold_plain; [apply norm_key_valid|apply split_sep_free|done].
Qed.

Lemma isabs_cons c p : OsPath.isabs (c :: p) = bool_decide (c = OsPath.sep).
Proof.
  unfold OsPath.isabs. simpl. rewrite andb_true_r.
  apply bool_decide_ext. split; by intros ->.
Qed.

Lemma isabs_free p : OsPath.sep ∉ p -> OsPath.isabs p = false.
Proof.
  destruct p as [|c p]; [done|]. intros H. rewrite isabs_cons.
  apply bool_decide_eq_false_2. intros ->. apply H. by left.
Qed.

Lemma isabs_app a b : a <> [] -> OsPath.isabs (a ++ b) = OsPath.isabs a.
Proof. destruct a as [|c a]; [done|]. intros _. simpl. by rewrite !isabs_cons. Qed.

(** Joining a name to a plain path. *)
Lemma plain_join a b :
  plain a -> OsPath.sep ∉ b -> b <> lit ".." ->
  plain (OsPath.join a b)
  /\ kept_parts (OsPath.join a b) = kept_parts a ++ (if kept b then [b] else []).
Proof.
  intros [Ha Hd] Hb Hbd. unfold OsPath.join.
  change (Py.startswith b [OsPath.sep]) with (OsPath.isabs b).
  rewrite (isabs_free b Hb). unfold kept_parts, plain.
  assert (Hb1 : filter (fun x => kept x = true) (OsPath.split_on OsPath.sep b)
                = if kept b then [b] else []).
  { rewrite split_on_free by done. rewrite filter_cons.
    destruct (decide (kept b = true)) as [E|E]; [by rewrite E|].
    apply not_true_is_false in E. by rewrite E. }
  assert (Hb2 : Forall (fun x => x <> lit "..") (OsPath.split_on OsPath.sep b)).
  { rewrite split_on_free by done. by repeat constructor. }
  destruct (bool_decide (a = [])) eqn:Ea.
  - apply bool_decide_eq_true in Ea as ->. simpl.
    split; [split; [by apply isabs_free|done]|]. done.
  - apply bool_decide_eq_false in Ea. simpl.
    destruct (Py.endswith a [OsPath.sep]) eqn:He.
    + apply endswith_spec in He as [a' ->].
      replace ((a' ++ [OsPath.sep]) ++ b) with (a' ++ OsPath.sep :: b)
        by (by rewrite <- app_assoc).
      replace (a' ++ [OsPath.sep]) with (a' ++ OsPath.sep :: []) in Hd by done.
      rewrite split_on_app in *. rewrite split_on_nil in Hd.
      apply Forall_app in Hd as [Hd _].
      split; [split|].
      * destruct a' as [|c a']; [done|]. simpl in *. by rewrite isabs_cons in *.
      * apply Forall_app. done.
      * replace (a' ++ [OsPath.sep]) with (a' ++ OsPath.sep :: []) by done.
        rewrite split_on_app, !filter_app, Hb1, split_on_nil.
        change (filter (fun x => kept x = true) [[]]) with (@nil str).
        by rewrite app_nil_r.
    + change (a ++ [OsPath.sep] ++ b) with (a ++ OsPath.sep :: b).
      rewrite split_on_app. split; [split|].
      * by rewrite isabs_app.
      * apply Forall_app. done.
      * by rewrite filter_app, Hb1.
Qed.

Lemma plain_root : plain KNOWLEDGE_ROOT /\ kept_parts KNOWLEDGE_ROOT = [].
Proof. split; [split; [done|by repeat constructor]|done]. Qed.

Lemma plain_history_dir : plain HISTORY_DIR /\ kept_parts HISTORY_DIR = [lit ".history"].
Proof. split; [split; [done|by repeat constructor]|done]. Qed.

Lemma replace_char_free a b s : a <> b -> a ∉ replace_char a b s.
Proof.
  intros Hab. induction s as [|c s IH]; simpl; [by intros ?%elem_of_nil|].
  intros [E|H]%elem_of_cons; [|done].
  destruct (bool_decide (c = a)) eqn:Ec; [done|].
  apply bool_decide_eq_false in Ec. done.
Qed.

Lemma replace_char_keeps a b c s : c ∉ s -> c <> b -> c ∉ replace_char a b s.
Proof.
  intros Hs Hb. induction s as [|d s IH]; simpl; [done|].
  apply not_elem_of_cons in Hs as [Hd Hs].
  apply not_elem_of_cons. split; [|by apply IH].
  destruct (bool_decide (d = a)); done.
Qed.

Lemma safe_name_free p : OsPath.sep ∉ safe_name p.
Proof.
  unfold safe_name. apply replace_char_keeps; [|done].
  by apply replace_char_free.
Qed.

Lemma safe_name_dotdot p : safe_name p = lit ".." -> p = lit "..".
Proof.
  unfold safe_name, replace_char. rewrite map_map.
  destruct p as [|c [|d [|e p]]]; try done. simpl.
  intros [= Hc Hd]. f_equal; [|f_equal].
  - destruct (bool_decide (c = "/"%char)) eqn:E; simpl in Hc; [done|].
    destruct (bool_decide (c = "\"%char)); done.
  - destruct (bool_decide (d = "/"%char)) eqn:E; simpl in Hd; [done|].
    destruct (bool_decide (d = "\"%char)); done.
Qed.

Lemma lstrip_chars_rel chars p :
  OsPath.sep ∈ chars -> OsPath.isabs (Py.lstrip_chars chars p) = false.
Proof.
  intros Hin. unfold Py.lstrip_chars.
  destruct (lstrip_by_spec (fun c => bool_decide (c ∈ chars)) p) as (l & _ & _ & Hh).
  destruct (Py.lstrip_by _ p) as [|c q]; [done|].
  rewrite isabs_cons. apply bool_decide_eq_false_2. intros ->.
  by rewrite bool_decide_eq_true_2 in Hh.
Qed.

Lemma no_dotdot_parts p :
  Py.contains p (lit "..") = false ->
  Forall (fun x => x <> lit "..") (OsPath.split_on OsPath.sep p).
Proof.
  intros Hc. apply Forall_forall. intros x Hx ->.
  apply split_on_infix in Hx as (l & r & Hp).
  assert (Py.contains p (lit "..") = true); [|congruence].
  apply contains_spec. eauto.
Qed.

Lemma validate_path_inv path s s' abs :
  _validate_path path s = (s', Ok abs) ->
  let clean := Py.lstrip_chars (lit "/\") (Py.strip path) in
  s' = s
  /\ Py.contains clean (lit "..") = false
  /\ abs = OsPath.abspath (fs_cwd s) (OsPath.join KNOWLEDGE_ROOT clean)
  /\ Py.startswith abs (OsPath.abspath (fs_cwd s) KNOWLEDGE_ROOT) = true.
Proof.
  intros H clean. unfold _validate_path in H. fold clean in H.
  destruct (Py.contains clean (lit "..")); [done|].
  rewrite bind_run in H. unfold getcwd in H.
  destruct (Py.startswith _ _) eqn:Hs; simpl in H; [|done].
  rewrite ret_run in H. by injection H as <- <-.
Qed.

Lemma plain_clean path :
  let clean := Py.lstrip_chars (lit "/\") (Py.strip path) in
  Py.contains clean (lit "..") = false ->
  plain (OsPath.join KNOWLEDGE_ROOT clean)
  /\ kept_parts (OsPath.join KNOWLEDGE_ROOT clean) = kept_parts clean.
Proof.
  intros clean Hc.
  assert (Hrel : OsPath.isabs clean = false).
  { apply lstrip_chars_rel. by left. }
  unfold OsPath.join. change (Py.startswith clean [OsPath.sep]) with (OsPath.isabs clean).
  rewrite Hrel. change (bool_decide (KNOWLEDGE_ROOT = []) || _) with false.
  cbv iota. change (KNOWLEDGE_ROOT ++ [OsPath.sep] ++ clean)
    with (lit "." ++ OsPath.sep :: clean).
  unfold plain, kept_parts. rewrite split_on_app. split; [split|].
  - done.
  - apply Forall_app. split; [by repeat constructor|by apply no_dotdot_parts].
  - by rewrite filter_app.
Qed.

(** The file a validated path names lies under the root. *)
Lemma validate_path_key path s abs :
  OsPath.isabs (fs_cwd s) = true ->
  _validate_path path s = (s, Ok abs) ->
  key_of (fs_cwd s) abs
  = root_of s ++ kept_parts (Py.lstrip_chars (lit "/\") (Py.strip path)).
Proof.
  intros Hc (_ & Hdd & -> & _)%validate_path_inv.
  rewrite key_of_abspath by done.
  destruct (plain_clean path Hdd) as [Hp Hk].
  rewrite key_of_plain by done. by rewrite Hk.
Qed.

Lemma validate_path_not_dotdot path s abs :
  _validate_path path s = (s, Ok abs) -> path <> lit "..".
Proof. intros (_ & Hdd & _)%validate_path_inv ->. done. Qed.

Lemma uint_digits u : Forall is_digit (lit (NilEmpty.string_of_uint u)).
Proof.
  induction u; simpl; [constructor|..];
    (constructor; [unfold is_digit; repeat constructor|done]).
Qed.

Lemma str_of_nat_digits n : Forall is_digit (Py.str_of_nat n).
Proof. apply uint_digits. Qed.

Lemma pad2_digits n : Forall is_digit (pad2 n).
Proof.
  unfold pad2. destruct (bool_decide (n < 10)); [|apply str_of_nat_digits].
  apply Forall_app. split; [|apply str_of_nat_digits].
  repeat constructor.
Qed.

Lemma digit_not_sep c : is_digit c -> c <> OsPath.sep.
Proof.
  unfold is_digit. intros H ->. revert H.
  by apply (bool_decide_eq_false_1 (OsPath.sep ∈ lit "0123456789")).
Qed.

Lemma digits_free s : Forall is_digit s -> OsPath.sep ∉ s.
Proof.
  intros H Hin. rewrite Forall_forall in H. by apply H, digit_not_sep in Hin.
Qed.

Lemma snapshot_name_valid now :
  let name := strftime_snapshot now ++ lit ".snap" in
  (OsPath.sep ∉ name) /\ name <> lit ".." /\ kept name = true.
Proof.
  intros name.
  assert (Hlast : last name = Some "p"%char).
  { unfold name. by rewrite last_app. }
  split; [|split].
  - unfold name, strftime_snapshot. rewrite !not_elem_of_app.
    pose proof (digits_free _ (str_of_nat_digits (dt_year now))).
    pose proof (digits_free _ (pad2_digits (dt_month now))).
    pose proof (digits_free _ (pad2_digits (dt_day now))).
    pose proof (digits_free _ (pad2_digits (dt_hour now))).
    pose proof (digits_free _ (pad2_digits (dt_minute now))).
    pose proof (digits_free _ (pad2_digits (dt_second now))).
    split_and!; try done;
      by apply (bool_decide_eq_true_1 (OsPath.sep ∉ _)).
  - intros E. by rewrite E in Hlast.
  - unfold kept. rewrite !bool_decide_eq_false_2; [done|..].
    + intros E. by rewrite E in Hlast.
    + intros E. by rewrite E in Hlast.
Qed.

Lemma history_dir_key s resolved :
  OsPath.isabs (fs_cwd s) = true -> resolved <> lit ".." ->
  let dir := OsPath.join HISTORY_DIR (safe_name resolved) in
  plain dir
  /\ key_of (fs_cwd s) dir
     = root_of s ++ [lit ".history"]
         ++ (if kept (safe_name resolved) then [safe_name resolved] else []).
Proof.
  intros Hc Hr dir.
  destruct plain_history_dir as [Hp Hk].
  destruct (plain_join HISTORY_DIR (safe_name resolved) Hp) as [Hp' Hk'].
  { apply safe_name_free. }
  { intros E. by apply safe_name_dotdot in E. }
  split; [done|]. rewrite key_of_plain by done. unfold dir.
  by rewrite Hk', Hk.
Qed.

Lemma snapshot_path_key s now resolved :
  OsPath.isabs (fs_cwd s) = true -> resolved <> lit ".." ->
  plain (snapshot_path now resolved)
  /\ key_of (fs_cwd s) (snapshot_path now resolved)
     = key_of (fs_cwd s) (OsPath.join HISTORY_DIR (safe_name resolved))
         ++ [strftime_snapshot now ++ lit ".snap"].
Proof.
  intros Hc Hr.
  destruct (history_dir_key s resolved Hc Hr) as [Hp Hk].
  destruct (snapshot_name_valid now) as (Hn1 & Hn2 & Hn3).
  destruct (plain_join _ _ Hp Hn1 Hn2) as [Hp' Hk'].
  split; [done|]. unfold snapshot_path.
  rewrite !key_of_plain by done. rewrite Hk', Hn3. by rewrite app_assoc.
Qed.

(** ** Only files under the root are opened *)

Section confinement.
Variable c : str.
Hypothesis c_abs : OsPath.isabs c = true.

Lemma confined_refl s : confined c s s.
Proof. exists []. by rewrite app_nil_r. Qed.

Lemma confined_trans s1 s2 s3 :
  confined c s1 s2 -> confined c s2 s3 -> confined c s1 s3.
Proof.
  intros (o1 & Hl1 & Ho1 & Hf1) (o2 & Hl2 & Ho2 & Hf2).
  exists (o1 ++ o2). split; [by rewrite Hl2, Hl1, app_assoc|].
  split; [by apply Forall_app|].
  intros k Hk. by rewrite Hf2, Hf1.
Qed.

Lemma triple_ret {A} (a : A) (P : A -> Prop) : P a -> triple c (mret a) P.
Proof.
  intros HP s s' r Hinv [= <- <-].
  split; [done|]. split; [apply confined_refl|]. by intros ? [= <-].
Qed.

Lemma triple_raise {A} e (P : A -> Prop) : triple c (raise e) P.
Proof.
  intros s s' r Hinv [= <- <-].
  split; [done|]. split; [apply confined_refl|]. done.
Qed.

Lemma triple_bind {A B} (m : M A) (k : A -> M B) P Q :
  triple c m P -> (forall a, P a -> triple c (k a) Q) -> triple c (m ≫= k) Q.
Proof.
  intros Hm Hk s s' r Hinv. rewrite bind_run.
  destruct (m s) as [s1 [a|e]] eqn:E.
  - destruct (Hm s s1 (Ok a) Hinv E) as (Hinv1 & Hc1 & HP).
    intros Hrun. destruct (Hk a (HP a eq_refl) s1 s' r Hinv1 Hrun) as (? & ? & ?).
    split; [done|]. split; [by eapply confined_trans|done].
  - destruct (Hm s s1 (Raise e) Hinv E) as (Hinv1 & Hc1 & _).
    intros [= <- <-]. done.
Qed.

Lemma triple_weaken {A} (m : M A) (P Q : A -> Prop) :
  (forall a, P a -> Q a) -> triple c m P -> triple c m Q.
Proof.
  intros HPQ Hm s s' r Hinv Hrun.
  destruct (Hm s s' r Hinv Hrun) as (? & ? & HP). split_and!; [done..|].
  intros a Ha. by apply HPQ, HP.
Qed.

(** A computation that leaves the store as it is. *)
Lemma triple_pure {A} (m : M A) (P : A -> Prop) :
  (forall s s' r, inv c s -> m s = (s', r) -> s' = s /\ forall a, r = Ok a -> P a) ->
  triple c m P.
Proof.
  intros H s s' r Hinv Hrun. destruct (H s s' r Hinv Hrun) as [-> HP].
  split; [done|]. split; [apply confined_refl|done].
Qed.

Lemma triple_try_value {A} (m : M A) h (P : A -> Prop) :
  triple c m P -> (forall e, triple c (h e) P) -> triple c (try_value m h) P.
Proof.
  intros Hm Hh s s' r Hinv. rewrite try_value_run.
  destruct (m s) as [s1 [a|[e|e]]] eqn:E.
  - intros [= <- <-]. by apply Hm.
  - destruct (Hm s s1 _ Hinv E) as (Hinv1 & Hc1 & _).
    intros Hrun. destruct (Hh e s1 s' r Hinv1 Hrun) as (? & ? & ?).
    split; [done|]. split; [by eapply confined_trans|done].
  - intros [= <- <-]. by apply Hm.
Qed.

Lemma triple_getcwd : triple c getcwd (fun x => x = c).
Proof.
  apply triple_pure. intros s s' r [Hc _] [= <- <-].
  split; [done|]. by intros a [= <-].
Qed.

Lemma triple_path_exists p : triple c (path_exists p) (fun _ => True).
Proof. apply triple_pure. intros s s' r _ [= <- <-]. done. Qed.

Lemma triple_walk top : triple c (walk top) (fun _ => True).
Proof. apply triple_pure. intros s s' r _ [= <- <-]. done. Qed.

Lemma inv_logged a s : inv c s -> inv c (logged a s).
Proof. by intros [? ?]. Qed.

Lemma confined_logged a s :
  under c (access_key a) -> confined c s (logged a s).
Proof.
  intros Ha. exists [a]. split; [done|]. split; [by repeat constructor|done].
Qed.



Lemma triple_read_text p :
  under c (key_of c p) -> triple c (read_text p) (fun _ => True).
Proof.
  intros Hp s s' r Hinv. pose proof Hinv as [Hc _]. unfold read_text. rewrite Hc.
  destruct (fs_files s !! key_of c p) as [data|].
  - intros [= <- <-]. split; [by apply inv_logged|].
    split; [by apply confined_logged|done].
  - intros [= <- <-]. split; [done|]. split; [apply confined_refl|done].
Qed.




Lemma elem_prefixes_set (k' k : key) :
  k' ∈ (list_to_set (prefixes k) : gset key) -> k' ∈ prefixes k.
Proof. apply elem_of_list_to_set. Qed.







Lemma split_on_two p :
  OsPath.sep ∈ p ->
  exists f g r, OsPath.split_on OsPath.sep p = f :: g :: r.
Proof.
  induction p as [|x p IH]; [by intros ?%elem_of_nil|].
  intros Hin. destruct (decide (x = OsPath.sep)) as [->|Hx].
  - rewrite split_on_sep.
    destruct (OsPath.split_on OsPath.sep p) as [|g r] eqn:E;
      [by apply split_on_ne_nil in E|]. eauto.
  - apply elem_of_cons in Hin as [Hin|Hin]; [done|].
    destruct (IH Hin) as (f & g & r & E).
    destruct (split_on_other OsPath.sep x p Hx) as (f' & r' & E1 & ->).
    rewrite E in E1. injection E1 as <- <-. eauto.
Qed.

Lemma basename_last p :
  last (OsPath.split_on OsPath.sep p) = Some (OsPath.basename p).
Proof.
  unfold OsPath.basename. induction p as [|x p IH]; [done|]. simpl.
  destruct (bool_decide (OsPath.sep ∈ p)) eqn:E.
  - apply bool_decide_eq_true in E. simpl. rewrite <- IH.
    destruct (split_on_two p E) as (f & g & r & Hs).
    destruct (decide (x = OsPath.sep)) as [->|Hx].
    + rewrite split_on_sep, Hs. done.
    + destruct (split_on_other OsPath.sep x p Hx) as (f' & r' & E1 & ->).
      rewrite Hs in E1. injection E1 as <- <-. by rewrite Hs.
  - apply bool_decide_eq_false in E.
    destruct (bool_decide (x = OsPath.sep)) eqn:Ex.
    + apply bool_decide_eq_true in Ex as ->. simpl.
      by rewrite split_on_sep, split_on_free.
    + apply bool_decide_eq_false in Ex. simpl.
      rewrite split_on_free; [done|]. by apply not_elem_of_cons.
Qed.

Lemma basename_abspath p : OsPath.basename (OsPath.abspath c p) <> lit "..".
Proof.
  intros Hb. pose proof (basename_last (OsPath.abspath c p)) as Hl.
  rewrite Hb in Hl. unfold OsPath.abspath in Hl.
  assert (Hfull : OsPath.isabs (if OsPath.isabs p then p else OsPath.join c p) = true).
  { destruct (OsPath.isabs p) eqn:Hp; [done|]. by apply join_rel_split. }
  destruct (normpath_abs _ Hfull) as (i & Hi & E). rewrite E in Hl.
  rewrite split_slashes, last_app in Hl.
  pose proof (norm_key_valid (if OsPath.isabs p then p else OsPath.join c p)) as Hv.
  destruct (norm_key _) as [|x K]; [done|].
  rewrite split_on_join in Hl; [|done|by apply valid_sep_free].
  destruct (last (x :: K)) as [y|] eqn:Ey; [|by apply last_None in Ey].
  injection Hl as ->. apply last_Some in Ey as [K' Ey]. rewrite Ey in Hv.
  apply Forall_app in Hv as [_ Hv]. apply Forall_inv in Hv.
  unfold valid_name in Hv. by destruct Hv as (_ & _ & _ & Hv).
Qed.

Lemma triple_validate_path p :
  triple c (_validate_path p)
    (fun abs => under c (key_of c abs) /\ p <> lit ".."
                /\ OsPath.basename abs <> lit "..").
Proof.
  apply triple_pure. intros s s' r [Hc Hok] Hrun.
  pose proof (validate_path_state _ _ _ _ Hrun) as ->. split; [done|].
  intros abs ->. split; [|split].
  - rewrite <- Hc at 2. rewrite (validate_path_key p s abs); [|by rewrite Hc|done].
    unfold under, root_of. rewrite Hc. by apply prefix_app_r.
  - by eapply validate_path_not_dotdot.
  - apply validate_path_inv in Hrun as (_ & _ & -> & _). rewrite Hc.
    apply basename_abspath.
Qed.

Lemma triple_smart_resolve_path p :
  triple c (_smart_resolve_path p) (fun _ => True).
Proof.
  apply triple_pure. intros s s' r _ Hrun.
  by apply smart_resolve_path_state in Hrun as ->.
Qed.









End confinement.


(** ** The snapshot of a call *)

Lemma open_document_history now path s s1 resolved abs content :
  open_document now path s = (s1, Ok (resolved, Some (abs, content))) ->
  existsb (is_file s) (prefixes (history_key s resolved)) = false.
Proof.
  unfold open_document.
  intros (s0 & r & Hr & H)%bind_inv.
  pose proof (smart_resolve_path_state _ _ _ _ Hr) as ->.
  apply bind_inv in H as (s0 & a & Hv & H).
  pose proof (validate_path_state _ _ _ _ Hv) as ->.
  apply bind_inv in H as (s0 & found & Hf & H).
  rewrite path_exists_run in Hf. injection Hf as <- <-.
  destruct (is_file s _ || is_dir s _) eqn:Hex; simpl in H.
  2:{ rewrite ret_run in H. done. }
  apply bind_inv in H as (s2 & o & Hsnap & H).
  apply bind_inv in H as (s3 & c & Hread & H).
  rewrite ret_run in H. injection H as <- <- <- <-.
  unfold _create_snapshot in Hsnap.
  apply bind_inv in Hsnap as (s0 & found & Hf & Hsnap).
  rewrite path_exists_run in Hf. injection Hf as <- <-.
  rewrite Hex in Hsnap.
  apply bind_inv in Hsnap as (s4 & hd & Hhd & _).
  unfold _ensure_history_dir in Hhd.
  apply bind_inv in Hhd as (s5 & u & Hmk & _).
  unfold makedirs in Hmk. fold (history_key s r) in Hmk.
  destruct (is_file s (history_key s r)); [done|].
  by destruct (existsb _ _).
Qed.

Lemma prefixes_length (k k' : key) : k' ∈ prefixes k -> length k' <= length k.
Proof.
  intros (n & -> & _)%list_elem_of_fmap. rewrite length_take. lia.
Qed.

Lemma prefixes_self (k : key) : k ∈ prefixes k.
Proof.
  unfold prefixes. apply list_elem_of_fmap. exists (length k).
  split; [by rewrite firstn_all|]. apply elem_of_seq. lia.
Qed.

Lemma snapshot_key_plain now resolved abs s :
  OsPath.isabs (fs_cwd s) = true -> resolved <> lit ".." ->
  is_dir s (key_of (fs_cwd s) (snapshot_path now resolved)) = false ->
  snapshot_key now resolved abs s = history_key s resolved ++ [snapshot_name now].
Proof.
  intros Hc Hr Hd.
  destruct (snapshot_path_key s now resolved Hc Hr) as [_ Hk].
  unfold snapshot_key, copy_target. simpl (fs_cwd _).
  fold (history_key s resolved) in *. fold (snapshot_name now) in *.
  rewrite Hk in *.
  assert (Hnd : is_dir (with_history_dir resolved s)
                  (history_key s resolved ++ [snapshot_name now]) = false).
  { unfold is_dir in *. apply bool_decide_eq_false in Hd.
    apply bool_decide_eq_false_2. unfold with_history_dir. simpl.
    fold (history_key s resolved).
    intros [Hin|Hin]%elem_of_union; [done|].
    apply elem_prefixes_set, prefixes_length in Hin.
    rewrite length_app in Hin. simpl in Hin. lia. }
  by rewrite Hnd.
Qed.

Lemma is_dir_history resolved s :
  is_dir (with_history_dir resolved s) (history_key s resolved) = true.
Proof.
  unfold is_dir, with_history_dir. cbn [fs_dirs fs_cwd].
  apply bool_decide_eq_true_2. fold (history_key s resolved).
  apply elem_of_union_r, elem_of_list_to_set, prefixes_self.
Qed.

Lemma removelast_snoc {A} (l : list A) x : removelast (l ++ [x]) = l.
Proof. apply removelast_last. Qed.

(** What [os.listdir] of the history directory names after the snapshot
    was written at [hk ++ [name]]. *)
Lemma listdir_history (hk : key) name data dir s1 :
  key_of (fs_cwd s1) dir = hk ->
  is_file s1 hk = false -> is_dir s1 hk = true ->
  fs_files s1 !! (hk ++ [name]) = Some data ->
  exists names, listdir dir s1 = (s1, Ok names) /\ name ∈ names.
Proof.
  intros Hdir Hf Hd Hsnap. unfold listdir. rewrite Hdir, Hf, Hd. simpl.
  eexists. split; [done|].
  apply list_elem_of_fmap. exists (hk ++ [name]). split.
  - unfold name_of. by rewrite last_snoc.
  - unfold entries. apply list_elem_of_filter. split.
    + split; [apply removelast_snoc|by destruct hk].
    + apply elem_of_elements, elem_of_union_l, elem_of_dom. eauto.
Qed.

(** ** Rejected paths *)

Lemma validate_path_dotdot path s :
  Py.contains (clean_path path) (lit "..") = true ->
  _validate_path path s = (s, Raise (ValueError (PathTraversal (clean_path path)))).
Proof.
  intros H. unfold _validate_path. fold (clean_path path). by rewrite H.
Qed.

Lemma validate_path_under path s abs :
  OsPath.isabs (fs_cwd s) = true ->
  _validate_path path s = (s, Ok abs) ->
  under (fs_cwd s) (key_of (fs_cwd s) abs).
Proof.
  intros Hc Hv. rewrite (validate_path_key _ _ _ Hc Hv).
  unfold under, root_of. by apply prefix_app_r.
Qed.






Lemma valid_name_lit (x : str) :
  x <> [] -> bool_decide (OsPath.sep ∈ x) = false ->
  x <> lit "." -> x <> lit ".." -> valid_name x.
Proof.
  intros ? Hs%bool_decide_eq_false ? ?. by repeat split.
Qed.

Lemma store_ok_demo : store_ok demo_store.
Proof.
  intros k Hk. unfold demo_store in Hk. cbn [fs_files fs_dirs] in Hk.
  rewrite dom_singleton_L in Hk.
  apply elem_of_union in Hk as [Hk%elem_of_singleton|Hk%elem_of_list_to_set].
  - subst k. repeat constructor; by apply valid_name_lit.
  - repeat (apply elem_of_cons in Hk as [->|Hk]);
      [..|by apply elem_of_nil in Hk];
      repeat constructor; by apply valid_name_lit.
Qed.


(** ** The order of names and [sorted] *)

Lemma code_inj c d : Py.code c = Py.code d -> c = d.
Proof.
  unfold Py.code. intros H.
  by rewrite <- (ascii_N_embedding c), <- (ascii_N_embedding d), H.
Qed.

Lemma str_leb_refl x : str_leb x x = true.
Proof.
  induction x as [|c x IH]; [done|]. simpl.
  rewrite (bool_decide_eq_true_2 (c = c)) by done. rewrite IH.
  by destruct (bool_decide _).
Qed.

Lemma str_leb_total x y : str_leb x y = true \/ str_leb y x = true.
Proof.
  revert y. induction x as [|c x IH]; intros [|d y]; simpl; auto.
  destruct (decide (Py.code c < Py.code d)%N) as [Hlt|Hge].
  { left. by rewrite (bool_decide_eq_true_2 _ Hlt). }
  destruct (decide (Py.code d < Py.code c)%N) as [Hgt|Hle].
  { right. by rewrite (bool_decide_eq_true_2 _ Hgt). }
  assert (c = d) as -> by (apply code_inj; lia).
  rewrite (bool_decide_eq_true_2 (d = d)) by done.
  rewrite (bool_decide_eq_false_2 _ Hge). simpl. apply IH.
Qed.

Lemma str_leb_cons c x d y :
  str_leb (c :: x) (d :: y) = true
  <-> (Py.code c < Py.code d)%N \/ (c = d /\ str_leb x y = true).
Proof.
  simpl. rewrite orb_true_iff, andb_true_iff, !bool_decide_eq_true. tauto.
Qed.

Lemma str_leb_trans x y z :
  str_leb x y = true -> str_leb y z = true -> str_leb x z = true.
Proof.
  revert y z. induction x as [|c x IH]; intros [|d y] [|e z]; try done.
  rewrite !str_leb_cons. intros [H1|[-> H1]] [H2|[-> H2]].
  - left. lia.
  - by left.
  - by left.
  - right. split; [done|]. by apply (IH y).
Qed.

Lemma str_leb_antisym x y :
  str_leb x y = true -> str_leb y x = true -> x = y.
Proof.
  revert y. induction x as [|c x IH]; intros [|d y]; try done.
  rewrite !str_leb_cons. intros [H1|[-> H1]] [H2|[H2 H3]]; try lia.
  - subst. lia.
  - f_equal. by apply IH.
Qed.

Lemma insert_sorted_elem x l y : y ∈ insert_sorted x l <-> y = x \/ y ∈ l.
Proof.
  induction l as [|z l IH]; simpl.
  - rewrite list_elem_of_singleton, elem_of_nil. tauto.
  - destruct (str_leb x z).
    + by rewrite elem_of_cons.
    + rewrite !elem_of_cons, IH. tauto.
Qed.

Lemma sorted_elem_iff l y : y ∈ sorted l <-> y ∈ l.
Proof.
  induction l as [|x l IH]; [done|]. unfold sorted in *. simpl.
  rewrite insert_sorted_elem, elem_of_cons, IH. done.
Qed.

(** The last of [insert_sorted x l] when [m] is the last of [l] and at
    least every name of [l]. *)
Lemma insert_sorted_last x l m :
  last l = Some m -> (forall y, y ∈ l -> str_leb y m = true) ->
  last (insert_sorted x l) = Some (if str_leb x m then m else x).
Proof.
  induction l as [|z l IH]; [done|]. intros Hlast Hmax. simpl.
  destruct (str_leb x z) eqn:Hxz.
  - rewrite last_cons, Hlast.
    rewrite (str_leb_trans x z m Hxz); [done|]. apply Hmax. by left.
  - destruct l as [|z' l].
    + simpl in Hlast. injection Hlast as ->. simpl. by rewrite Hxz.
    + rewrite last_cons.
      rewrite (IH Hlast); [done|]. intros y Hy. apply Hmax. by right.
Qed.

Lemma sorted_last_max l :
  l <> [] ->
  exists m, last (sorted l) = Some m /\ m ∈ l
            /\ forall y, y ∈ l -> str_leb y m = true.
Proof.
  induction l as [|x l IH]; [done|]. intros _.
  destruct l as [|x' l].
  { exists x. split; [reflexivity|]. split; [by left|].
    intros y ->%list_elem_of_singleton. apply str_leb_refl. }
  destruct IH as (m & Hlast & Hin & Hmax); [done|].
  change (sorted (x :: x' :: l)) with (insert_sorted x (sorted (x' :: l))).
  rewrite (insert_sorted_last x _ m Hlast).
  2:{ intros y Hy. apply Hmax. by apply sorted_elem_iff. }
  destruct (str_leb x m) eqn:Hxm.
  - exists m. split; [done|]. split; [by right|].
    intros y [->|Hy]%elem_of_cons; [done|by apply Hmax].
  - exists x. split; [done|]. split; [by left|].
    intros y [->|Hy]%elem_of_cons; [apply str_leb_refl|].
    apply (str_leb_trans y m x); [by apply Hmax|].
    by destruct (str_leb_total x m) as [H|H]; [congruence|].
Qed.

(** [sorted(l)[-1]] is the greatest name of [l]. *)
Lemma sorted_last l m :
  m ∈ l -> (forall y, y ∈ l -> str_leb y m = true) ->
  last (sorted l) = Some m.
Proof.
  intros Hin Hmax.
  destruct (sorted_last_max l) as (m' & Hlast & Hin' & Hmax').
  { intros ->. by apply elem_of_nil in Hin. }
  rewrite Hlast. f_equal. apply str_leb_antisym; auto.
Qed.

(** ** The view after an update *)

Lemma validate_path_cwd p s s' r :
  _validate_path p s = (s, r) -> fs_cwd s' = fs_cwd s ->
  _validate_path p s' = (s', r).
Proof.
  unfold _validate_path. destruct (Py.contains _ _).
  - by intros [= <-].
  - rewrite !bind_run. unfold getcwd. intros H ->.
    destruct (negb _); by injection H as <-.
Qed.

(** The store a call that wrote the document leaves. *)
Lemma update_success_inv now path nid exp new s s' out :
  update_knowledge_section now path nid exp new s = (s', out) ->
  match out with MsgAppended | MsgUpdated _ _ _ _ => True | _ => False end ->
  exists resolved abs data data',
    let k := key_of (fs_cwd s) abs in
    let ksnap := snapshot_key now resolved abs s in
    _smart_resolve_path path s = (s, Ok resolved)
    /\ _validate_path resolved s = (s, Ok abs)
    /\ fs_files s !! k = Some data
    /\ ksnap <> k
    /\ existsb (is_file s) (prefixes (history_key s resolved)) = false
    /\ (nid = lit "APPEND" -> data' = data ++ [Py.LF; Py.LF] ++ new)
    /\ s' = FS (fs_cwd s) (<[k := data']> (<[ksnap := data]> (fs_files s)))
              (fs_dirs (with_history_dir resolved s))
              (fs_log s ++ [Read k; Write ksnap; Read k; Write k]).
Proof.
  intros Hrun Hout.
  assert (exists s1 resolved abs content,
            open_document now path s = (s1, Ok (resolved, Some (abs, content))))
    as (s1 & resolved & abs & content & Hopen).
  { revert Hrun. unfold update_knowledge_section, run_tool, update_body.
    rewrite bind_run.
    destruct (open_document now path s) as [s1 [[r [[a c]|]]|e]] eqn:Hopen.
    - eauto 6.
    - rewrite ret_run. intros [= _ <-]. done.
    - destruct e; intros [= _ <-]; done. }
  pose proof (open_document_history _ _ _ _ _ _ _ Hopen) as Hmk.
  destruct (open_document_inv _ _ _ _ _ _ _ Hopen)
    as (data & Hr & Hv & Hdata & Hcontent & Hne & Hs1).
  cbv zeta in Hne, Hs1.
  assert (exists data',
            s' = logged (Write (key_of (fs_cwd s) abs))
                   (with_file (key_of (fs_cwd s) abs) data' s1)
            /\ (nid = lit "APPEND" -> data' = data ++ [Py.LF; Py.LF] ++ new))
    as (data' & Hs' & Happ).
  { destruct (decide (nid = lit "APPEND")) as [Hn|Hn].
    - revert Hrun. unfold update_knowledge_section, run_tool, update_body.
      rewrite bind_run, Hopen, (bool_decide_eq_true_2 _ Hn), bind_run.
      unfold append_text, open_for_write.
      assert (Hf : is_file s1 (key_of (fs_cwd s1) abs) = true).
      { subst s1. unfold is_file. cbn [fs_files fs_cwd].
        apply bool_decide_eq_true_2. rewrite lookup_insert_ne by done. eauto. }
      rewrite Hf, ret_run. intros [= <- _]. subst s1. cbn [fs_cwd fs_files].
      rewrite lookup_insert_ne by done. rewrite Hdata. eauto.
    - pose proof (update_opened_spec _ _ _ exp new _ _ _ _ _ Hopen Hn) as Hupd.
      cbv zeta in Hupd. rewrite Hrun in Hupd.
      destruct (find_target nid _) as [[j t]|].
      2:{ injection Hupd as _ ->. done. }
      destruct (lock_fails exp (node_title t)).
      { injection Hupd as _ ->. done. }
      injection Hupd as -> _. eexists. split; [done|]. intros ?. done. }
  exists resolved, abs, data, data'. cbv zeta.
  split; [done|]. split; [done|]. split; [done|]. split; [done|].
  split; [done|]. split; [done|]. subst s' s1. unfold logged, with_file. cbn [fs_cwd fs_files fs_dirs fs_log].
  by rewrite <- app_assoc.
Qed.

Lemma makedirs_again path s :
  existsb (is_file s) (prefixes (key_of (fs_cwd s) path)) = false ->
  (forall k, k ∈ prefixes (key_of (fs_cwd s) path) -> k ∈ fs_dirs s) ->
  makedirs path s = (s, Ok tt).
Proof.
  intros Hf Hd. unfold makedirs.
  assert (is_file s (key_of (fs_cwd s) path) = false) as ->.
  { apply not_true_iff_false. intros Hk.
    apply not_true_iff_false in Hf. apply Hf.
    apply existsb_exists. eexists. split; [|exact Hk].
    apply list_elem_of_In, prefixes_self. }
  rewrite Hf. destruct s as [c f d l]. cbn [fs_cwd fs_files fs_dirs fs_log] in *.
  do 2 f_equal. apply set_eq. intros k.
  rewrite elem_of_union, elem_of_list_to_set.
  split; [intros [H|H]; [done|by apply Hd]|by left].
Qed.

Lemma name_of_snoc (k : key) x : name_of (k ++ [x]) = x.
Proof. unfold name_of. by rewrite last_snoc. Qed.

(** The entries of the history directory once the snapshot [hk ++ [name]]
    is written, the document [k] rewritten and the directories down to
    [hk] made. *)
Lemma entries_after (c : str) files dirs log (hk k : key) name data data' k' :
  is_Some (files !! k) ->
  k' ∈ entries (FS c (<[k := data']> (<[hk ++ [name] := data]> files))
                 (dirs ∪ list_to_set (prefixes hk)) log) hk
  <-> k' ∈ entries (FS c files dirs log) hk \/ k' = hk ++ [name].
Proof.
  intros Hk. unfold entries. cbn [fs_files fs_dirs].
  rewrite !list_elem_of_filter, !elem_of_elements, !elem_of_union.
  rewrite !elem_of_dom, elem_of_list_to_set.
  split.
  - intros [[Hp Hne] [Hin|[Hin|Hin]]].
    + destruct (decide (k' = k)) as [->|Hkk]; [left; split; [done|by left]|].
      rewrite lookup_insert_ne in Hin by done.
      destruct (decide (k' = hk ++ [name])) as [->|Hks]; [by right|].
      rewrite lookup_insert_ne in Hin by done. left. split; [done|by left].
    + left. split; [done|by right].
    + apply prefixes_length in Hin. subst hk.
      destruct k' as [|x k'] using rev_ind; [done|].
      rewrite removelast_last, length_app in Hin. simpl in Hin. lia.
  - intros [[Hp [Hin|Hin]]| ->].
    + split; [done|]. left.
      destruct (decide (k' = k)) as [->|Hkk]; [by rewrite lookup_insert_eq|].
      rewrite lookup_insert_ne by done.
      destruct (decide (k' = hk ++ [name])) as [->|Hks];
        [by rewrite lookup_insert_eq|].
      by rewrite lookup_insert_ne.
    + split; [done|]. right. by left.
    + split; [split; [apply removelast_last|by destruct hk]|]. left.
      destruct (decide (hk ++ [name] = k)) as [->|Hkk];
        [by rewrite lookup_insert_eq|].
      rewrite lookup_insert_ne by done. by rewrite lookup_insert_eq.
Qed.

Lemma snapshot_name_snap now : Py.endswith (snapshot_name now) (lit ".snap") = true.
Proof. apply endswith_spec. by exists (strftime_snapshot now). Qed.

(** The view of a document whose latest snapshot is the one of [now]. *)
Lemma view_latest_snapshot now path resolved abs s1 data data' :
  let hk := history_key s1 resolved in
  let k := key_of (fs_cwd s1) abs in
  let name := snapshot_name now in
  OsPath.isabs (fs_cwd s1) = true ->
  _smart_resolve_path path s1 = (s1, Ok resolved) ->
  _validate_path resolved s1 = (s1, Ok abs) ->
  existsb (is_file s1) (prefixes hk) = false ->
  (forall d, d ∈ prefixes hk -> d ∈ fs_dirs s1) ->
  fs_files s1 !! (hk ++ [name]) = Some data ->
  fs_files s1 !! k = Some data' ->
  (forall k', k' ∈ entries s1 hk ->
     Py.endswith (name_of k') (lit ".snap") = true ->
     str_leb (name_of k') name = true) ->
  view_doc_changes path s1
  = (logged (Read k) (logged (Read (hk ++ [name])) s1),
     MsgDiff (Difflib.unified_diff
                (keepends_from [] (universal_newlines data))
                (keepends_from [] (universal_newlines data')) name)).
Proof.
  intros hk k name Hc Hr Hv Hf Hd Hsnap Hdoc Hmax.
  pose proof (validate_path_not_dotdot _ _ _ Hv) as Hdd.
  destruct (snapshot_path_key s1 now resolved Hc Hdd) as [_ Hkey].
  fold (history_key s1 resolved) in Hkey. fold hk in Hkey.
  fold (snapshot_name now) in Hkey. fold name in Hkey.
  assert (Hfk : is_file s1 hk = false).
  { apply not_true_iff_false. intros Hk.
    apply not_true_iff_false in Hf. apply Hf.
    apply existsb_exists. eexists. split; [|exact Hk].
    apply list_elem_of_In, prefixes_self. }
  assert (Hdk : is_dir s1 hk = true).
  { apply bool_decide_eq_true_2, Hd, prefixes_self. }
  unfold view_doc_changes, run_tool, view_body.
  rewrite bind_run, Hr, bind_run, Hv, bind_run.
  unfold _ensure_history_dir. rewrite bind_run.
  rewrite (makedirs_again _ s1 Hf Hd), ret_run, bind_run.
  unfold listdir. fold (history_key s1 resolved). fold hk.
  rewrite Hfk, Hdk. cbn [negb].
  rewrite (sorted_last _ name).
  - rewrite bind_run. unfold readlines. rewrite bind_run.
    unfold read_text at 1.
    change (OsPath.join (OsPath.join HISTORY_DIR (safe_name resolved)) name)
      with (snapshot_path now resolved).
    rewrite Hkey, Hsnap, ret_run, bind_run, bind_run.
    unfold read_text. cbn [fs_cwd fs_files logged]. fold k.
    rewrite Hdoc, ret_run, ret_run. done.
  - apply list_elem_of_filter. split; [apply snapshot_name_snap|].
    apply list_elem_of_fmap. exists (hk ++ [name]).
    split; [by rewrite name_of_snoc|].
    unfold entries. apply list_elem_of_filter. split.
    + split; [apply removelast_last|by destruct hk].
    + apply elem_of_elements, elem_of_union_l, elem_of_dom. eauto.
  - intros y [Hy (k' & -> & Hk')%list_elem_of_fmap]%list_elem_of_filter.
    by apply Hmax.
Qed.

Lemma pair_snd_state {A} (m : M A) s (r : res A) :
  (forall s' r', m s = (s', r') -> s' = s) -> snd (m s) = r -> m s = (s, r).
Proof.
  intros Hst <-. rewrite (surjective_pairing (m s)) at 1. f_equal.
  apply (Hst _ (snd (m s))), surjective_pairing.
Qed.

(** ** Frontmatter *)

Lemma str_split_max_skip sep n cur (pre s : str) :
  Py.split_max sep n (length pre) cur (pre ++ s) = Py.split_max sep n 0 cur s
  \/ s = [].
Proof.
  induction pre as [|c pre IH]; [by left|]. simpl.
  destruct IH as [-> | ->]; [by left|by right].
Qed.

Lemma str_split_max_skip_nil sep n cur (pre : str) :
  Py.split_max sep n (length pre) cur pre = [rev cur].
Proof.
  induction pre as [|c pre IH]; [done|]. done.
Qed.

(** A cut at a separator at the head of the text. *)
Lemma str_split_max_sep c sep n cur s :
  Py.split_max (c :: sep) (S n) 0 cur ((c :: sep) ++ s)
  = rev cur :: Py.split_max (c :: sep) n 0 [] s.
Proof.
  change (Py.split_max (c :: sep) (S n) 0 cur ((c :: sep) ++ s))
    with (if Py.startswith ((c :: sep) ++ s) (c :: sep)
          then rev cur :: Py.split_max (c :: sep) n (length (c :: sep) - 1) []
                            (sep ++ s)
          else Py.split_max (c :: sep) (S n) 0 (c :: cur) (sep ++ s)).
  assert (Py.startswith ((c :: sep) ++ s) (c :: sep) = true) as ->.
  { apply startswith_spec. by exists s. }
  f_equal. change (length (c :: sep) - 1) with (length sep - 0).
  rewrite Nat.sub_0_r.
  destruct s as [|d s].
  - rewrite app_nil_r. apply str_split_max_skip_nil.
  - by destruct (str_split_max_skip (c :: sep) n [] sep (d :: s)).
Qed.

Lemma startswith_dashes_app y z :
  Py.startswith (y ++ Py.LF :: z) (lit "---") = true ->
  Py.startswith y (lit "---") = true.
Proof.
  destruct y as [|a [|b [|c y]]]; simpl;
    rewrite ?andb_true_iff, ?bool_decide_eq_true; done.
Qed.

(** The text up to the first delimiter, when [y] holds none. *)
Lemma str_split_max_free n cur y rest :
  Py.contains y (lit "---") = false ->
  Py.split_max (lit "---") (S n) 0 cur (y ++ Py.LF :: lit "---" ++ rest)
  = (rev cur ++ y ++ [Py.LF]) :: Py.split_max (lit "---") n 0 [] rest.
Proof.
  revert cur. induction y as [|c y IH]; intros cur Hfree.
  - change ([] ++ Py.LF :: lit "---" ++ rest) with (Py.LF :: lit "---" ++ rest).
    change (Py.split_max (lit "---") (S n) 0 cur (Py.LF :: lit "---" ++ rest))
      with (Py.split_max (lit "---") (S n) 0 (Py.LF :: cur) (lit "---" ++ rest)).
    rewrite (str_split_max_sep "-"%char (lit "--")). reflexivity.
  - assert (Hs : Py.startswith (c :: y) (lit "---") = false
                 /\ Py.contains y (lit "---") = false).
    { revert Hfree. simpl Py.contains. by intros [? ?]%orb_false_iff. }
    destruct Hs as [Hs Hy].
    assert (Hs' : Py.startswith ((c :: y) ++ Py.LF :: lit "---" ++ rest) (lit "---")
                  = false).
    { apply not_true_iff_false. intros H%startswith_dashes_app. congruence. }
    change (Py.split_max (lit "---") (S n) 0 cur
              ((c :: y) ++ Py.LF :: lit "---" ++ rest))
      with (if Py.startswith ((c :: y) ++ Py.LF :: lit "---" ++ rest) (lit "---")
            then rev cur :: Py.split_max (lit "---") n (length (lit "---") - 1) []
                              (y ++ Py.LF :: lit "---" ++ rest)
            else Py.split_max (lit "---") (S n) 0 (c :: cur)
                   (y ++ Py.LF :: lit "---" ++ rest)).
    rewrite Hs', (IH _ Hy). simpl. by rewrite <- !app_assoc.
Qed.

Lemma str_split_max_last sep cur s : Py.split_max sep 0 0 cur s = [rev cur ++ s].
Proof. destruct s; [|done]. simpl. by rewrite app_nil_r. Qed.

(** The three parts of a text that opens with frontmatter. *)
Lemma str_split_frontmatter y rest :
  Py.contains y (lit "---") = false ->
  Py.split (lit "---") 2 (lit "---" ++ [Py.LF] ++ y ++ [Py.LF] ++ lit "---" ++ rest)
  = [[]; [Py.LF] ++ y ++ [Py.LF]; rest].
Proof.
  intros Hy. unfold Py.split.
  rewrite (str_split_max_sep "-"%char (lit "--")).
  change ([Py.LF] ++ y ++ [Py.LF] ++ lit "---" ++ rest)
    with (Py.LF :: (y ++ Py.LF :: lit "---" ++ rest)).
  change (Py.split_max ("-"%char :: lit "--") 1 0 [] (Py.LF :: (y ++ Py.LF :: lit "---" ++ rest)))
    with (Py.split_max (lit "---") 1 0 [Py.LF] (y ++ Py.LF :: lit "---" ++ rest)).
  rewrite (str_split_max_free 0 [Py.LF] y rest Hy), str_split_max_last. done.
Qed.

(** ** A name that is in two directories *)

Lemma resolve_step_length cwd target acc entry :
  length (resolve_step cwd target acc entry)
  = length acc + (if names_target target entry then 1 else 0).
Proof.
  destruct entry as [root files]. unfold resolve_step, names_target. cbn [fst snd].
  destruct (Py.contains root (lit ".history")); cbn [negb andb]; [lia|].
  destruct (bool_decide (target ∈ files)); [|lia].
  destruct (bool_decide _); rewrite length_app; simpl; lia.
Qed.

Lemma resolve_fold_length cwd target tree : forall acc,
  length (foldl (resolve_step cwd target) acc tree)
  = length acc + length (filter (fun e => names_target target e = true) tree).
Proof.
  induction tree as [|e tree IH]; intros acc; [simpl; lia|].
  simpl. rewrite IH, resolve_step_length.
  destruct (names_target target e) eqn:He.
  - rewrite filter_cons_True by done. simpl. lia.
  - rewrite filter_cons_False by (by rewrite He). lia.
Qed.

Lemma filter_fmap_length {A B} (f : A -> B) (P : B -> Prop)
    `{!forall x, Decision (P x)} l :
  length (filter P (map f l)) = length (filter (fun x => P (f x)) l).
Proof.
  induction l as [|a l IH]; [done|]. simpl.
  destruct (decide (P (f a))).
  - rewrite !filter_cons_True by done. simpl. by rewrite IH.
  - by rewrite !filter_cons_False.
Qed.

Lemma filter_length_elem {A} (P : A -> Prop) `{!forall x, Decision (P x)} l x :
  x ∈ l -> P x -> 1 <= length (filter P l).
Proof.
  intros Hin HP.
  assert (Hx : x ∈ filter P l) by (by apply list_elem_of_filter).
  destruct (filter P l); [by apply elem_of_nil in Hx|simpl; lia].
Qed.

Lemma filter_length_two {A} (P : A -> Prop) `{!forall x, Decision (P x)} l x y :
  x ∈ l -> y ∈ l -> x <> y -> P x -> P y -> 2 <= length (filter P l).
Proof.
  intros Hx Hy Hne HPx HPy.
  apply list_elem_of_split in Hx as (l1 & l2 & ->).
  rewrite filter_app, filter_cons_True by done.
  rewrite length_app. simpl.
  apply elem_of_app in Hy as [Hy|Hy].
  - pose proof (filter_length_elem P l1 y Hy HPy). lia.
  - apply elem_of_cons in Hy as [Hy|Hy]; [by symmetry in Hy|].
    pose proof (filter_length_elem P l2 y Hy HPy). lia.
Qed.

(** The directories the walk reaches. *)
Lemma walk_reaches s comps :
  OsPath.isabs (fs_cwd s) = true ->
  (forall n, n <= length comps -> root_of s ++ take n comps ∈ fs_dirs s) ->
  root_of s ++ comps
  ∈ filter (fun d =>
              bool_decide (take (length (root_of s)) d = root_of s)
              && forallb (fun n => is_dir s (take n d))
                   (seq (length (root_of s)) (S (length d - length (root_of s))))
              = true)
      (elements (fs_dirs s)).
Proof.
  intros Hc Hdirs. apply list_elem_of_filter. split.
  - rewrite take_app_length.
    rewrite bool_decide_eq_true_2 by done. cbn [andb].
    apply forallb_forall. intros n Hn%in_seq.
    rewrite length_app in Hn. apply bool_decide_eq_true_2.
    replace n with (length (root_of s) + (n - length (root_of s))) by lia.
    rewrite take_app_ge by lia.
    replace (length (root_of s) + (n - length (root_of s)) - length (root_of s))
      with (n - length (root_of s)) by lia.
    apply Hdirs. lia.
  - apply elem_of_elements. specialize (Hdirs (length comps)).
    rewrite firstn_all in Hdirs. by apply Hdirs.
Qed.

(** ** A path with two dots *)








(** * The claims *)

(** ** C5 *)

(** C5.  The ids of the outline are those of the per-level counters of the
    specification, run over the levels of the heading lines of the body,
    from counters that are all zero; the body [# A], [## B], [## C],
    [### D] gets the ids 1, 1.1, 1.2, 1.2.1. *)
Theorem outline_ids_follow_level_counters :
  (forall body,
     let outline := _get_outline_tree body in
     map node_level outline
     = omap (fun line => fst <$> parse_heading line) (Py.splitlines body)
     /\ map node_id outline = spec_ids (map node_level outline) (fun _ => 0))
  /\ map node_id (_get_outline_tree (text ["# A"; "## B"; "## C"; "### D"]))
     = [lit "1"; lit "1.1"; lit "1.2"; lit "1.2.1"].
Proof.
  split; [|reflexivity]. intros body outline. split.
  - apply outline_loop_levels.
  - apply outline_loop_ids, agree_init.
Qed.

(** ** C6 *)

(** C6, as stated, fails: the line [  # A] starts with two spaces, not with
    [#], and the outline has a node for it. *)
Lemma indented_heading_gets_node :
  Py.splitlines (lit "  # A") !! 0 = Some (lit "  # A")
  /\ (exists n, n ∈ _get_outline_tree (lit "  # A") /\ node_line_start n = 0 + 1)
  /\ ~ begins_with_heading (lit "  # A").
Proof.
  split; [reflexivity|]. split.
  - eexists. split; [left|reflexivity].
  - intros (k & ws & txt & H & Hk & _).
    destruct k; [lia|]. discriminate H.
Qed.

(** C6, amended.  The outline has a node for line [k] of the body exactly
    when that line, with the whitespace at both ends removed, begins with
    1 to 6 [#] followed by whitespace and a text that is not empty. *)
Theorem node_iff_stripped_line_is_heading body k line :
  Py.splitlines body !! k = Some line ->
  (exists n, n ∈ _get_outline_tree body /\ node_line_start n = k + 1)
  <-> begins_with_heading (Py.strip line).
Proof.
  intros Hline. unfold _get_outline_tree.
  rewrite (outline_loop_line_start 0 _ _ k).
  assert (Hnb : no_break line).
  { pose proof (splitlines_no_break body) as H. rewrite Forall_forall in H.
    apply H. by eapply list_elem_of_lookup_2. }
  rewrite <- (parse_heading_iff line Hnb). split.
  - intros (l & Hl & Hp). congruence.
  - eauto.
Qed.

Lemma node_iff_stripped_line_is_heading_witness :
  (exists n, n ∈ _get_outline_tree (lit "  # A") /\ node_line_start n = 0 + 1)
  <-> begins_with_heading (Py.strip (lit "  # A")).
Proof.
  apply (node_iff_stripped_line_is_heading (lit "  # A") 0 (lit "  # A")).
  reflexivity.
Defined.

(** ** C1 *)

(** C1.  When the call has opened the document, [node_id] is not APPEND
    and resolves to the heading [t], and the expected title, lower-cased
    and trimmed, is not within the title of [t], lower-cased and trimmed,
    the call returns the lock message with the title of [t], and the file
    of the document holds what it held. *)
Theorem lock_mismatch_reported_file_unchanged
  now path nid exp new s s1 resolved abs content j t :
  open_document now path s = (s1, Ok (resolved, Some (abs, content))) ->
  nid <> lit "APPEND" ->
  find_target nid (_get_outline_tree content) = Some (j, t) ->
  Py.contains (Py.strip (Py.lower (node_title t))) (Py.strip (Py.lower exp)) = false ->
  update_knowledge_section now path nid exp new s
  = (s1, MsgLockMismatch nid (node_title t) exp)
  /\ fs_files s1 !! key_of (fs_cwd s) abs = fs_files s !! key_of (fs_cwd s) abs.
Proof.
  intros Hopen Hnid Hfind Hlock. split.
  - rewrite (update_opened_spec _ _ _ _ _ _ _ _ _ _ Hopen Hnid), Hfind.
    unfold lock_fails. by rewrite Hlock.
  - destruct (open_document_inv _ _ _ _ _ _ _ Hopen)
      as (data & _ & _ & Hdata & _ & Hne & ->).
    simpl. by rewrite lookup_insert_ne.
Qed.

Lemma lock_mismatch_reported_file_unchanged_witness :
  let s1 := fst (open_document demo_time (lit "libs/a.md") demo_store) in
  update_knowledge_section demo_time (lit "libs/a.md") (lit "1.1") (lit "zz")
    (lit "## B2") demo_store
  = (s1, MsgLockMismatch (lit "1.1") (lit "B") (lit "zz"))
  /\ fs_files s1 !! key_of (fs_cwd demo_store) (lit "/kb/libs/a.md")
     = fs_files demo_store !! key_of (fs_cwd demo_store) (lit "/kb/libs/a.md").
Proof.
  apply (lock_mismatch_reported_file_unchanged demo_time (lit "libs/a.md")
           (lit "1.1") (lit "zz") (lit "## B2") demo_store
           (fst (open_document demo_time (lit "libs/a.md") demo_store))
           (lit "libs/a.md")
           (lit "/kb/libs/a.md") demo_doc 1
           (Node (lit "1.1") (lit "B") 2 3)).
  - apply pair_snd. vm_compute. reflexivity.
  - discriminate.
  - vm_compute. reflexivity.
  - vm_compute. reflexivity.
Defined.

(** ** C2 *)

(** C2.  When the call has opened the document and [node_id] is not
    APPEND: without a heading of that id the call returns the
    section-not-found message; with one, the first such heading [t] sits
    on line [a], the range ends at line [b] of the next heading of level at
    most that of [t] (the number of lines when there is none), and, the
    lock passing, the file is rewritten to the lines before [a], the lines
    of [new_content] and the lines from [b] on, all other files kept. *)
Theorem update_replaces_target_range
  now path nid exp new s s1 resolved abs content :
  open_document now path s = (s1, Ok (resolved, Some (abs, content))) ->
  nid <> lit "APPEND" ->
  let lines := Py.splitlines content in
  let outline := _get_outline_tree content in
  let k := key_of (fs_cwd s) abs in
  match find_target nid outline with
  | None =>
      update_knowledge_section now path nid exp new s = (s1, MsgSectionNotFound nid)
  | Some (j, t) =>
      let a := node_line_start t - 1 in
      let b := range_end (length lines) (node_level t) (drop (S j) outline) in
      (exists line,
         lines !! a = Some line
         /\ parse_heading line = Some (node_level t, node_title t))
      /\ a < b <= length lines
      /\ (lock_fails exp (node_title t) = false ->
          exists s',
            update_knowledge_section now path nid exp new s
            = (s', MsgUpdated nid exp (Z.of_nat b - Z.of_nat a)
                     (length (Py.splitlines new)))
            /\ fs_files s' !! k
               = Some (finish content
                         (Py.join [Py.LF]
                            (take a lines ++ Py.splitlines new ++ drop b lines)))
            /\ forall k', k' <> k -> fs_files s' !! k' = fs_files s1 !! k')
  end.
Proof.
  intros Hopen Hnid lines outline k.
  pose proof (update_opened_spec _ _ _ exp new _ _ _ _ _ Hopen Hnid) as Hupd.
  cbv zeta in Hupd. fold lines outline k in Hupd.
  destruct (find_target nid outline) as [[j t]|] eqn:Hfind; [|done].
  split; [|split].
  - pose proof Hfind as (Hj & _ & _)%list_find_Some.
    apply outline_loop_lookup in Hj as (Hlt & line & Hl & Hp).
    exists line. split; [|done]. rewrite <- Hl. f_equal. lia.
  - by apply (target_range_bounds content nid j t).
  - intros Hlock. rewrite Hlock in Hupd. eexists. split; [exact Hupd|].
    simpl. split; [by rewrite lookup_insert_eq|].
    intros k' Hk'. by rewrite lookup_insert_ne.
Qed.

Lemma update_replaces_target_range_witness :
  let s := demo_store in
  let s1 := fst (open_document demo_time (lit "a.md") s) in
  let nid := lit "1.1" in
  let lines := Py.splitlines demo_doc in
  let outline := _get_outline_tree demo_doc in
  let k := key_of (fs_cwd s) (lit "/kb/libs/a.md") in
  match find_target nid outline with
  | None =>
      update_knowledge_section demo_time (lit "a.md") nid (lit "b") (lit "## B2") s
      = (s1, MsgSectionNotFound nid)
  | Some (j, t) =>
      let a := node_line_start t - 1 in
      let b := range_end (length lines) (node_level t) (drop (S j) outline) in
      (exists line,
         lines !! a = Some line
         /\ parse_heading line = Some (node_level t, node_title t))
      /\ a < b <= length lines
      /\ (lock_fails (lit "b") (node_title t) = false ->
          exists s',
            update_knowledge_section demo_time (lit "a.md") nid (lit "b")
              (lit "## B2") s
            = (s', MsgUpdated nid (lit "b") (Z.of_nat b - Z.of_nat a)
                     (length (Py.splitlines (lit "## B2"))))
            /\ fs_files s' !! k
               = Some (finish demo_doc
                         (Py.join [Py.LF]
                            (take a lines ++ Py.splitlines (lit "## B2")
                               ++ drop b lines)))
            /\ forall k', k' <> k -> fs_files s' !! k' = fs_files s1 !! k')
  end.
Proof.
  apply (update_replaces_target_range demo_time (lit "a.md") (lit "1.1")
           (lit "b") (lit "## B2") demo_store
           (fst (open_document demo_time (lit "a.md") demo_store))
           (lit "libs/a.md") (lit "/kb/libs/a.md") demo_doc).
  - apply pair_snd. vm_compute. reflexivity.
  - discriminate.
Defined.

(** ** C10 *)

(** C10.  An expected title that is empty once trimmed passes the lock
    against every title: no call with it returns the lock message, and a
    call that has opened the document and whose [node_id] resolves to the
    heading [t] goes through: it returns the success message with the
    sizes of the range of [t] and of [new_content], and the file is
    rewritten to the lines before the range, the lines of [new_content]
    and the lines from the end of the range on, all other files kept. *)
Theorem blank_expected_title_passes_lock exp :
  Py.strip exp = [] ->
  (forall title, lock_fails exp title = false)
  /\ (forall now path nid new s s' nid' title exp',
        update_knowledge_section now path nid exp new s
        <> (s', MsgLockMismatch nid' title exp'))
  /\ (forall now path nid new s s1 resolved abs content j t,
        open_document now path s = (s1, Ok (resolved, Some (abs, content))) ->
        nid <> lit "APPEND" ->
        find_target nid (_get_outline_tree content) = Some (j, t) ->
        let lines := Py.splitlines content in
        let a := node_line_start t - 1 in
        let b := range_end (length lines) (node_level t)
                   (drop (S j) (_get_outline_tree content)) in
        let k := key_of (fs_cwd s) abs in
        exists s',
          update_knowledge_section now path nid exp new s
          = (s', MsgUpdated nid exp (Z.of_nat b - Z.of_nat a)
                   (length (Py.splitlines new)))
          /\ fs_files s' !! k
             = Some (finish content
                       (Py.join [Py.LF]
                          (take a lines ++ Py.splitlines new ++ drop b lines)))
          /\ forall k', k' <> k -> fs_files s' !! k' = fs_files s1 !! k').
Proof.
  intros Hexp.
  assert (Hlock : forall title, lock_fails exp title = false).
  { intros title. by apply lock_passes_blank. }
  split; [done|]. split.
  - intros now path nid new s s' nid' title exp' Hupd.
    destruct (update_inv _ _ _ _ _ _ _ _ Hupd I)
      as (Hnid & s1 & resolved & abs & content & Hopen).
    rewrite (update_opened_spec _ _ _ _ _ _ _ _ _ _ Hopen Hnid) in Hupd.
    destruct (find_target _ _) as [[j t]|]; [|done].
    by rewrite Hlock in Hupd.
  - intros now path nid new s s1 resolved abs content j t Hopen Hnid Hfind
      lines a b k.
    rewrite (update_opened_spec _ _ _ _ _ _ _ _ _ _ Hopen Hnid), Hfind, Hlock.
    eexists. split; [reflexivity|]. simpl. split; [by rewrite lookup_insert_eq|].
    intros k' Hk'. by rewrite lookup_insert_ne.
Qed.

Lemma blank_expected_title_passes_lock_witness :
  lock_fails (lit "  ") (lit "B") = false
  /\ exists s',
       update_knowledge_section demo_time (lit "a.md") (lit "1.1") (lit "  ")
         (lit "## B2") demo_store
       = (s', MsgUpdated (lit "1.1") (lit "  ") 2 1)
       /\ fs_files s' !! path_key ["kb"; "libs"; "a.md"]
          = Some (text ["# A"; "x"; "## B2"; "# C"; "z"]).
Proof.
  destruct (blank_expected_title_passes_lock (lit "  ") eq_refl) as (H1 & _ & H3).
  split; [apply H1|].
  destruct (H3 demo_time (lit "a.md") (lit "1.1") (lit "## B2") demo_store
              (fst (open_document demo_time (lit "a.md") demo_store))
              (lit "libs/a.md") (lit "/kb/libs/a.md") demo_doc 1
              (Node (lit "1.1") (lit "B") 2 3))
    as (s' & Hrun & Hfile & _).
  - apply pair_snd. vm_compute. reflexivity.
  - discriminate.
  - vm_compute. reflexivity.
  - exists s'. split; [exact Hrun|]. exact Hfile.
Defined.

(** ** C9 *)

(** C9, as stated, fails: a document that ends in three LF, updated at its
    first section, is rewritten with two LF at its end; one trailing
    newline was dropped, not all but one. *)
Lemma two_trailing_newlines_survive :
  let r := update_knowledge_section demo_time (lit "libs/a.md") (lit "1") (lit "a")
             (lit "# A" ++ [Py.LF] ++ lit "z") blank_tail_store in
  Py.endswith blank_tail_doc [Py.LF; Py.LF; Py.LF] = true
  /\ snd r = MsgUpdated (lit "1") (lit "a") 2 2
  /\ fs_files (fst r) !! path_key ["kb"; "libs"; "a.md"]
     = Some (text ["# A"; "z"; "# B"; "y"; ""])
  /\ Py.endswith (text ["# A"; "z"; "# B"; "y"; ""]) [Py.LF; Py.LF] = true.
Proof. vm_compute. done. Qed.

(** C9, amended.  After a successful update that is not an APPEND, the
    file holds the lines of the text read, with the lines of the target
    range [a, b) replaced by the lines of [new_content], joined by LF, and
    one LF more when the text read ended in LF and the joined lines do
    not.  When the range reaches the end of the text, what is written is
    the lines before [a] and the lines of [new_content]: the blank lines
    at the end of the text go with the range.  When LF is the only line
    boundary of the file: if the file does not end in two LF and
    [new_content] has a line, the bytes before line [a] and the bytes
    from line [b] on are those of the file before; if the file ends in
    two LF and the range stops before the end of the text, the bytes
    before line [a] are those of the file before and the bytes from line
    [b] on are those of the file before less its last LF. *)
Theorem rewritten_file_bytes now path nid exp new s s' n_old n_new :
  update_knowledge_section now path nid exp new s
  = (s', MsgUpdated nid exp n_old n_new) ->
  exists abs data j t,
    let k := key_of (fs_cwd s) abs in
    let content := universal_newlines data in
    let lines := Py.splitlines content in
    let outline := _get_outline_tree content in
    let a := node_line_start t - 1 in
    let b := range_end (length lines) (node_level t) (drop (S j) outline) in
    fs_files s !! k = Some data
    /\ find_target nid outline = Some (j, t)
    /\ a < b <= length lines
    /\ fs_files s' !! k
       = Some (finish content
                 (Py.join [Py.LF] (take a lines ++ Py.splitlines new ++ drop b lines)))
    /\ (b = length lines ->
        fs_files s' !! k
        = Some (finish content
                  (Py.join [Py.LF] (take a lines ++ Py.splitlines new))))
    /\ (lf_only data -> Py.endswith data [Py.LF; Py.LF] = false ->
        Py.splitlines new <> [] ->
        exists mid,
          fs_files s' !! k
          = Some (take (offset lines a) data ++ mid ++ drop (offset lines b) data))
    /\ (lf_only data -> Py.endswith data [Py.LF; Py.LF] = true ->
        b < length lines ->
        exists mid,
          fs_files s' !! k
          = Some (take (offset lines a) data ++ mid
                    ++ drop (offset lines b) (removelast data))).
Proof.
  intros Hupd.
  destruct (update_inv _ _ _ _ _ _ _ _ Hupd I)
    as (Hnid & s1 & resolved & abs & content & Hopen).
  destruct (open_document_inv _ _ _ _ _ _ _ Hopen)
    as (data & _ & _ & Hdata & Hcontent & _ & _).
  rewrite (update_opened_spec _ _ _ _ _ _ _ _ _ _ Hopen Hnid) in Hupd.
  destruct (find_target nid (_get_outline_tree content)) as [[j t]|] eqn:Hfind;
    [|done].
  destruct (lock_fails exp (node_title t)); [done|].
  injection Hupd as <- _ _.
  exists abs, data, j, t. simpl. rewrite <- Hcontent.
  split; [done|]. split; [done|].
  pose proof (target_range_bounds content nid j t Hfind) as Hab.
  split; [done|]. split; [by rewrite lookup_insert_eq|].
  split; [|split].
  - intros Hb. rewrite lookup_insert_eq. do 4 f_equal.
    rewrite Hb at 1. by rewrite drop_all, app_nil_r.
  - intros Hlf H2 HN. rewrite lookup_insert_eq.
    assert (content = data) as Heq.
    { rewrite Hcontent. by apply universal_newlines_lf_only. }
    rewrite Heq in *.
    destruct (bytes_outside_range data new _ _ Hlf H2 Hab HN) as [mid Hmid].
    exists mid. by rewrite Hmid.
  - intros Hlf H2 Hb. rewrite lookup_insert_eq.
    assert (content = data) as Heq.
    { rewrite Hcontent. by apply universal_newlines_lf_only. }
    rewrite Heq in *.
    destruct (bytes_outside_range_blank_end data new _ _ Hlf H2 (proj1 Hab)
                (range_end_line data (node_level t) j Hb)) as [mid Hmid].
    exists mid. by rewrite Hmid.
Qed.

Lemma rewritten_file_bytes_witness :
  let s := blank_tail_store in
  let new := lit "# A" ++ [Py.LF] ++ lit "z" in
  let s' := fst (update_knowledge_section demo_time (lit "libs/a.md") (lit "1")
                   (lit "a") new s) in
  exists abs data j t,
    let k := key_of (fs_cwd s) abs in
    let content := universal_newlines data in
    let lines := Py.splitlines content in
    let outline := _get_outline_tree content in
    let a := node_line_start t - 1 in
    let b := range_end (length lines) (node_level t) (drop (S j) outline) in
    fs_files s !! k = Some data
    /\ find_target (lit "1") outline = Some (j, t)
    /\ a < b <= length lines
    /\ fs_files s' !! k
       = Some (finish content
                 (Py.join [Py.LF] (take a lines ++ Py.splitlines new ++ drop b lines)))
    /\ (b = length lines ->
        fs_files s' !! k
        = Some (finish content
                  (Py.join [Py.LF] (take a lines ++ Py.splitlines new))))
    /\ (lf_only data -> Py.endswith data [Py.LF; Py.LF] = false ->
        Py.splitlines new <> [] ->
        exists mid,
          fs_files s' !! k
          = Some (take (offset lines a) data ++ mid ++ drop (offset lines b) data))
    /\ (lf_only data -> Py.endswith data [Py.LF; Py.LF] = true ->
        b < length lines ->
        exists mid,
          fs_files s' !! k
          = Some (take (offset lines a) data ++ mid
                    ++ drop (offset lines b) (removelast data))).
Proof.
  apply (rewritten_file_bytes demo_time (lit "libs/a.md") (lit "1") (lit "a")
           (lit "# A" ++ [Py.LF] ++ lit "z") blank_tail_store
           (fst (update_knowledge_section demo_time (lit "libs/a.md") (lit "1")
                   (lit "a") (lit "# A" ++ [Py.LF] ++ lit "z") blank_tail_store))
           2 2).
  apply pair_snd. vm_compute. reflexivity.
Defined.

(** ** C3 *)




(** ** C8 *)

(** C8, as stated, fails: a call that ends in the section-not-found
    message, made again within the same second, adds no snapshot; the
    history directory names one snapshot after the first call and the same
    one after the second, and the store holds two files, the document and
    that snapshot, after the one as after the other. *)
Lemma repeated_failure_adds_no_snapshot :
  let s1 := fst (update_knowledge_section demo_time (lit "a.md") (lit "1.7")
                   (lit "B") (lit "## B2") demo_store) in
  let r := update_knowledge_section demo_time (lit "a.md") (lit "1.7")
             (lit "B") (lit "## B2") s1 in
  let history_dir := OsPath.join HISTORY_DIR (safe_name (lit "libs/a.md")) in
  snd r = MsgSectionNotFound (lit "1.7")
  /\ snd (listdir history_dir s1) = Ok [snapshot_name demo_time]
  /\ snd (listdir history_dir (fst r)) = Ok [snapshot_name demo_time]
  /\ size (fs_files s1) = 2
  /\ size (fs_files (fst r)) = 2.
Proof. vm_compute. repeat split; reflexivity. Qed.

(** C8, amended.  A call that ends in the lock-mismatch or the
    section-not-found message has resolved the path to an existing
    document, whose bytes [data] it leaves as they were; the bytes are
    copied to the snapshot file, no other file changes, and the copy is
    made between the test that the document exists and the read that the
    search works on.  The snapshot is a new file when no file had its
    path; when one had, as after a call within the same second, that file
    is overwritten and no file is added.  Under an absolute working
    directory, and when the snapshot path is not a directory, the snapshot
    is the file named by the time of the call in the history directory of
    the document, and [os.listdir] of that directory names it. *)
Theorem failed_update_still_snapshots now path nid exp new s s' out :
  OsPath.isabs (fs_cwd s) = true ->
  update_knowledge_section now path nid exp new s = (s', out) ->
  match out with
  | MsgLockMismatch _ _ _ | MsgSectionNotFound _ => True
  | _ => False
  end ->
  exists resolved abs data,
    let k := key_of (fs_cwd s) abs in
    let ksnap := snapshot_key now resolved abs s in
    _smart_resolve_path path s = (s, Ok resolved)
    /\ _validate_path resolved s = (s, Ok abs)
    /\ fs_files s !! k = Some data
    /\ fs_files s' !! k = Some data
    /\ ksnap <> k
    /\ fs_files s' !! ksnap = Some data
    /\ (forall k', k' <> ksnap -> fs_files s' !! k' = fs_files s !! k')
    /\ (fs_files s !! ksnap = None ->
        (ksnap ∉ dom (fs_files s))
        /\ dom (fs_files s') = {[ ksnap ]} ∪ dom (fs_files s))
    /\ (is_Some (fs_files s !! ksnap) -> dom (fs_files s') = dom (fs_files s))
    /\ fs_log s' = fs_log s ++ [Read k; Write ksnap; Read k]
    /\ (is_dir s (key_of (fs_cwd s) (snapshot_path now resolved)) = false ->
        ksnap = history_key s resolved ++ [snapshot_name now]
        /\ exists names,
             listdir (OsPath.join HISTORY_DIR (safe_name resolved)) s'
             = (s', Ok names)
             /\ snapshot_name now ∈ names).
Proof.
  intros Hc Hrun Hout.
  assert (Hsec : section_outcome out) by by destruct out.
  destruct (update_inv _ _ _ _ _ _ _ _ Hrun Hsec)
    as (Hnid & s1 & resolved & abs & content & Hopen).
  pose proof (update_opened_spec _ _ _ exp new _ _ _ _ _ Hopen Hnid) as Hupd.
  cbv zeta in Hupd. rewrite Hrun in Hupd.
  assert (s' = s1) as ->.
  { destruct (find_target nid _) as [[j t]|]; [|congruence].
    destruct (lock_fails exp (node_title t)); [congruence|].
    injection Hupd as _ ->. done. }
  clear Hupd.
  pose proof (open_document_history _ _ _ _ _ _ _ Hopen) as Hmk.
  destruct (open_document_inv _ _ _ _ _ _ _ Hopen)
    as (data & Hr & Hv & Hdata & _ & Hne & ->).
  exists resolved, abs, data. cbv zeta. cbn [fs_files fs_log fs_cwd].
  split; [done|]. split; [done|]. split; [done|].
  split; [by rewrite lookup_insert_ne|]. split; [done|].
  split; [by rewrite lookup_insert_eq|].
  split; [intros k' Hk'; by rewrite lookup_insert_ne|].
  split.
  { intros Hnone. split; [by apply not_elem_of_dom|]. by rewrite dom_insert_L. }
  split.
  { intros Hsome. rewrite dom_insert_L.
    apply subseteq_union_1_L, singleton_subseteq_l. by apply elem_of_dom. }
  split; [done|].
  intros Hnd.
  pose proof (validate_path_not_dotdot _ _ _ Hv) as Hdd.
  pose proof (snapshot_key_plain now resolved abs s Hc Hdd Hnd) as Hk.
  split; [done|].
  apply (listdir_history (history_key s resolved) _ data).
  - done.
  - assert (Hf : is_file s (history_key s resolved) = false).
    { apply not_true_iff_false. intros Hf.
      apply not_true_iff_false in Hmk. apply Hmk.
      apply existsb_exists. exists (history_key s resolved). split; [|done].
      apply list_elem_of_In, prefixes_self. }
    unfold is_file in *. cbn [fs_files]. rewrite Hk.
    rewrite lookup_insert_ne; [done|].
    intros Heq%(f_equal length). rewrite length_app in Heq. simpl in Heq. lia.
  - apply is_dir_history.
  - cbn [fs_files]. rewrite Hk. by rewrite lookup_insert_eq.
Qed.

Lemma failed_update_still_snapshots_witness :
  let s := demo_store in
  let s' := fst (update_knowledge_section demo_time (lit "a.md") (lit "1.7")
                   (lit "B") (lit "## B2") s) in
  exists resolved abs data,
    let k := key_of (fs_cwd s) abs in
    let ksnap := snapshot_key demo_time resolved abs s in
    _smart_resolve_path (lit "a.md") s = (s, Ok resolved)
    /\ _validate_path resolved s = (s, Ok abs)
    /\ fs_files s !! k = Some data
    /\ fs_files s' !! k = Some data
    /\ ksnap <> k
    /\ fs_files s' !! ksnap = Some data
    /\ (forall k', k' <> ksnap -> fs_files s' !! k' = fs_files s !! k')
    /\ (fs_files s !! ksnap = None ->
        (ksnap ∉ dom (fs_files s))
        /\ dom (fs_files s') = {[ ksnap ]} ∪ dom (fs_files s))
    /\ (is_Some (fs_files s !! ksnap) -> dom (fs_files s') = dom (fs_files s))
    /\ fs_log s' = fs_log s ++ [Read k; Write ksnap; Read k]
    /\ (is_dir s (key_of (fs_cwd s) (snapshot_path demo_time resolved)) = false ->
        ksnap = history_key s resolved ++ [snapshot_name demo_time]
        /\ exists names,
             listdir (OsPath.join HISTORY_DIR (safe_name resolved)) s'
             = (s', Ok names)
             /\ snapshot_name demo_time ∈ names).
Proof.
  apply (failed_update_still_snapshots demo_time (lit "a.md") (lit "1.7")
           (lit "B") (lit "## B2") demo_store
           (fst (update_knowledge_section demo_time (lit "a.md") (lit "1.7")
                   (lit "B") (lit "## B2") demo_store))
           (MsgSectionNotFound (lit "1.7"))).
  - vm_compute. reflexivity.
  - apply pair_snd. vm_compute. reflexivity.
  - exact I.
Defined.

(** ** C7 *)

(** C7, as stated, fails: section 1.1 of the example is replaced by the
    text it already has, the update succeeds, and the view that follows
    returns the empty diff. *)
Lemma identical_replacement_gives_empty_diff :
  let r := update_knowledge_section demo_time (lit "libs/a.md") (lit "1.1")
             (lit "B") (lit "## B" ++ [Py.LF] ++ lit "y") demo_store in
  snd r = MsgUpdated (lit "1.1") (lit "B") 2 2
  /\ snd (view_doc_changes (lit "libs/a.md") (fst r)) = MsgDiff [].
Proof. vm_compute. by split. Qed.

(** C7, amended.  A call that ends in the appended or the updated message,
    under an absolute working directory, has resolved the path to a
    document with the bytes [data] and leaves it with the bytes [data'],
    which for APPEND are [data], two LF and [new_content].  When the view
    that follows resolves the path to the same document, the snapshot path
    was not a directory, and no entry of the history directory that ends in
    [.snap] was named after the snapshot of this call in the order of
    [sorted], the snapshot holds [data] and the view returns the unified
    diff of the lines of [data] and the lines of [data'], headed by the
    name of the snapshot.  That diff is empty exactly when the text read
    of [data'] is the text read of [data]; after an APPEND it is not
    empty. *)
Theorem view_after_update_diffs_latest_snapshot
  now path nid exp new s s1 out :
  OsPath.isabs (fs_cwd s) = true ->
  update_knowledge_section now path nid exp new s = (s1, out) ->
  match out with MsgAppended | MsgUpdated _ _ _ _ => True | _ => False end ->
  exists resolved abs data data',
    let k := key_of (fs_cwd s) abs in
    let hk := history_key s resolved in
    let name := snapshot_name now in
    let diff :=
      Difflib.unified_diff (keepends_from [] (universal_newlines data))
        (keepends_from [] (universal_newlines data')) name in
    _smart_resolve_path path s = (s, Ok resolved)
    /\ _validate_path resolved s = (s, Ok abs)
    /\ fs_files s !! k = Some data
    /\ fs_files s1 !! k = Some data'
    /\ (nid = lit "APPEND" -> data' = data ++ [Py.LF; Py.LF] ++ new)
    /\ (_smart_resolve_path path s1 = (s1, Ok resolved) ->
        is_dir s (key_of (fs_cwd s) (snapshot_path now resolved)) = false ->
        (forall k', k' ∈ entries s hk ->
           Py.endswith (name_of k') (lit ".snap") = true ->
           str_leb (name_of k') name = true) ->
        fs_files s1 !! (hk ++ [name]) = Some data
        /\ exists s2, view_doc_changes path s1 = (s2, MsgDiff diff))
    /\ (diff = [] <-> universal_newlines data' = universal_newlines data)
    /\ (nid = lit "APPEND" -> diff <> []).
Proof.
  intros Hc Hrun Hout.
  destruct (update_success_inv _ _ _ _ _ _ _ _ Hrun Hout)
    as (resolved & abs & data & data' & Hr & Hv & Hdata & Hne & Hmk & Happ & ->).
  exists resolved, abs, data, data'. cbv zeta. cbn [fs_files].
  split; [done|]. split; [done|]. split; [done|].
  split; [by rewrite lookup_insert_eq|]. split; [done|].
  assert (Hnil : Difflib.unified_diff (keepends_from [] (universal_newlines data))
                   (keepends_from [] (universal_newlines data')) (snapshot_name now)
                 = [] -> universal_newlines data' = universal_newlines data).
  { intros Hd%unified_diff_nil. symmetry. by apply keepends_from_inj. }
  split; [|split; [split; [exact Hnil|]|]].
  2:{ intros ->. apply unified_diff_same. }
  2:{ intros Hn Hd. apply Hnil in Hd. rewrite (Happ Hn) in Hd.
      by apply universal_newlines_appended in Hd. }
  intros Hr1 Hnd Hmax.
  pose proof (validate_path_not_dotdot _ _ _ Hv) as Hdd.
  pose proof (snapshot_key_plain now resolved abs s Hc Hdd Hnd) as Hk.
  rewrite Hk in *.
  assert (Hsnap : <[key_of (fs_cwd s) abs := data']>
                    (<[history_key s resolved ++ [snapshot_name now] := data]>
                       (fs_files s))
                  !! (history_key s resolved ++ [snapshot_name now]) = Some data).
  { rewrite lookup_insert_ne by done. by rewrite lookup_insert_eq. }
  split; [done|]. eexists.
  apply (view_latest_snapshot now path resolved abs _ data data'); cbn [fs_cwd fs_files fs_dirs].
  - done.
  - done.
  - by apply (validate_path_cwd _ s).
  - unfold history_key. cbn [fs_cwd]. fold (history_key s resolved).
    apply not_true_iff_false. intros (d & Hd & Hf)%existsb_exists.
    apply not_true_iff_false in Hmk. apply Hmk.
    apply existsb_exists. exists d. split; [done|].
    unfold is_file in *. cbn [fs_files] in Hf.
    apply bool_decide_eq_true in Hf. apply bool_decide_eq_true_2.
    destruct (decide (d = key_of (fs_cwd s) abs)) as [->|Hdk]; [eauto|].
    rewrite lookup_insert_ne in Hf by done.
    rewrite lookup_insert_ne in Hf; [done|].
    intros <-. apply list_elem_of_In, prefixes_length in Hd.
    rewrite length_app in Hd. simpl in Hd. lia.
  - intros d Hd. unfold with_history_dir. cbn [fs_dirs fs_cwd].
    apply elem_of_union_r, elem_of_list_to_set. exact Hd.
  - exact Hsnap.
  - by rewrite lookup_insert_eq.
  - intros k' Hk'. unfold with_history_dir in Hk'. cbn [fs_dirs fs_cwd] in Hk'.
    apply (entries_after (fs_cwd s) (fs_files s) (fs_dirs s)) in Hk'; [|eauto].
    destruct Hk' as [Hk'| ->].
    + apply Hmax. by destruct s.
    + intros _. rewrite name_of_snoc. apply str_leb_refl.
Qed.

Lemma view_after_update_diffs_latest_snapshot_witness :
  let s := demo_store in
  let r := update_knowledge_section demo_time (lit "libs/a.md") (lit "1.1")
             (lit "B") (lit "## B2") s in
  fs_files (fst r) !! path_key ["kb"; ".history"; "libs_a.md"; "20260102_030405.snap"]
  = Some demo_doc
  /\ exists s2,
       view_doc_changes (lit "libs/a.md") (fst r)
       = (s2, MsgDiff (Difflib.unified_diff
                         (map lit ["# A"; "x"; "## B"; "y"; "# C"; "z"]
                            ≫= fun l => [l ++ [Py.LF]])
                         (map lit ["# A"; "x"; "## B2"; "# C"; "z"]
                            ≫= fun l => [l ++ [Py.LF]])
                         (lit "20260102_030405.snap"))).
Proof.
  intros s r.
  assert (Hc : OsPath.isabs (fs_cwd s) = true) by (vm_compute; reflexivity).
  assert (Hrun : update_knowledge_section demo_time (lit "libs/a.md") (lit "1.1")
                   (lit "B") (lit "## B2") s
                 = (fst r, MsgUpdated (lit "1.1") (lit "B") 2 1)).
  { apply pair_snd. vm_compute. reflexivity. }
  destruct (view_after_update_diffs_latest_snapshot demo_time (lit "libs/a.md")
              (lit "1.1") (lit "B") (lit "## B2") s (fst r) _ Hc Hrun I)
    as (resolved & abs & data & data' & Hr & Hv & Hd & Hd' & _ & Hview & _ & _).
  assert (resolved = lit "libs/a.md") as ->.
  { assert (Er : snd (_smart_resolve_path (lit "libs/a.md") s)
                 = Ok (lit "libs/a.md")) by (vm_compute; reflexivity).
    rewrite Hr in Er. injection Er as Er. exact Er. }
  assert (abs = lit "/kb/libs/a.md") as ->.
  { assert (Ev : snd (_validate_path (lit "libs/a.md") s)
                 = Ok (lit "/kb/libs/a.md")) by (vm_compute; reflexivity).
    rewrite Hv in Ev. injection Ev as Ev. exact Ev. }
  assert (data = demo_doc) as ->.
  { assert (Ed : fs_files s !! key_of (fs_cwd s) (lit "/kb/libs/a.md")
                 = Some demo_doc) by (vm_compute; reflexivity).
    rewrite Hd in Ed. injection Ed as Ed. exact Ed. }
  assert (data' = text ["# A"; "x"; "## B2"; "# C"; "z"]) as ->.
  { assert (Ed' : fs_files (fst r) !! key_of (fs_cwd s) (lit "/kb/libs/a.md")
                  = Some (text ["# A"; "x"; "## B2"; "# C"; "z"]))
      by (vm_compute; reflexivity).
    rewrite Hd' in Ed'. injection Ed' as Ed'. exact Ed'. }
  apply Hview.
  - apply pair_snd_state; [apply smart_resolve_path_state|].
    vm_compute. reflexivity.
  - vm_compute. reflexivity.
  - intros k' Hk'.
    assert (E : entries s (history_key s (lit "libs/a.md")) = [])
      by (vm_compute; reflexivity).
    rewrite E in Hk'. apply elem_of_nil in Hk'. destruct Hk'.
Defined.

(** ** C4 *)

(** C4, as stated, fails: the title [a---b] is written to the YAML text
    as it is, the text is cut at the delimiter inside the title, and the
    metadata read back is the title [a] alone.  The YAML fragment of the
    example writes and reads these texts as the library does. *)
Lemma delimiter_in_value_breaks_round_trip :
  let built := _build_frontmatter mini_dump demo_time dashed_meta in
  let parsed := _parse_frontmatter mini_load (snd built ++ lit "# T") in
  has_key (lit "last_updated") dashed_meta = false
  /\ fst built
     = dashed_meta ++ [(PStr (lit "last_updated"), PStr (lit "2026-01-02"))]
  /\ fst parsed = PDict [(PStr (lit "title"), PStr (lit "a"))]
  /\ fst parsed <> PDict (fst built).
Proof. vm_compute. repeat split. discriminate. Qed.

(** C4, amended.  For a dict [m] without the key [last_updated], with
    [m'] the dict [m] followed by [last_updated] set to the date of today
    and [y] the stripped YAML text of [m']: when [y] does not contain the
    delimiter and the YAML library reads [y] between two LF back as [m'],
    building the frontmatter gives the delimiter, [y] and the delimiter on
    three lines, and parsing it followed by a body gives the metadata [m']
    and, as body, an LF and the body. *)
Theorem frontmatter_round_trip
  (yaml_dump : pyval -> str) (yaml_safe_load : str -> option pyval)
  (now : datetime) (m : list (pyval * pyval)) (body : str) :
  has_key (lit "last_updated") m = false ->
  let m' := m ++ [(PStr (lit "last_updated"), PStr (strftime_date now))] in
  let y := Py.strip (yaml_dump (PDict m')) in
  Py.contains y (lit "---") = false ->
  yaml_safe_load ([Py.LF] ++ y ++ [Py.LF]) = Some (PDict m') ->
  _build_frontmatter yaml_dump now m
  = (m', lit "---" ++ [Py.LF] ++ y ++ [Py.LF] ++ lit "---" ++ [Py.LF])
  /\ _parse_frontmatter yaml_safe_load
       (snd (_build_frontmatter yaml_dump now m) ++ body)
     = (PDict m', [Py.LF] ++ body).
Proof.
  intros Hkey m' y Hfree Hload.
  assert (Hbuild : _build_frontmatter yaml_dump now m
                   = (m', lit "---" ++ [Py.LF] ++ y ++ [Py.LF] ++ lit "---" ++ [Py.LF])).
  { unfold _build_frontmatter. by rewrite Hkey. }
  split; [exact Hbuild|]. rewrite Hbuild. cbn [snd].
  unfold _parse_frontmatter.
  replace ((lit "---" ++ [Py.LF] ++ y ++ [Py.LF] ++ lit "---" ++ [Py.LF]) ++ body)
    with (lit "---" ++ [Py.LF] ++ y ++ [Py.LF] ++ lit "---" ++ ([Py.LF] ++ body))
    by (by rewrite <- !app_assoc).
  assert (Py.startswith
            (lit "---" ++ [Py.LF] ++ y ++ [Py.LF] ++ lit "---" ++ [Py.LF] ++ body)
            (lit "---") = true) as ->.
  { apply startswith_spec. eexists. reflexivity. }
  rewrite (str_split_frontmatter y _ Hfree), Hload.
  assert (truthy (PDict m') = true) as ->; [|done].
  unfold m'. by destruct m.
Qed.

Lemma frontmatter_round_trip_witness :
  let m' := plain_meta ++ [(PStr (lit "last_updated"), PStr (lit "2026-01-02"))] in
  _build_frontmatter mini_dump demo_time plain_meta
  = (m', lit "---" ++ [Py.LF] ++ lit "title: T" ++ [Py.LF] ++ lit "category: libs"
           ++ [Py.LF] ++ lit "last_updated: '2026-01-02'" ++ [Py.LF]
           ++ lit "---" ++ [Py.LF])
  /\ _parse_frontmatter mini_load
       (snd (_build_frontmatter mini_dump demo_time plain_meta) ++ lit "# T")
     = (PDict m', [Py.LF] ++ lit "# T").
Proof.
  apply (frontmatter_round_trip mini_dump mini_load demo_time plain_meta (lit "# T")).
  - vm_compute. reflexivity.
  - vm_compute. reflexivity.
  - vm_compute. reflexivity.
Defined.

(** * Further properties *)

(** ** The nodes of an outline *)

Lemma strip_fixed t :
  match t with c :: _ => Py.isspace c = false | [] => True end ->
  match last t with Some c => Py.isspace c = false | None => True end ->
  Py.strip t = t.
Proof.
  intros Hhead Hlast. unfold Py.strip, Py.rstrip_by.
  destruct t as [|c t]; [done|].
  rewrite (lstrip_by_head _ c t) by done.
  destruct (rev (c :: t)) as [|d r] eqn:Hrev.
  { apply (f_equal (@rev ascii)) in Hrev. rewrite rev_involutive in Hrev. done. }
  assert (Hd : last (c :: t) = Some d).
  { rewrite <- (rev_involutive (c :: t)), Hrev. simpl. by rewrite last_snoc. }
  rewrite Hd in Hlast. rewrite (lstrip_by_head _ d r) by done.
  by rewrite <- Hrev, rev_involutive.
Qed.

Lemma strip_idem s : Py.strip (Py.strip s) = Py.strip s.
Proof.
  destruct (strip_spec s) as (l & r & _ & _ & _ & Hhead & Hlast).
  by apply strip_fixed.
Qed.

Lemma last_drop {A} (l : list A) n x :
  last l = Some x -> n < length l -> last (drop n l) = Some x.
Proof.
  intros Hl Hn. rewrite <- (take_drop n l) in Hl.
  rewrite last_app in Hl. destruct (last (drop n l)) eqn:E; [done|].
  apply last_None in E. apply (f_equal length) in E.
  rewrite length_drop in E. simpl in E. lia.
Qed.

(** The title of a heading line is not empty and has no white space at
    its ends. *)
Lemma parse_heading_title line L t :
  no_break line -> parse_heading line = Some (L, t) ->
  t <> [] /\ Py.strip t = t.
Proof.
  intros Hnb. unfold parse_heading.
  destruct (re_match_heading (Py.strip line)) as [[g1 g2]|] eqn:Hre; [|done].
  intros [= <- <-]. split; [|apply strip_idem].
  destruct (re_match_heading_sound _ _ _ Hre) as (Hbegin & _ & _).
  destruct (strip_spec line) as (l & r & _ & _ & _ & _ & Hlast).
  destruct (re_match_heading_complete (Py.strip line)) as (k & w & _ & _ & Hre' & Hne).
  { apply no_break_not_LF, no_break_strip, Hnb. }
  { done. }
  { done. }
  rewrite Hre in Hre'. injection Hre' as _ ->.
  intros Hnil%strip_nil_inv.
  destruct (last (Py.strip line)) as [c|] eqn:Hc.
  2:{ apply last_None in Hc. rewrite Hc in Hne. by rewrite drop_nil in Hne. }
  assert (Hlt : k + w < length (Py.strip line)).
  { destruct (decide (k + w < length (Py.strip line))); [done|].
    rewrite drop_ge in Hne by lia. done. }
  pose proof (last_drop _ _ _ Hc Hlt) as Hl.
  assert (Hin : c ∈ drop (k + w) (Py.strip line)).
  { apply last_Some in Hl as [l' ->]. apply elem_of_app. right. by left. }
  rewrite forallb_forall in Hnil. rewrite (Hnil c) in Hlast; [done|].
  by apply list_elem_of_In.
Qed.

(** *** The ids are pairwise different *)

Lemma str_of_nat_inj n m : Py.str_of_nat n = Py.str_of_nat m -> n = m.
Proof.
  unfold Py.str_of_nat, lit. intros H.
  apply (f_equal string_of_list_ascii) in H.
  rewrite !string_of_list_ascii_of_string in H.
  apply (f_equal NilEmpty.uint_of_string) in H.
  rewrite !NilEmpty.usu in H. injection H as H.
  apply (f_equal Nat.of_uint) in H. by rewrite !DecimalNat.Unsigned.of_to in H.
Qed.

Lemma str_of_nat_dot_free n : "."%char ∉ Py.str_of_nat n.
Proof.
  intros Hin. pose proof (str_of_nat_digits n) as Hd.
  rewrite Forall_forall in Hd. specialize (Hd _ Hin).
  unfold is_digit in Hd. revert Hd. clear. intros Hd.
  repeat (apply elem_of_cons in Hd as [Hd|Hd]; [discriminate|]).
  by apply elem_of_nil in Hd.
Qed.

Lemma spec_id_inj L c c' :
  1 <= L -> spec_id L c = spec_id L c' -> same_upto L c c'.
Proof.
  intros HL H. unfold spec_id in H.
  apply (f_equal (OsPath.split_on "."%char)) in H.
  rewrite !split_on_join in H.
  - intros m Hm.
    assert (Hseq : seq 1 L !! (m - 1) = Some m).
    { apply lookup_seq. lia. }
    apply (f_equal (fun l => l !! (m - 1))) in H.
    rewrite !list_lookup_fmap, Hseq in H. simpl in H.
    injection H as H. by apply str_of_nat_inj.
  - destruct L; [lia|]. done.
  - apply Forall_fmap, Forall_forall. intros x _. apply str_of_nat_dot_free.
  - destruct L; [lia|]. done.
  - apply Forall_fmap, Forall_forall. intros x _. apply str_of_nat_dot_free.
Qed.

Lemma dots_spec_id L c : dots (spec_id L c) = L - 1.
Proof.
  unfold spec_id. rewrite dots_join.
  - by rewrite length_map, length_seq.
  - apply Forall_fmap, Forall_forall. intros x _. apply dots_str_of_nat.
Qed.

Lemma lex_lt_step L L' c :
  1 <= L' <= L -> lex_lt L c (spec_step L' c).
Proof.
  intros HL. exists L'. split; [lia|]. split.
  - intros m Hm. unfold spec_step.
    destruct (decide (m = L')); [lia|]. destruct (decide (L' < m)); [lia|done].
  - unfold spec_step. destruct (decide (L' = L')); [lia|done].
Qed.

Lemma same_upto_step L L' c :
  L < L' -> same_upto L c (spec_step L' c).
Proof.
  intros HL m Hm. unfold spec_step.
  destruct (decide (m = L')); [lia|]. destruct (decide (L' < m)); [lia|done].
Qed.

Lemma lex_lt_trans L c1 c2 c3 :
  lex_lt L c1 c2 -> lex_lt L c2 c3 -> lex_lt L c1 c3.
Proof.
  intros (l1 & H1 & E1 & Lt1) (l2 & H2 & E2 & Lt2).
  destruct (decide (l1 < l2)) as [Hlt|Hge].
  - exists l1. split; [done|]. split.
    + intros m Hm. rewrite E1 by done. apply E2. lia.
    + rewrite <- E2 by lia. done.
  - destruct (decide (l1 = l2)) as [->|Hne].
    + exists l2. split; [done|]. split.
      * intros m Hm. rewrite E1 by done. by apply E2.
      * lia.
    + exists l2. split; [done|]. split.
      * intros m Hm. rewrite E1 by lia. by apply E2.
      * rewrite E1 by lia. done.
Qed.

Lemma lex_lt_same L c1 c2 c3 :
  lex_lt L c1 c2 -> same_upto L c2 c3 -> lex_lt L c1 c3.
Proof.
  intros (l & Hl & E & Lt) Hs. exists l. split; [done|]. split.
  - intros m Hm. rewrite E by done. apply Hs. lia.
  - rewrite <- Hs by done. done.
Qed.

Lemma same_lex_lt L c1 c2 c3 :
  same_upto L c1 c2 -> lex_lt L c2 c3 -> lex_lt L c1 c3.
Proof.
  intros Hs (l & Hl & E & Lt). exists l. split; [done|]. split.
  - intros m Hm. rewrite Hs by lia. by apply E.
  - rewrite Hs by done. done.
Qed.

Lemma lex_lt_irrefl L c c' : lex_lt L c c' -> ~ same_upto L c c'.
Proof. intros (l & Hl & _ & Lt) Hs. specialize (Hs l Hl). lia. Qed.

(** The id of a heading does not come back: the counters that follow are
    the same or later at its levels, and later at a heading of its
    level. *)
Lemma spec_ids_fresh L c0 levels c :
  1 <= L -> Forall (fun l => 1 <= l) levels ->
  same_upto L c0 c \/ lex_lt L c0 c ->
  spec_id L c0 ∉ spec_ids levels c.
Proof.
  intros HL. revert c. induction levels as [|L2 levels IH]; intros c Hlv Hc.
  { apply not_elem_of_nil. }
  apply Forall_cons in Hlv as [HL2 Hlv]. simpl.
  assert (Hnext : same_upto L c0 (spec_step L2 c) \/ lex_lt L c0 (spec_step L2 c)).
  { destruct (decide (L2 <= L)) as [Hle|Hgt].
    - right. destruct Hc as [Hs|Hlt].
      + eapply same_lex_lt; [exact Hs|]. apply lex_lt_step. lia.
      + eapply lex_lt_trans; [exact Hlt|]. apply lex_lt_step. lia.
    - destruct Hc as [Hs|Hlt].
      + left. intros m Hm. rewrite Hs by done.
        apply (same_upto_step L L2 c); [lia|done].
      + right. eapply lex_lt_same; [exact Hlt|]. apply same_upto_step. lia. }
  apply not_elem_of_cons. split; [|by apply IH].
  intros Heq. destruct (decide (L2 = L)) as [->|Hne].
  - apply spec_id_inj in Heq; [|done].
    assert (Hlt : lex_lt L c0 (spec_step L c)).
    { destruct Hc as [Hs|Hlt].
      - eapply same_lex_lt; [exact Hs|]. apply lex_lt_step. lia.
      - eapply lex_lt_trans; [exact Hlt|]. apply lex_lt_step. lia. }
    by apply lex_lt_irrefl in Hlt.
  - apply (f_equal dots) in Heq. rewrite !dots_spec_id in Heq. lia.
Qed.

Lemma spec_ids_NoDup levels c :
  Forall (fun l => 1 <= l) levels -> NoDup (spec_ids levels c).
Proof.
  revert c. induction levels as [|L levels IH]; intros c Hlv; [constructor|].
  apply Forall_cons in Hlv as [HL Hlv]. simpl. constructor; [|by apply IH].
  apply spec_ids_fresh; [done|done|]. by left.
Qed.

Lemma outline_levels_range body :
  Forall (fun l => 1 <= l <= 6) (map node_level (_get_outline_tree body)).
Proof.
  unfold _get_outline_tree. rewrite outline_loop_levels.
  apply Forall_forall. intros l (line & _ & Hl)%list_elem_of_omap.
  destruct (parse_heading line) as [[L t]|] eqn:Hp; [|discriminate Hl].
  simpl in Hl. injection Hl as <-. by apply (parse_heading_level line L t).
Qed.

Lemma outline_ids_NoDup body : NoDup (map node_id (_get_outline_tree body)).
Proof.
  unfold _get_outline_tree.
  rewrite (outline_loop_ids 0 _ _ (fun _ => 0) agree_init).
  apply spec_ids_NoDup.
  eapply Forall_impl; [apply (outline_levels_range body)|]. simpl. lia.
Qed.

(** The first node with the id of a node of the outline is that node. *)
Lemma find_target_node body n :
  n ∈ _get_outline_tree body ->
  exists j, find_target (node_id n) (_get_outline_tree body) = Some (j, n).
Proof.
  intros (j & Hj)%list_elem_of_lookup_1. exists j.
  apply list_find_Some. split; [done|]. split; [done|].
  intros i n' Hi Hlt Heq.
  pose proof (outline_ids_NoDup body) as Hnd.
  assert (i = j); [|lia].
  eapply NoDup_lookup; [exact Hnd| |].
  - rewrite list_lookup_fmap, Hi. simpl. by rewrite Heq.
  - by rewrite list_lookup_fmap, Hj.
Qed.

(** *** What an id looks like *)

Lemma join_Forall (P : ascii -> Prop) sep parts :
  Forall P sep -> Forall (Forall P) parts -> Forall P (Py.join sep parts).
Proof.
  intros Hsep. induction 1 as [|p ps Hp Hps IH]; [constructor|].
  destruct ps as [|q ps]; [done|].
  rewrite join_cons2. apply Forall_app. split; [done|].
  apply Forall_app. by split.
Qed.

Lemma spec_id_chars L c : Forall id_char (spec_id L c).
Proof.
  unfold spec_id. apply join_Forall.
  - apply Forall_singleton. by right.
  - apply Forall_fmap, Forall_forall. intros l _. simpl.
    eapply Forall_impl; [apply str_of_nat_digits|]. intros ch Hch. by left.
Qed.

(** The ids of the headings one by one: the counters after the heading,
    whose own counter has been incremented. *)
Lemma spec_ids_lookup levels c j x :
  spec_ids levels c !! j = Some x ->
  exists L c', levels !! j = Some L /\ x = spec_id L c' /\ 1 <= c' L.
Proof.
  revert c j. induction levels as [|L levels IH]; intros c j; [done|].
  destruct j as [|j]; simpl.
  - intros [= <-]. exists L, (spec_step L c). split; [done|]. split; [done|].
    unfold spec_step. destruct (decide (L = L)); [lia|done].
  - apply IH.
Qed.

Lemma outline_id_lookup body j n :
  _get_outline_tree body !! j = Some n ->
  exists c, node_id n = spec_id (node_level n) c /\ 1 <= c (node_level n).
Proof.
  intros Hj.
  assert (Hid : map node_id (_get_outline_tree body) !! j = Some (node_id n)).
  { by rewrite list_lookup_fmap, Hj. }
  unfold _get_outline_tree in Hid.
  rewrite (outline_loop_ids 0 _ _ (fun _ => 0) agree_init) in Hid.
  apply spec_ids_lookup in Hid as (L & c & HL & Hid & Hc).
  fold (_get_outline_tree body) in HL.
  rewrite list_lookup_fmap, Hj in HL. injection HL as <-. eauto.
Qed.

Lemma str_of_nat_zero n : Py.str_of_nat n = lit "0" -> n = 0.
Proof. intros H. by apply (str_of_nat_inj n 0). Qed.

Lemma spec_id_one c : spec_id 1 c = Py.str_of_nat (c 1).
Proof. reflexivity. Qed.

Lemma outline_id_not_zero body n :
  n ∈ _get_outline_tree body -> node_id n <> lit "0".
Proof.
  intros (j & Hj)%list_elem_of_lookup_1.
  destruct (outline_id_lookup _ _ _ Hj) as (c & Hid & Hc).
  assert (HL : 1 <= node_level n <= 6).
  { pose proof (outline_levels_range body) as Hall.
    rewrite Forall_forall in Hall. apply Hall.
    apply list_elem_of_fmap. exists n. split; [done|].
    by apply list_elem_of_lookup_2 in Hj. }
  intros Hz. destruct (decide (node_level n = 1)) as [H1|H1].
  - rewrite Hid, H1, spec_id_one in Hz. apply str_of_nat_zero in Hz.
    rewrite H1 in Hc. lia.
  - apply (f_equal dots) in Hz. rewrite Hid, dots_spec_id in Hz.
    change (dots (lit "0")) with 0 in Hz. lia.
Qed.

Lemma outline_id_chars body n :
  n ∈ _get_outline_tree body -> Forall id_char (node_id n).
Proof.
  intros (j & Hj)%list_elem_of_lookup_1.
  destruct (outline_id_lookup _ _ _ Hj) as (c & -> & _). apply spec_id_chars.
Qed.

Lemma id_char_not_A : ~ id_char "A"%char.
Proof.
  intros [Hd| Hd]; [|discriminate]. unfold is_digit in Hd.
  repeat (apply elem_of_cons in Hd as [Hd|Hd]; [discriminate|]).
  by apply elem_of_nil in Hd.
Qed.

Lemma outline_id_not_append body n :
  n ∈ _get_outline_tree body -> node_id n <> lit "APPEND".
Proof.
  intros Hn Heq. apply outline_id_chars in Hn. rewrite Heq in Hn.
  apply Forall_inv in Hn. by apply id_char_not_A in Hn.
Qed.

(** *** A node of the outline *)

Lemma outline_node_line body n :
  n ∈ _get_outline_tree body ->
  1 <= node_line_start n <= length (Py.splitlines body)
  /\ exists line,
       Py.splitlines body !! (node_line_start n - 1) = Some line
       /\ parse_heading line = Some (node_level n, node_title n).
Proof.
  intros Hn. pose proof Hn as (j & Hj)%list_elem_of_lookup_1.
  unfold _get_outline_tree in *.
  destruct (outline_loop_lookup _ _ _ _ _ Hj) as (Hlt & line & Hline & Hp).
  apply outline_loop_line_le in Hn. split; [lia|].
  exists line. split; [|done]. by rewrite Nat.sub_0_r in Hline.
Qed.

Lemma outline_node_title body n :
  n ∈ _get_outline_tree body ->
  node_title n <> [] /\ Py.strip (node_title n) = node_title n.
Proof.
  intros (_ & line & Hline & Hp)%outline_node_line.
  apply (parse_heading_title line (node_level n)); [|done].
  pose proof (splitlines_no_break body) as Hall.
  rewrite Forall_forall in Hall. apply Hall.
  by apply list_elem_of_lookup_2 in Hline.
Qed.

(** *** The lock against the title itself *)

Lemma contains_refl s : Py.contains s s = true.
Proof. apply contains_spec. exists [], []. by rewrite app_nil_r. Qed.

Lemma lock_passes_same title : lock_fails title title = false.
Proof. unfold lock_fails. by rewrite contains_refl. Qed.

(** ** The text of a validated path *)

(** The slashes [normpath] keeps before an absolute path. *)
Lemma normpath_slashes p :
  Py.startswith p [OsPath.sep] = true ->
  OsPath.normpath p
  = replicate (if Py.startswith p [OsPath.sep; OsPath.sep]
                  && negb (Py.startswith p [OsPath.sep; OsPath.sep; OsPath.sep])
               then 2 else 1) OsPath.sep
      ++ Py.join [OsPath.sep] (norm_key p).
Proof.
  intros Hp. unfold OsPath.normpath.
  destruct (startswith_sep_cons p Hp) as [r ->].
  rewrite bool_decide_eq_false_2 by done. rewrite Hp.
  destruct (_ && _).
  - rewrite norm_fold_slashes. rewrite bool_decide_eq_false_2 by done. done.
  - rewrite bool_decide_eq_false_2 by done. done.
Qed.

(** Joined to the working directory, two paths that begin with a dot
    keep the same slashes. *)
Lemma join_dot_slashes cwd t t' :
  OsPath.isabs cwd = true ->
  let p := OsPath.join cwd ("."%char :: t) in
  let p' := OsPath.join cwd ("."%char :: t') in
  (Py.startswith p [OsPath.sep; OsPath.sep]
   && negb (Py.startswith p [OsPath.sep; OsPath.sep; OsPath.sep]))
  = (Py.startswith p' [OsPath.sep; OsPath.sep]
     && negb (Py.startswith p' [OsPath.sep; OsPath.sep; OsPath.sep])).
Proof.
  intros Hc. destruct (startswith_sep_cons cwd Hc) as [r ->].
  unfold OsPath.join.
  change (Py.startswith ("."%char :: t) [OsPath.sep]) with false.
  change (Py.startswith ("."%char :: t') [OsPath.sep]) with false.
  rewrite bool_decide_eq_false_2 by done. cbv zeta. simpl (false || _).
  cbv iota.
  destruct r as [|c [|c' r]].
  - done.
  - destruct (decide (c = OsPath.sep)) as [->|Hne].
    + done.
    + assert (He : Py.endswith [OsPath.sep; c] [OsPath.sep] = false).
      { unfold Py.endswith. simpl. by rewrite bool_decide_eq_false_2. }
      rewrite He. simpl. rewrite !(bool_decide_eq_false_2 (OsPath.sep = c)) by done.
      done.
  - destruct (Py.endswith _ _); reflexivity.
Qed.

Lemma join_app_prefix (sep : str) K E :
  exists rest, Py.join sep (K ++ E) = Py.join sep K ++ rest.
Proof.
  induction K as [|x K IH].
  - exists (Py.join sep E). done.
  - destruct IH as [rest IH]. destruct K as [|y K].
    + destruct E as [|e E].
      * exists []. simpl. by rewrite app_nil_r.
      * exists (sep ++ Py.join sep (e :: E)). done.
    + exists rest. change ((x :: y :: K) ++ E) with (x :: (y :: K ++ E)).
      rewrite !join_cons2. change (y :: K ++ E) with ((y :: K) ++ E).
      rewrite IH. by rewrite <- !app_assoc.
Qed.

(** The text of the path [_validate_path] builds: the slashes and the
    components of the root, then the components of the cleaned path. *)
Lemma abspath_clean cwd path :
  OsPath.isabs cwd = true ->
  Py.contains (clean_path path) (lit "..") = false ->
  exists i, 1 <= i
    /\ OsPath.abspath cwd KNOWLEDGE_ROOT
       = replicate i OsPath.sep ++ Py.join [OsPath.sep] (norm_key cwd)
    /\ OsPath.abspath cwd (OsPath.join KNOWLEDGE_ROOT (clean_path path))
       = replicate i OsPath.sep
           ++ Py.join [OsPath.sep] (norm_key cwd ++ kept_parts (clean_path path)).
Proof.
  intros Hc Hdd.
  assert (Hrel : OsPath.isabs (clean_path path) = false).
  { apply lstrip_chars_rel. by left. }
  assert (Hj : OsPath.join KNOWLEDGE_ROOT (clean_path path)
               = "."%char :: OsPath.sep :: clean_path path).
  { unfold OsPath.join.
    change (Py.startswith (clean_path path) [OsPath.sep])
      with (OsPath.isabs (clean_path path)).
    by rewrite Hrel. }
  destruct (plain_clean path Hdd) as [[Hrel' Hnodd] Hk].
  fold (clean_path path) in Hrel', Hnodd, Hk.
  unfold OsPath.abspath. rewrite Hrel'.
  change (OsPath.isabs KNOWLEDGE_ROOT) with false. cbv iota.
  destruct (join_rel_split cwd KNOWLEDGE_ROOT Hc eq_refl) as [Ha1 Hk1].
  destruct (join_rel_split cwd _ Hc Hrel') as [Ha2 Hk2].
  rewrite (normpath_slashes _ Ha1), (normpath_slashes _ Ha2).
  rewrite Hk1, Hk2.
  rewrite Hj. change KNOWLEDGE_ROOT with ("."%char :: []).
  rewrite (join_dot_slashes cwd (OsPath.sep :: clean_path path) [] Hc).
  eexists. split; [|split; [reflexivity|]].
  - destruct (_ && _); lia.
  - f_equal. f_equal. rewrite <- Hj.
    rewrite norm_fold_plain; [|apply norm_key_valid|apply split_sep_free|done].
    f_equal. exact Hk.
Qed.

Lemma validate_path_run path s :
  OsPath.isabs (fs_cwd s) = true ->
  _validate_path path s
  = (s, if Py.contains (clean_path path) (lit "..")
        then Raise (ValueError (PathTraversal (clean_path path)))
        else Ok (OsPath.abspath (fs_cwd s)
                   (OsPath.join KNOWLEDGE_ROOT (clean_path path)))).
Proof.
  intros Hc. destruct (Py.contains (clean_path path) (lit "..")) eqn:Hdd.
  - by apply validate_path_dotdot.
  - unfold _validate_path. fold (clean_path path). rewrite Hdd.
    rewrite bind_run. unfold getcwd.
    destruct (abspath_clean _ path Hc Hdd) as (i & _ & Hroot & Htarget).
    rewrite Hroot, Htarget.
    destruct (join_app_prefix [OsPath.sep] (norm_key (fs_cwd s))
                (kept_parts (clean_path path))) as [rest Hrest].
    assert (Hsw : Py.startswith
                    (replicate i OsPath.sep
                       ++ Py.join [OsPath.sep]
                            (norm_key (fs_cwd s) ++ kept_parts (clean_path path)))
                    (replicate i OsPath.sep
                       ++ Py.join [OsPath.sep] (norm_key (fs_cwd s))) = true).
    { apply startswith_spec. exists rest. rewrite Hrest. by rewrite <- app_assoc. }
    rewrite Hsw. reflexivity.
Qed.

(** ** Calls that write no file *)

Lemma reads_only_refl s : reads_only s s.
Proof.
  split; [done|]. split; [done|]. split; [done|].
  exists []. simpl. by rewrite app_nil_r.
Qed.

Lemma reads_only_trans s1 s2 s3 :
  reads_only s1 s2 -> reads_only s2 s3 -> reads_only s1 s3.
Proof.
  intros (Hc1 & Hf1 & Hd1 & r1 & Hl1) (Hc2 & Hf2 & Hd2 & r2 & Hl2).
  split; [congruence|]. split; [congruence|]. split; [by etrans|].
  exists (r1 ++ r2). rewrite Hl2, Hl1, map_app. by rewrite <- app_assoc.
Qed.

Lemma looks_only_refl s : looks_only s s.
Proof.
  split; [done|]. split; [done|]. split; [done|].
  exists []. simpl. by rewrite app_nil_r.
Qed.

Lemma looks_only_trans s1 s2 s3 :
  looks_only s1 s2 -> looks_only s2 s3 -> looks_only s1 s3.
Proof.
  intros (Hc1 & Hf1 & Hd1 & r1 & Hl1) (Hc2 & Hf2 & Hd2 & r2 & Hl2).
  split; [congruence|]. split; [congruence|]. split; [congruence|].
  exists (r1 ++ r2). rewrite Hl2, Hl1, map_app. by rewrite <- app_assoc.
Qed.

Lemma looks_reads s s' : looks_only s s' -> reads_only s s'.
Proof.
  intros (Hc & Hf & Hd & Hl). split; [done|]. split; [done|].
  split; [by rewrite Hd|done].
Qed.

Lemma keeps_looks_reads {A} (m : M A) : keeps looks_only m -> keeps reads_only m.
Proof. intros H s s' r Hrun. eapply looks_reads, H, Hrun. Qed.

Lemma keeps_same {A} (R : fs -> fs -> Prop) (m : M A) :
  (forall s, R s s) -> (forall s s' r, m s = (s', r) -> s' = s) -> keeps R m.
Proof. intros Hrefl Hst s s' r Hrun. apply Hst in Hrun as ->. apply Hrefl. Qed.

Lemma keeps_bind {A B} (R : fs -> fs -> Prop) (m : M A) (k : A -> M B) :
  (forall s1 s2 s3, R s1 s2 -> R s2 s3 -> R s1 s3) ->
  keeps R m -> (forall a, keeps R (k a)) -> keeps R (m ≫= k).
Proof.
  intros Htrans Hm Hk s s' r. rewrite bind_run.
  destruct (m s) as [s1 [a|e]] eqn:Hrun.
  - intros Hrun'. eapply Htrans; [eapply Hm, Hrun|eapply Hk, Hrun'].
  - intros [= <- _]. eapply Hm, Hrun.
Qed.

Lemma keeps_ret {A} (R : fs -> fs -> Prop) (a : A) :
  (forall s, R s s) -> keeps R (mret a).
Proof. intros Hrefl s s' r. rewrite ret_run. intros [= <- _]. apply Hrefl. Qed.

Lemma looks_read_text p : keeps looks_only (read_text p).
Proof.
  intros s s' r. unfold read_text.
  destruct (fs_files s !! _) as [data|].
  - intros [= <- _]. split; [done|]. split; [done|]. split; [done|].
    by exists [key_of (fs_cwd s) p].
  - intros [= <- _]. apply looks_only_refl.
Qed.

Lemma looks_readlines p : keeps looks_only (readlines p).
Proof.
  apply (keeps_bind looks_only); [apply looks_only_trans|apply looks_read_text|].
  intros a. apply keeps_ret, looks_only_refl.
Qed.

Lemma looks_smart_resolve_path p : keeps looks_only (_smart_resolve_path p).
Proof. apply keeps_same; [apply looks_only_refl|apply smart_resolve_path_state]. Qed.

Lemma looks_validate_path p : keeps looks_only (_validate_path p).
Proof. apply keeps_same; [apply looks_only_refl|apply validate_path_state]. Qed.

Lemma looks_path_exists p : keeps looks_only (path_exists p).
Proof.
  apply keeps_same; [apply looks_only_refl|].
  intros s s' r. rewrite path_exists_run. by intros [= <- _].
Qed.

Lemma looks_listdir p : keeps looks_only (listdir p).
Proof.
  apply keeps_same; [apply looks_only_refl|].
  intros s s' r. unfold listdir.
  destruct (is_file s _); [by intros [= <- _]|].
  destruct (negb _); by intros [= <- _].
Qed.

Lemma reads_makedirs p : keeps reads_only (makedirs p).
Proof.
  intros s s' r. unfold makedirs.
  destruct (is_file s _); [intros [= <- _]; apply reads_only_refl|].
  destruct (existsb _ _); [intros [= <- _]; apply reads_only_refl|].
  intros [= <- _]. split; [done|]. split; [done|]. split; [apply union_subseteq_l|].
  exists []. simpl. by rewrite app_nil_r.
Qed.

Lemma reads_ensure_history_dir p : keeps reads_only (_ensure_history_dir p).
Proof.
  apply (keeps_bind reads_only); [apply reads_only_trans|apply reads_makedirs|].
  intros a. apply keeps_ret, reads_only_refl.
Qed.

Lemma reads_view_body path : keeps reads_only (view_body path).
Proof.
  unfold view_body.
  apply (keeps_bind reads_only);
    [apply reads_only_trans|apply keeps_looks_reads, looks_smart_resolve_path|].
  intros resolved.
  apply (keeps_bind reads_only);
    [apply reads_only_trans|apply keeps_looks_reads, looks_validate_path|].
  intros abs.
  apply (keeps_bind reads_only);
    [apply reads_only_trans|apply reads_ensure_history_dir|].
  intros dir.
  apply (keeps_bind reads_only);
    [apply reads_only_trans|apply keeps_looks_reads, looks_listdir|].
  intros names. destruct (last _) as [latest|].
  - apply (keeps_bind reads_only);
      [apply reads_only_trans|apply keeps_looks_reads, looks_readlines|].
    intros old.
    apply (keeps_bind reads_only);
      [apply reads_only_trans|apply keeps_looks_reads, looks_readlines|].
    intros new. apply keeps_ret, reads_only_refl.
  - apply keeps_ret, reads_only_refl.
Qed.

(** ** What raises what *)

Lemma create_snapshot_raises now r a s s' e :
  _create_snapshot now r a s = (s', Raise e) -> exists oe, e = OSError oe.
Proof.
  unfold _create_snapshot. rewrite bind_run, path_exists_run.
  destruct (_ || _); [|by rewrite ret_run].
  rewrite bind_run. unfold _ensure_history_dir. rewrite bind_run.
  unfold makedirs.
  destruct (is_file s _); [intros [= _ <-]; eauto|].
  destruct (existsb _ _); [intros [= _ <-]; eauto|].
  rewrite ret_run, bind_run. unfold copy2.
  match goal with |- context [bool_decide ?P && ?b] => destruct (bool_decide P && b) end;
    [intros [= _ <-]; eauto|].
  match goal with |- context [fs_files ?s !! ?k] => destruct (fs_files s !! k) end;
    [|intros [= _ <-]; eauto].
  match goal with |- context [open_for_write ?s ?k] => destruct (open_for_write s k) end;
    [intros [= _ <-]; eauto|].
  by rewrite ret_run.
Qed.

Lemma read_text_raises p s s' e :
  read_text p s = (s', Raise e) -> exists oe, e = OSError oe.
Proof.
  unfold read_text. destruct (fs_files s !! _); [done|]. intros [= _ <-]. eauto.
Qed.

(** A [ValueError] comes from the resolution or the validation of the
    path, before anything is done. *)
Lemma open_document_value_error now path s s' e :
  open_document now path s = (s', Raise (ValueError e)) -> s' = s.
Proof.
  unfold open_document. rewrite bind_run.
  destruct (_smart_resolve_path path s) as [s1 [resolved|e1]] eqn:Hr;
    apply smart_resolve_path_state in Hr as ->; [|by intros [= <- _]].
  rewrite bind_run.
  destruct (_validate_path resolved s) as [s1 [abs|e1]] eqn:Hv;
    apply validate_path_state in Hv as ->; [|by intros [= <- _]].
  rewrite bind_run, path_exists_run.
  destruct (_ || _); simpl; [|by rewrite ret_run].
  rewrite bind_run.
  destruct (_create_snapshot now resolved abs s) as [s1 [o|e1]] eqn:Hs.
  - rewrite bind_run. destruct (read_text abs s1) as [s2 [c|e2]] eqn:Hread.
    + by rewrite ret_run.
    + apply read_text_raises in Hread as [oe ->]. done.
  - apply create_snapshot_raises in Hs as [oe ->]. done.
Qed.

Lemma open_document_missing now path s s' resolved :
  open_document now path s = (s', Ok (resolved, None)) -> s' = s.
Proof.
  unfold open_document. rewrite bind_run.
  destruct (_smart_resolve_path path s) as [s1 [r|e1]] eqn:Hr;
    apply smart_resolve_path_state in Hr as ->; [|done].
  rewrite bind_run.
  destruct (_validate_path r s) as [s1 [abs|e1]] eqn:Hv;
    apply validate_path_state in Hv as ->; [|done].
  rewrite bind_run, path_exists_run.
  destruct (_ || _); simpl; [|by rewrite ret_run; intros [= <- _]].
  rewrite bind_run.
  destruct (_create_snapshot now r abs s) as [s1 [o|e1]]; [|done].
  rewrite bind_run. destruct (read_text abs s1) as [s2 [c|e2]]; [|done].
  by rewrite ret_run.
Qed.

Lemma write_text_raises p data s s' e :
  write_text p data s = (s', Raise e) -> exists oe, e = OSError oe.
Proof.
  unfold write_text. destruct (open_for_write _ _); [|done]. intros [= _ <-]. eauto.
Qed.

Lemma append_text_raises p data s s' e :
  append_text p data s = (s', Raise e) -> exists oe, e = OSError oe.
Proof.
  unfold append_text. destruct (open_for_write _ _); [|done]. intros [= _ <-]. eauto.
Qed.

(** ** The history directory *)

Lemma replace_char_idem a b s :
  replace_char a b (replace_char a b s) = replace_char a b s.
Proof.
  unfold replace_char. rewrite map_map. apply map_ext. intros c.
  destruct (bool_decide (c = a)) eqn:Hc; [|by rewrite Hc].
  destruct (bool_decide (b = a)); done.
Qed.

Lemma replace_char_fixed a b s : a ∉ s -> replace_char a b s = s.
Proof.
  induction s as [|c s IH]; [done|]. intros Hn. simpl.
  rewrite bool_decide_eq_false_2 by (intros ->; apply Hn; by left).
  rewrite IH; [done|]. intros H. apply Hn. by right.
Qed.

Lemma replace_char_changes a b s : a ∈ s -> a <> b -> replace_char a b s <> s.
Proof.
  intros Hin Hab Heq. apply (replace_char_free a b s Hab). by rewrite Heq.
Qed.

Lemma safe_name_idem p : safe_name (safe_name p) = safe_name p.
Proof.
  unfold safe_name.
  rewrite (replace_char_fixed "/"%char "_"%char (replace_char "\"%char _ _)).
  - by rewrite replace_char_idem.
  - apply replace_char_keeps; [|done]. by apply replace_char_free.
Qed.

Lemma safe_name_changes p : OsPath.sep ∈ p -> safe_name p <> p.
Proof. intros Hin Heq. apply (safe_name_free p). by rewrite Heq. Qed.

Lemma entries_history resolved s k' :
  k' ∈ entries (with_history_dir resolved s) (history_key s resolved) ->
  k' ∈ entries s (history_key s resolved).
Proof.
  unfold entries. intros [[Hrem Hne] Hin]%list_elem_of_filter.
  apply list_elem_of_filter. split; [done|].
  apply elem_of_elements in Hin. apply elem_of_elements.
  unfold with_history_dir in Hin. cbn [fs_files fs_dirs fs_cwd] in Hin.
  fold (history_key s resolved) in Hin.
  apply elem_of_union in Hin as [Hin|Hin]; [by apply elem_of_union_l|].
  apply elem_of_union in Hin as [Hin|Hin]; [by apply elem_of_union_r|].
  apply elem_prefixes_set, prefixes_length in Hin.
  destruct (exists_last Hne) as (l & x & ->).
  rewrite removelast_snoc in Hrem. subst l.
  rewrite length_app in Hin. simpl in Hin. lia.
Qed.

Lemma sorted_nil : sorted [] = [].
Proof. reflexivity. Qed.


(** ** Two calls in one second *)




(** ** Reading the outline *)

(** The path is resolved and validated by what the store holds, not by
    what was opened before. *)
Lemma validate_path_same p s s' :
  fs_cwd s' = fs_cwd s -> snd (_validate_path p s') = snd (_validate_path p s).
Proof.
  intros Hc. unfold _validate_path. destruct (Py.contains _ _); [done|].
  rewrite !bind_run. unfold getcwd. rewrite Hc. by destruct (negb _).
Qed.

Lemma is_file_same s s' k : fs_files s' = fs_files s -> is_file s' k = is_file s k.
Proof. unfold is_file. by intros ->. Qed.

Lemma is_dir_same s s' k : fs_dirs s' = fs_dirs s -> is_dir s' k = is_dir s k.
Proof. unfold is_dir. by intros ->. Qed.

Lemma path_exists_same p s s' :
  same_store s s' -> snd (path_exists p s') = snd (path_exists p s).
Proof.
  intros (Hc & Hf & Hd). rewrite !path_exists_run. cbn [snd].
  by rewrite Hc, (is_file_same s s'), (is_dir_same s s').
Qed.

Lemma exact_match_same p s s' :
  same_store s s' -> snd (exact_match p s') = snd (exact_match p s).
Proof.
  intros Hsame. pose proof Hsame as (Hc & _).
  unfold exact_match. rewrite !try_value_run, !bind_run.
  pose proof (validate_path_same p s s' Hc) as Hv.
  destruct (_validate_path p s) as [s1 [a|e]] eqn:H1;
    pose proof (validate_path_state _ _ _ _ H1) as ->;
    destruct (_validate_path p s') as [s1' [a'|e']] eqn:H1';
    pose proof (validate_path_state _ _ _ _ H1') as ->;
    cbn [snd] in Hv; try discriminate Hv.
  - injection Hv as ->. by apply path_exists_same.
  - injection Hv as ->. by destruct e.
Qed.

Lemma entries_same s s' k : same_store s s' -> entries s' k = entries s k.
Proof. intros (_ & Hf & Hd). unfold entries. by rewrite Hf, Hd. Qed.

Lemma walk_same top s s' :
  same_store s s' -> snd (walk top s') = snd (walk top s).
Proof.
  intros (Hc & Hf & Hd). destruct s as [c f d l], s' as [c' f' d' l'].
  cbn [fs_cwd fs_files fs_dirs] in *.
  subst. reflexivity.
Qed.

Lemma smart_resolve_path_same p s s' :
  same_store s s' ->
  snd (_smart_resolve_path p s') = snd (_smart_resolve_path p s).
Proof.
  intros Hsame. pose proof Hsame as (Hc & _).
  unfold _smart_resolve_path. rewrite !bind_run.
  pose proof (exact_match_same p s s' Hsame) as Hm.
  destruct (exact_match p s) as [s1 [a|e]] eqn:H1;
    pose proof (exact_match_state _ _ _ _ H1) as ->;
    destruct (exact_match p s') as [s1' [a'|e']] eqn:H1';
    pose proof (exact_match_state _ _ _ _ H1') as ->;
    cbn [snd] in Hm; try discriminate Hm.
  - injection Hm as ->. destruct a; [done|].
    rewrite !bind_run. unfold getcwd. rewrite !bind_run.
    pose proof (walk_same KNOWLEDGE_ROOT s s' Hsame) as Hw.
    destruct (walk KNOWLEDGE_ROOT s) as [s1 [w|e]] eqn:H2;
      destruct (walk KNOWLEDGE_ROOT s') as [s1' [w'|e']] eqn:H2';
      cbn [snd] in Hw; try discriminate Hw.
    + injection Hw as ->. rewrite Hc.
      by destruct (foldl _ _ _) as [|c [|c' cs]].
    + by injection Hw as ->.
  - by injection Hm as ->.
Qed.

Lemma same_store_logged a s : same_store s (logged a s).
Proof. done. Qed.

Lemma smart_resolve_path_run_same p s s' r :
  same_store s s' ->
  _smart_resolve_path p s = (s, r) -> _smart_resolve_path p s' = (s', r).
Proof.
  intros Hsame Hr. apply pair_snd_state; [apply smart_resolve_path_state|].
  rewrite (smart_resolve_path_same p s s' Hsame). by rewrite Hr.
Qed.

Section outline_facts.

Variable yaml_safe_load : str -> option pyval.

Lemma looks_outline_body path : keeps looks_only (outline_body yaml_safe_load path).
Proof.
  unfold outline_body.
  apply (keeps_bind looks_only);
    [apply looks_only_trans|apply looks_smart_resolve_path|].
  intros resolved.
  apply (keeps_bind looks_only);
    [apply looks_only_trans|apply looks_validate_path|].
  intros abs.
  apply (keeps_bind looks_only);
    [apply looks_only_trans|apply looks_path_exists|].
  intros found. destruct (negb found).
  - apply keeps_ret, looks_only_refl.
  - apply (keeps_bind looks_only);
      [apply looks_only_trans|apply looks_read_text|].
    intros content. apply keeps_ret, looks_only_refl.
Qed.

(** What a call that returns the outline has done. *)
Lemma get_file_outline_inv path s s' resolved meta structure :
  get_file_outline yaml_safe_load path s = (s', MsgOutline resolved meta structure) ->
  exists abs data,
    let k := key_of (fs_cwd s) abs in
    _smart_resolve_path path s = (s, Ok resolved)
    /\ _validate_path resolved s = (s, Ok abs)
    /\ fs_files s !! k = Some data
    /\ s' = logged (Read k) s
    /\ meta = fst (_parse_frontmatter yaml_safe_load (universal_newlines data))
    /\ structure = _get_outline_tree (universal_newlines data).
Proof.
  unfold get_file_outline.
  destruct (outline_body yaml_safe_load path s) as [s1 [out|e]] eqn:Hrun.
  2:{ destruct e; by intros [= _ ?]. }
  intros [= -> ->]. unfold outline_body in Hrun.
  apply bind_inv in Hrun as (s0 & r & Hr & Hrun).
  pose proof (smart_resolve_path_state _ _ _ _ Hr) as ->.
  apply bind_inv in Hrun as (s0 & abs & Hv & Hrun).
  pose proof (validate_path_state _ _ _ _ Hv) as ->.
  apply bind_inv in Hrun as (s0 & found & Hf & Hrun).
  rewrite path_exists_run in Hf. injection Hf as <- <-.
  destruct (negb _); [by rewrite ret_run in Hrun|].
  apply bind_inv in Hrun as (s2 & content & Hread & Hrun).
  rewrite ret_run in Hrun. injection Hrun as <- <- <- <-.
  apply read_text_inv in Hread as (data & Hdata & -> & ->).
  exists abs, data. done.
Qed.

End outline_facts.

(** ** How the document is opened *)

Lemma open_document_missing_inv now path s s' resolved :
  open_document now path s = (s', Ok (resolved, None)) ->
  exists abs,
    _smart_resolve_path path s = (s, Ok resolved)
    /\ _validate_path resolved s = (s, Ok abs)
    /\ is_file s (key_of (fs_cwd s) abs) = false.
Proof.
  unfold open_document.
  intros (s0 & r & Hr & H)%bind_inv.
  pose proof (smart_resolve_path_state _ _ _ _ Hr) as ->.
  apply bind_inv in H as (s0 & a & Hv & H).
  pose proof (validate_path_state _ _ _ _ Hv) as ->.
  apply bind_inv in H as (s0 & found & Hf & H).
  rewrite path_exists_run in Hf. injection Hf as <- <-.
  destruct (is_file s _ || is_dir s _) eqn:Hex; simpl in H.
  - apply bind_inv in H as (s2 & o & Hsnap & H).
    apply bind_inv in H as (s3 & c & Hread & H).
    by rewrite ret_run in H.
  - rewrite ret_run in H. injection H as <- <-.
    exists a. split; [done|]. split; [done|].
    by apply orb_false_elim in Hex as [? _].
Qed.

Lemma open_document_value_error_inv now path s s' e :
  open_document now path s = (s', Raise (ValueError e)) ->
  _smart_resolve_path path s = (s, Raise (ValueError e))
  \/ exists resolved,
       _smart_resolve_path path s = (s, Ok resolved)
       /\ _validate_path resolved s = (s, Raise (ValueError e)).
Proof.
  unfold open_document. rewrite bind_run.
  destruct (_smart_resolve_path path s) as [s1 [resolved|e1]] eqn:Hr;
    pose proof (smart_resolve_path_state _ _ _ _ Hr) as ->.
  2:{ intros [= _ ->]. by left. }
  rewrite bind_run.
  destruct (_validate_path resolved s) as [s1 [abs|e1]] eqn:Hv;
    pose proof (validate_path_state _ _ _ _ Hv) as ->.
  2:{ intros [= _ ->]. right. eauto. }
  rewrite bind_run, path_exists_run.
  destruct (_ || _); simpl; [|by rewrite ret_run].
  rewrite bind_run.
  destruct (_create_snapshot now resolved abs s) as [s1 [o|e1]] eqn:Hs.
  - rewrite bind_run. destruct (read_text abs s1) as [s2 [c|e2]] eqn:Hread.
    + by rewrite ret_run.
    + apply read_text_raises in Hread as [oe ->]. done.
  - apply create_snapshot_raises in Hs as [oe ->]. done.
Qed.

(** ** The directory of a path *)

Lemma after_last_sep_free v : OsPath.sep ∉ v -> OsPath.after_last_sep v = 0.
Proof.
  induction v as [|c v IH]; [done|]. intros Hn. simpl.
  rewrite bool_decide_eq_false_2 by (intros H; apply Hn; by right).
  rewrite bool_decide_eq_false_2 by (intros ->; apply Hn; by left). done.
Qed.

Lemma after_last_sep_app u v :
  OsPath.sep ∉ v -> OsPath.after_last_sep (u ++ v) = OsPath.after_last_sep u.
Proof.
  intros Hv. induction u as [|c u IH]; [by apply after_last_sep_free|].
  simpl. rewrite IH.
  rewrite (bool_decide_ext (OsPath.sep ∈ u ++ v) (OsPath.sep ∈ u)); [done|].
  rewrite elem_of_app. tauto.
Qed.

Lemma after_last_sep_le u : OsPath.after_last_sep u <= length u.
Proof.
  induction u as [|c u IH]; [done|]. simpl.
  destruct (bool_decide _); [lia|]. destruct (bool_decide _); lia.
Qed.

Lemma after_last_sep_snoc P x :
  OsPath.sep ∉ x -> OsPath.after_last_sep (P ++ OsPath.sep :: x) = S (length P).
Proof.
  intros Hx. induction P as [|c P IH]; simpl.
  - rewrite bool_decide_eq_false_2 by done. done.
  - rewrite bool_decide_eq_true_2; [by rewrite IH|].
    apply elem_of_app. right. by left.
Qed.

Lemma rstrip_by_snoc p s c :
  Py.rstrip_by p (s ++ [c]) = if p c then Py.rstrip_by p s else s ++ [c].
Proof.
  unfold Py.rstrip_by. rewrite rev_app_distr. simpl.
  destruct (p c); [done|]. simpl. by rewrite rev_involutive.
Qed.

Lemma rstrip_by_last p s c :
  last s = Some c -> p c = false -> Py.rstrip_by p s = s.
Proof.
  intros (s' & ->)%last_Some Hc. by rewrite rstrip_by_snoc, Hc.
Qed.

Lemma join_snoc (sep : str) K x :
  K <> [] -> Py.join sep (K ++ [x]) = Py.join sep K ++ sep ++ x.
Proof.
  induction K as [|y K IH]; [done|]. intros _.
  destruct K as [|z K]; [done|].
  change ((y :: z :: K) ++ [x]) with (y :: (z :: K ++ [x])).
  rewrite !join_cons2. change (z :: K ++ [x]) with ((z :: K) ++ [x]).
  rewrite IH by done. by rewrite <- !app_assoc.
Qed.

Lemma join_last (sep : str) K y c :
  last K = Some y -> last y = Some c -> last (Py.join sep K) = Some c.
Proof.
  intros (K' & ->)%last_Some Hy. destruct K' as [|z K'].
  - done.
  - rewrite join_snoc by done. rewrite !app_assoc, last_app, Hy. done.
Qed.

Lemma valid_name_last y : valid_name y -> exists c, last y = Some c /\ c <> OsPath.sep.
Proof.
  intros (Hne & Hfree & _). destruct (last y) as [c|] eqn:E.
  - exists c. split; [done|]. intros ->. apply Hfree.
    apply last_Some in E as [l ->]. apply elem_of_app. right. by left.
  - by apply last_None in E.
Qed.

Lemma replicate_snoc {A} i (c : A) : replicate (S i) c = replicate i c ++ [c].
Proof. induction i as [|i IH]; [done|]. simpl in *. by rewrite <- IH. Qed.

(** The directory of a path in normal form: the path without its last
    component. *)
Lemma dirname_normal i K x :
  1 <= i -> Forall valid_name K -> valid_name x ->
  OsPath.dirname (replicate i OsPath.sep ++ Py.join [OsPath.sep] (K ++ [x]))
  = replicate i OsPath.sep ++ Py.join [OsPath.sep] K.
Proof.
  intros Hi HK Hx. pose proof Hx as (_ & Hfree & _).
  unfold OsPath.dirname. destruct K as [|y K].
  - simpl. rewrite app_nil_r. destruct i as [|i]; [lia|].
    replace (replicate (S i) OsPath.sep ++ x)
      with (replicate i OsPath.sep ++ OsPath.sep :: x).
    2:{ rewrite replicate_snoc, <- app_assoc. done. }
    rewrite after_last_sep_snoc by done. rewrite length_replicate.
    replace (take (S i) (replicate i OsPath.sep ++ OsPath.sep :: x))
      with (replicate (S i) OsPath.sep).
    2:{ rewrite take_app_ge by (rewrite length_replicate; lia).
        rewrite length_replicate. replace (S i - i) with 1 by lia.
        by rewrite replicate_snoc. }
    rewrite length_replicate.
    rewrite (bool_decide_eq_true_2
               (replicate (S i) OsPath.sep = replicate (S i) OsPath.sep)) by done.
    by rewrite andb_false_r.
  - rewrite join_snoc by done. simpl ([OsPath.sep] ++ x).
    set (Q := replicate i OsPath.sep ++ Py.join [OsPath.sep] (y :: K)).
    rewrite app_assoc. fold Q.
    rewrite after_last_sep_snoc by done.
    replace (take (S (length Q)) (Q ++ OsPath.sep :: x)) with (Q ++ [OsPath.sep]).
    2:{ rewrite take_app_ge by lia. replace (S (length Q) - length Q) with 1 by lia.
        done. }
    assert (Hy : exists c, c ∈ Q /\ c <> OsPath.sep).
    { apply Forall_inv in HK. destruct (valid_name_last y HK) as (c & Hc & Hne).
      exists c. split; [|done]. unfold Q. apply elem_of_app. right.
      apply last_Some in Hc as [l ->].
      destruct K as [|z K]; [apply elem_of_app; right; by left|].
      rewrite join_cons2. apply elem_of_app. left. apply elem_of_app. right. by left. }
    destruct Hy as (c & Hc & Hne).
    rewrite bool_decide_eq_false_2 by (by destruct Q).
    rewrite bool_decide_eq_false_2.
    2:{ intros Heq. apply Hne.
        assert (Hin : c ∈ replicate (length (Q ++ [OsPath.sep])) OsPath.sep).
        { rewrite <- Heq. apply elem_of_app. by left. }
        by apply elem_of_replicate in Hin as [? _]. }
    cbn [negb andb]. rewrite rstrip_by_snoc, bool_decide_eq_true_2 by done.
    destruct (last (y :: K)) as [z|] eqn:Hz; [|by apply last_None in Hz].
    assert (Hvz : valid_name z).
    { rewrite Forall_forall in HK. apply HK.
      apply last_Some in Hz as [l ->]. apply elem_of_app. right. by left. }
    destruct (valid_name_last z Hvz) as (d & Hd & Hdne).
    apply (rstrip_by_last _ _ d).
    + unfold Q. rewrite last_app. by rewrite (join_last _ _ z d).
    + by rewrite bool_decide_eq_false_2.
Qed.

(** ** Where a new document goes *)

Lemma app_suffix_kept (P : ascii -> Prop) (l sp a t : str) :
  l ++ sp = a ++ t -> Forall P l -> Forall (fun c => ~ P c) t -> t <> [] ->
  exists a', sp = a' ++ t.
Proof.
  revert a. induction l as [|c l IH]; intros a Heq Hl Ht Hne.
  - exists a. done.
  - destruct a as [|d a].
    + destruct t as [|d t]; [done|]. simpl in Heq. injection Heq as <- _.
      apply Forall_inv in Hl. apply Forall_inv in Ht. done.
    + simpl in Heq. injection Heq as <- Heq.
      apply (IH a); [done| |done|done]. by apply Forall_inv_tail in Hl.
Qed.

Lemma forallb_Forall_bool (p : ascii -> bool) l :
  forallb p l = true -> Forall (fun c => p c = true) l.
Proof.
  intros H. apply Forall_forall. intros c Hc.
  rewrite forallb_forall in H. apply H. by apply list_elem_of_In.
Qed.

Lemma md_chars : Forall (fun c => ~ (Py.isspace c = true)) (lit ".md")
  /\ Forall (fun c => ~ (bool_decide (c ∈ lit "/\") = true)) (lit ".md")
  /\ OsPath.sep ∉ lit ".md".
Proof.
  split; [|split].
  - repeat constructor; by vm_compute.
  - repeat constructor; by vm_compute.
  - intros H. repeat (apply elem_of_cons in H as [H|H]; [discriminate|]).
    by apply elem_of_nil in H.
Qed.

(** A path that ends in [.md] keeps that end when it is cleaned. *)
Lemma clean_path_md a : exists a', clean_path (a ++ lit ".md") = a' ++ lit ".md".
Proof.
  destruct md_chars as (Hsp & Hsl & _). unfold clean_path.
  destruct (strip_spec (a ++ lit ".md")) as (l & r & Heq & Hl & Hr & _ & _).
  assert (r = []) as ->.
  { destruct (last r) as [c|] eqn:Hc; [|by apply last_None in Hc].
    exfalso. apply last_Some in Hc as [r' ->].
    rewrite !app_assoc in Heq.
    apply (f_equal last) in Heq. rewrite !last_snoc in Heq.
    change (lit ".md") with (lit ".m" ++ ["d"%char]) in Heq.
    rewrite app_assoc, last_snoc in Heq. injection Heq as Heq.
    rewrite forallb_app in Hr. apply andb_true_iff in Hr as [_ Hr].
    simpl in Hr. rewrite <- Heq in Hr. by vm_compute in Hr. }
  rewrite app_nil_r in Heq. symmetry in Heq.
  destruct (app_suffix_kept (fun c => Py.isspace c = true) _ _ _ _ Heq
              (forallb_Forall_bool _ _ Hl) Hsp) as [a1 Ha1]; [done|].
  rewrite Ha1. unfold Py.lstrip_chars.
  destruct (lstrip_by_spec (fun c => bool_decide (c ∈ lit "/\")) (a1 ++ lit ".md"))
    as (l2 & Heq2 & Hl2 & _).
  symmetry in Heq2.
  destruct (app_suffix_kept (fun c => bool_decide (c ∈ lit "/\") = true) _ _ _ _ Heq2
              (forallb_Forall_bool _ _ Hl2) Hsl) as [a2 Ha2]; [done|].
  eauto.
Qed.

Lemma kept_parts_md a :
  exists L x, kept_parts (clean_path (a ++ lit ".md")) = L ++ [x].
Proof.
  destruct (clean_path_md a) as [a' ->]. destruct md_chars as (_ & _ & Hfree).
  pose proof (basename_last (a' ++ lit ".md")) as Hlast.
  apply last_Some in Hlast as [L HL]. unfold kept_parts. rewrite HL.
  rewrite filter_app. eexists _, _. f_equal.
  rewrite filter_cons, decide_True; [done|].
  unfold OsPath.basename. rewrite after_last_sep_app by done.
  rewrite drop_app_le by apply after_last_sep_le.
  unfold kept. apply andb_true_iff. split; apply negb_true_iff, bool_decide_eq_false_2.
  - intros H. by apply app_eq_nil in H as [_ ?].
  - intros H. apply (f_equal length) in H. rewrite length_app in H. simpl in H. lia.
Qed.

Lemma target_path_md title category name :
  exists a, target_path title category name = a ++ lit ".md".
Proof.
  unfold target_path. exists (category ++ lit "/" ++ clean_name title name).
  by rewrite <- !app_assoc.
Qed.

(** ** Creating a document *)

Lemma kept_parts_valid p :
  Py.contains p (lit "..") = false -> Forall valid_name (kept_parts p).
Proof.
  intros Hdd. apply Forall_forall. intros x [Hk Hx]%list_elem_of_filter.
  pose proof (no_dotdot_parts p Hdd) as Hno. rewrite Forall_forall in Hno.
  apply andb_true_iff in Hk as [H1 H2].
  apply negb_true_iff, bool_decide_eq_false in H1.
  apply negb_true_iff, bool_decide_eq_false in H2.
  split; [done|]. split; [by eapply split_on_elem_free|]. split; [done|].
  by apply Hno.
Qed.

(** The key of a valid path that ends in [.md], and of its directory. *)
Lemma validated_md_key cwd a :
  OsPath.isabs cwd = true ->
  Py.contains (clean_path (a ++ lit ".md")) (lit "..") = false ->
  let abs := OsPath.abspath cwd (OsPath.join KNOWLEDGE_ROOT (clean_path (a ++ lit ".md"))) in
  exists K x,
    key_of cwd abs = K ++ [x]
    /\ key_of cwd (OsPath.dirname abs) = K
    /\ norm_key cwd `prefix_of` K.
Proof.
  intros Hc Hdd abs.
  destruct (abspath_clean cwd _ Hc Hdd) as (i & Hi & _ & Habs).
  destruct (kept_parts_md a) as (L & x & HL).
  pose proof (kept_parts_valid _ Hdd) as Hvalid. rewrite HL in Hvalid.
  apply Forall_app in Hvalid as [HvL Hvx]. apply Forall_inv in Hvx.
  assert (HK : Forall valid_name (norm_key cwd ++ L)).
  { apply Forall_app. split; [apply norm_key_valid|done]. }
  exists (norm_key cwd ++ L), x.
  assert (Habs' : abs = replicate i OsPath.sep
                          ++ Py.join [OsPath.sep] ((norm_key cwd ++ L) ++ [x])).
  { unfold abs. rewrite Habs, HL. by rewrite <- app_assoc. }
  assert (Hsl : forall X, OsPath.isabs (replicate i OsPath.sep ++ X) = true).
  { intros X. destruct i; [lia|]. done. }
  split; [|split].
  - rewrite Habs', key_of_abs by apply Hsl. apply norm_key_normal.
    apply Forall_app. split; [done|by constructor].
  - rewrite Habs', dirname_normal by done.
    rewrite key_of_abs by apply Hsl. by apply norm_key_normal.
  - by apply prefix_app_r.
Qed.

Section create_facts.

Variable yaml_dump : pyval -> str.

(** The run of [create_knowledge], case by case. *)
Lemma create_knowledge_run now title category tags description name s :
  OsPath.isabs (fs_cwd s) = true ->
  let p := target_path title category name in
  let abs := OsPath.abspath (fs_cwd s) (OsPath.join KNOWLEDGE_ROOT (clean_path p)) in
  let k := key_of (fs_cwd s) abs in
  create_knowledge yaml_dump now title category tags description name s
  = if Py.contains (clean_path p) (lit "..")
    then (s, MsgCreateFailed (ValueError (PathTraversal (clean_path p))))
    else if is_file s k || is_dir s k then (s, MsgExists p)
    else if is_file s (removelast k)
    then (s, MsgCreateFailed (OSError FileExistsError))
    else if existsb (is_file s) (prefixes (removelast k))
    then (s, MsgCreateFailed (OSError NotADirectoryError))
    else (FS (fs_cwd s)
            (<[k := new_document yaml_dump now title category tags description]>
               (fs_files s))
            (fs_dirs s ∪ list_to_set (prefixes (removelast k)))
            (fs_log s ++ [Write k]),
          MsgCreated p).
Proof.
  intros Hc p abs k.
  unfold create_knowledge, create_body. fold p.
  rewrite bind_run, (validate_path_run p s Hc).
  destruct (Py.contains (clean_path p) (lit "..")) eqn:Hdd; [done|].
  fold abs. rewrite bind_run, path_exists_run. fold k.
  destruct (is_file s k || is_dir s k) eqn:Hex; [by rewrite ret_run|].
  apply orb_false_elim in Hex as [Hfk Hdk].
  destruct (target_path_md title category name) as [a Ha]. fold p in Ha.
  assert (Hdd' : Py.contains (clean_path (a ++ lit ".md")) (lit "..") = false).
  { by rewrite <- Ha. }
  destruct (validated_md_key _ a Hc Hdd') as (K & x & Hk & Hdir & _).
  rewrite <- Ha in Hk, Hdir. fold abs in Hk, Hdir. fold k in Hk.
  rewrite bind_run. unfold makedirs. rewrite Hdir.
  assert (Hrem : removelast k = K) by (rewrite Hk; apply removelast_snoc).
  rewrite Hrem.
  destruct (is_file s K) eqn:HfK; [done|].
  destruct (existsb (is_file s) (prefixes K)) eqn:Hpre; [done|].
  rewrite bind_run. unfold write_text, open_for_write. cbn [fs_cwd]. fold k.
  unfold is_file at 1. cbn [fs_files]. fold (is_file s k). rewrite Hfk.
  assert (Hnd : is_dir
                  {| fs_cwd := fs_cwd s; fs_files := fs_files s;
                     fs_dirs := fs_dirs s ∪ list_to_set (prefixes K);
                     fs_log := fs_log s |} k = false).
  { unfold is_dir. cbn [fs_dirs]. apply bool_decide_eq_false_2.
    intros [Hin|Hin]%elem_of_union.
    - apply bool_decide_eq_false in Hdk. done.
    - apply elem_prefixes_set, prefixes_length in Hin.
      rewrite Hk, length_app in Hin. simpl in Hin. lia. }
  rewrite Hnd, Hrem.
  unfold is_file at 1. cbn [fs_files]. fold (is_file s K). rewrite HfK.
  assert (Hd : is_dir
                 {| fs_cwd := fs_cwd s; fs_files := fs_files s;
                    fs_dirs := fs_dirs s ∪ list_to_set (prefixes K);
                    fs_log := fs_log s |} K = true).
  { unfold is_dir. cbn [fs_dirs]. apply bool_decide_eq_true_2.
    apply elem_of_union_r, elem_of_list_to_set, prefixes_self. }
  rewrite Hd, ret_run. reflexivity.
Qed.

End create_facts.

(** ** The tags and the text of a new document *)

Lemma tag_list_elem tags t :
  t ∈ tag_list tags ->
  exists u, u ∈ OsPath.split_on ","%char tags /\ Py.strip u <> [] /\ t = Py.strip u.
Proof.
  unfold tag_list. intros (u & -> & [Hne Hu]%list_elem_of_filter)%list_elem_of_fmap.
  eauto.
Qed.

Lemma strip_space_cons t : Py.strip (" "%char :: t) = Py.strip t.
Proof. reflexivity. Qed.

Lemma split_on_joined_tags t rest :
  Forall (fun t => ","%char ∉ t) (t :: rest) ->
  OsPath.split_on ","%char (Py.join (lit ", ") (t :: rest))
  = t :: map (cons " "%char) rest.
Proof.
  revert t. induction rest as [|t' rest IH]; intros t Hall.
  - apply Forall_inv in Hall. simpl. by apply split_on_free.
  - rewrite join_cons2. change (lit ", " ++ ?X) with (","%char :: " "%char :: X).
    rewrite split_on_app. apply Forall_cons in Hall as [Ht Hall].
    rewrite split_on_free by done.
    destruct (split_on_other ","%char " "%char (Py.join (lit ", ") (t' :: rest)))
      as (f & r & Hs & ->); [done|].
    rewrite IH in Hs by done. injection Hs as <- <-. done.
Qed.

Lemma universal_newlines_no_CR data :
  Py.CR ∉ data -> universal_newlines data = data.
Proof.
  induction data as [|c data IH]; [done|]. intros Hn.
  rewrite universal_newlines_cons.
  - rewrite IH; [done|]. intros H. apply Hn. by right.
  - intros ->. apply Hn. by left.
Qed.

(** ** The catalog *)

Lemma entries_snoc s d k' :
  k' ∈ entries s d ->
  k' = d ++ [name_of k'] /\ k' ∈ dom (fs_files s) ∪ fs_dirs s.
Proof.
  unfold entries. intros [[Hrem Hne] Hin]%list_elem_of_filter.
  apply elem_of_elements in Hin. split; [|done].
  destruct (exists_last Hne) as (l & x & ->).
  rewrite removelast_snoc in Hrem. subst l. by rewrite name_of_snoc.
Qed.

Lemma entries_elem s d name :
  d ++ [name] ∈ dom (fs_files s) ∪ fs_dirs s -> d ++ [name] ∈ entries s d.
Proof.
  intros Hin. unfold entries. apply list_elem_of_filter. split.
  - split; [apply removelast_snoc|by destruct d].
  - by apply elem_of_elements.
Qed.

Lemma foldl_join_plain comps :
  Forall valid_name comps ->
  plain (foldl OsPath.join KNOWLEDGE_ROOT comps)
  /\ kept_parts (foldl OsPath.join KNOWLEDGE_ROOT comps) = comps.
Proof.
  induction comps as [|x comps IH] using rev_ind; intros Hall.
  - apply plain_root.
  - apply Forall_app in Hall as [Hall Hx]. apply Forall_inv in Hx.
    destruct (IH Hall) as [Hp Hk]. rewrite foldl_app. simpl.
    pose proof Hx as (_ & Hfree & _ & Hdd).
    destruct (plain_join _ x Hp Hfree Hdd) as [Hp' Hk'].
    split; [done|]. rewrite Hk', Hk. by rewrite (valid_kept x Hx).
Qed.

(** The file the catalog opens for the entry [file] of the directory with
    the components [comps] below the root. *)
Lemma catalog_file_key cwd comps file :
  OsPath.isabs cwd = true -> Forall valid_name comps -> valid_name file ->
  key_of cwd (OsPath.join (foldl OsPath.join KNOWLEDGE_ROOT comps) file)
  = norm_key cwd ++ comps ++ [file].
Proof.
  intros Hc Hall Hf. destruct (foldl_join_plain comps Hall) as [Hp Hk].
  pose proof Hf as (_ & Hfree & _ & Hdd).
  destruct (plain_join _ file Hp Hfree Hdd) as [Hp' Hk'].
  rewrite key_of_plain by done. rewrite Hk', Hk. by rewrite (valid_kept file Hf).
Qed.

Lemma walk_pruned_run keep top s :
  walk_pruned keep top s = (s, snd (walk_pruned keep top s)).
Proof. reflexivity. Qed.

(** What the pruned walk names: the directories of the store at or below
    the root that are reached through directories that are kept. *)
Lemma walk_pruned_elem keep s root files :
  OsPath.isabs (fs_cwd s) = true ->
  (exists tree,
     snd (walk_pruned keep KNOWLEDGE_ROOT s) = Ok tree /\ (root, files) ∈ tree)
  <-> exists comps,
        root = foldl OsPath.join KNOWLEDGE_ROOT comps
        /\ files = map name_of
                     (filter (fun k' => is_file s k' = true)
                        (entries s (root_of s ++ comps)))
        /\ forallb keep comps = true
        /\ forall n, n <= length comps -> root_of s ++ take n comps ∈ fs_dirs s.
Proof.
  intros Hc. unfold walk_pruned. cbn [snd].
  rewrite (root_key _ Hc). fold (root_of s). split.
  - intros (tree & [= <-] & Hin).
    apply list_elem_of_fmap in Hin as (d & [= -> ->] & Hd).
    apply list_elem_of_filter in Hd as [Hreach Hd].
    apply andb_true_iff in Hreach as [Hreach Hkeep].
    apply andb_true_iff in Hreach as [Hpre Hdirs].
    apply bool_decide_eq_true in Hpre.
    exists (drop (length (root_of s)) d).
    assert (Hd' : d = root_of s ++ drop (length (root_of s)) d).
    { rewrite <- (take_drop (length (root_of s)) d) at 1. by rewrite Hpre. }
    split; [done|]. split; [by rewrite <- Hd'|]. split; [done|].
    intros n Hn.
    assert (Hall : forallb (fun n => is_dir s (take n d))
                     (seq (length (root_of s)) (S (length d - length (root_of s))))
                   = true) by exact Hdirs.
    clear Hdirs. rename Hall into Hdirs. rewrite forallb_forall in Hdirs.
    specialize (Hdirs (length (root_of s) + n)).
    assert (Hseq : In (length (root_of s) + n)
                     (seq (length (root_of s)) (S (length d - length (root_of s))))).
    { apply in_seq. rewrite length_drop in Hn. lia. }
    apply Hdirs in Hseq. apply bool_decide_eq_true in Hseq.
    rewrite Hd' in Hseq at 1. rewrite take_app_ge in Hseq by lia.
    by replace (length (root_of s) + n - length (root_of s)) with n in Hseq by lia.
  - intros (comps & -> & -> & Hkeep & Hdirs). eexists. split; [reflexivity|].
    apply list_elem_of_fmap. exists (root_of s ++ comps). split.
    + by rewrite drop_app_length.
    + apply list_elem_of_filter. split.
      * rewrite take_app_length, drop_app_length, Hkeep.
        rewrite bool_decide_eq_true_2 by done. rewrite andb_true_r.
        cbn [andb].
        change (forallb (fun n => is_dir s (take n (root_of s ++ comps)))
                  (seq (length (root_of s))
                     (S (length (root_of s ++ comps) - length (root_of s))))
                = true).
        apply forallb_forall. intros n Hn%in_seq.
        rewrite length_app in Hn. apply bool_decide_eq_true_2.
        replace n with (length (root_of s) + (n - length (root_of s))) by lia.
        rewrite take_app_ge by lia.
        replace (length (root_of s) + (n - length (root_of s)) - length (root_of s))
          with (n - length (root_of s)) by lia.
        apply Hdirs. lia.
      * apply elem_of_elements. specialize (Hdirs (length comps)).
        rewrite firstn_all in Hdirs. by apply Hdirs.
Qed.

Section catalog_facts.

Variable yaml_safe_load : str -> option pyval.

Lemma catalog_meta_run rel_path s :
  catalog_meta yaml_safe_load rel_path s
  = match fs_files s !! key_of (fs_cwd s) rel_path with
    | Some data =>
        (logged (Read (key_of (fs_cwd s) rel_path)) s,
         Ok (catalog_meta_of yaml_safe_load data))
    | None => (s, Ok (PDict []))
    end.
Proof.
  unfold catalog_meta, readlines. rewrite bind_run. unfold read_text.
  destruct (fs_files s !! _); [|done]. by rewrite ret_run.
Qed.

Lemma catalog_loop_cons category detail root file rest catalog s :
  catalog_loop yaml_safe_load category detail ((root, file) :: rest) catalog s
  = if negb (Py.endswith file (lit ".md"))
    then catalog_loop yaml_safe_load category detail rest catalog s
    else
      let rel_path := OsPath.join root file in
      let display_path :=
        replace_char "\"%char "/"%char
          (OsPath.relpath (fs_cwd s) rel_path KNOWLEDGE_ROOT) in
      match fs_files s !! key_of (fs_cwd s) rel_path with
      | Some data =>
          let s1 := logged (Read (key_of (fs_cwd s) rel_path)) s in
          match catalog_item category detail file display_path
                  (catalog_meta_of yaml_safe_load data) with
          | ItemRaise => (s1, Ok (inl AttributeError))
          | ItemSkip => catalog_loop yaml_safe_load category detail rest catalog s1
          | ItemAdd item =>
              catalog_loop yaml_safe_load category detail rest (catalog ++ [item]) s1
          end
      | None =>
          match catalog_item category detail file display_path (PDict []) with
          | ItemRaise => (s, Ok (inl AttributeError))
          | ItemSkip => catalog_loop yaml_safe_load category detail rest catalog s
          | ItemAdd item =>
              catalog_loop yaml_safe_load category detail rest (catalog ++ [item]) s
          end
      end.
Proof.
  cbn [catalog_loop]. destruct (negb _); [done|].
  rewrite bind_run. unfold getcwd. rewrite bind_run, catalog_meta_run.
  cbv zeta. destruct (fs_files s !! _); by destruct (catalog_item _ _ _ _ _).
Qed.

(** The loop opens, for reading, files that are there and whose names
    end in [.md], and changes nothing. *)
Lemma catalog_loop_reads category detail todo : forall catalog s s' r,
  catalog_loop yaml_safe_load category detail todo catalog s = (s', r) ->
  fs_cwd s' = fs_cwd s /\ fs_files s' = fs_files s /\ fs_dirs s' = fs_dirs s
  /\ exists reads,
       fs_log s' = fs_log s ++ map Read reads
       /\ forall k, k ∈ reads ->
            exists root file,
              (root, file) ∈ todo
              /\ Py.endswith file (lit ".md") = true
              /\ k = key_of (fs_cwd s) (OsPath.join root file)
              /\ is_file s k = true.
Proof.
  induction todo as [|[root file] rest IH]; intros catalog s s' r.
  - cbn [catalog_loop]. rewrite ret_run. intros [= <- _].
    split; [done|]. split; [done|]. split; [done|].
    exists []. split; [by rewrite app_nil_r|]. by intros k ?%elem_of_nil.
  - rewrite catalog_loop_cons.
    assert (Hrest : forall catalog' s1,
              catalog_loop yaml_safe_load category detail rest catalog' s1 = (s', r) ->
              forall pre,
                fs_cwd s1 = fs_cwd s -> fs_files s1 = fs_files s ->
                fs_dirs s1 = fs_dirs s -> fs_log s1 = fs_log s ++ map Read pre ->
                (forall k, k ∈ pre ->
                   k = key_of (fs_cwd s) (OsPath.join root file)
                   /\ Py.endswith file (lit ".md") = true /\ is_file s k = true) ->
                fs_cwd s' = fs_cwd s /\ fs_files s' = fs_files s
                /\ fs_dirs s' = fs_dirs s
                /\ exists reads,
                     fs_log s' = fs_log s ++ map Read reads
                     /\ forall k, k ∈ reads ->
                          exists root0 file0,
                            (root0, file0) ∈ (root, file) :: rest
                            /\ Py.endswith file0 (lit ".md") = true
                            /\ k = key_of (fs_cwd s) (OsPath.join root0 file0)
                            /\ is_file s k = true).
    { intros catalog' s1 Hrun pre Hc1 Hf1 Hd1 Hl1 Hpre.
      destruct (IH _ _ _ _ Hrun) as (Hc & Hf & Hd & reads & Hl & Hreads).
      split; [congruence|]. split; [congruence|]. split; [congruence|].
      exists (pre ++ reads). split.
      - rewrite Hl, Hl1, map_app. by rewrite <- app_assoc.
      - intros k [Hk|Hk]%elem_of_app.
        + destruct (Hpre k Hk) as (-> & He & Hfile).
          exists root, file. split; [by left|]. done.
        + destruct (Hreads k Hk) as (root0 & file0 & Hin & He & -> & Hfile).
          exists root0, file0. split; [by right|]. split; [done|].
          rewrite Hc1 in *. split; [done|].
          by rewrite <- (is_file_same s s1 _ Hf1). }
    assert (Hstop : forall s1 pre,
              fs_cwd s1 = fs_cwd s -> fs_files s1 = fs_files s ->
              fs_dirs s1 = fs_dirs s -> fs_log s1 = fs_log s ++ map Read pre ->
              (forall k, k ∈ pre ->
                 k = key_of (fs_cwd s) (OsPath.join root file)
                 /\ Py.endswith file (lit ".md") = true /\ is_file s k = true) ->
              fs_cwd s1 = fs_cwd s /\ fs_files s1 = fs_files s
              /\ fs_dirs s1 = fs_dirs s
              /\ exists reads,
                   fs_log s1 = fs_log s ++ map Read reads
                   /\ forall k, k ∈ reads ->
                        exists root0 file0,
                          (root0, file0) ∈ (root, file) :: rest
                          /\ Py.endswith file0 (lit ".md") = true
                          /\ k = key_of (fs_cwd s) (OsPath.join root0 file0)
                          /\ is_file s k = true).
    { intros s1 pre Hc1 Hf1 Hd1 Hl1 Hpre.
      split; [done|]. split; [done|]. split; [done|].
      exists pre. split; [done|]. intros k Hk.
      destruct (Hpre k Hk) as (-> & He & Hfile).
      exists root, file. split; [by left|]. done. }
    destruct (Py.endswith file (lit ".md")) eqn:He; cbn [negb].
    2:{ intros Hrun.
        apply (Hrest _ _ Hrun []);
          [done|done|done|by rewrite app_nil_r|by intros k ?%elem_of_nil]. }
    cbv zeta.
    destruct (fs_files s !! key_of (fs_cwd s) (OsPath.join root file))
      as [data|] eqn:Hdata.
    + assert (Hpre : forall k,
                k ∈ [key_of (fs_cwd s) (OsPath.join root file)] ->
                k = key_of (fs_cwd s) (OsPath.join root file)
                /\ true = true /\ is_file s k = true).
      { intros k ->%list_elem_of_singleton. split; [done|]. split; [done|].
        unfold is_file. rewrite Hdata. apply bool_decide_eq_true_2. eauto. }
      destruct (catalog_item _ _ _ _ _).
      * intros [= <- _]. by apply (Hstop _ [key_of (fs_cwd s) (OsPath.join root file)]).
      * intros Hrun.
        by apply (Hrest _ _ Hrun [key_of (fs_cwd s) (OsPath.join root file)]).
      * intros Hrun.
        by apply (Hrest _ _ Hrun [key_of (fs_cwd s) (OsPath.join root file)]).
    + destruct (catalog_item _ _ _ _ _).
      * intros [= <- _].
        apply (Hstop _ []);
          [done|done|done|by rewrite app_nil_r|by intros k ?%elem_of_nil].
      * intros Hrun.
        apply (Hrest _ _ Hrun []);
          [done|done|done|by rewrite app_nil_r|by intros k ?%elem_of_nil].
      * intros Hrun.
        apply (Hrest _ _ Hrun []);
          [done|done|done|by rewrite app_nil_r|by intros k ?%elem_of_nil].
Qed.


End catalog_facts.


(** The entries of the walk, file by file. *)
Lemma catalog_todo_elem keep s tree root file :
  OsPath.isabs (fs_cwd s) = true -> store_ok s ->
  snd (walk_pruned keep KNOWLEDGE_ROOT s) = Ok tree ->
  (root, file) ∈ (tree ≫= fun entry => map (pair entry.1) entry.2) ->
  exists comps,
    key_of (fs_cwd s) (OsPath.join root file) = root_of s ++ comps ++ [file]
    /\ is_file s (root_of s ++ comps ++ [file]) = true
    /\ forallb keep comps = true
    /\ forall n, n <= length comps -> root_of s ++ take n comps ∈ fs_dirs s.
Proof.
  intros Hc Hok Htree Hin.
  apply list_elem_of_bind in Hin as ([root0 files] & Hin & Hentry).
  cbn [fst snd] in Hin. apply list_elem_of_fmap in Hin as (f & [= -> ->] & Hf).
  assert (Hex : exists tree, snd (walk_pruned keep KNOWLEDGE_ROOT s) = Ok tree
                             /\ (root0, files) ∈ tree) by eauto.
  apply (walk_pruned_elem keep s root0 files Hc) in Hex
    as (comps & -> & -> & Hkeep & Hdirs).
  apply list_elem_of_fmap in Hf as (k' & -> & Hk').
  apply list_elem_of_filter in Hk' as [Hfile Hk'].
  apply entries_snoc in Hk' as [Hk' Hin']. apply Hok in Hin'.
  rewrite Hk' in Hin'. apply Forall_app in Hin' as [Hroot Hname].
  apply Forall_app in Hroot as [_ Hcomps]. apply Forall_inv in Hname.
  exists comps. rewrite catalog_file_key by done. fold (root_of s).
  split; [done|]. split; [|done]. rewrite app_assoc, <- Hk'. done.
Qed.

(** ** Splitting at the delimiter *)

Lemma split_max_step sep n cur d s :
  Py.split_max sep (S n) 0 cur (d :: s)
  = if Py.startswith (d :: s) sep
    then rev cur :: Py.split_max sep n (length sep - 1) [] s
    else Py.split_max sep (S n) 0 (d :: cur) s.
Proof. reflexivity. Qed.

Lemma split_max_nil sep n cur : Py.split_max sep n 0 cur [] = [rev cur].
Proof. by destruct n. Qed.

Lemma split_max_zero sep cur s : Py.split_max sep 0 0 cur s = [rev cur ++ s].
Proof. destruct s; [simpl; by rewrite app_nil_r|done]. Qed.

(** The pieces of a split, joined by the separator, are the text; there
    are at most [n + 1] of them. *)
Lemma split_max_join_le c sep m : forall s n cur,
  length s <= m ->
  Py.join (c :: sep) (Py.split_max (c :: sep) n 0 cur s) = rev cur ++ s
  /\ 1 <= length (Py.split_max (c :: sep) n 0 cur s) <= S n.
Proof.
  induction m as [|m IH]; intros s n cur Hm.
  { destruct s; [|simpl in Hm; lia].
    rewrite split_max_nil. simpl. rewrite app_nil_r. split; [done|lia]. }
  destruct s as [|d s].
  { rewrite split_max_nil. simpl. rewrite app_nil_r. split; [done|lia]. }
  destruct n as [|n].
  { rewrite split_max_zero. simpl. split; [done|lia]. }
  destruct (Py.startswith (d :: s) (c :: sep)) eqn:Hsw.
  - apply startswith_spec in Hsw as [rest Hrest]. rewrite Hrest.
    rewrite str_split_max_sep.
    assert (Hlen : length rest <= m).
    { apply (f_equal length) in Hrest. rewrite length_app in Hrest.
      simpl in Hrest, Hm. lia. }
    destruct (IH rest n [] Hlen) as [Hj Hl].
    destruct (Py.split_max (c :: sep) n 0 [] rest) as [|p ps] eqn:E;
      [simpl in Hl; lia|].
    rewrite join_cons2, Hj. simpl (rev [] ++ rest).
    split; [done|]. simpl in *. lia.
  - rewrite split_max_step, Hsw.
    assert (Hlen : length s <= m) by (simpl in Hm; lia).
    destruct (IH s (S n) (d :: cur) Hlen) as [Hj Hl].
    split; [|done]. rewrite Hj. simpl. by rewrite <- app_assoc.
Qed.

Lemma split_max_join c sep n s cur :
  Py.join (c :: sep) (Py.split_max (c :: sep) n 0 cur s) = rev cur ++ s
  /\ 1 <= length (Py.split_max (c :: sep) n 0 cur s) <= S n.
Proof. by apply (split_max_join_le c sep (length s)). Qed.

(** Without a separator in the text there is one piece. *)
Lemma split_max_none sep n s : forall cur,
  sep <> [] -> Py.contains s sep = false ->
  Py.split_max sep n 0 cur s = [rev cur ++ s].
Proof.
  induction s as [|d s IH]; intros cur Hsep Hno.
  { rewrite split_max_nil. by rewrite app_nil_r. }
  destruct n as [|n]; [apply split_max_zero|].
  simpl in Hno. apply orb_false_elim in Hno as [Hsw Hno].
  rewrite split_max_step.
  change (match sep with
          | [] => true
          | a :: p' => bool_decide (a = d) && Py.startswith s p'
          end) with (Py.startswith (d :: s) sep) in Hsw.
  rewrite Hsw. rewrite IH by done. simpl. by rewrite <- app_assoc.
Qed.

Section parse_facts.

Variable yaml_safe_load : str -> option pyval.

(** A text with no second delimiter has no metadata. *)
Lemma parse_frontmatter_one_delimiter content :
  Py.contains (drop 3 content) (lit "---") = false ->
  _parse_frontmatter yaml_safe_load content = (PDict [], content).
Proof.
  intros Hno. unfold _parse_frontmatter.
  destruct (Py.startswith content (lit "---")) eqn:Hsw; [|done].
  apply startswith_spec in Hsw as [rest ->]. simpl (drop 3 _) in Hno.
  unfold Py.split.
  pose proof (str_split_max_sep "-"%char (lit "--") 1 [] rest) as Hfirst.
  change ("-"%char :: lit "--") with (lit "---") in Hfirst.
  rewrite Hfirst. rewrite split_max_none by done. done.
Qed.

End parse_facts.

Lemma triple_outline_body c (yaml_safe_load : str -> option pyval) path :
  OsPath.isabs c = true ->
  triple c (outline_body yaml_safe_load path) (fun _ => True).
Proof.
  intros Hc. unfold outline_body.
  eapply triple_bind; [by apply triple_smart_resolve_path|]. intros resolved _.
  eapply triple_bind; [by apply triple_validate_path|]. intros abs (Habs & _).
  eapply triple_bind; [by apply triple_path_exists|]. intros found _.
  destruct (negb found); [by apply triple_ret|].
  eapply triple_bind; [by apply triple_read_text|]. intros content _.
  by apply triple_ret.
Qed.

(** ** Calls that fail *)

Lemma makedirs_files p s s' r : makedirs p s = (s', r) -> fs_files s' = fs_files s.
Proof.
  unfold makedirs. destruct (is_file s _); [by intros [= <- _]|].
  destruct (existsb _ _); by intros [= <- _].
Qed.

Lemma copy2_raise_files src dst s s' e :
  copy2 src dst s = (s', Raise e) -> fs_files s' = fs_files s.
Proof.
  unfold copy2. destruct (_ && _); [by intros [= <- _]|].
  destruct (fs_files s !! _); [|by intros [= <- _]].
  destruct (open_for_write _ _); [by intros [= <- _]|done].
Qed.

(** A document that cannot be opened is as it was, and so is every other
    file. *)
Lemma open_document_raise_files now path s s' e :
  open_document now path s = (s', Raise e) -> fs_files s' = fs_files s.
Proof.
  unfold open_document. rewrite bind_run.
  destruct (_smart_resolve_path path s) as [s1 [resolved|e1]] eqn:Hr;
    pose proof (smart_resolve_path_state _ _ _ _ Hr) as ->; [|by intros [= <- _]].
  rewrite bind_run.
  destruct (_validate_path resolved s) as [s1 [abs|e1]] eqn:Hv;
    pose proof (validate_path_state _ _ _ _ Hv) as ->; [|by intros [= <- _]].
  rewrite bind_run, path_exists_run.
  destruct (_ || _); simpl; [|by rewrite ret_run].
  rewrite bind_run.
  destruct (_create_snapshot now resolved abs s) as [s1 [o|e1]] eqn:Hs.
  - rewrite bind_run. destruct (read_text abs s1) as [s2 [c|e2]] eqn:Hread;
      [by rewrite ret_run|].
    intros [= <- _]. revert Hs. unfold _create_snapshot.
    rewrite bind_run, path_exists_run.
    destruct (_ || _).
    + intros (s3 & dir & Hdir & Hs)%bind_inv. exfalso.
      apply bind_inv in Hs as (s4 & u & Hcp & Hs).
      rewrite ret_run in Hs. injection Hs as <- _.
      unfold _ensure_history_dir in Hdir.
      apply bind_inv in Hdir as (s5 & u' & Hmk & Hdir).
      rewrite ret_run in Hdir. injection Hdir as <- <-.
      apply makedirs_inv in Hmk. subst s5.
      apply copy2_inv in Hcp as (data & Hdata & Hne & ->).
      revert Hread. unfold read_text. cbn [fs_cwd fs_files] in *.
      rewrite lookup_insert_ne by done. by rewrite Hdata.
    + rewrite ret_run. intros [= <- _]. revert Hread. unfold read_text.
      destruct (fs_files s !! _); [done|]. by intros [= <- _].
  - intros [= <- _]. revert Hs. unfold _create_snapshot.
    rewrite bind_run, path_exists_run.
    destruct (_ || _); [|by rewrite ret_run].
    rewrite bind_run. unfold _ensure_history_dir. rewrite bind_run.
    destruct (makedirs _ s) as [s3 [u|e3]] eqn:Hmk.
    + rewrite ret_run, bind_run. apply makedirs_files in Hmk.
      destruct (copy2 _ _ s3) as [s4 [u'|e4]] eqn:Hcp; [by rewrite ret_run|].
      intros [= <- _]. apply copy2_raise_files in Hcp. congruence.
    + intros [= <- _]. by apply makedirs_files in Hmk.
Qed.

(** * Further guarantees *)

(** ** The outline and the section editor *)

(** X1. Every node of an outline is well formed: its level is between 1
    and 6, its title is not empty and has no white space at its ends, its
    line number names a line of the text, and its id is made of digits
    and dots, with one dot less than the level, and is not 0. *)
Theorem outline_nodes_well_formed body :
  Forall (fun n =>
            1 <= node_level n <= 6
            /\ node_title n <> [] /\ Py.strip (node_title n) = node_title n
            /\ 1 <= node_line_start n <= length (Py.splitlines body)
            /\ Forall id_char (node_id n)
            /\ dots (node_id n) = node_level n - 1
            /\ node_id n <> lit "0")
    (_get_outline_tree body).
Proof.
  apply Forall_forall. intros n Hn.
  pose proof (outline_node_line _ _ Hn) as (Hline & _).
  pose proof (outline_node_title _ _ Hn) as (Ht1 & Ht2).
  pose proof (outline_id_chars _ _ Hn) as Hch.
  pose proof (outline_id_not_zero _ _ Hn) as Hz.
  pose proof Hn as (j & Hj)%list_elem_of_lookup_1.
  destruct (outline_id_lookup _ _ _ Hj) as (c & Hid & _).
  assert (HL : 1 <= node_level n <= 6).
  { pose proof (outline_levels_range body) as Hall.
    rewrite Forall_forall in Hall. apply Hall.
    apply list_elem_of_fmap. eauto. }
  split_and!; try done; try lia.
  by rewrite Hid, dots_spec_id.
Qed.

(** X2. No two headings of a document get the same id. *)
Theorem outline_ids_distinct body :
  NoDup (map node_id (_get_outline_tree body)).
Proof. apply outline_ids_NoDup. Qed.

(** X3. The id and the title of any node of the outline of a document
    address that node: once the document is opened, the update with them
    passes the lock and replaces the lines from the node's own line up to
    an end [b] after it, whatever the other headings are. *)
Theorem update_with_outline_node now path new s s1 resolved abs content n :
  open_document now path s = (s1, Ok (resolved, Some (abs, content))) ->
  n ∈ _get_outline_tree content ->
  let lines := Py.splitlines content in
  let a := node_line_start n - 1 in
  exists b,
    a < b <= length lines
    /\ update_knowledge_section now path (node_id n) (node_title n) new s
       = (logged (Write (key_of (fs_cwd s) abs))
            (with_file (key_of (fs_cwd s) abs)
               (finish content
                  (Py.join [Py.LF]
                     (take a lines ++ Py.splitlines new ++ drop b lines)))
               s1),
          MsgUpdated (node_id n) (node_title n) (Z.of_nat b - Z.of_nat a)
            (length (Py.splitlines new))).
Proof.
  intros Hopen Hn lines a.
  destruct (find_target_node _ _ Hn) as (j & Hfind).
  pose proof (target_range_bounds _ _ _ _ Hfind) as Hb.
  rewrite (update_opened_spec _ _ _ _ _ _ _ _ _ _ Hopen
             (outline_id_not_append _ _ Hn)).
  rewrite Hfind, lock_passes_same.
  eexists. split; [exact Hb|]. reflexivity.
Qed.

Lemma update_with_outline_node_witness :
  Node (lit "1.1") (lit "B") 2 3 ∈ _get_outline_tree demo_doc
  /\ exists s' n_old n_new,
       update_knowledge_section demo_time (lit "a.md") (lit "1.1") (lit "B")
         (lit "## B2") demo_store
       = (s', MsgUpdated (lit "1.1") (lit "B") n_old n_new).
Proof.
  assert (Hn : Node (lit "1.1") (lit "B") 2 3 ∈ _get_outline_tree demo_doc).
  { vm_compute. apply list_elem_of_further, list_elem_of_here. }
  split; [exact Hn|].
  destruct (update_with_outline_node demo_time (lit "a.md") (lit "## B2")
              demo_store (fst (open_document demo_time (lit "a.md") demo_store))
              (lit "libs/a.md") (lit "/kb/libs/a.md") demo_doc
              (Node (lit "1.1") (lit "B") 2 3)) as (b & Hb & Hrun).
  - apply pair_snd. vm_compute. reflexivity.
  - exact Hn.
  - eexists _, _, _. exact Hrun.
Defined.

(** X4. No heading has the id 0: an update with the node id 0, which the
    documentation of the tool offers for the text before the first
    heading, finds no section in any document that opens, and leaves the
    document as it is. *)
Theorem node_id_zero_finds_nothing now path exp new s s1 resolved abs content :
  open_document now path s = (s1, Ok (resolved, Some (abs, content))) ->
  update_knowledge_section now path (lit "0") exp new s
  = (s1, MsgSectionNotFound (lit "0"))
  /\ fs_files s1 !! key_of (fs_cwd s) abs = fs_files s !! key_of (fs_cwd s) abs.
Proof.
  intros Hopen. split.
  - rewrite (update_opened_spec _ _ _ _ _ _ _ _ _ _ Hopen) by discriminate.
    destruct (find_target (lit "0") (_get_outline_tree content)) as [[j t]|] eqn:Hf;
      [|done].
    apply list_find_Some in Hf as (Hj & Hid & _).
    apply list_elem_of_lookup_2 in Hj. by apply outline_id_not_zero in Hj.
  - destruct (open_document_inv _ _ _ _ _ _ _ Hopen) as (data & _ & _ & _ & _ & Hne & ->).
    simpl. by rewrite lookup_insert_ne.
Qed.

Lemma node_id_zero_finds_nothing_witness :
  exists s1,
    update_knowledge_section demo_time (lit "a.md") (lit "0") (lit "") (lit "intro")
      demo_store
    = (s1, MsgSectionNotFound (lit "0"))
    /\ fs_files s1 !! path_key ["kb"; "libs"; "a.md"] = Some demo_doc.
Proof.
  destruct (node_id_zero_finds_nothing demo_time (lit "a.md") (lit "") (lit "intro")
              demo_store (fst (open_document demo_time (lit "a.md") demo_store))
              (lit "libs/a.md") (lit "/kb/libs/a.md") demo_doc) as (Hrun & Hkeep).
  - apply pair_snd. vm_compute. reflexivity.
  - eexists. split; [exact Hrun|].
    change (path_key ["kb"; "libs"; "a.md"])
      with (key_of (fs_cwd demo_store) (lit "/kb/libs/a.md")).
    rewrite Hkeep. reflexivity.
Defined.

(** ** Paths, failures and the history *)

(** X5. Under an absolute working directory [_validate_path] has one
    error only: it raises the traversal error when the cleaned path
    contains [..] and otherwise returns the normal form of the path under
    the root; the out-of-bounds error of its second test is never
    raised. *)
Theorem validate_path_never_out_of_bounds path s :
  OsPath.isabs (fs_cwd s) = true ->
  (forall c, snd (_validate_path path s) <> Raise (ValueError (OutOfBounds c)))
  /\ (Py.contains (clean_path path) (lit "..") = true ->
      _validate_path path s
      = (s, Raise (ValueError (PathTraversal (clean_path path)))))
  /\ (Py.contains (clean_path path) (lit "..") = false ->
      _validate_path path s
      = (s, Ok (OsPath.abspath (fs_cwd s)
                  (OsPath.join KNOWLEDGE_ROOT (clean_path path))))).
Proof.
  intros Hc. rewrite (validate_path_run path s Hc).
  destruct (Py.contains _ _); split_and!; try done.
Qed.

Lemma validate_path_never_out_of_bounds_witness :
  _validate_path (lit " /libs/a.md") demo_store
  = (demo_store, Ok (lit "/kb/libs/a.md")).
Proof.
  destruct (validate_path_never_out_of_bounds (lit " /libs/a.md") demo_store eq_refl)
    as (_ & _ & H).
  rewrite H; [|vm_compute; reflexivity]. f_equal.
Defined.

(** X6. A name that is in two directories is refused, not guessed:
    when the path asked for is not itself a valid path to something that
    exists, and two different directories reached from the root, with no
    [.history] in their paths, each hold a file with the base name of
    the path, [_smart_resolve_path] raises the error for an ambiguous
    path, with at least two candidates, and
    [update_knowledge_section] returns that error and does nothing. *)
Theorem ambiguous_name_is_refused q s comps1 comps2 :
  OsPath.isabs (fs_cwd s) = true ->
  snd (exact_match q s) = Ok false ->
  comps1 <> comps2 ->
  (forall n, n <= length comps1 -> root_of s ++ take n comps1 ∈ fs_dirs s) ->
  (forall n, n <= length comps2 -> root_of s ++ take n comps2 ∈ fs_dirs s) ->
  Py.contains (foldl OsPath.join KNOWLEDGE_ROOT comps1) (lit ".history") = false ->
  Py.contains (foldl OsPath.join KNOWLEDGE_ROOT comps2) (lit ".history") = false ->
  is_file s (root_of s ++ comps1 ++ [OsPath.basename q]) = true ->
  is_file s (root_of s ++ comps2 ++ [OsPath.basename q]) = true ->
  exists candidates,
    2 <= length candidates
    /\ _smart_resolve_path q s
       = (s, Raise (ValueError (AmbiguousPath q candidates)))
    /\ forall now nid exp new,
         update_knowledge_section now q nid exp new s
         = (s, MsgPathError (AmbiguousPath q candidates)).
Proof.
  intros Hc Hexact Hne Hd1 Hd2 Hh1 Hh2 Hf1 Hf2.
  set (target := OsPath.basename q) in *.
  assert (Hfiles : forall comps,
            is_file s (root_of s ++ comps ++ [target]) = true ->
            target ∈ map name_of
                       (filter (fun k' => is_file s k' = true)
                          (entries s (root_of s ++ comps)))).
  { intros comps Hf. apply list_elem_of_fmap.
    exists (root_of s ++ comps ++ [target]). split.
    - by rewrite app_assoc, name_of_snoc.
    - apply list_elem_of_filter. split; [done|].
      rewrite app_assoc. apply entries_elem. rewrite <- app_assoc.
      apply elem_of_union_l, elem_of_dom. unfold is_file in Hf.
      by apply bool_decide_eq_true in Hf. }
  set (F0 := fun d : key =>
                (foldl OsPath.join KNOWLEDGE_ROOT (drop (length (root_of s)) d),
                 map name_of (filter (fun k' => is_file s k' = true) (entries s d)))).
  set (L0 := filter (fun d =>
              bool_decide (take (length (root_of s)) d = root_of s)
              && forallb (fun n => is_dir s (take n d))
                   (seq (length (root_of s)) (S (length d - length (root_of s))))
              = true)
      (elements (fs_dirs s))).
  assert (Hw : walk KNOWLEDGE_ROOT s = (s, Ok (map F0 L0))).
  { unfold walk. rewrite (root_key _ Hc). reflexivity. }
  assert (Hlen : 2 <= length (foldl (resolve_step (fs_cwd s) target) [] (map F0 L0))).
  { rewrite resolve_fold_length, filter_fmap_length. simpl.
    apply (filter_length_two _ L0 (root_of s ++ comps1) (root_of s ++ comps2)).
    - by apply walk_reaches.
    - by apply walk_reaches.
    - intros Heq. by apply app_inv_head in Heq.
    - unfold F0, names_target. cbn [fst snd]. rewrite drop_app_length, Hh1.
      cbn [negb andb]. apply bool_decide_eq_true_2. by apply Hfiles.
    - unfold F0, names_target. cbn [fst snd]. rewrite drop_app_length, Hh2.
      cbn [negb andb]. apply bool_decide_eq_true_2. by apply Hfiles. }
  assert (Hr : _smart_resolve_path q s
               = (s, Raise (ValueError
                              (AmbiguousPath q
                                 (foldl (resolve_step (fs_cwd s) target) [] (map F0 L0)))))).
  { unfold _smart_resolve_path. rewrite bind_run.
    rewrite (pair_snd_state (exact_match q) s (Ok false));
      [|apply exact_match_state|done].
    rewrite bind_run. unfold getcwd. rewrite bind_run.
    rewrite Hw. fold target. cbn beta iota.
    change (fs_cwd (s, Ok (fs_cwd s)).1) with (fs_cwd s).
    destruct (foldl (resolve_step (fs_cwd s) target) [] (map F0 L0))
      as [|c [|c' cs]]; [simpl in Hlen; lia..|done]. }
  eexists. split; [exact Hlen|]. split; [exact Hr|].
  intros now nid exp new.
  unfold update_knowledge_section, run_tool, update_body, open_document.
  by rewrite !bind_run, Hr.
Qed.

Lemma ambiguous_name_is_refused_witness :
  exists candidates,
    2 <= length candidates
    /\ _smart_resolve_path (lit "a.md") twin_store
       = (twin_store, Raise (ValueError (AmbiguousPath (lit "a.md") candidates)))
    /\ update_knowledge_section demo_time (lit "a.md") (lit "1") (lit "A") (lit "new")
         twin_store
       = (twin_store, MsgPathError (AmbiguousPath (lit "a.md") candidates)).
Proof.
  destruct (ambiguous_name_is_refused (lit "a.md") twin_store [lit "libs"] [lit "docs"])
    as (candidates & Hlen & Hr & Hu).
  - reflexivity.
  - vm_compute. reflexivity.
  - intros [=].
  - intros n Hn. apply elem_of_list_to_set.
    destruct n as [|[|n]]; [| |simpl in Hn; lia].
    + apply list_elem_of_further, list_elem_of_here.
    + do 2 apply list_elem_of_further. apply list_elem_of_here.
  - intros n Hn. apply elem_of_list_to_set.
    destruct n as [|[|n]]; [| |simpl in Hn; lia].
    + apply list_elem_of_further, list_elem_of_here.
    + do 3 apply list_elem_of_further. apply list_elem_of_here.
  - vm_compute. reflexivity.
  - vm_compute. reflexivity.
  - vm_compute. reflexivity.
  - vm_compute. reflexivity.
  - exists candidates. split; [exact Hlen|]. split; [exact Hr|]. apply Hu.
Defined.

(** X7. A call of [update_knowledge_section] that is refused at the
    lookup has done nothing: when it returns the message of a missing
    file, or the path-error message for one of the three errors of the
    module (a path with [..], a path out of the root, an ambiguous name),
    the store is as it was: no snapshot, no history directory, no file
    opened. *)
Theorem lookup_failure_leaves_no_trace now path nid exp new s s' out :
  update_knowledge_section now path nid exp new s = (s', out) ->
  match out with
  | MsgNotFound _
  | MsgPathError (PathTraversal _ | OutOfBounds _ | AmbiguousPath _ _) => True
  | _ => False
  end ->
  s' = s.
Proof.
  unfold update_knowledge_section, run_tool, update_body. rewrite bind_run.
  destruct (open_document now path s) as [s1 [[r [[a c]|]]|e]] eqn:Hopen.
  - destruct (bool_decide (nid = lit "APPEND")).
    + rewrite bind_run. destruct (append_text _ _ _) as [s2 [[]|e]] eqn:Ha.
      * rewrite ret_run. by intros [= _ <-].
      * apply append_text_raises in Ha as [oe ->]. by intros [= _ <-].
    + destruct (edit_section _ _ _ _) as [t| |f x y n].
      * rewrite ret_run. by intros [= _ <-].
      * rewrite ret_run. by intros [= _ <-].
      * rewrite bind_run. destruct (write_text _ _ _) as [s2 [[]|e]] eqn:Hw.
        -- rewrite ret_run. by intros [= _ <-].
        -- apply write_text_raises in Hw as [oe ->]. by intros [= _ <-].
  - rewrite ret_run. intros [= <- _] _. by apply open_document_missing in Hopen.
  - destruct e as [e|e].
    + intros [= <- _] _. by apply open_document_value_error in Hopen.
    + by intros [= _ <-].
Qed.

Lemma lookup_failure_leaves_no_trace_witness :
  update_knowledge_section demo_time (lit "nope.md") (lit "1") (lit "A") (lit "# A")
    demo_store
  = (demo_store, MsgNotFound (lit "nope.md")).
Proof.
  assert (Hout : snd (update_knowledge_section demo_time (lit "nope.md") (lit "1")
                        (lit "A") (lit "# A") demo_store)
                 = MsgNotFound (lit "nope.md")).
  { vm_compute. reflexivity. }
  pose proof (lookup_failure_leaves_no_trace demo_time (lit "nope.md") (lit "1")
                (lit "A") (lit "# A") demo_store _ (MsgNotFound (lit "nope.md"))
                (pair_snd _ _ Hout) I) as Hs.
  rewrite (pair_snd _ _ Hout), Hs. reflexivity.
Defined.

(** X8. A call of [update_knowledge_section] that ends before its last
    step, the write of the document, has changed no file but the snapshot
    file, which is not the document.  When the call returns the message of
    a missing file, of one of the three path errors of the module, of a
    missing section or of a title that does not match, or when it fails
    because the document could not be opened (the snapshot or the read
    failed): a file that does not hold what it held is the snapshot file
    of the call, and the document holds what it held. *)
Theorem failed_update_keeps_document now path nid exp new s s' out :
  update_knowledge_section now path nid exp new s = (s', out) ->
  match out with
  | MsgNotFound _ | MsgSectionNotFound _ | MsgLockMismatch _ _ _
  | MsgPathError (PathTraversal _ | OutOfBounds _ | AmbiguousPath _ _) => True
  | MsgFailed _ => exists s1 e, open_document now path s = (s1, Raise e)
  | _ => False
  end ->
  (forall k,
     fs_files s' !! k <> fs_files s !! k ->
     exists resolved abs,
       _smart_resolve_path path s = (s, Ok resolved)
       /\ _validate_path resolved s = (s, Ok abs)
       /\ k = snapshot_key now resolved abs s
       /\ k <> key_of (fs_cwd s) abs)
  /\ (forall resolved abs,
        _smart_resolve_path path s = (s, Ok resolved) ->
        _validate_path resolved s = (s, Ok abs) ->
        fs_files s' !! key_of (fs_cwd s) abs = fs_files s !! key_of (fs_cwd s) abs).
Proof.
  intros Hrun Hout.
  assert (Hmain : forall k,
            fs_files s' !! k <> fs_files s !! k ->
            exists resolved abs,
              _smart_resolve_path path s = (s, Ok resolved)
              /\ _validate_path resolved s = (s, Ok abs)
              /\ k = snapshot_key now resolved abs s
              /\ k <> key_of (fs_cwd s) abs).
  { revert Hrun Hout.
    unfold update_knowledge_section, run_tool, update_body. rewrite bind_run.
    destruct (open_document now path s) as [s1 [[r [[a c]|]]|e]] eqn:Hopen.
    - assert (Hs1 : forall k,
                fs_files s1 !! k <> fs_files s !! k ->
                exists resolved abs,
                  _smart_resolve_path path s = (s, Ok resolved)
                  /\ _validate_path resolved s = (s, Ok abs)
                  /\ k = snapshot_key now resolved abs s
                  /\ k <> key_of (fs_cwd s) abs).
      { destruct (open_document_inv _ _ _ _ _ _ _ Hopen)
          as (data & Hr & Hv & Hdata & _ & Hne & ->).
        intros k Hk. cbn [fs_files] in Hk. exists r, a.
        split; [done|]. split; [done|].
        destruct (decide (k = snapshot_key now r a s)) as [->|Hk'].
        - done.
        - by rewrite lookup_insert_ne in Hk. }
      destruct (bool_decide (nid = lit "APPEND")).
      + rewrite bind_run. destruct (append_text _ _ _) as [s2 [[]|e]] eqn:Ha.
        * rewrite ret_run. by intros [= _ <-].
        * apply append_text_raises in Ha as [oe ->].
          intros [= _ <-]. by intros (? & ? & [=]).
      + destruct (edit_section _ _ _ _) as [t| |f x y n].
        * rewrite ret_run. by intros [= <- _] _.
        * rewrite ret_run. by intros [= <- _] _.
        * rewrite bind_run. destruct (write_text _ _ _) as [s2 [[]|e]] eqn:Hw.
          -- rewrite ret_run. by intros [= _ <-].
          -- apply write_text_raises in Hw as [oe ->].
             intros [= _ <-]. by intros (? & ? & [=]).
    - rewrite ret_run. intros [= <- _] _ k Hk.
      by rewrite (open_document_missing _ _ _ _ _ Hopen) in Hk.
    - apply open_document_raise_files in Hopen.
      destruct e; intros [= <- _] _ k Hk; by rewrite Hopen in Hk. }
  split; [exact Hmain|].
  intros resolved abs Hr Hv.
  destruct (decide (fs_files s' !! key_of (fs_cwd s) abs
                    = fs_files s !! key_of (fs_cwd s) abs)) as [|Hk]; [done|].
  destruct (Hmain _ Hk) as (resolved' & abs' & Hr' & Hv' & Hsnap & Hne).
  rewrite Hr in Hr'. injection Hr' as <-.
  rewrite Hv in Hv'. injection Hv' as <-. done.
Qed.

Lemma failed_update_keeps_document_witness :
  let r :=
    update_knowledge_section demo_time (lit "a.md") (lit "9") (lit "A") (lit "# Z")
      demo_store in
  snd r = MsgSectionNotFound (lit "9")
  /\ fs_files (fst r) !! path_key ["kb"; "libs"; "a.md"] = Some demo_doc.
Proof.
  intros r.
  assert (Hout : snd r = MsgSectionNotFound (lit "9")) by (vm_compute; reflexivity).
  split; [exact Hout|].
  destruct (failed_update_keeps_document demo_time (lit "a.md") (lit "9") (lit "A")
              (lit "# Z") demo_store (fst r) (snd r) (surjective_pairing r))
    as [_ Hdoc].
  - by rewrite Hout.
  - change (path_key ["kb"; "libs"; "a.md"])
      with (key_of (fs_cwd demo_store) (lit "/kb/libs/a.md")).
    rewrite (Hdoc (lit "libs/a.md") (lit "/kb/libs/a.md")).
    + reflexivity.
    + apply pair_snd_state; [apply smart_resolve_path_state|].
      vm_compute. reflexivity.
    + apply pair_snd_state; [apply validate_path_state|].
      vm_compute. reflexivity.
Defined.

(** X9. APPEND needs no title: once the document is opened, the call
    with the node id APPEND succeeds for every expected title, and the
    file becomes its bytes as they were, two LF and the new content. *)
Theorem append_needs_no_title now path exp new s s1 resolved abs content :
  open_document now path s = (s1, Ok (resolved, Some (abs, content))) ->
  exists data,
    fs_files s !! key_of (fs_cwd s) abs = Some data
    /\ content = universal_newlines data
    /\ update_knowledge_section now path (lit "APPEND") exp new s
       = (logged (Write (key_of (fs_cwd s) abs))
            (with_file (key_of (fs_cwd s) abs) (data ++ [Py.LF; Py.LF] ++ new) s1),
          MsgAppended).
Proof.
  intros Hopen.
  destruct (open_document_inv _ _ _ _ _ _ _ Hopen)
    as (data & Hr & Hv & Hdata & Hcontent & Hne & Hs1).
  cbv zeta in Hne, Hs1. exists data. split; [done|]. split; [done|].
  unfold update_knowledge_section, run_tool, update_body.
  rewrite bind_run, Hopen, bool_decide_eq_true_2 by done. rewrite bind_run.
  unfold append_text, open_for_write.
  assert (Hf : is_file s1 (key_of (fs_cwd s1) abs) = true).
  { subst s1. unfold is_file. cbn [fs_files fs_cwd].
    apply bool_decide_eq_true_2. rewrite lookup_insert_ne by done. eauto. }
  rewrite Hf, ret_run. subst s1. cbn [fs_cwd fs_files].
  rewrite lookup_insert_ne by done. rewrite Hdata. reflexivity.
Qed.

Lemma append_needs_no_title_witness :
  exists s',
    update_knowledge_section demo_time (lit "a.md") (lit "APPEND")
      (lit "no such title") (lit "tail") demo_store
    = (s', MsgAppended)
    /\ fs_files s' !! path_key ["kb"; "libs"; "a.md"]
       = Some (demo_doc ++ [Py.LF; Py.LF] ++ lit "tail").
Proof.
  destruct (append_needs_no_title demo_time (lit "a.md") (lit "no such title")
              (lit "tail") demo_store
              (fst (open_document demo_time (lit "a.md") demo_store))
              (lit "libs/a.md") (lit "/kb/libs/a.md") demo_doc)
    as (data & Hdata & _ & Hrun).
  - apply pair_snd. vm_compute. reflexivity.
  - eexists. split; [exact Hrun|].
    assert (data = demo_doc) as ->.
    { vm_compute in Hdata. injection Hdata as <-. reflexivity. }
    cbn [fs_files logged with_file].
    change (key_of (fs_cwd demo_store) (lit "/kb/libs/a.md"))
      with (path_key ["kb"; "libs"; "a.md"]).
    apply lookup_insert_eq.
Defined.

(** X10. [view_doc_changes] writes no file: whatever it returns, every
    file holds what it held, the files it opened were opened for reading,
    and the directories that were there are there (it may have made the
    history directory). *)
Theorem view_changes_writes_no_file path s s' out :
  view_doc_changes path s = (s', out) -> reads_only s s'.
Proof.
  unfold view_doc_changes, run_tool.
  destruct (view_body path s) as [s1 [o|e]] eqn:Hrun.
  - intros [= <- _]. eapply reads_view_body, Hrun.
  - destruct e; intros [= <- _]; eapply reads_view_body, Hrun.
Qed.

Lemma view_changes_writes_no_file_witness :
  fs_files (fst (view_doc_changes (lit "a.md") demo_store)) = fs_files demo_store.
Proof.
  destruct (view_changes_writes_no_file (lit "a.md") demo_store
              (fst (view_doc_changes (lit "a.md") demo_store))
              (snd (view_doc_changes (lit "a.md") demo_store)))
    as (_ & Hfiles & _).
  - apply surjective_pairing.
  - exact Hfiles.
Defined.

(** X11. Without a snapshot the view never looks at the document: when
    the path resolves and is valid and the history directory of the
    document holds no entry that ends in [.snap] (or is not there), the
    call answers that there is no history and leaves the history
    directory made, whether the document exists or not. *)
Theorem view_without_snapshot_makes_directory path resolved abs s :
  _smart_resolve_path path s = (s, Ok resolved) ->
  _validate_path resolved s = (s, Ok abs) ->
  existsb (is_file s) (prefixes (history_key s resolved)) = false ->
  (forall k', k' ∈ entries s (history_key s resolved) ->
     Py.endswith (name_of k') (lit ".snap") = false) ->
  view_doc_changes path s = (with_history_dir resolved s, MsgNoHistory).
Proof.
  intros Hr Hv Hf Hno.
  unfold view_doc_changes, run_tool, view_body.
  rewrite bind_run, Hr, bind_run, Hv, bind_run.
  assert (Hfk : is_file s (history_key s resolved) = false).
  { apply not_true_iff_false. intros Hk.
    apply not_true_iff_false in Hf. apply Hf.
    apply existsb_exists. eexists. split; [|exact Hk].
    apply list_elem_of_In, prefixes_self. }
  assert (Hmk : makedirs (OsPath.join HISTORY_DIR (safe_name resolved)) s
                = (with_history_dir resolved s, Ok tt)).
  { unfold makedirs, with_history_dir. fold (history_key s resolved).
    by rewrite Hfk, Hf. }
  assert (Hls : listdir (OsPath.join HISTORY_DIR (safe_name resolved))
                  (with_history_dir resolved s)
                = (with_history_dir resolved s,
                   Ok (map name_of
                         (entries (with_history_dir resolved s)
                            (history_key s resolved))))).
  { unfold listdir.
    change (key_of (fs_cwd (with_history_dir resolved s))
              (OsPath.join HISTORY_DIR (safe_name resolved)))
      with (history_key s resolved).
    rewrite is_dir_history.
    change (is_file (with_history_dir resolved s) (history_key s resolved))
      with (is_file s (history_key s resolved)).
    by rewrite Hfk. }
  unfold _ensure_history_dir. rewrite bind_run, Hmk, ret_run, bind_run, Hls.
  assert (Hnil : filter (fun f => Py.endswith f (lit ".snap") = true)
                   (map name_of
                      (entries (with_history_dir resolved s) (history_key s resolved)))
                 = []).
  { destruct (filter _ _) as [|x l] eqn:E; [done|]. exfalso.
    assert (Hx : x ∈ x :: l) by left. rewrite <- E in Hx.
    apply list_elem_of_filter in Hx as [Hx (k' & -> & Hk')%list_elem_of_fmap].
    apply entries_history, Hno in Hk'. by rewrite Hk' in Hx. }
  rewrite Hnil. reflexivity.
Qed.

Lemma view_without_snapshot_makes_directory_witness :
  view_doc_changes (lit "nope.md") demo_store
  = (with_history_dir (lit "nope.md") demo_store, MsgNoHistory)
  /\ path_key ["kb"; ".history"; "nope.md"]
     ∈ fs_dirs (with_history_dir (lit "nope.md") demo_store)
  /\ fs_files demo_store !! path_key ["kb"; "nope.md"] = None.
Proof.
  split; [|split].
  - apply (view_without_snapshot_makes_directory (lit "nope.md") (lit "nope.md")
             (lit "/kb/nope.md") demo_store).
    + apply pair_snd_state; [apply smart_resolve_path_state|].
      vm_compute. reflexivity.
    + apply pair_snd_state; [apply validate_path_state|].
      vm_compute. reflexivity.
    + vm_compute. reflexivity.
    + intros k' Hk'. exfalso. revert Hk'. vm_compute.
      intros Hk'. apply elem_of_nil in Hk'. destruct Hk'.
  - pose proof (is_dir_history (lit "nope.md") demo_store) as Hd.
    apply bool_decide_eq_true in Hd. exact Hd.
  - vm_compute. reflexivity.
Defined.

(** X12. The history directory is named after the path with its slashes
    replaced, so two documents can share it: for every path [p] with a
    slash, the different path [safe_name p] (a document at the root) has
    the same history directory and the same snapshot files as [p]. *)
Theorem history_directory_shared p :
  OsPath.sep ∈ p ->
  safe_name p <> p
  /\ _ensure_history_dir (safe_name p) = _ensure_history_dir p
  /\ (forall s, history_key s (safe_name p) = history_key s p)
  /\ (forall now, snapshot_path now (safe_name p) = snapshot_path now p)
  /\ (forall now abs,
        _create_snapshot now (safe_name p) abs = _create_snapshot now p abs).
Proof.
  intros Hin. split; [by apply safe_name_changes|].
  unfold _create_snapshot, _ensure_history_dir, history_key, snapshot_path.
  rewrite safe_name_idem. done.
Qed.

Lemma history_directory_shared_witness :
  safe_name (lit "libs/a.md") = lit "libs_a.md"
  /\ lit "libs_a.md" <> lit "libs/a.md"
  /\ snapshot_path demo_time (lit "libs_a.md")
     = snapshot_path demo_time (lit "libs/a.md").
Proof.
  assert (Hin : OsPath.sep ∈ lit "libs/a.md").
  { vm_compute. do 4 apply list_elem_of_further. apply list_elem_of_here. }
  destruct (history_directory_shared (lit "libs/a.md") Hin)
    as (Hne & _ & _ & Hsnap & _).
  split; [reflexivity|]. split; [exact Hne|]. exact (Hsnap demo_time).
Defined.



(** ** The outline tool *)

(** X14. [get_file_outline] only looks: whatever it returns, every file
    and every directory of the store is as it was, no directory was made,
    and what it opened it opened for reading. *)
Theorem get_file_outline_only_looks
  (yaml_safe_load : str -> option pyval) path s s' out :
  get_file_outline yaml_safe_load path s = (s', out) -> looks_only s s'.
Proof.
  unfold get_file_outline.
  destruct (outline_body yaml_safe_load path s) as [s1 [o|e]] eqn:Hrun.
  - intros [= <- _]. eapply looks_outline_body, Hrun.
  - destruct e; intros [= <- _]; eapply looks_outline_body, Hrun.
Qed.

Lemma get_file_outline_only_looks_witness :
  let r := get_file_outline mini_load (lit "a.md") demo_store in
  fs_files (fst r) = fs_files demo_store /\ fs_dirs (fst r) = fs_dirs demo_store.
Proof.
  destruct (get_file_outline_only_looks mini_load (lit "a.md") demo_store
              (fst (get_file_outline mini_load (lit "a.md") demo_store))
              (snd (get_file_outline mini_load (lit "a.md") demo_store)))
    as (_ & Hfiles & Hdirs & _).
  - apply surjective_pairing.
  - split; [exact Hfiles|exact Hdirs].
Defined.

(** X15. [get_file_outline] stays under the root: with an absolute
    working directory and a store whose entries have proper names, the
    file it reads lies under the knowledge root, whatever the path asked
    for, and the files elsewhere are as they were. *)
Theorem get_file_outline_stays_under_root
  (yaml_safe_load : str -> option pyval) path s s' out :
  OsPath.isabs (fs_cwd s) = true -> store_ok s ->
  get_file_outline yaml_safe_load path s = (s', out) ->
  confined (fs_cwd s) s s'.
Proof.
  intros Hc Hok. unfold get_file_outline.
  destruct (outline_body yaml_safe_load path s) as [s1 r] eqn:Hrun.
  destruct (triple_outline_body (fs_cwd s) yaml_safe_load path Hc s s1 r
              (conj eq_refl Hok) Hrun) as (_ & Hconf & _).
  destruct r as [o|[e|e]]; by intros [= <- _].
Qed.

Lemma get_file_outline_stays_under_root_witness :
  confined (fs_cwd demo_store) demo_store
    (fst (get_file_outline mini_load (lit "../a.md") demo_store)).
Proof.
  apply (get_file_outline_stays_under_root mini_load (lit "../a.md") demo_store _
           (snd (get_file_outline mini_load (lit "../a.md") demo_store))
           eq_refl store_ok_demo).
  apply surjective_pairing.
Defined.

(** X16. What [get_file_outline] returns can be handed back: for every
    node of the structure it returned for a path, the update of that path
    with the id and the title of the node, run on the store the outline
    call left, is not refused.  It returns the success message for a
    range that begins at the node's line, or fails with an error of the
    file system (the snapshot could not be taken); it never reports a
    missing file, a path error, a missing section or a title that does
    not match. *)
Theorem outline_then_update
  (yaml_safe_load : str -> option pyval) now path new s s0 resolved meta
  structure n s' out :
  get_file_outline yaml_safe_load path s = (s0, MsgOutline resolved meta structure) ->
  n ∈ structure ->
  update_knowledge_section now path (node_id n) (node_title n) new s0 = (s', out) ->
  (exists b,
     node_line_start n - 1 < b
     /\ out = MsgUpdated (node_id n) (node_title n)
                (Z.of_nat b - Z.of_nat (node_line_start n - 1))
                (length (Py.splitlines new)))
  \/ exists e, out = MsgFailed (OSError e).
Proof.
  intros Hout Hn Hrun.
  destruct (get_file_outline_inv _ _ _ _ _ _ _ Hout)
    as (abs & data & Hr & Hv & Hdata & -> & _ & ->).
  cbv zeta in Hdata.
  set (s0 := logged (Read (key_of (fs_cwd s) abs)) s) in *.
  assert (Hr0 : _smart_resolve_path path s0 = (s0, Ok resolved)).
  { by apply (smart_resolve_path_run_same path s). }
  assert (Hv0 : _validate_path resolved s0 = (s0, Ok abs)).
  { by apply (validate_path_cwd _ s). }
  destruct (open_document now path s0) as [s1 [[r [[a c]|]]|e]] eqn:Hopen.
  - destruct (open_document_inv _ _ _ _ _ _ _ Hopen)
      as (data' & Hr' & Hv' & Hdata' & -> & _).
    rewrite Hr0 in Hr'. injection Hr' as <-.
    rewrite Hv0 in Hv'. injection Hv' as <-.
    cbv zeta in Hdata'. change (fs_cwd s0) with (fs_cwd s) in Hdata'.
    change (fs_files s0) with (fs_files s) in Hdata'.
    rewrite Hdata in Hdata'. injection Hdata' as <-.
    destruct (find_target_node _ _ Hn) as (j & Hfind).
    pose proof (target_range_bounds _ _ _ _ Hfind) as Hb.
    rewrite (update_opened_spec _ _ _ _ _ _ _ _ _ _ Hopen
               (outline_id_not_append _ _ Hn)) in Hrun.
    cbv zeta in Hrun. rewrite Hfind, lock_passes_same in Hrun.
    injection Hrun as _ <-. left. eexists. split; [|reflexivity]. apply Hb.
  - apply open_document_missing_inv in Hopen as (a & Hr' & Hv' & Hnf).
    rewrite Hr0 in Hr'. injection Hr' as <-.
    rewrite Hv0 in Hv'. injection Hv' as <-.
    unfold is_file in Hnf. change (fs_files s0) with (fs_files s) in Hnf.
    change (fs_cwd s0) with (fs_cwd s) in Hnf. rewrite Hdata in Hnf.
    apply bool_decide_eq_false in Hnf. exfalso. apply Hnf. eauto.
  - revert Hrun. unfold update_knowledge_section, run_tool, update_body.
    rewrite bind_run, Hopen. destruct e as [e|e].
    + apply open_document_value_error_inv in Hopen as [Hr'|(r & Hr' & Hv')].
      * rewrite Hr0 in Hr'. discriminate Hr'.
      * rewrite Hr0 in Hr'. injection Hr' as <-.
        rewrite Hv0 in Hv'. discriminate Hv'.
    + intros [= _ <-]. right. eauto.
Qed.

Lemma outline_then_update_witness :
  exists s0 meta structure s' n_old n_new,
    get_file_outline mini_load (lit "a.md") demo_store
    = (s0, MsgOutline (lit "libs/a.md") meta structure)
    /\ Node (lit "1.1") (lit "B") 2 3 ∈ structure
    /\ update_knowledge_section demo_time (lit "a.md") (lit "1.1") (lit "B")
         (lit "## B2") s0
       = (s', MsgUpdated (lit "1.1") (lit "B") n_old n_new).
Proof.
  assert (Hout : snd (get_file_outline mini_load (lit "a.md") demo_store)
                 = MsgOutline (lit "libs/a.md") (PDict [])
                     (_get_outline_tree demo_doc)).
  { vm_compute. reflexivity. }
  assert (Hn : Node (lit "1.1") (lit "B") 2 3 ∈ _get_outline_tree demo_doc).
  { vm_compute. apply list_elem_of_further, list_elem_of_here. }
  assert (Hupd : snd (update_knowledge_section demo_time (lit "a.md") (lit "1.1")
                        (lit "B") (lit "## B2")
                        (fst (get_file_outline mini_load (lit "a.md") demo_store)))
                 = MsgUpdated (lit "1.1") (lit "B") 2 1).
  { vm_compute. reflexivity. }
  destruct (outline_then_update mini_load demo_time (lit "a.md") (lit "## B2")
              demo_store _ _ _ _ (Node (lit "1.1") (lit "B") 2 3) _ _
              (pair_snd _ _ Hout) Hn (pair_snd _ _ Hupd)) as [(b & Hb & Heq)|(e & He)].
  - eexists _, _, _, _, _, _. split; [exact (pair_snd _ _ Hout)|].
    split; [exact Hn|]. exact (pair_snd _ _ Hupd).
  - discriminate He.
Defined.

(** ** The frontmatter *)

(** X17. [_parse_frontmatter] loses no text: either it returns no
    metadata and the content itself as body, or the content is the
    delimiter, the text handed to the YAML library, the delimiter and the
    body returned, in that order, and the metadata are what the library
    read (the empty mapping when that is empty). *)
Theorem parse_frontmatter_keeps_text
  (yaml_safe_load : str -> option pyval) content meta body :
  _parse_frontmatter yaml_safe_load content = (meta, body) ->
  (meta = PDict [] /\ body = content)
  \/ exists y loaded,
       content = lit "---" ++ y ++ lit "---" ++ body
       /\ yaml_safe_load y = Some loaded
       /\ meta = (if truthy loaded then loaded else PDict []).
Proof.
  unfold _parse_frontmatter.
  destruct (Py.startswith content (lit "---")) eqn:Hsw; [|intros [= <- <-]; by left].
  apply startswith_spec in Hsw as [rest ->].
  unfold Py.split.
  destruct (split_max_join "-"%char (lit "--") 2 (lit "---" ++ rest) []) as [Hj Hl].
  change ("-"%char :: lit "--") with (lit "---") in *.
  pose proof (str_split_max_sep "-"%char (lit "--") 1 [] rest) as Hfirst.
  change ("-"%char :: lit "--") with (lit "---") in Hfirst.
  rewrite Hfirst in *. simpl (rev []) in *.
  destruct (Py.split_max (lit "---") 1 0 [] rest) as [|y [|b [|z zs]]] eqn:E.
  - intros [= <- <-]. by left.
  - intros [= <- <-]. by left.
  - destruct (yaml_safe_load y) as [loaded|] eqn:Hload; [|intros [= <- <-]; by left].
    intros [= <- <-]. right. exists y, loaded. split; [|done].
    change (Py.join (lit "---") [[]; y; b]) with (lit "---" ++ y ++ lit "---" ++ b) in Hj.
    by rewrite Hj.
  - simpl in Hl. lia.
Qed.

Lemma parse_frontmatter_keeps_text_witness :
  exists y loaded,
    text ["---"; "title: T"; "---"; "# T"]
    = lit "---" ++ y ++ lit "---" ++ text [""; "# T"]
    /\ mini_load y = Some loaded
    /\ PDict [(PStr (lit "title"), PStr (lit "T"))]
       = (if truthy loaded then loaded else PDict []).
Proof.
  destruct (parse_frontmatter_keeps_text mini_load
              (text ["---"; "title: T"; "---"; "# T"])
              (PDict [(PStr (lit "title"), PStr (lit "T"))])
              (text [""; "# T"])) as [[H _]|H].
  - vm_compute. reflexivity.
  - discriminate H.
  - exact H.
Defined.

(** ** Creating a document *)

(** X18. A successful [create_knowledge] has written one file that was
    not there: the path it names is [category/name.md], no file or
    directory had that path, it lies under the root, it now holds the
    frontmatter of the metadata followed by the title as a level 1
    heading, and every other file holds what it held; the one file
    opened is that file, for writing. *)
Theorem create_writes_one_new_file
  (yaml_dump : pyval -> str) now title category tags description name s s' p :
  OsPath.isabs (fs_cwd s) = true ->
  create_knowledge yaml_dump now title category tags description name s
  = (s', MsgCreated p) ->
  p = target_path title category name
  /\ exists k,
       under (fs_cwd s) k
       /\ fs_files s !! k = None /\ (k ∉ fs_dirs s)
       /\ fs_files s'
          = <[k := new_document yaml_dump now title category tags description]>
              (fs_files s)
       /\ fs_dirs s ⊆ fs_dirs s'
       /\ fs_log s' = fs_log s ++ [Write k].
Proof.
  intros Hc Hrun.
  rewrite (create_knowledge_run yaml_dump now title category tags description name s Hc)
    in Hrun.
  cbv zeta in Hrun.
  destruct (Py.contains _ _) eqn:Hdd; [by injection Hrun|].
  destruct (_ || _) eqn:Hex; [by injection Hrun|].
  destruct (is_file s (removelast _)); [by injection Hrun|].
  destruct (existsb _ _); [by injection Hrun|].
  injection Hrun as <- <-. split; [done|]. eexists. cbn [fs_files fs_dirs fs_log].
  apply orb_false_elim in Hex as [Hf Hd].
  split; [|split; [|split; [|split; [reflexivity|split; [|reflexivity]]]]].
  - apply (validate_path_under (target_path title category name)); [done|].
    rewrite (validate_path_run _ s Hc), Hdd. reflexivity.
  - unfold is_file in Hf. apply bool_decide_eq_false in Hf.
    destruct (fs_files s !! _) eqn:E; [|done]. exfalso. apply Hf. eauto.
  - by apply bool_decide_eq_false in Hd.
  - apply union_subseteq_l.
Qed.

Lemma create_writes_one_new_file_witness :
  let r :=
    create_knowledge block_dump demo_time (lit "React Hooks") (lit "libs")
      (lit "react, hooks") (lit "About hooks") None demo_store in
  snd r = MsgCreated (lit "libs/react_hooks.md")
  /\ exists k,
       fs_files demo_store !! k = None
       /\ fs_files (fst r)
          = <[k := text ["---"; "title: React Hooks"; "category: libs"; "tags:";
                         "- react"; "- hooks"; "description: About hooks";
                         "last_updated: '2026-01-02'"; "---"; "";
                         "# React Hooks"; ""]]> (fs_files demo_store).
Proof.
  intros r.
  assert (Hout : snd r = MsgCreated (lit "libs/react_hooks.md")).
  { vm_compute. reflexivity. }
  split; [exact Hout|].
  destruct (create_writes_one_new_file block_dump demo_time (lit "React Hooks")
              (lit "libs") (lit "react, hooks") (lit "About hooks") None demo_store
              (fst r) (lit "libs/react_hooks.md") eq_refl (pair_snd _ _ Hout))
    as (_ & k & _ & Hnew & _ & Hfiles & _).
  exists k. split; [exact Hnew|]. rewrite Hfiles. f_equal.
Defined.

(** X19. A document is created once: after a successful call, every
    further call that leads to the same path (the same title, category
    and name, or others with the same [category/name.md]; whatever the
    tags, the description and the time) answers that the file exists and
    changes nothing.  Titles that differ only in case, or in blanks and
    slashes against underscores, lead to the same path. *)
Theorem create_twice_keeps_first
  (yaml_dump : pyval -> str) now title category tags description name s s1 p :
  OsPath.isabs (fs_cwd s) = true ->
  create_knowledge yaml_dump now title category tags description name s
  = (s1, MsgCreated p) ->
  forall now' title' category' tags' description' name',
    target_path title' category' name' = target_path title category name ->
    create_knowledge yaml_dump now' title' category' tags' description' name' s1
    = (s1, MsgExists p).
Proof.
  intros Hc Hrun now' title' category' tags' description' name' Hsame.
  rewrite (create_knowledge_run yaml_dump now title category tags description name s Hc)
    in Hrun.
  cbv zeta in Hrun.
  destruct (Py.contains _ _) eqn:Hdd; [by injection Hrun|].
  destruct (_ || _) eqn:Hex; [by injection Hrun|].
  destruct (is_file s (removelast _)); [by injection Hrun|].
  destruct (existsb _ _); [by injection Hrun|].
  injection Hrun as <- <-.
  rewrite create_knowledge_run by done. cbv zeta. cbn [fs_cwd].
  rewrite Hsame, Hdd.
  assert (Hf : forall k d files dirs log,
             is_file (FS (fs_cwd s) (<[k := d]> files) dirs log) k = true).
  { intros k d files dirs log. unfold is_file. cbn [fs_files].
    apply bool_decide_eq_true_2. rewrite lookup_insert_eq. eauto. }
  by rewrite Hf.
Qed.

Lemma create_twice_keeps_first_witness :
  let s1 :=
    fst (create_knowledge block_dump demo_time (lit "React Hooks") (lit "libs")
           (lit "react, hooks") (lit "About hooks") None demo_store) in
  create_knowledge block_dump demo_time (lit "react/hooks") (lit "libs")
    (lit "other") (lit "Other text") None s1
  = (s1, MsgExists (lit "libs/react_hooks.md")).
Proof.
  intros s1. subst s1.
  apply (create_twice_keeps_first block_dump demo_time (lit "React Hooks") (lit "libs")
           (lit "react, hooks") (lit "About hooks") None demo_store).
  - reflexivity.
  - apply pair_snd. vm_compute. reflexivity.
  - reflexivity.
Defined.

(** X20. The tags of a new document are the pieces of the text between
    commas, without the white space around them and without the empty
    ones: every tag is not empty, has no white space at its ends and no
    comma. *)
Theorem tag_list_clean tags :
  Forall (fun t => t <> [] /\ Py.strip t = t /\ ","%char ∉ t) (tag_list tags).
Proof.
  apply Forall_forall. intros t (u & Hu & Hne & ->)%tag_list_elem.
  split; [done|]. split; [apply strip_idem|].
  intros Hin%strip_elem. by apply (split_on_elem_free ","%char tags u).
Qed.

(** X21. Tags written with a comma and a blank between them are read
    back as they are: for tags that are not empty and have no white
    space at their ends and no comma, the tag list of their join is the
    list itself. *)
Theorem tag_list_of_joined ts :
  Forall (fun t => t <> [] /\ Py.strip t = t /\ ","%char ∉ t) ts ->
  tag_list (Py.join (lit ", ") ts) = ts.
Proof.
  intros Hall. destruct ts as [|t rest]; [done|].
  unfold tag_list. rewrite split_on_joined_tags.
  2:{ eapply Forall_impl; [exact Hall|]. by intros x (_ & _ & ?). }
  apply Forall_cons in Hall as [(Hne & Hst & _) Hall].
  rewrite filter_cons, decide_True by (by rewrite Hst).
  rewrite fmap_cons, Hst. f_equal.
  induction Hall as [|x rest (Hx & Hsx & _) Hall IH]; [done|].
  rewrite fmap_cons, filter_cons.
  rewrite decide_True by (by rewrite strip_space_cons, Hsx).
  rewrite fmap_cons, strip_space_cons, Hsx. by f_equal.
Qed.

Lemma tag_list_of_joined_witness :
  tag_list (lit "react, hooks") = [lit "react"; lit "hooks"].
Proof.
  apply (tag_list_of_joined [lit "react"; lit "hooks"]).
  repeat constructor; try discriminate.
  - intros H. repeat (apply elem_of_cons in H as [H|H]; [discriminate|]).
    by apply elem_of_nil in H.
  - intros H. repeat (apply elem_of_cons in H as [H|H]; [discriminate|]).
    by apply elem_of_nil in H.
Defined.

(** X22. A document that was created reads back: when the text written
    has no CR, the YAML text of the metadata does not contain the
    delimiter and the YAML library reads it back as the metadata, the
    outline call on the path the success message names resolves to that
    same path and returns the metadata the document was created with
    (title, category, tags, description, date) and the outline of the
    text written. *)
Theorem created_document_reads_back
  (yaml_dump : pyval -> str) (yaml_safe_load : str -> option pyval)
  now title category tags description name s s1 p :
  OsPath.isabs (fs_cwd s) = true ->
  create_knowledge yaml_dump now title category tags description name s
  = (s1, MsgCreated p) ->
  let meta := new_meta now title category tags description in
  let doc := new_document yaml_dump now title category tags description in
  let y := Py.strip (yaml_dump (PDict meta)) in
  Py.CR ∉ doc ->
  Py.contains y (lit "---") = false ->
  yaml_safe_load ([Py.LF] ++ y ++ [Py.LF]) = Some (PDict meta) ->
  exists k,
    fs_files s1 !! k = Some doc
    /\ get_file_outline yaml_safe_load p s1
       = (logged (Read k) s1, MsgOutline p (PDict meta) (_get_outline_tree doc)).
Proof.
  intros Hc Hrun meta doc y Hcr Hfree Hload.
  rewrite (create_knowledge_run yaml_dump now title category tags description name s Hc)
    in Hrun.
  cbv zeta in Hrun.
  destruct (Py.contains _ _) eqn:Hdd; [by injection Hrun|].
  destruct (_ || _) eqn:Hex; [by injection Hrun|].
  destruct (is_file s (removelast _)); [by injection Hrun|].
  destruct (existsb _ _); [by injection Hrun|].
  injection Hrun as <- <-. fold doc.
  set (p := target_path title category name) in *.
  set (abs := OsPath.abspath (fs_cwd s) (OsPath.join KNOWLEDGE_ROOT (clean_path p))).
  set (k := key_of (fs_cwd s) abs).
  set (s1 := FS _ _ _ _).
  assert (Hc1 : OsPath.isabs (fs_cwd s1) = true) by done.
  assert (Hv : _validate_path p s1 = (s1, Ok abs)).
  { rewrite (validate_path_run p s1 Hc1), Hdd. reflexivity. }
  assert (Hfile : fs_files s1 !! k = Some doc).
  { unfold s1. cbn [fs_files]. apply lookup_insert_eq. }
  assert (Hex1 : path_exists abs s1 = (s1, Ok true)).
  { rewrite path_exists_run. change (fs_cwd s1) with (fs_cwd s). fold k.
    unfold is_file. rewrite Hfile. rewrite bool_decide_eq_true_2 by eauto. done. }
  assert (Hr : _smart_resolve_path p s1 = (s1, Ok p)).
  { unfold _smart_resolve_path, exact_match.
    rewrite bind_run, try_value_run, bind_run, Hv, Hex1. reflexivity. }
  exists k. split; [exact Hfile|].
  unfold get_file_outline, outline_body.
  rewrite bind_run, Hr, bind_run, Hv, bind_run, Hex1. cbn [negb].
  rewrite bind_run. unfold read_text. change (fs_cwd s1) with (fs_cwd s). fold k.
  rewrite Hfile, ret_run. rewrite (universal_newlines_no_CR doc Hcr).
  f_equal. f_equal.
  unfold doc, new_document, _build_frontmatter.
  change (has_key (lit "last_updated") (new_meta now title category tags description))
    with true.
  cbn [negb snd]. fold meta. fold y. unfold _parse_frontmatter.
  rewrite <- !app_assoc.
  assert (Py.startswith
            (lit "---" ++ [Py.LF] ++ y ++ [Py.LF] ++ lit "---" ++ [Py.LF] ++ [Py.LF]
               ++ lit "# " ++ title ++ [Py.LF; Py.LF])
            (lit "---") = true) as ->.
  { apply startswith_spec. eexists. reflexivity. }
  rewrite (str_split_frontmatter y _ Hfree), Hload. reflexivity.
Qed.

Lemma created_document_reads_back_witness :
  let s1 :=
    fst (create_knowledge block_dump demo_time (lit "React Hooks") (lit "libs")
           (lit "react, hooks") (lit "About hooks") None demo_store) in
  exists s2 structure,
    get_file_outline block_load (lit "libs/react_hooks.md") s1
    = (s2, MsgOutline (lit "libs/react_hooks.md")
             (PDict (new_meta demo_time (lit "React Hooks") (lit "libs")
                       (lit "react, hooks") (lit "About hooks")))
             structure)
    /\ map node_id structure = [lit "1"]
    /\ map node_title structure = [lit "React Hooks"].
Proof.
  intros s1. subst s1.
  destruct (created_document_reads_back block_dump block_load demo_time
              (lit "React Hooks") (lit "libs") (lit "react, hooks")
              (lit "About hooks") None demo_store _ (lit "libs/react_hooks.md")
              eq_refl (pair_snd _ _ eq_refl)) as (k & _ & Hrun).
  - vm_compute. intros H.
    repeat (apply elem_of_cons in H as [H|H]; [discriminate|]).
    by apply elem_of_nil in H.
  - vm_compute. reflexivity.
  - vm_compute. reflexivity.
  - eexists _, _. split; [exact Hrun|]. split; vm_compute; reflexivity.
Defined.

(** ** The catalog *)

(** X23. [list_knowledge_catalog] only looks, and only at documents:
    under an absolute working directory, in a store whose entries have
    proper names, the call leaves every file and directory as it was,
    and the files it opened, all for reading, are files whose names end
    in [.md] and that lie in the root or in a directory reached through
    directories whose names do not begin with a dot; it never opens a
    snapshot of the history directory. *)
Theorem catalog_only_reads_documents
  (yaml_safe_load : str -> option pyval) category detail s s' out :
  OsPath.isabs (fs_cwd s) = true -> store_ok s ->
  list_knowledge_catalog yaml_safe_load category detail s = (s', out) ->
  fs_cwd s' = fs_cwd s /\ fs_files s' = fs_files s /\ fs_dirs s' = fs_dirs s
  /\ exists reads,
       fs_log s' = fs_log s ++ map Read reads /\ Forall (visible_doc s) reads.
Proof.
  intros Hc Hok. unfold list_knowledge_catalog. rewrite bind_run.
  rewrite walk_pruned_run.
  destruct (snd (walk_pruned _ KNOWLEDGE_ROOT s)) as [tree|e] eqn:Htree; [|done].
  destruct (catalog_loop _ _ _ _ _ s) as [s1 r] eqn:Hloop.
  intros Hrun. assert (s1 = s') as ->.
  { destruct r as [[e|c]|e]; by injection Hrun as <- _. }
  destruct (catalog_loop_reads _ _ _ _ _ _ _ _ Hloop)
    as (Hcwd & Hfiles & Hdirs & reads & Hlog & Hreads).
  split; [done|]. split; [done|]. split; [done|].
  exists reads. split; [done|]. apply Forall_forall. intros k Hk.
  destruct (Hreads k Hk) as (root & file & Hin & Hmd & -> & Hfile).
  destruct (catalog_todo_elem _ s tree root file Hc Hok Htree Hin)
    as (comps & Hkey & _ & Hkeep & Hd).
  exists comps, file. rewrite <- Hkey. split; [done|]. split; [done|].
  split; [done|]. split; [|done].
  apply Forall_forall. intros c Hin'. rewrite forallb_forall in Hkeep.
  apply list_elem_of_In, Hkeep in Hin'. by apply negb_true_iff in Hin'.
Qed.

Lemma catalog_only_reads_documents_witness :
  let r := list_knowledge_catalog mini_load None false demo_store in
  fs_files (fst r) = fs_files demo_store
  /\ exists reads,
       fs_log (fst r) = map Read reads /\ Forall (visible_doc demo_store) reads.
Proof.
  intros r.
  destruct (catalog_only_reads_documents mini_load None false demo_store (fst r)
              (snd r) eq_refl store_ok_demo (surjective_pairing r))
    as (_ & Hfiles & _ & reads & Hlog & Hvis).
  split; [exact Hfiles|]. exists reads. split; [exact Hlog|exact Hvis].
Defined.



(** X25. The catalog reads 50 lines: when the first 50 lines of a
    document hold no second delimiter, the catalog takes the document to
    have no metadata, so that it is listed under its file name with the
    category [unknown], also when the document has a frontmatter and
    that is closed further down. *)
Theorem catalog_sees_fifty_lines
  (yaml_safe_load : str -> option pyval) rel_path s data :
  fs_files s !! key_of (fs_cwd s) rel_path = Some data ->
  Py.contains
    (drop 3 (concat (take 50 (keepends_from [] (universal_newlines data)))))
    (lit "---") = false ->
  catalog_meta yaml_safe_load rel_path s
  = (logged (Read (key_of (fs_cwd s) rel_path)) s, Ok (PDict []))
  /\ forall file display_path,
       catalog_item None false file display_path (PDict [])
       = ItemAdd (PDict [(PStr (lit "path"), PStr display_path);
                         (PStr (lit "title"), PStr file);
                         (PStr (lit "category"), PStr (lit "unknown"))]).
Proof.
  intros Hdata Hno. split; [|done].
  rewrite catalog_meta_run, Hdata. unfold catalog_meta_of.
  by rewrite parse_frontmatter_one_delimiter.
Qed.

Lemma catalog_sees_fifty_lines_witness :
  52 < length (Py.splitlines long_doc)
  /\ snd (catalog_meta mini_load (lit "./libs/long.md") long_store) = Ok (PDict []).
Proof.
  split; [vm_compute; lia|].
  destruct (catalog_sees_fifty_lines mini_load (lit "./libs/long.md") long_store
              long_doc) as [Hrun _].
  - reflexivity.
  - vm_compute. reflexivity.
  - rewrite Hrun. reflexivity.
Defined.
